(* ===== verification/_CoqProject ===== *)
-Q . S2P
Prelude.v
KernelMonad.v
VmmLayout.v
Paging.v
Vmm.v
Memory.v
Kmemory.v
MemoryMap.v
FrameAllocator.v
Pmm.v
PmmOrder.v
Kheap.v
KheapSpec.v
KheapSafety.v
Kmalloc.v
HeapModel.v
HighFrames.v
Kobject.v
KobjectHeap.v
Console.v
Interrupts.v
Kernel.v
Multiboot.v
MultibootParse.v
BootFrames.v
SelfChecks.v
PagingChecks.v
SelfChecksHeap.v
PrimitiveChecks.v
HeapChecks.v
SelfChecksObjects.v
ObjectChecks.v
HeapShortage.v
HeapStages.v
PmmChecks.v
Boot.v
EarlyBoot.v
BootComplete.v
ForcedException.v
Running.v
SmallMachine.v
