(* ===== verification/Prelude.v ===== *)
(** * CustomOS kernel: verification development

    CustomOS is a 32-bit kernel that a Multiboot2 loader starts.  It reads the
    loader's memory map, hands out page frames, turns paging on with a static
    identity map of the first 4 MiB, maps single pages in three policy windows,
    runs a first-fit heap over one of them, offers [kmalloc], byte primitives
    and linked kernel objects on top, and ends in an interrupt-driven idle
    loop.  Every stage has a self-check that prints verdicts on the serial line
    and stops the machine when it fails.  This library translates the C code
    under src/kernel and proves what each part promises and how the parts fit
    together.

    ** How the code is modelled

    A C function that touches memory or globals is a computation of the monad
    of [KernelMonad]: an explicit state, and five ways to end (return, panic,
    page fault, undefined behaviour, fuel used up).  Theorems give the result
    of a call, [f s = Ret x s'], or its [wp], which rules the other four out.
    Machine integers are [Z]s with the wrap of the C type written out ([u8],
    [u32], [u64]); an [int] that is a truth value is a [bool].  A pointer is an
    address and 0 is null; an out-parameter is its pointee, [None] for a null
    pointer.  Each component runs on a state of its own and inside the
    whole kernel through a lens ([Kernel]).

    ** The parts

    - [KernelMonad]: the monad, its loops and lenses, weakest preconditions.
    - [VmmLayout]: mm/vmm_layout.c, the windows of the address space.
    - [Paging]: mm/paging.c and paging.h, the page directory and tables, CR0
      and CR3, with the MMU's walk and the TLB, which give them a meaning.
    - [Vmm]: mm/vmm.c, mapping and unmapping of single pages.
    - [Memory]: raw pointer accesses through that MMU to physical memory.
    - [Kmemory]: mm/kmemory.c, kmemset, kmemcpy, kmemmove, kmemcmp.
    - [MemoryMap]: init/stage0_main.c, Stages 5B and 5C, the region table and
      the frame ranges.
    - [FrameAllocator]: the declaration through which the heap calls the
      page-frame allocator, with the laws it needs; [Pmm]: Stages 6A to 6D,
      which meet them when the frame ranges ascend; [PmmOrder]: what the
      allocator does with ranges in any order.
    - [Kheap], [KheapSpec], [KheapSafety]: mm/kheap.c, its specification as a
      list of blocks, and what its clients may rely on; [HeapModel]: the answer
      of every call while there are frames to be had; [HighFrames]: what
      becomes of frames the heap cannot use.
    - [Kmalloc]: mm/kmalloc.c.
    - [Kobject], [KobjectHeap]: kernel/kobject.c, lists of nodes in memory, and
      their life on the heap.
    - [Console]: stage0_main.c, the text screen, the serial line, hexadecimal.
    - [Interrupts]: the descriptor table, the 8259s, the timer, the handlers,
      panic and the exception dispatcher.
    - [Kernel]: the state of the kernel, the components side by side.
    - [Multiboot], [MultibootParse], [BootFrames]: Stage 5A's walk over the
      loader's tags, what it computes, and the frames that come of it.
    - [SelfChecks], [SelfChecksHeap], [SelfChecksObjects]: the check functions
      of Stages 5D to 11E.  That they pass: [PagingChecks] (7A to 8B),
      [HeapChecks] and [PrimitiveChecks] (8C to 10E), [ObjectChecks] (11A to
      11E), [PmmChecks] (5D, 6D).  [HeapShortage]: how they fail when the heap
      gets no page; [HeapStages]: Stages 8C to 11E one after the other, with
      and without enough pages.
    - [Boot]: [stage0_main]; [EarlyBoot]: its run up to the heap;
      [BootComplete]: its run to the end; [ForcedException]: the build that
      raises a breakpoint there; [SmallMachine]: its stop on too little
      memory; [Running]: the interrupts that come after the boot, dispatched
      through the controller and the table it set up.

    ** What the theorems show

    - Heap: an allocation and a free do what the reference allocator does on
      the list of blocks ([kheap_alloc_refines], [kheap_free_refines]); over
      any run, live payloads stay disjoint and keep their bytes
      ([heap_clients_are_safe]); on corrupted headers the walks still end
      and change nothing outside the heap ([corrupt_heap_walks_return]); a
      frame too high for the heap is lost
      ([high_frames_are_lost]).
    - Page frames: any trace of allocations and frees behaves as three lists
      ([pmm_trace_refines]); a frame has one owner ([live_frames_are_exclusive]);
      with ascending ranges every frame is handed out once
      ([seeded_allocator_is_complete]); with ranges in any order exactly those
      are that no earlier range ends above, and the others are lost
      ([descending_ranges_lose_frames]).
    - Paging: the code maintains the partial map the MMU translates by and
      answers its queries from it ([vmm_trace_refines],
      [queries_agree_with_mmu], [map_unmap_roundtrip],
      [activation_gives_identity_map]), inside the policy's windows
      ([classify_addr_exact], [region_tests_exact]).
    - Memory map: the walk reads well-formed information completely and
      refuses the rest with the right reason ([parse_mmap_correct],
      [parse_mmap_stops]), except that one size makes it run for ever
      ([wrapping_size_runs_forever]); accounting and reduction are exact,
      with the first 128 ranges recorded and the rest counted as dropped
      ([account_entry_exact], [scan_regions_exact], [boot_map_to_frames]).
    - Objects: the list operations are append, search and removal of a Rocq
      list ([list_append_correct], [list_find_correct], [list_remove_correct]),
      also while nodes are created, appended, removed and destroyed in any
      order and other clients allocate, free and write
      ([object_stores_are_safe], where a node is appended only when it is in no
      list); appending the last node once more makes a cycle
      ([appending_the_tail_again_hangs]).
    - Byte primitives: [kmemmove_copies], [kmemcpy_copies], [kmemcmp_compares].
    - Devices: what appears on screen and serial line ([write_text_at_correct],
      [serial_write_text_correct], [serial_write_label_hex_correct],
      [hex_texts_roundtrip]), the programmed controllers and gates
      ([pic_remap_correct], [idt_install_correct]), the tick counter
      ([timer_keeps_time]), and the two ways to stop ([panic_stops],
      [exception_dispatch_stops]).
    - Boot: the stages composed.  [boot_completes] runs [stage0_main] from the
      hand-over to its return, every check passing, on every machine with
      enough memory (Stage 6D, which never stops the kernel, reports what the
      frames left allow: [reuse_verdicts]); [interrupts_are_served] continues
      from there with any sequence of interrupt requests: those of the timer
      and the keyboard get through, and their handlers return;
      [paging_checks_pass] is the part of Stages 7A to 8B on its own.  The
      other ends: [bad_boot_is_refused] (not a Multiboot2 boot, or a forced
      panic), [parse_mmap_stops] (malformed information), [small_machine_stops]
      (fewer than eight frames below 4 GiB; how many decides where),
      [forced_exception_stops].

    ** Parameters

    [KernelLayout] and [KernelImage] are the addresses the linker chooses,
    with what the alignment attributes and the linker script guarantee as
    [KernelLayoutOk]; [Ports] is the devices behind the I/O ports, and
    [UartReady] says that the serial transmitter becomes empty within the polls
    the driver makes; [InterruptStubs] is the addresses of the
    assembly stubs and the code selector; [BreakpointFrame] is what [int3]
    pushes, [StackFrame] where a check's local arrays lie (that it can be
    used: [StackFrameOk]), [BuildFlags] the
    flags of the build.  The witnesses instantiate each with a concrete one.

    ** Fuel

    A loop with a bounded counter takes the bound as its fuel ([for_u32]).  The
    walks over the heap's headers take one unit per 24 bytes of heap
    ([walk_fuel]): the smallest block the walks accept, a header and 8 bytes.
    The walk over the boot information takes fuel as an argument; an eighth of
    the information's size is enough, since a tag that does not wrap is at
    least 8 bytes long.  The list traversals take fuel too:
    one more than the number of nodes.  [corrupt_heap_walks_return],
    [parse_mmap_stops] and the theorems on lists show that this suffices.

    ** Where the code does not do what it means to

    [stage6a_pmm_advance_to_next_eligible] loses frames when the memory map is
    not ascending; [kobject_list_append] accepts the last node of the list
    again; the 32-bit sums of [stage5a_parse_mmap] wrap for huge tag sizes;
    [stage8c_kheap_ensure_mapped_until] does not give a frame at or above 4 GiB
    back when it refuses it; and [stage5c_record_eligible_span] counts frames
    of dropped ranges ([dropped_spans_are_counted]).  All five are theorems.

    ** Not modelled

    The assembly entry, the linker script, the boot configuration and the
    build: no C code; what they pass on is a parameter.  Of the interrupt stubs
    only which handler they call ([stub_code]): the registers they save are not
    part of the state.  An interrupt that arrives between [sti] and the return
    of [stage0_main], or while another is served (the gates disable them).  The
    time the hardware takes. *)
From stdpp Require Export base tactics numbers list gmap strings.
From Stdlib Require Export Lia.

#[export] Set Default Goal Selector "!".
#[local] Open Scope Z_scope.

(** [lia] decides quotients and remainders by constants. *)
Ltac Zify.zify_post_hook ::= Z.div_mod_to_equations.

(** ** Fixed-width unsigned integers

    The C code computes on [uint8_t], [uint16_t], [uint32_t] and [uint64_t];
    here each is a [Z] and every operation that can leave the range wraps
    explicitly with one of the following. *)
Definition u8 (x : Z) : Z := x mod 0x100.
Definition u16 (x : Z) : Z := x mod 0x10000.
Definition u32 (x : Z) : Z := x mod 0x100000000.
Definition u64 (x : Z) : Z := x mod 0x10000000000000000.

Definition UINT32_MAX : Z := 0xFFFFFFFF.
Definition UINT64_MAX : Z := 0xFFFFFFFFFFFFFFFF.

Abbreviation is_u8 x := (0 ≤ x < 0x100) (only parsing).
Abbreviation is_u16 x := (0 ≤ x < 0x10000) (only parsing).
Abbreviation is_u32 x := (0 ≤ x < 0x100000000) (only parsing).
Abbreviation is_u64 x := (0 ≤ x < 0x10000000000000000) (only parsing).

(** Constants ([#define]s) of every component are registered in [consts];
    [zlia] unfolds them before calling [lia]. *)
Create HintDb consts discriminated.
#[export] Hint Unfold UINT32_MAX UINT64_MAX : consts.
Ltac consts := autounfold with consts in *.
Ltac zlia := consts; lia.

Lemma u8_range x : is_u8 (u8 x).
Proof. unfold u8. lia. Qed.
Lemma u16_range x : is_u16 (u16 x).
Proof. unfold u16. lia. Qed.
Lemma u32_range x : is_u32 (u32 x).
Proof. unfold u32. lia. Qed.
Lemma u64_range x : is_u64 (u64 x).
Proof. unfold u64. lia. Qed.
Lemma u8_id x : is_u8 x → u8 x = x.
Proof. unfold u8. intros. apply Z.mod_small. lia. Qed.
Lemma u16_id x : is_u16 x → u16 x = x.
Proof. unfold u16. intros. apply Z.mod_small. lia. Qed.
Lemma u32_id x : is_u32 x → u32 x = x.
Proof. unfold u32. intros. apply Z.mod_small. lia. Qed.
Lemma u64_id x : is_u64 x → u64 x = x.
Proof. unfold u64. intros. apply Z.mod_small. lia. Qed.

Create Rewrite HintDb width.
#[export] Hint Rewrite u8_id u16_id u32_id u64_id using (consts; lia) : width.
#[export] Hint Resolve u8_range u16_range u32_range u64_range : core.

(** ** Masks

    [x & (2^k - 1)] is a remainder, [x & ~(2^k - 1)] rounds down and [|] of a
    multiple of [2^k] with a value below [2^k] is a sum. *)
Lemma land_mask x k : 0 ≤ k → Z.land x (2 ^ k - 1) = x mod 2 ^ k.
Proof.
  intros Hk. rewrite <- Z.land_ones by lia.
  by rewrite Z.ones_equiv, Z.sub_1_r.
Qed.

Lemma ldiff_ones x k : 0 ≤ k → Z.ldiff x (Z.ones k) = x - x mod 2 ^ k.
Proof.
  intros Hk. rewrite Z.ldiff_ones_r by lia.
  rewrite Z.shiftl_mul_pow2, Z.shiftr_div_pow2 by lia.
  pose proof (Z.div_mod x (2 ^ k)). lia.
Qed.

Lemma testbit_above x w i :
  0 ≤ x < 2 ^ w → w ≤ i → Z.testbit x i = false.
Proof.
  intros Hx Hi. assert (0 ≤ w).
  { destruct (decide (0 ≤ w)); [done|].
    rewrite Z.pow_neg_r in Hx by lia. lia. }
  rewrite <- (Z.mod_small x (2 ^ w)) by lia.
  apply Z.mod_pow2_bits_high. lia.
Qed.

(** Clearing the low [k] bits of a [w]-bit value: the mask is the complement
    of [2^k - 1] in [w] bits. *)
Lemma land_align x w k :
  0 ≤ k ≤ w → 0 ≤ x < 2 ^ w →
  Z.land x (2 ^ w - 2 ^ k) = x - x mod 2 ^ k.
Proof.
  intros Hk Hx. rewrite <- ldiff_ones by lia.
  replace (2 ^ w - 2 ^ k) with (Z.ldiff (Z.ones w) (Z.ones k)).
  - apply Z.bits_inj'. intros i Hi.
    rewrite Z.land_spec, !Z.ldiff_spec.
    destruct (decide (i < w)).
    + rewrite (Z.ones_spec_low w) by lia. by rewrite andb_true_l.
    + rewrite (testbit_above x w) by lia. done.
  - rewrite ldiff_ones by lia.
    rewrite !Z.ones_equiv, <- !Z.sub_1_r.
    assert (2 ^ k ≤ 2 ^ w) by (apply Z.pow_le_mono_r; lia).
    assert (0 < 2 ^ k) by (apply Z.pow_pos_nonneg; lia).
    assert (2 ^ w - 1 = (2 ^ k - 1) + (2 ^ (w - k) - 1) * 2 ^ k) as ->.
    + rewrite Z.mul_sub_distr_r, <- Z.pow_add_r by lia.
      replace (w - k + k) with w by lia. lia.
    + rewrite Z.mod_add by lia. rewrite (Z.mod_small (2 ^ k - 1)) by lia.
      rewrite Z.mul_sub_distr_r, <- Z.pow_add_r by lia.
      replace (w - k + k) with w by lia. lia.
Qed.

(** Disjoint bits: [|] is [+]. *)
Lemma lor_add a b k :
  0 ≤ k → a mod 2 ^ k = 0 → 0 ≤ b < 2 ^ k → Z.lor a b = a + b.
Proof.
  intros Hk Ha Hb. rewrite <- Z.add_lor_land.
  replace (Z.land a b) with 0; [lia|].
  symmetry. apply Z.bits_inj'. intros i Hi.
  rewrite Z.land_spec, Z.bits_0.
  destruct (decide (i < k)) as [Hik|Hik].
  - rewrite <- (Z.mod_pow2_bits_low a k i) by lia. by rewrite Ha, Z.bits_0.
  - rewrite (testbit_above b k) by lia. by rewrite andb_false_r.
Qed.

Lemma lor_range w a b :
  0 ≤ a < 2 ^ w → 0 ≤ b < 2 ^ w → 0 ≤ Z.lor a b < 2 ^ w.
Proof.
  intros Ha Hb. destruct (decide (a = 0)) as [->|]; [by rewrite Z.lor_0_l|].
  destruct (decide (b = 0)) as [->|]; [by rewrite Z.lor_0_r|].
  assert (0 ≤ Z.lor a b) by (apply Z.lor_nonneg; lia). split; [done|].
  destruct (decide (Z.lor a b = 0)) as [->|]; [lia|].
  apply Z.log2_lt_pow2; [lia|]. rewrite Z.log2_lor by lia.
  assert (Z.log2 a < w ∧ Z.log2 b < w) by (split; apply Z.log2_lt_pow2; lia). lia.
Qed.

(** Complements [~x] of a 32-bit and of a 64-bit [x]. *)
Definition not32 (x : Z) : Z := UINT32_MAX - x.
Definition not64 (x : Z) : Z := UINT64_MAX - x.

Lemma land_not32 x k :
  0 ≤ k ≤ 32 → is_u32 x → Z.land x (not32 (2 ^ k - 1)) = x - x mod 2 ^ k.
Proof.
  intros Hk Hx. rewrite <- (land_align x 32) by (change (2 ^ 32) with 0x100000000; lia).
  f_equal. unfold not32, UINT32_MAX. change (2 ^ 32) with 0x100000000. lia.
Qed.
Lemma land_not64 x k :
  0 ≤ k ≤ 64 → is_u64 x → Z.land x (not64 (2 ^ k - 1)) = x - x mod 2 ^ k.
Proof.
  intros Hk Hx. rewrite <- (land_align x 64) by (change (2 ^ 64) with 0x10000000000000000; lia).
  f_equal. unfold not64, UINT64_MAX. change (2 ^ 64) with 0x10000000000000000. lia.
Qed.

(** ** Lists *)
#[global] Arguments replicate : simpl never.
#[global] Arguments seqZ : simpl never.

(** One step of a loop that overwrites an array from the front. *)
Lemma fill_step {A} (xs l : list A) (x : A) i :
  length xs = i → (i < length l)%nat →
  <[i := x]> (xs ++ drop i l) = (xs ++ [x]) ++ drop (S i) l.
Proof.
  intros Hlen Hi. rewrite insert_app_r_alt by lia.
  replace (i - length xs)%nat with 0%nat by lia.
  destruct (lookup_lt_is_Some_2 l i Hi) as [y Hy].
  rewrite (drop_S _ _ _ Hy). simpl. by rewrite <- app_assoc.
Qed.

Lemma replicate_snoc {A} n (x : A) : replicate n x ++ [x] = replicate (S n) x.
Proof. by rewrite <- replicate_S_end. Qed.

Lemma take_take_app {A} n (l k : list A) : take n (take n l ++ k) = take n (l ++ k).
Proof.
  rewrite !take_app, take_take, Nat.min_id, length_take. do 2 f_equal. lia.
Qed.
