(* ===== verification/KernelMonad.v ===== *)
(** * The kernel monad

    C functions that read or write globals are computations over an explicit
    state.  A computation ends in one of five ways: it returns; it calls
    [panic]; the MMU raises a page fault; the C program does something the
    language leaves undefined (an array index out of range, a wild pointer);
    or a loop has used up its fuel.  [wp] is total correctness: it rules the
    last four out.  The file also holds the loop combinator with its
    invariant rule, and lenses that run a component inside a larger state. *)
From S2P Require Import Prelude.
#[local] Open Scope Z_scope.

Inductive outcome (S A : Type) : Type :=
| Ret (a : A) (s : S)
| Panic (reason : string) (detail : Z) (s : S)
| PageFault (addr : Z) (s : S)
| Undefined (s : S)
| OutOfFuel.
Arguments Ret {S A} a s.
Arguments Panic {S A} reason detail s.
Arguments PageFault {S A} addr s.
Arguments Undefined {S A} s.
Arguments OutOfFuel {S A}.

Definition M (S A : Type) : Type := S → outcome S A.

#[export] Instance M_ret S : MRet (M S) := λ A a s, Ret a s.
#[export] Instance M_bind S : MBind (M S) := λ A B f m s,
  match m s with
  | Ret a s' => f a s'
  | Panic r d s' => Panic r d s'
  | PageFault a s' => PageFault a s'
  | Undefined s' => Undefined s'
  | OutOfFuel => OutOfFuel
  end.

Definition get {S} : M S S := λ s, Ret s s.
Definition gets {S A} (f : S → A) : M S A := λ s, Ret (f s) s.
Definition modify {S} (f : S → S) : M S unit := λ s, Ret tt (f s).
Definition undefined {S A} : M S A := λ s, Undefined s.
Definition page_fault {S A} (addr : Z) : M S A := λ s, PageFault addr s.
Definition panic_with {S A} (reason : string) (detail : Z) : M S A :=
  λ s, Panic reason detail s.

(** A read that the language leaves undefined when there is nothing there. *)
Definition from_option {S A} (o : option A) : M S A :=
  match o with Some a => mret a | None => undefined end.

(** [while] and friends: the body maps the loop's local variables either to
    their next values or to the value the loop is left with. *)
Fixpoint loop {S L A} (fuel : nat) (body : L → M S (L + A)) (l : L) : M S A :=
  match fuel with
  | O => λ _, OutOfFuel
  | Datatypes.S n =>
      r ← body l;
      match r with inl l' => loop n body l' | inr a => mret a end
  end.

Definition continue {S L A} (l : L) : M S (L + A) := mret (inl l).
Definition break {S L A} (a : A) : M S (L + A) := mret (inr a).

(** [uint32_t i = 0; while (i < n) { step; i++; }] *)
Definition for_u32 {S} (n : Z) (step : Z → M S unit) : M S unit :=
  loop (Datatypes.S (Z.to_nat n))
    (λ i, if i <? n then step i ;; continue (u32 (i + 1)) else break tt) 0.

(** ** Arrays

    A C array is a list; an index outside it is undefined behaviour. *)
Definition array_get {A} (l : list A) (i : Z) : option A :=
  if decide (0 ≤ i) then l !! Z.to_nat i else None.
Definition array_set {A} (l : list A) (i : Z) (x : A) : option (list A) :=
  if decide (0 ≤ i < Z.of_nat (length l)) then Some (<[Z.to_nat i := x]> l)
  else None.

#[global] Arguments array_get : simpl never.
#[global] Arguments array_set : simpl never.

Lemma array_get_lt {A} (l : list A) i :
  0 ≤ i < Z.of_nat (length l) → ∃ x, array_get l i = Some x.
Proof.
  intros Hi. unfold array_get. rewrite decide_True by lia.
  apply lookup_lt_is_Some. lia.
Qed.

Lemma array_get_Some {A} (l : list A) i x :
  array_get l i = Some x → 0 ≤ i < Z.of_nat (length l).
Proof.
  unfold array_get. case_decide; [|done]. intros Hx%lookup_lt_Some. lia.
Qed.

Lemma array_get_lookup {A} (l : list A) i x :
  array_get l i = Some x → l !! Z.to_nat i = Some x.
Proof. unfold array_get. by case_decide. Qed.

Lemma array_set_lt {A} (l : list A) i x :
  0 ≤ i < Z.of_nat (length l) → array_set l i x = Some (<[Z.to_nat i := x]> l).
Proof. intros Hi. unfold array_set. by rewrite decide_True. Qed.

Lemma array_get_insert {A} (l : list A) i j x :
  0 ≤ i < Z.of_nat (length l) →
  array_get (<[Z.to_nat i := x]> l) j = if decide (i = j) then Some x else array_get l j.
Proof.
  intros Hi. unfold array_get. repeat case_decide; subst; try lia; try done.
  - apply list_lookup_insert_eq. lia.
  - apply list_lookup_insert_ne. lia.
Qed.

Lemma array_get_replicate {A} n (x : A) i :
  0 ≤ i < Z.of_nat n → array_get (replicate n x) i = Some x.
Proof.
  intros Hi. unfold array_get. rewrite decide_True by lia.
  apply lookup_replicate_2. lia.
Qed.

(** ** Weakest preconditions *)
Definition wp {S A} (m : M S A) (Q : A → S → Prop) (s : S) : Prop :=
  match m s with Ret a s' => Q a s' | _ => False end.

Section wp.
Context {S : Type}.
Implicit Types s : S.

Lemma wp_ret {A} (a : A) Q s : Q a s → wp (mret a) Q s.
Proof. done. Qed.

Lemma wp_bind {A B} (m : M S A) (f : A → M S B) Q s :
  wp m (λ a s', wp (f a) Q s') s → wp (m ≫= f) Q s.
Proof. unfold wp, mbind, M_bind. destruct (m s); tauto. Qed.

Lemma wp_mono {A} (m : M S A) (Q Q' : A → S → Prop) s :
  (∀ a s', Q a s' → Q' a s') → wp m Q s → wp m Q' s.
Proof. unfold wp. destruct (m s); eauto. Qed.

Lemma wp_get Q s : Q s s → wp get Q s.
Proof. done. Qed.
Lemma wp_gets {A} (f : S → A) Q s : Q (f s) s → wp (gets f) Q s.
Proof. done. Qed.
Lemma wp_modify f (Q : unit → S → Prop) s : Q tt (f s) → wp (modify f) Q s.
Proof. done. Qed.
Lemma wp_from_option {A} (o : option A) a Q s :
  o = Some a → Q a s → wp (from_option o) Q s.
Proof. by intros ->. Qed.

(** A computation with a [wp] returns, and conversely. *)
Lemma wp_run {A} (m : M S A) Q s :
  wp m Q s ↔ ∃ a s', m s = Ret a s' ∧ Q a s'.
Proof.
  unfold wp. split.
  - destruct (m s); naive_solver.
  - by intros (a & s' & -> & HQ).
Qed.

Lemma wp_Ret {A} (m : M S A) Q s a s' : m s = Ret a s' → Q a s' → wp m Q s.
Proof. unfold wp. by intros ->. Qed.

(** The invariant rule: an invariant [I] on locals and state, and a
    variant [V] below the fuel that every further iteration decreases. *)
Lemma wp_loop {L A} (I : L → S → Prop) (V : L → S → Z) fuel
    (body : L → M S (L + A)) l s Q :
  I l s →
  (∀ l s, I l s →
    wp (body l) (λ r s', match r with
                         | inl l' => I l' s' ∧ 0 ≤ V l' s' < V l s
                         | inr a => Q a s' end) s) →
  0 ≤ V l s → (Z.to_nat (V l s) < fuel)%nat →
  wp (loop fuel body l) Q s.
Proof.
  intros HI Hbody HV Hfuel. revert l s HI HV Hfuel.
  induction fuel as [|n IH]; intros l s HI HV Hfuel; [lia|]. simpl.
  apply wp_bind. eapply wp_mono; [|by apply Hbody].
  intros [l'|a] s'; simpl; [|done].
  intros [HI' HV']. apply IH; [done|lia|lia].
Qed.

(** One iteration. *)
Lemma wp_loop_step {L A} fuel (body : L → M S (L + A)) l s Q :
  wp (body l) (λ r s', match r with inl l' => wp (loop fuel body l') Q s' | inr a => Q a s' end) s →
  wp (loop (Datatypes.S fuel) body l) Q s.
Proof. intros H. cbn [loop]. apply wp_bind. revert H. apply wp_mono. by intros [l'|a] s'. Qed.

(** More fuel never changes the result. *)
Lemma loop_fuel_mono {L A} n m (body : L → M S (L + A)) l s :
  (n ≤ m)%nat → loop n body l s ≠ OutOfFuel →
  loop m body l s = loop n body l s.
Proof.
  revert m l s. induction n as [|n IH]; intros m l s Hle Hne; [done|].
  destruct m as [|m]; [lia|]. simpl in *.
  unfold mbind, M_bind in *. destruct (body l s) as [[l'|a] s'| | | |]; try done.
  apply IH; [lia|done].
Qed.

(** The partial-correctness rule: whatever the fuel, a loop that ends
    normally was left from a state satisfying the invariant. *)
Lemma loop_inv {L A} (I : L → S → Prop) (Q : A → S → Prop) fuel
    (body : L → M S (L + A)) l s a s' :
  I l s →
  (∀ l s, I l s →
    match body l s with
    | Ret (inl l') s' => I l' s'
    | Ret (inr a) s' => Q a s'
    | _ => True
    end) →
  loop fuel body l s = Ret a s' → Q a s'.
Proof.
  intros HI Hbody. revert l s HI.
  induction fuel as [|n IH]; intros l s HI; [done|]. simpl.
  specialize (Hbody l s HI). unfold mbind, M_bind.
  destruct (body l s) as [[l'|b] s''| | | |]; try done; [by apply IH|].
  intros [=]; by subst.
Qed.
End wp.

(** [ends m Q P] also admits a panic: [m] returns with [Q] or panics with [P];
    faults, undefined behaviour and exhausted fuel stay excluded. *)
Definition ends {S A} (m : M S A) (Q : A → S → Prop) (P : string → Z → S → Prop) (s : S) : Prop :=
  match m s with Ret a s' => Q a s' | Panic r d s' => P r d s' | _ => False end.

Section ends.
Context {S : Type}.
Implicit Types s : S.

Lemma ends_wp {A} (m : M S A) Q P s : wp m Q s → ends m Q P s.
Proof. unfold wp, ends. by destruct (m s). Qed.
Lemma wp_ends {A} (m : M S A) Q s : ends m Q (λ _ _ _, False) s → wp m Q s.
Proof. unfold wp, ends. by destruct (m s). Qed.
Lemma ends_ret {A} (a : A) Q P s : Q a s → ends (mret a) Q P s.
Proof. done. Qed.
Lemma ends_bind {A B} (m : M S A) (f : A → M S B) Q P s :
  ends m (λ a s', ends (f a) Q P s') P s → ends (m ≫= f) Q P s.
Proof. unfold ends, mbind, M_bind. by destruct (m s). Qed.
Lemma ends_mono {A} (m : M S A) (Q Q' : A → S → Prop) (P P' : string → Z → S → Prop) s :
  (∀ a s', Q a s' → Q' a s') → (∀ r d s', P r d s' → P' r d s') → ends m Q P s → ends m Q' P' s.
Proof. unfold ends. destruct (m s); eauto. Qed.
Lemma ends_bind_wp {A B} (m : M S A) (f : A → M S B) Q P s :
  wp m (λ a s', ends (f a) Q P s') s → ends (m ≫= f) Q P s.
Proof. intros. by apply ends_bind, ends_wp. Qed.
Lemma ends_loop {L A} fuel (body : L → M S (L + A)) l Q P s :
  ends (body l) (λ r s', match r with
    | inl l' => ends (loop fuel body l') Q P s' | inr a => Q a s' end) P s →
  ends (loop (Datatypes.S fuel) body l) Q P s.
Proof. intros H. cbn [loop]. apply ends_bind. revert H. apply ends_mono; [by intros [l'|a] s'|done]. Qed.
End ends.

(** Symbolic execution of one step of a computation. *)
Ltac wp_step :=
  lazymatch goal with
  | |- wp (mbind _ _) _ _ => apply wp_bind
  | |- wp (mret _) _ _ => apply wp_ret
  | |- wp get _ _ => apply wp_get
  | |- wp (gets _) _ _ => apply wp_gets; cbn beta
  | |- wp (modify _) _ _ => apply wp_modify; cbn beta
  | |- wp (continue _) _ _ => apply wp_ret; cbn beta iota
  | |- wp (break _) _ _ => apply wp_ret; cbn beta iota
  end.
Ltac wp_steps := repeat wp_step.

Lemma wp_for_u32 {S} (I : Z → S → Prop) n (step : Z → M S unit) s (Q : unit → S → Prop) :
  is_u32 n → I 0 s →
  (∀ i s, 0 ≤ i < n → I i s → wp (step i) (λ _ s', I (i + 1) s') s) →
  (∀ s, I n s → Q tt s) →
  wp (for_u32 n step) Q s.
Proof.
  intros Hn HI Hstep HQ.
  apply (wp_loop (λ i s, 0 ≤ i ≤ n ∧ I i s) (λ i _, n - i)); [auto with lia| |lia|lia].
  clear s HI. intros i s [Hi HI]. destruct (Z.ltb_spec i n) as [Hlt|Hge].
  - apply wp_bind. eapply wp_mono; [|apply Hstep; [lia|done]].
    intros [] s' HI'. wp_steps. rewrite u32_id by lia. auto with lia.
  - wp_steps. apply HQ. by replace n with i by lia.
Qed.

(** A [for] loop that overwrites the cells of an array one after the other:
    [put l] is the state with contents [l] in the array. *)
Lemma for_u32_fill {S A} (put : list A → S → S) (step : Z → M S unit) (f : Z → A) n l s :
  is_u32 n → Z.of_nat (length l) = n →
  (∀ l' i, 0 ≤ i < n → length l' = length l →
    step i (put l' s) = Ret tt (put (<[Z.to_nat i := f i]> l') s)) →
  for_u32 n step (put l s) = Ret tt (put (f <$> seqZ 0 n) s).
Proof.
  intros Hn Hlen Hstep.
  assert (wp (for_u32 n step) (λ _ s', s' = put (f <$> seqZ 0 n) s) (put l s)) as Hwp.
  { apply (wp_for_u32 (λ i s', s' = put ((f <$> seqZ 0 i) ++ drop (Z.to_nat i) l) s));
      [done|done| |].
    - intros i s' Hi ->. eapply wp_Ret.
      { apply Hstep; [lia|]. rewrite length_app, length_fmap, length_seqZ, length_drop. lia. }
      f_equal. rewrite fill_step by (rewrite ?length_fmap, ?length_seqZ; lia).
      rewrite seqZ_app, fmap_app, (seqZ_cons (0 + i)), (seqZ_nil _ (Z.pred 1)) by lia. simpl.
      by replace (Z.to_nat (i + 1)) with (Datatypes.S (Z.to_nat i)) by lia.
    - intros s' ->. f_equal. rewrite drop_ge by lia. by rewrite app_nil_r. }
  apply wp_run in Hwp as ([] & s' & -> & ->). done.
Qed.

(** ** Running a computation step by step *)
Lemma bind_run {S A B} (m : M S A) (f : A → M S B) s a s' :
  m s = Ret a s' → (m ≫= f) s = f a s'.
Proof. unfold mbind, M_bind. by intros ->. Qed.
Lemma bind_mret {S A B} (a : A) (f : A → M S B) s : (mret a ≫= f) s = f a s.
Proof. done. Qed.
Lemma bind_get {S B} (f : S → M S B) s : (get ≫= f) s = f s s.
Proof. done. Qed.
Lemma bind_modify {S B} (g : S → S) (f : unit → M S B) s : (modify g ≫= f) s = f tt (g s).
Proof. done. Qed.
Lemma bind_from_option {S A B} (o : option A) a (f : A → M S B) s :
  o = Some a → (from_option o ≫= f) s = f a s.
Proof. by intros ->. Qed.

Lemma loop_step {S L A} fuel (body : L → M S (L + A)) l s r s' :
  body l s = Ret r s' →
  loop (Datatypes.S fuel) body l s =
    match r with inl l' => loop fuel body l' s' | inr a => Ret a s' end.
Proof. intros E. cbn [loop]. rewrite (bind_run _ _ _ _ _ E). by destruct r. Qed.

(** [mrun H] runs the first step of a sequence, knowing its outcome. *)
Tactic Notation "mrun" uconstr(H) :=
  erewrite (bind_run _ _ _ _ _ H); cbn beta.

(** ** Lenses: running a component inside a larger state *)
Record lens (S T : Type) := Lens { view : S → T; over : T → S → S }.
Arguments Lens {S T}.
Arguments view {S T}.
Arguments over {S T}.

Class LensLaws {S T} (l : lens S T) : Prop := {
  view_over t s : view l (over l t s) = t;
  over_view s : over l (view l s) s = s;
  over_over t t' s : over l t (over l t' s) = over l t s;
}.

Definition zoom {S T A} (l : lens S T) (m : M T A) : M S A := λ s,
  match m (view l s) with
  | Ret a t => Ret a (over l t s)
  | Panic r d t => Panic r d (over l t s)
  | PageFault a t => PageFault a (over l t s)
  | Undefined t => Undefined (over l t s)
  | OutOfFuel => OutOfFuel
  end.

Lemma wp_zoom {S T A} (l : lens S T) (m : M T A) (Q : A → S → Prop) s :
  wp m (λ a t, Q a (over l t s)) (view l s) → wp (zoom l m) Q s.
Proof. unfold wp, zoom. by destruct (m (view l s)). Qed.
Lemma ends_zoom {S T A} (l : lens S T) (m : M T A) Q P s :
  ends m (λ a t, Q a (over l t s)) (λ r d t, P r d (over l t s)) (view l s) → ends (zoom l m) Q P s.
Proof. unfold ends, zoom. by destruct (m (view l s)). Qed.

(** [zoom] is a monad morphism, so a zoomed function is the function. *)
Lemma zoom_bind {S T A B} (l : lens S T) `{!LensLaws l}
    (m : M T A) (f : A → M T B) s :
  zoom l (m ≫= f) s = (zoom l m ≫= λ a, zoom l (f a)) s.
Proof.
  unfold zoom, mbind, M_bind. destruct (m (view l s)); try done.
  rewrite view_over. by destruct (f _ _); rewrite ?over_over.
Qed.

Lemma zoom_ret {S T A} (l : lens S T) `{!LensLaws l} (a : A) s :
  zoom l (mret a) s = Ret a s.
Proof. unfold zoom, mret, M_ret. by rewrite over_view. Qed.
