(* ===== verification/VmmLayout.v ===== *)
(** * Virtual layout policy ([kernel/mm/vmm_layout.c])

    The three policy windows of the address space, the range tests behind
    them, the classification of an address and the run-time check of the
    policy constants.  Everything here is pure; C truth values are [bool]s. *)
From S2P Require Import Prelude.
#[local] Open Scope Z_scope.

Definition STAGE8A_VMM_LAYOUT_PAGE_SIZE_4K : Z := 0x1000.
Definition STAGE8A_VMM_LAYOUT_PAGE_MASK_4K : Z := STAGE8A_VMM_LAYOUT_PAGE_SIZE_4K - 1.
Definition STAGE8A_VMM_LAYOUT_ACTIVE_IDENTITY_START : Z := 0x00000000.
Definition STAGE8A_VMM_LAYOUT_ACTIVE_IDENTITY_END_EXCLUSIVE : Z := 0x00400000.
Definition STAGE8A_VMM_LAYOUT_FUTURE_HEAP_RESERVED_START : Z := 0x00400000.
Definition STAGE8A_VMM_LAYOUT_FUTURE_HEAP_RESERVED_END_EXCLUSIVE : Z := 0x00800000.
Definition STAGE8A_VMM_LAYOUT_FUTURE_MAPPING_RESERVED_START : Z := 0x00800000.
Definition STAGE8A_VMM_LAYOUT_FUTURE_MAPPING_RESERVED_END_EXCLUSIVE : Z := 0x01000000.
Definition STAGE8A_VMM_LAYOUT_ACTIVE_IDENTITY_END : Z :=
  STAGE8A_VMM_LAYOUT_ACTIVE_IDENTITY_END_EXCLUSIVE - 1.
Definition STAGE8A_VMM_LAYOUT_FUTURE_HEAP_RESERVED_END : Z :=
  STAGE8A_VMM_LAYOUT_FUTURE_HEAP_RESERVED_END_EXCLUSIVE - 1.
Definition STAGE8A_VMM_LAYOUT_FUTURE_MAPPING_RESERVED_END : Z :=
  STAGE8A_VMM_LAYOUT_FUTURE_MAPPING_RESERVED_END_EXCLUSIVE - 1.
Definition STAGE8A_VMM_LAYOUT_IS_4K_ALIGNED (value : Z) : bool :=
  Z.land value STAGE8A_VMM_LAYOUT_PAGE_MASK_4K =? 0.

#[export] Hint Unfold
  STAGE8A_VMM_LAYOUT_PAGE_SIZE_4K STAGE8A_VMM_LAYOUT_PAGE_MASK_4K
  STAGE8A_VMM_LAYOUT_ACTIVE_IDENTITY_START
  STAGE8A_VMM_LAYOUT_ACTIVE_IDENTITY_END_EXCLUSIVE
  STAGE8A_VMM_LAYOUT_FUTURE_HEAP_RESERVED_START
  STAGE8A_VMM_LAYOUT_FUTURE_HEAP_RESERVED_END_EXCLUSIVE
  STAGE8A_VMM_LAYOUT_FUTURE_MAPPING_RESERVED_START
  STAGE8A_VMM_LAYOUT_FUTURE_MAPPING_RESERVED_END_EXCLUSIVE
  STAGE8A_VMM_LAYOUT_ACTIVE_IDENTITY_END
  STAGE8A_VMM_LAYOUT_FUTURE_HEAP_RESERVED_END
  STAGE8A_VMM_LAYOUT_FUTURE_MAPPING_RESERVED_END : consts.

Inductive stage8a_vmm_layout_region_class : Set :=
| STAGE8A_VMM_LAYOUT_REGION_ACTIVE_IDENTITY
| STAGE8A_VMM_LAYOUT_REGION_FUTURE_HEAP_RESERVED
| STAGE8A_VMM_LAYOUT_REGION_FUTURE_MAPPING_RESERVED
| STAGE8A_VMM_LAYOUT_REGION_UNCLASSIFIED.

#[export] Instance region_class_eq_dec : EqDecision stage8a_vmm_layout_region_class.
Proof. solve_decision. Defined.

Definition stage8a_vmm_layout_addr_in_half_open_range
    (addr range_start range_end_exclusive : Z) : bool :=
  (range_start <=? addr) && (addr <? range_end_exclusive).

(** The out-parameter is the pointee before and after the call; [None] is a
    null pointer. *)
Definition stage8a_vmm_layout_compute_region_end
    (start_addr length : Z) (out_end_exclusive : option Z) : bool * option Z :=
  match out_end_exclusive with
  | None => (false, None)
  | Some _ =>
      if length =? 0 then (false, out_end_exclusive) else
      let end_ := u64 (start_addr + length) in
      if UINT32_MAX <? end_ then (false, out_end_exclusive) else
      (start_addr <? u32 end_, Some (u32 end_))
  end.

Definition stage8a_vmm_layout_region_in_half_open_range
    (start_addr length range_start range_end_exclusive : Z) : bool :=
  match stage8a_vmm_layout_compute_region_end start_addr length (Some 0) with
  | (true, Some end_exclusive) =>
      (range_start <=? start_addr) && (end_exclusive <=? range_end_exclusive)
  | _ => false
  end.

Definition stage8a_vmm_layout_is_addr_in_active_identity (virtual_addr : Z) : bool :=
  stage8a_vmm_layout_addr_in_half_open_range virtual_addr
    STAGE8A_VMM_LAYOUT_ACTIVE_IDENTITY_START
    STAGE8A_VMM_LAYOUT_ACTIVE_IDENTITY_END_EXCLUSIVE.

Definition stage8a_vmm_layout_is_addr_in_future_heap_reserved (virtual_addr : Z) : bool :=
  stage8a_vmm_layout_addr_in_half_open_range virtual_addr
    STAGE8A_VMM_LAYOUT_FUTURE_HEAP_RESERVED_START
    STAGE8A_VMM_LAYOUT_FUTURE_HEAP_RESERVED_END_EXCLUSIVE.

Definition stage8a_vmm_layout_is_addr_in_future_mapping_reserved (virtual_addr : Z) : bool :=
  stage8a_vmm_layout_addr_in_half_open_range virtual_addr
    STAGE8A_VMM_LAYOUT_FUTURE_MAPPING_RESERVED_START
    STAGE8A_VMM_LAYOUT_FUTURE_MAPPING_RESERVED_END_EXCLUSIVE.

Definition stage8a_vmm_layout_is_region_in_active_identity (start_addr length : Z) : bool :=
  stage8a_vmm_layout_region_in_half_open_range start_addr length
    STAGE8A_VMM_LAYOUT_ACTIVE_IDENTITY_START
    STAGE8A_VMM_LAYOUT_ACTIVE_IDENTITY_END_EXCLUSIVE.

Definition stage8a_vmm_layout_is_region_in_future_heap_reserved (start_addr length : Z) : bool :=
  stage8a_vmm_layout_region_in_half_open_range start_addr length
    STAGE8A_VMM_LAYOUT_FUTURE_HEAP_RESERVED_START
    STAGE8A_VMM_LAYOUT_FUTURE_HEAP_RESERVED_END_EXCLUSIVE.

Definition stage8a_vmm_layout_is_region_in_future_mapping_reserved (start_addr length : Z) : bool :=
  stage8a_vmm_layout_region_in_half_open_range start_addr length
    STAGE8A_VMM_LAYOUT_FUTURE_MAPPING_RESERVED_START
    STAGE8A_VMM_LAYOUT_FUTURE_MAPPING_RESERVED_END_EXCLUSIVE.

Definition stage8a_vmm_layout_classify_addr (virtual_addr : Z) : stage8a_vmm_layout_region_class :=
  if stage8a_vmm_layout_is_addr_in_active_identity virtual_addr
  then STAGE8A_VMM_LAYOUT_REGION_ACTIVE_IDENTITY
  else if stage8a_vmm_layout_is_addr_in_future_heap_reserved virtual_addr
  then STAGE8A_VMM_LAYOUT_REGION_FUTURE_HEAP_RESERVED
  else if stage8a_vmm_layout_is_addr_in_future_mapping_reserved virtual_addr
  then STAGE8A_VMM_LAYOUT_REGION_FUTURE_MAPPING_RESERVED
  else STAGE8A_VMM_LAYOUT_REGION_UNCLASSIFIED.

Definition stage8a_vmm_layout_region_class_name (c : stage8a_vmm_layout_region_class) : string :=
  match c with
  | STAGE8A_VMM_LAYOUT_REGION_ACTIVE_IDENTITY => "active-identity"
  | STAGE8A_VMM_LAYOUT_REGION_FUTURE_HEAP_RESERVED => "future-heap-reserved"
  | STAGE8A_VMM_LAYOUT_REGION_FUTURE_MAPPING_RESERVED => "future-mapping-reserved"
  | STAGE8A_VMM_LAYOUT_REGION_UNCLASSIFIED => "unclassified"
  end.

Definition stage8a_vmm_layout_validate_policy : bool :=
  if negb (STAGE8A_VMM_LAYOUT_IS_4K_ALIGNED STAGE8A_VMM_LAYOUT_ACTIVE_IDENTITY_START)
     || negb (STAGE8A_VMM_LAYOUT_IS_4K_ALIGNED STAGE8A_VMM_LAYOUT_ACTIVE_IDENTITY_END_EXCLUSIVE)
     || negb (STAGE8A_VMM_LAYOUT_IS_4K_ALIGNED STAGE8A_VMM_LAYOUT_FUTURE_HEAP_RESERVED_START)
     || negb (STAGE8A_VMM_LAYOUT_IS_4K_ALIGNED STAGE8A_VMM_LAYOUT_FUTURE_HEAP_RESERVED_END_EXCLUSIVE)
     || negb (STAGE8A_VMM_LAYOUT_IS_4K_ALIGNED STAGE8A_VMM_LAYOUT_FUTURE_MAPPING_RESERVED_START)
     || negb (STAGE8A_VMM_LAYOUT_IS_4K_ALIGNED STAGE8A_VMM_LAYOUT_FUTURE_MAPPING_RESERVED_END_EXCLUSIVE)
  then false
  else if negb (STAGE8A_VMM_LAYOUT_ACTIVE_IDENTITY_START =? 0x00000000)
     || negb (STAGE8A_VMM_LAYOUT_ACTIVE_IDENTITY_END_EXCLUSIVE =? 0x00400000)
  then false
  else if (STAGE8A_VMM_LAYOUT_ACTIVE_IDENTITY_END_EXCLUSIVE <=? STAGE8A_VMM_LAYOUT_ACTIVE_IDENTITY_START)
     || (STAGE8A_VMM_LAYOUT_FUTURE_HEAP_RESERVED_END_EXCLUSIVE <=? STAGE8A_VMM_LAYOUT_FUTURE_HEAP_RESERVED_START)
     || (STAGE8A_VMM_LAYOUT_FUTURE_MAPPING_RESERVED_END_EXCLUSIVE <=? STAGE8A_VMM_LAYOUT_FUTURE_MAPPING_RESERVED_START)
  then false
  else if (STAGE8A_VMM_LAYOUT_FUTURE_HEAP_RESERVED_START <? STAGE8A_VMM_LAYOUT_ACTIVE_IDENTITY_END_EXCLUSIVE)
     || (STAGE8A_VMM_LAYOUT_FUTURE_MAPPING_RESERVED_START <? STAGE8A_VMM_LAYOUT_FUTURE_HEAP_RESERVED_END_EXCLUSIVE)
  then false
  else true.

(** ** Abstract view: the window a class stands for *)
Definition window (c : stage8a_vmm_layout_region_class) (a : Z) : Prop :=
  match c with
  | STAGE8A_VMM_LAYOUT_REGION_ACTIVE_IDENTITY => 0 ≤ a < 0x400000
  | STAGE8A_VMM_LAYOUT_REGION_FUTURE_HEAP_RESERVED => 0x400000 ≤ a < 0x800000
  | STAGE8A_VMM_LAYOUT_REGION_FUTURE_MAPPING_RESERVED => 0x800000 ≤ a < 0x1000000
  | STAGE8A_VMM_LAYOUT_REGION_UNCLASSIFIED => a < 0 ∨ 0x1000000 ≤ a
  end.

Lemma addr_in_half_open_range_spec a lo hi :
  stage8a_vmm_layout_addr_in_half_open_range a lo hi = true ↔ lo ≤ a < hi.
Proof. unfold stage8a_vmm_layout_addr_in_half_open_range. lia. Qed.

Lemma addr_in_heap_reserved_spec a :
  stage8a_vmm_layout_is_addr_in_future_heap_reserved a = true ↔ 0x400000 ≤ a < 0x800000.
Proof. apply addr_in_half_open_range_spec. Qed.

Lemma addr_in_mapping_reserved_spec a :
  stage8a_vmm_layout_is_addr_in_future_mapping_reserved a = true ↔ 0x800000 ≤ a < 0x1000000.
Proof. apply addr_in_half_open_range_spec. Qed.

Lemma region_in_half_open_range_spec start len lo hi :
  is_u32 start → is_u32 len → is_u32 hi →
  stage8a_vmm_layout_region_in_half_open_range start len lo hi = true ↔
  0 < len ∧ lo ≤ start ∧ start + len ≤ hi.
Proof.
  intros Hs Hl Hh.
  unfold stage8a_vmm_layout_region_in_half_open_range,
    stage8a_vmm_layout_compute_region_end.
  destruct (Z.eqb_spec len 0); [lia|].
  rewrite u64_id by lia.
  destruct (Z.ltb_spec UINT32_MAX (start + len)); [zlia|].
  rewrite u32_id by zlia.
  destruct (Z.ltb_spec start (start + len)); zlia.
Qed.

(** C39. The classification is total and exact: an address has class [c] just when
    it lies in [c]'s window. *)
Theorem classify_addr_exact a c :
  stage8a_vmm_layout_classify_addr a = c ↔ window c a.
Proof.
  unfold stage8a_vmm_layout_classify_addr, stage8a_vmm_layout_is_addr_in_active_identity,
    stage8a_vmm_layout_is_addr_in_future_heap_reserved,
    stage8a_vmm_layout_is_addr_in_future_mapping_reserved,
    stage8a_vmm_layout_addr_in_half_open_range.
  consts. repeat case_match; destruct c; simpl; split; intros; try done; lia.
Qed.

(** C40. A region test accepts exactly the non-empty regions all of whose bytes
    are classified into the window, and a region that wraps past 2^32 never. *)
Theorem region_tests_exact start len :
  is_u32 start → is_u32 len →
  (∀ c test,
    (c, test) ∈
      [(STAGE8A_VMM_LAYOUT_REGION_ACTIVE_IDENTITY,
        stage8a_vmm_layout_is_region_in_active_identity);
       (STAGE8A_VMM_LAYOUT_REGION_FUTURE_HEAP_RESERVED,
        stage8a_vmm_layout_is_region_in_future_heap_reserved);
       (STAGE8A_VMM_LAYOUT_REGION_FUTURE_MAPPING_RESERVED,
        stage8a_vmm_layout_is_region_in_future_mapping_reserved)] →
    test start len = true ↔
    0 < len ∧ ∀ a, start ≤ a < start + len → stage8a_vmm_layout_classify_addr a = c).
Proof.
  intros Hs Hl c test Hin. setoid_rewrite classify_addr_exact.
  assert (∀ lo hi, lo < hi → is_u32 hi →
    (0 < len ∧ lo ≤ start ∧ start + len ≤ hi) ↔
    (0 < len ∧ ∀ a, start ≤ a < start + len → lo ≤ a < hi)) as Hconv.
  { intros lo hi ??. split; intros [Hlen Hb]; (split; [done|]).
    - intros; lia.
    - pose proof (Hb start ltac:(lia)). pose proof (Hb (start + len - 1) ltac:(lia)). lia. }
  rewrite !elem_of_cons, elem_of_nil in Hin.
  destruct Hin as [[= -> ->]|[[= -> ->]|[[= -> ->]|[]]]]; simpl;
    rewrite <- Hconv by zlia; apply region_in_half_open_range_spec; zlia.
Qed.

Lemma region_tests_exact_witness :
  stage8a_vmm_layout_is_region_in_future_heap_reserved 0x7FF000 0x1000 = true ∧
  (0 < 0x1000 ∧ ∀ a, 0x7FF000 ≤ a < 0x7FF000 + 0x1000 →
    stage8a_vmm_layout_classify_addr a = STAGE8A_VMM_LAYOUT_REGION_FUTURE_HEAP_RESERVED).
Proof.
  split; [reflexivity|].
  apply (region_tests_exact 0x7FF000 0x1000 ltac:(lia) ltac:(lia)
    _ stage8a_vmm_layout_is_region_in_future_heap_reserved);
    [set_solver|reflexivity].
Defined.

(** The policy the constants describe passes the kernel's own check. *)
Lemma validate_policy_ok : stage8a_vmm_layout_validate_policy = true.
Proof. reflexivity. Qed.
