(* ===== verification/Paging.v ===== *)
(** * Paging structures and the MMU ([kernel/mm/paging.c], [paging.h])

    The address arithmetic of two-level 32-bit paging, the static page
    directory and page tables, their set-up as an identity map of the first
    4 MiB, and the control registers.  [mmu_walk] and [translate] are the
    processor's view of the same structures: they give the tables a meaning,
    so the theorems can speak of the addresses the hardware reaches.  A
    [page_table_t*] is a [table_ptr]; casting an integer to such a pointer is
    [page_table_at], which fails for an integer that is not the address of one
    of the kernel's tables. *)
From S2P Require Import Prelude KernelMonad.
#[local] Open Scope Z_scope.

Definition STAGE7A_PAGING_PAGE_SHIFT : Z := 12.
Definition STAGE7A_PAGING_PAGE_SIZE : Z := 0x1000.
Definition STAGE7A_PAGING_PAGE_OFFSET_MASK : Z := 0x00000FFF.
Definition STAGE7A_PAGING_FRAME_ADDR_MASK : Z := 0xFFFFF000.
Definition STAGE7A_PAGING_INDEX_MASK : Z := 0x000003FF.
Definition STAGE7A_PAGING_PT_INDEX_SHIFT : Z := 12.
Definition STAGE7A_PAGING_PD_INDEX_SHIFT : Z := 22.
Definition STAGE7A_PAGING_ENTRIES_PER_TABLE : Z := 1024.
Definition STAGE7A_PAGING_FLAG_MASK : Z := 0x00000FFF.
Definition STAGE7C_CR0_PG_MASK : Z := Z.shiftl 1 31.
Definition STAGE7A_PAGING_FLAG_PRESENT : Z := Z.shiftl 1 0.
Definition STAGE7A_PAGING_FLAG_WRITABLE : Z := Z.shiftl 1 1.

#[export] Hint Unfold
  STAGE7A_PAGING_PAGE_SHIFT STAGE7A_PAGING_PAGE_SIZE STAGE7A_PAGING_PAGE_OFFSET_MASK
  STAGE7A_PAGING_FRAME_ADDR_MASK STAGE7A_PAGING_INDEX_MASK STAGE7A_PAGING_PT_INDEX_SHIFT
  STAGE7A_PAGING_PD_INDEX_SHIFT STAGE7A_PAGING_ENTRIES_PER_TABLE
  STAGE7A_PAGING_FLAG_MASK : consts.

(** The number of tables of [g_stage8b_mutable_reserved_page_tables]; that
    [vmm.c] computes this very number is proved there. *)
Definition MUTABLE_TABLE_COUNT : Z := 3.
#[export] Hint Unfold MUTABLE_TABLE_COUNT : consts.

(** ** Addresses chosen by the linker *)
Class KernelLayout := {
  addr_page_directory : Z;        (* &g_stage7b_early_page_directory *)
  addr_identity_page_table : Z;   (* &g_stage7b_early_identity_page_table *)
  addr_mutable_page_tables : Z;   (* &g_stage8b_mutable_reserved_page_tables[0] *)
}.

(** What [__attribute__((aligned(4096)))] and the linker guarantee. *)
Class KernelLayoutOk `{KernelLayout} : Prop := {
  pd_aligned : addr_page_directory mod 0x1000 = 0;
  ipt_aligned : addr_identity_page_table mod 0x1000 = 0;
  mpt_aligned : addr_mutable_page_tables mod 0x1000 = 0;
  pd_u32 : is_u32 addr_page_directory;
  ipt_u32 : is_u32 addr_identity_page_table;
  mpt_u32 : 0 ≤ addr_mutable_page_tables ∧
            addr_mutable_page_tables + MUTABLE_TABLE_COUNT * 0x1000 < 0x100000000;
  ipt_mpt_disjoint :
    addr_identity_page_table < addr_mutable_page_tables ∨
    addr_mutable_page_tables + MUTABLE_TABLE_COUNT * 0x1000 ≤ addr_identity_page_table;
}.

(** ** Address arithmetic *)
Definition stage7a_paging_pd_index (virtual_addr : Z) : Z :=
  Z.land (Z.shiftr virtual_addr STAGE7A_PAGING_PD_INDEX_SHIFT) STAGE7A_PAGING_INDEX_MASK.
Definition stage7a_paging_pt_index (virtual_addr : Z) : Z :=
  Z.land (Z.shiftr virtual_addr STAGE7A_PAGING_PT_INDEX_SHIFT) STAGE7A_PAGING_INDEX_MASK.
Definition stage7a_paging_page_offset (virtual_addr : Z) : Z :=
  Z.land virtual_addr STAGE7A_PAGING_PAGE_OFFSET_MASK.
Definition stage7a_paging_frame_addr (addr : Z) : Z :=
  Z.land addr STAGE7A_PAGING_FRAME_ADDR_MASK.
Definition stage7a_paging_identity_map_addr (physical_addr : Z) : Z :=
  stage7a_paging_frame_addr physical_addr.
Definition stage7a_paging_make_entry (frame_addr flags : Z) : Z :=
  let masked_frame := stage7a_paging_frame_addr frame_addr in
  let masked_flags := Z.land flags STAGE7A_PAGING_FLAG_MASK in
  Z.lor masked_frame masked_flags.

(** [entry & STAGE7A_PAGING_FLAG_PRESENT] as a truth value. *)
Definition is_present (entry : Z) : bool :=
  negb (Z.land entry STAGE7A_PAGING_FLAG_PRESENT =? 0).

(** ** The paging structures and control registers *)
Record paging_state := mk_paging_state {
  page_directory : list Z;         (* g_stage7b_early_page_directory.entries *)
  identity_table : list Z;         (* g_stage7b_early_identity_page_table.entries *)
  mutable_tables : list (list Z);  (* g_stage8b_mutable_reserved_page_tables *)
  cr0 : Z;
  cr3 : Z;
  tlb : gmap Z Z;                  (* cached translations, page to frame *)
}.

Definition set_page_directory l p := mk_paging_state l (identity_table p)
  (mutable_tables p) (cr0 p) (cr3 p) (tlb p).
Definition set_identity_table l p := mk_paging_state (page_directory p) l
  (mutable_tables p) (cr0 p) (cr3 p) (tlb p).
Definition set_mutable_tables l p := mk_paging_state (page_directory p)
  (identity_table p) l (cr0 p) (cr3 p) (tlb p).
Definition set_cr0 v p := mk_paging_state (page_directory p) (identity_table p)
  (mutable_tables p) v (cr3 p) (tlb p).
Definition set_cr3 v p := mk_paging_state (page_directory p) (identity_table p)
  (mutable_tables p) (cr0 p) v (tlb p).
Definition set_tlb t p := mk_paging_state (page_directory p) (identity_table p)
  (mutable_tables p) (cr0 p) (cr3 p) t.

(** Static storage is zero-initialised before the kernel is entered. *)
Definition reset_paging_state (cr0 cr3 : Z) (tlb : gmap Z Z) : paging_state :=
  mk_paging_state (replicate 1024 0) (replicate 1024 0)
    (replicate 3 (replicate 1024 0)) cr0 cr3 tlb.

(** A [page_table_t*] that points to one of the kernel's tables. *)
Inductive table_ptr : Set :=
| EarlyIdentityPageTable
| MutableReservedPageTable (slot : Z).

#[export] Instance table_ptr_eq_dec : EqDecision table_ptr.
Proof. solve_decision. Defined.

Section paging.
Context `{KernelLayout}.

(** [(uint32_t)(uintptr_t)table] and [(page_table_t* )(uintptr_t)addr]. *)
Definition table_addr (t : table_ptr) : Z :=
  match t with
  | EarlyIdentityPageTable => addr_identity_page_table
  | MutableReservedPageTable slot => addr_mutable_page_tables + slot * 0x1000
  end.

Definition page_table_at (addr : Z) : option table_ptr :=
  if addr =? addr_identity_page_table then Some EarlyIdentityPageTable else
  let delta := addr - addr_mutable_page_tables in
  if (0 <=? delta) && (delta <? MUTABLE_TABLE_COUNT * 0x1000) && (delta mod 0x1000 =? 0)
  then Some (MutableReservedPageTable (delta / 0x1000)) else None.

Definition table_entries (t : table_ptr) (p : paging_state) : option (list Z) :=
  match t with
  | EarlyIdentityPageTable => Some (identity_table p)
  | MutableReservedPageTable slot => array_get (mutable_tables p) slot
  end.

Definition with_table (t : table_ptr) (l : list Z) (p : paging_state) : paging_state :=
  match t with
  | EarlyIdentityPageTable => set_identity_table l p
  | MutableReservedPageTable slot =>
      set_mutable_tables (<[Z.to_nat slot := l]> (mutable_tables p)) p
  end.

(** [table->entries[i]] read and written; [directory->entries[i]] likewise. *)
Definition table_read (t : table_ptr) (i : Z) : M paging_state Z :=
  p ← get;
  from_option (l ← table_entries t p; array_get l i).
Definition table_write (t : table_ptr) (i v : Z) : M paging_state unit :=
  p ← get;
  l ← from_option (l ← table_entries t p; array_set l i v);
  modify (with_table t l).
Definition directory_read (i : Z) : M paging_state Z :=
  p ← get;
  from_option (array_get (page_directory p) i).
Definition directory_write (i v : Z) : M paging_state unit :=
  p ← get;
  l ← from_option (array_set (page_directory p) i v);
  modify (set_page_directory l).

(** ** [paging.c] *)
Definition stage7b_clear_page_table (table : table_ptr) : M paging_state unit :=
  for_u32 STAGE7A_PAGING_ENTRIES_PER_TABLE (λ i, table_write table i 0).

Definition stage7b_clear_page_directory : M paging_state unit :=
  for_u32 STAGE7A_PAGING_ENTRIES_PER_TABLE (λ i, directory_write i 0).

Definition stage7b_setup_early_identity_paging : M paging_state unit :=
  let base_flags := Z.lor STAGE7A_PAGING_FLAG_PRESENT STAGE7A_PAGING_FLAG_WRITABLE in
  let identity_table_frame := stage7a_paging_frame_addr (table_addr EarlyIdentityPageTable) in
  stage7b_clear_page_directory ;;
  stage7b_clear_page_table EarlyIdentityPageTable ;;
  for_u32 STAGE7A_PAGING_ENTRIES_PER_TABLE (λ i,
    let frame_addr := u32 (Z.shiftl i STAGE7A_PAGING_PAGE_SHIFT) in
    table_write EarlyIdentityPageTable i (stage7a_paging_make_entry frame_addr base_flags)) ;;
  directory_write 0 (stage7a_paging_make_entry identity_table_frame base_flags).

(** The getters return the address of a static object. *)
Definition stage7b_get_early_page_directory : Z := addr_page_directory.
Definition stage7b_get_early_identity_page_table : table_ptr := EarlyIdentityPageTable.
Definition stage7b_get_early_page_directory_mutable : Z := addr_page_directory.

(** [mov %cr3] also drops the cached translations. *)
Definition stage7c_load_cr3_with_early_page_directory : M paging_state unit :=
  let page_directory_frame := stage7a_paging_frame_addr stage7b_get_early_page_directory in
  modify (λ p, set_tlb ∅ (set_cr3 page_directory_frame p)).
Definition stage7c_read_cr0 : M paging_state Z := gets cr0.
Definition stage7c_read_cr3 : M paging_state Z := gets cr3.
Definition stage7c_set_cr0_paging_enable : M paging_state unit :=
  c ← stage7c_read_cr0;
  let updated_cr0 := Z.lor c STAGE7C_CR0_PG_MASK in
  modify (set_cr0 updated_cr0).

(** ** The processor's view *)
(** The page table that entry [i] of the directory leads to. *)
Definition directory_table (p : paging_state) (i : Z) : option (list Z) :=
  pde ← array_get (page_directory p) i;
  if negb (is_present pde) then None else
  t ← page_table_at (stage7a_paging_frame_addr pde);
  table_entries t p.

Definition mmu_walk (p : paging_state) (va : Z) : option Z :=
  if negb (stage7a_paging_frame_addr (cr3 p) =? addr_page_directory) then None else
  entries ← directory_table p (stage7a_paging_pd_index va);
  pte ← array_get entries (stage7a_paging_pt_index va);
  if negb (is_present pte) then None else
  Some (stage7a_paging_frame_addr pte + stage7a_paging_page_offset va).

Definition paging_enabled (p : paging_state) : bool :=
  negb (Z.land (cr0 p) STAGE7C_CR0_PG_MASK =? 0).

(** The address an access reaches; [None] is a page fault. *)
Definition translate (p : paging_state) (va : Z) : option Z :=
  if negb (paging_enabled p) then Some va else
  match tlb p !! stage7a_paging_frame_addr va with
  | Some frame => Some (frame + stage7a_paging_page_offset va)
  | None => mmu_walk p va
  end.

(** The TLB holds only what a walk would find. *)
Definition tlb_coherent (p : paging_state) : Prop :=
  ∀ page frame, tlb p !! page = Some frame →
    is_u32 page ∧ page mod 0x1000 = 0 ∧ mmu_walk p page = Some frame.

(** The processor may cache the translation of any mapped page at any time. *)
Definition mmu_fill (page : Z) (p : paging_state) : paging_state :=
  match mmu_walk p page with
  | Some frame => set_tlb (<[page := frame]> (tlb p)) p
  | None => p
  end.

End paging.

(** A concrete layout, as a link of the kernel could choose it. *)
Definition qemu_layout : KernelLayout := {|
  addr_page_directory := 0x10A000;
  addr_identity_page_table := 0x10B000;
  addr_mutable_page_tables := 0x10C000;
|}.
Lemma qemu_layout_ok : @KernelLayoutOk qemu_layout.
Proof. constructor; simpl; consts; lia. Qed.

(** ** Lemmas: address arithmetic *)
Lemma pd_index_eq va : stage7a_paging_pd_index va = (va / 0x400000) mod 1024.
Proof.
  unfold stage7a_paging_pd_index. consts. change 0x3FF with (2 ^ 10 - 1).
  rewrite land_mask, Z.shiftr_div_pow2 by lia. done.
Qed.

Lemma pt_index_eq va : stage7a_paging_pt_index va = (va / 0x1000) mod 1024.
Proof.
  unfold stage7a_paging_pt_index. consts. change 0x3FF with (2 ^ 10 - 1).
  rewrite land_mask, Z.shiftr_div_pow2 by lia. done.
Qed.

Lemma page_offset_eq va : stage7a_paging_page_offset va = va mod 0x1000.
Proof.
  unfold stage7a_paging_page_offset. consts. change 0xFFF with (2 ^ 12 - 1).
  by rewrite land_mask by lia.
Qed.

Lemma frame_addr_eq a : is_u32 a → stage7a_paging_frame_addr a = a - a mod 0x1000.
Proof.
  intros Ha. unfold stage7a_paging_frame_addr. consts.
  change 0xFFFFF000 with (2 ^ 32 - 2 ^ 12). by rewrite land_align by lia.
Qed.

Lemma frame_addr_aligned a :
  is_u32 a → a mod 0x1000 = 0 → stage7a_paging_frame_addr a = a.
Proof. intros. rewrite frame_addr_eq by done. lia. Qed.

Lemma flags_eq fl : Z.land fl STAGE7A_PAGING_FLAG_MASK = fl mod 0x1000.
Proof. consts. change 0xFFF with (2 ^ 12 - 1). by rewrite land_mask by lia. Qed.

Lemma make_entry_eq f fl :
  is_u32 f → stage7a_paging_make_entry f fl = f - f mod 0x1000 + fl mod 0x1000.
Proof.
  intros Hf. unfold stage7a_paging_make_entry. rewrite frame_addr_eq, flags_eq by done.
  apply (lor_add _ _ 12); [lia|change (2 ^ 12) with 0x1000; lia..].
Qed.

Lemma make_entry_u32 f fl : is_u32 f → is_u32 (stage7a_paging_make_entry f fl).
Proof. intros. rewrite make_entry_eq by done. lia. Qed.

Lemma is_present_eq e : is_present e = negb (e mod 2 =? 0).
Proof.
  unfold is_present. change STAGE7A_PAGING_FLAG_PRESENT with (2 ^ 1 - 1).
  by rewrite land_mask by lia.
Qed.

Lemma is_present_0 : is_present 0 = false.
Proof. reflexivity. Qed.

(** The flags [PRESENT | WRITABLE] every kernel mapping uses. *)
Definition mapping_flags : Z :=
  Z.lor STAGE7A_PAGING_FLAG_PRESENT STAGE7A_PAGING_FLAG_WRITABLE.

Lemma make_entry_present f :
  is_u32 f → is_present (stage7a_paging_make_entry f mapping_flags) = true.
Proof.
  intros Hf. rewrite is_present_eq, make_entry_eq by done.
  change mapping_flags with 3. lia.
Qed.

Lemma frame_addr_make_entry f fl :
  is_u32 f →
  stage7a_paging_frame_addr (stage7a_paging_make_entry f fl) = f - f mod 0x1000.
Proof.
  intros Hf. rewrite frame_addr_eq by by apply make_entry_u32.
  rewrite make_entry_eq by done. lia.
Qed.

Create Rewrite HintDb paging.
#[export] Hint Rewrite pd_index_eq pt_index_eq page_offset_eq : paging.
#[export] Hint Resolve make_entry_u32 : core.

(** An entry's two halves read back: the aligned frame and the twelve flag
    bits survive [make_entry], whatever the low bits of the address were. *)
Theorem make_entry_roundtrip f fl :
  is_u32 f →
  stage7a_paging_frame_addr (stage7a_paging_make_entry f fl) = stage7a_paging_frame_addr f ∧
  Z.land (stage7a_paging_make_entry f fl) STAGE7A_PAGING_FLAG_MASK =
    Z.land fl STAGE7A_PAGING_FLAG_MASK.
Proof.
  intros Hf. rewrite frame_addr_make_entry, frame_addr_eq by done.
  rewrite !flags_eq, make_entry_eq by done. split; [done|lia].
Qed.

Lemma make_entry_roundtrip_witness :
  0 ≤ 0x12345ABC < 0x100000000 ∧
  stage7a_paging_frame_addr (stage7a_paging_make_entry 0x12345ABC 3) = 0x12345000.
Proof.
  split; [lia|].
  destruct (make_entry_roundtrip 0x12345ABC 3 ltac:(lia)) as [-> _]. reflexivity.
Defined.

(** Directory index, table index and offset determine a 32-bit address, and
    each is in range for its table. *)
Theorem address_split va :
  is_u32 va →
  va = Z.shiftl (stage7a_paging_pd_index va) STAGE7A_PAGING_PD_INDEX_SHIFT
     + Z.shiftl (stage7a_paging_pt_index va) STAGE7A_PAGING_PT_INDEX_SHIFT
     + stage7a_paging_page_offset va ∧
  0 ≤ stage7a_paging_pd_index va < STAGE7A_PAGING_ENTRIES_PER_TABLE ∧
  0 ≤ stage7a_paging_pt_index va < STAGE7A_PAGING_ENTRIES_PER_TABLE ∧
  0 ≤ stage7a_paging_page_offset va < STAGE7A_PAGING_PAGE_SIZE.
Proof.
  intros Hva. rewrite !pd_index_eq, !pt_index_eq, !page_offset_eq.
  consts. rewrite !Z.shiftl_mul_pow2 by lia.
  change (2 ^ 22) with 0x400000. change (2 ^ 12) with 0x1000. lia.
Qed.

Lemma address_split_witness :
  0 ≤ 0x12345678 < 0x100000000 ∧ stage7a_paging_pd_index 0x12345678 < 1024.
Proof. split; [lia|]. apply (address_split 0x12345678). lia. Defined.

(** ** Lemmas: tables *)
Section tables.
Context `{KernelLayout}.
Implicit Types p : paging_state.

Lemma table_read_ok t i l v p :
  table_entries t p = Some l → array_get l i = Some v →
  table_read t i p = Ret v p.
Proof.
  intros Hl Hv. unfold table_read, mbind at 1, M_bind, get. rewrite Hl. simpl. by rewrite Hv.
Qed.

Lemma table_write_ok t i v l p :
  table_entries t p = Some l → 0 ≤ i < Z.of_nat (length l) →
  table_write t i v p = Ret tt (with_table t (<[Z.to_nat i := v]> l) p).
Proof.
  intros Hl Hi. unfold table_write, mbind at 1, M_bind, get. rewrite Hl. simpl.
  by rewrite array_set_lt.
Qed.

Lemma directory_read_ok i v p :
  array_get (page_directory p) i = Some v → directory_read i p = Ret v p.
Proof. intros Hv. unfold directory_read, mbind, M_bind, get. by rewrite Hv. Qed.

Lemma directory_write_ok i v p :
  0 ≤ i < Z.of_nat (length (page_directory p)) →
  directory_write i v p =
    Ret tt (set_page_directory (<[Z.to_nat i := v]> (page_directory p)) p).
Proof.
  intros Hi. unfold directory_write, mbind at 1, M_bind, get. by rewrite array_set_lt.
Qed.

Lemma table_entries_with_table t l l' p :
  table_entries t p = Some l → table_entries t (with_table t l' p) = Some l'.
Proof.
  destruct t as [|k]; simpl; [done|]. intros Hk%array_get_Some.
  rewrite array_get_insert by done. by rewrite decide_True.
Qed.

Lemma table_entries_with_table_ne t t' l l' p :
  table_entries t p = Some l → t ≠ t' →
  table_entries t' (with_table t l' p) = table_entries t' p.
Proof.
  destruct t as [|k], t' as [|k']; simpl; intros Hl Hne; try done.
  apply array_get_Some in Hl. rewrite array_get_insert by done.
  rewrite decide_False by congruence. done.
Qed.

Lemma with_table_id t l p : table_entries t p = Some l → with_table t l p = p.
Proof.
  destruct p, t as [|k]; unfold with_table, set_identity_table, set_mutable_tables; simpl.
  - by intros [= ->].
  - unfold array_get. case_decide; [|done]. intros Hl. by rewrite list_insert_id.
Qed.

Lemma with_table_twice t l l' p : with_table t l (with_table t l' p) = with_table t l p.
Proof.
  destruct p, t as [|k]; unfold with_table, set_identity_table, set_mutable_tables; simpl; [done|].
  by rewrite list_insert_insert_eq.
Qed.

Lemma with_table_through_directory t l l' d p :
  with_table t l (set_page_directory d (with_table t l' p)) =
  with_table t l (set_page_directory d p).
Proof.
  destruct p, t as [|k]; unfold with_table, set_identity_table, set_mutable_tables; simpl; [done|].
  by rewrite list_insert_insert_eq.
Qed.

Lemma page_directory_with_table t l p : page_directory (with_table t l p) = page_directory p.
Proof. by destruct t. Qed.
Lemma tlb_with_table t l p : tlb (with_table t l p) = tlb p.
Proof. by destruct t. Qed.
Lemma cr0_with_table t l p : cr0 (with_table t l p) = cr0 p.
Proof. by destruct t. Qed.
Lemma cr3_with_table t l p : cr3 (with_table t l p) = cr3 p.
Proof. by destruct t. Qed.
Lemma table_entries_set_page_directory t l p :
  table_entries t (set_page_directory l p) = table_entries t p.
Proof. by destruct t. Qed.
Lemma table_entries_set_tlb t m p : table_entries t (set_tlb m p) = table_entries t p.
Proof. by destruct t. Qed.

(** Writing [f i] to every entry [i] of a table. *)
Lemma table_fill t l f p :
  table_entries t p = Some l → length l = 1024%nat →
  for_u32 STAGE7A_PAGING_ENTRIES_PER_TABLE (λ i, table_write t i (f i)) p
  = Ret tt (with_table t (f <$> seqZ 0 1024) p).
Proof.
  intros Hl Hlen. rewrite <- (with_table_id t l p) at 1 by done.
  apply (for_u32_fill (with_table t)); [zlia|zlia|].
  intros l' i Hi Hlen'. consts.
  erewrite table_write_ok; [|by eapply table_entries_with_table|lia].
  by rewrite with_table_twice.
Qed.

Lemma directory_fill f p :
  length (page_directory p) = 1024%nat →
  for_u32 STAGE7A_PAGING_ENTRIES_PER_TABLE (λ i, directory_write i (f i)) p
  = Ret tt (set_page_directory (f <$> seqZ 0 1024) p).
Proof.
  intros Hlen.
  replace p with (set_page_directory (page_directory p) p) at 1 by by destruct p.
  apply (for_u32_fill set_page_directory); [zlia|zlia|].
  intros l' i Hi Hlen'. consts. by rewrite directory_write_ok by (simpl; lia).
Qed.

Lemma fmap_const_seqZ {A} (x : A) n : (λ _, x) <$> seqZ 0 n = replicate (Z.to_nat n) x.
Proof.
  rewrite <- (length_seqZ 0 n). induction (seqZ 0 n) as [|y l IH]; [done|].
  simpl length. by rewrite replicate_S, <- IH.
Qed.
End tables.

(** ** The early identity map *)
Section identity_map.
Context `{KL : KernelLayout, KLO : !KernelLayoutOk}.

Definition identity_entry (i : Z) : Z :=
  stage7a_paging_make_entry (u32 (Z.shiftl i STAGE7A_PAGING_PAGE_SHIFT)) mapping_flags.
Definition identity_entries : list Z := identity_entry <$> seqZ 0 1024.
Definition early_directory : list Z :=
  stage7a_paging_make_entry addr_identity_page_table mapping_flags :: replicate 1023 0.

Lemma page_table_at_identity :
  page_table_at addr_identity_page_table = Some EarlyIdentityPageTable.
Proof. unfold page_table_at. by rewrite Z.eqb_refl. Qed.

Lemma page_table_at_mutable k :
  0 ≤ k < MUTABLE_TABLE_COUNT →
  page_table_at (table_addr (MutableReservedPageTable k)) = Some (MutableReservedPageTable k).
Proof.
  intros Hk. destruct KLO. unfold page_table_at. simpl. consts.
  destruct (Z.eqb_spec (addr_mutable_page_tables + k * 0x1000) addr_identity_page_table); [lia|].
  replace (addr_mutable_page_tables + k * 0x1000 - addr_mutable_page_tables)
    with (k * 0x1000) by lia.
  rewrite Z.mod_mul, Z.div_mul by lia.
  destruct (Z.leb_spec 0 (k * 0x1000)), (Z.ltb_spec (k * 0x1000) (3 * 0x1000)); try lia.
  done.
Qed.

Lemma identity_entries_lookup i :
  0 ≤ i < 1024 → array_get identity_entries i = Some (i * 0x1000 + 3).
Proof.
  intros Hi. unfold array_get. rewrite decide_True by lia.
  unfold identity_entries. rewrite list_lookup_fmap, lookup_seqZ_lt by lia. simpl.
  f_equal. unfold identity_entry. rewrite Z2Nat.id by lia. consts.
  rewrite Z.shiftl_mul_pow2 by lia. change (2 ^ 12) with 0x1000.
  rewrite u32_id by lia. rewrite make_entry_eq by lia.
  change mapping_flags with 3. lia.
Qed.

Lemma frame_addr_identity_entry : 
  stage7a_paging_frame_addr (stage7a_paging_make_entry addr_identity_page_table mapping_flags)
  = addr_identity_page_table.
Proof.
  destruct KLO. rewrite frame_addr_make_entry by done. lia.
Qed.

Lemma setup_early_identity_paging_eq p :
  length (page_directory p) = 1024%nat → length (identity_table p) = 1024%nat →
  stage7b_setup_early_identity_paging p =
    Ret tt (set_identity_table identity_entries (set_page_directory early_directory p)).
Proof.
  intros Hd Hi. destruct KLO.
  unfold stage7b_setup_early_identity_paging, stage7b_clear_page_directory,
    stage7b_clear_page_table. cbv zeta.
  unfold mbind at 1, M_bind. rewrite (directory_fill (λ _, 0)) by done.
  unfold mbind at 1, M_bind.
  rewrite (table_fill _ (identity_table p) (λ _, 0)) by done.
  unfold mbind at 1, M_bind.
  rewrite (table_fill _ ((λ _, 0) <$> seqZ 0 1024) identity_entry);
    [|done|by rewrite length_fmap, length_seqZ].
  rewrite directory_write_ok by (rewrite !page_directory_with_table; cbn [page_directory set_page_directory];
    rewrite length_fmap, length_seqZ; lia).
  simpl table_addr. rewrite frame_addr_aligned by done.
  by rewrite !fmap_const_seqZ.
Qed.

(** With the directory loaded, a walk finds exactly the identity map. *)
Lemma mmu_walk_identity p va :
  page_directory p = early_directory → identity_table p = identity_entries →
  cr3 p = addr_page_directory → is_u32 va →
  mmu_walk p va = if va <? 0x400000 then Some va else None.
Proof.
  intros Hd Hi Hc Hva. destruct KLO. unfold mmu_walk, directory_table.
  rewrite Hc, frame_addr_aligned, Z.eqb_refl by done. simpl negb. cbv iota.
  rewrite Hd, pd_index_eq, pt_index_eq, page_offset_eq.
  destruct (Z.ltb_spec va 0x400000).
  - rewrite (Z.div_small va 0x400000), Z.mod_0_l by lia. simpl.
    rewrite make_entry_present by done. simpl.
    rewrite frame_addr_identity_entry, page_table_at_identity. simpl.
    rewrite Hi, identity_entries_lookup by lia. simpl.
    rewrite is_present_eq, frame_addr_eq by lia.
    replace ((va / 0x1000) mod 1024) with (va / 0x1000) by lia.
    destruct (Z.eqb_spec ((va / 0x1000 * 0x1000 + 3) mod 2) 0); [lia|].
    simpl. f_equal. lia.
  - assert (1 ≤ (va / 0x400000) mod 1024 < 1024) as Hpd by lia.
    generalize dependent ((va / 0x400000) mod 1024). intros i Hpd.
    unfold array_get, early_directory. rewrite decide_True by lia.
    replace (Z.to_nat i) with (S (Z.to_nat (i - 1))) by lia. simpl.
    rewrite lookup_replicate_2 by lia. done.
Qed.

Lemma paging_bit_set a :
  negb (Z.land (Z.lor a STAGE7C_CR0_PG_MASK) STAGE7C_CR0_PG_MASK =? 0) = true.
Proof.
  rewrite Z.land_lor_distr_l, Z.land_diag.
  destruct (Z.eqb_spec (Z.lor (Z.land a STAGE7C_CR0_PG_MASK) STAGE7C_CR0_PG_MASK) 0) as [E|];
    [|done]. apply Z.lor_eq_0_iff in E as [_ E]. done.
Qed.

Lemma activation_eq p :
  length (page_directory p) = 1024%nat → length (identity_table p) = 1024%nat →
  ∃ p',
    (stage7b_setup_early_identity_paging ;;
     stage7c_load_cr3_with_early_page_directory ;;
     stage7c_set_cr0_paging_enable) p = Ret tt p' ∧
    paging_enabled p' = true ∧ tlb_coherent p' ∧
    page_directory p' = early_directory ∧ identity_table p' = identity_entries ∧
    mutable_tables p' = mutable_tables p ∧ cr3 p' = addr_page_directory ∧
    ∀ va, is_u32 va → translate p' va = if va <? 0x400000 then Some va else None.
Proof.
  intros Hd Hi. eexists. split.
  { unfold mbind at 1, M_bind. rewrite setup_early_identity_paging_eq by done.
    cbv [mbind M_bind stage7c_load_cr3_with_early_page_directory
      stage7c_set_cr0_paging_enable stage7c_read_cr0 gets modify]. reflexivity. }
  assert (stage7a_paging_frame_addr stage7b_get_early_page_directory = addr_page_directory) as ->.
  { destruct KLO. by apply frame_addr_aligned. }
  split_and!; [apply paging_bit_set| |reflexivity..|].
  - intros page frame Hpf. cbn [tlb set_tlb set_cr0 set_cr3] in Hpf. by rewrite lookup_empty in Hpf.
  - intros va Hva. unfold translate, paging_enabled. simpl. rewrite paging_bit_set. by apply mmu_walk_identity.
Qed.

(** C32. Setting up the tables, loading the directory and enabling paging leaves
    the processor with the identity map of the first 4 MiB and nothing else:
    every 32-bit address below reaches itself, every other one faults. *)
Theorem activation_gives_identity_map p :
  length (page_directory p) = 1024%nat → length (identity_table p) = 1024%nat →
  ∃ p',
    (stage7b_setup_early_identity_paging ;;
     stage7c_load_cr3_with_early_page_directory ;;
     stage7c_set_cr0_paging_enable) p = Ret tt p' ∧
    paging_enabled p' = true ∧ tlb_coherent p' ∧
    ∀ va, is_u32 va → translate p' va = if va <? 0x400000 then Some va else None.
Proof.
  intros Hd Hi. destruct (activation_eq p Hd Hi) as (p' & ? & ? & ? & _ & _ & _ & _ & ?). eauto.
Qed.
End identity_map.

Lemma activation_gives_identity_map_witness :
  ∃ p', (@stage7b_setup_early_identity_paging qemu_layout ;;
     @stage7c_load_cr3_with_early_page_directory qemu_layout ;;
     stage7c_set_cr0_paging_enable) (reset_paging_state 0x11 0 ∅) = Ret tt p' ∧
    @translate qemu_layout p' 0xB8000 = Some 0xB8000.
Proof.
  destruct (@activation_gives_identity_map qemu_layout qemu_layout_ok
    (reset_paging_state 0x11 0 ∅)) as (p' & Hp & _ & _ & Ht);
    [reflexivity|reflexivity|].
  exists p'. split; [exact Hp|]. rewrite Ht; [reflexivity|lia].
Defined.
