(* ===== verification/Vmm.v ===== *)
(** * The single-page mapping interface ([kernel/mm/vmm.c])

    [map_page], [unmap_page], [is_page_mapped] and [resolve_page_frame] over
    the three statically reserved page tables of the mutable window
    0x00400000-0x01000000, with the invariant of the paging structures they
    maintain and the refinement to a partial map from pages to frames: the
    processor's own walk. *)
From S2P Require Import Prelude KernelMonad VmmLayout Paging.
#[local] Open Scope Z_scope.

Definition STAGE8B_VMM_SINGLE_TABLE_SPAN : Z :=
  STAGE7A_PAGING_ENTRIES_PER_TABLE * STAGE7A_PAGING_PAGE_SIZE.
Definition STAGE8B_VMM_MUTABLE_RESERVED_START : Z :=
  STAGE8A_VMM_LAYOUT_FUTURE_HEAP_RESERVED_START.
Definition STAGE8B_VMM_MUTABLE_RESERVED_END_EXCLUSIVE : Z :=
  STAGE8A_VMM_LAYOUT_FUTURE_MAPPING_RESERVED_END_EXCLUSIVE.
Definition STAGE8B_VMM_MUTABLE_RESERVED_SPAN : Z :=
  STAGE8B_VMM_MUTABLE_RESERVED_END_EXCLUSIVE - STAGE8B_VMM_MUTABLE_RESERVED_START.
Definition STAGE8B_VMM_MUTABLE_TABLE_COUNT : Z :=
  STAGE8B_VMM_MUTABLE_RESERVED_SPAN / STAGE8B_VMM_SINGLE_TABLE_SPAN.

(** The two [_Static_assert]s of the file. *)
Lemma mutable_span_exact :
  STAGE8B_VMM_MUTABLE_RESERVED_SPAN mod STAGE8B_VMM_SINGLE_TABLE_SPAN = 0.
Proof. reflexivity. Qed.
Lemma mutable_table_count : STAGE8B_VMM_MUTABLE_TABLE_COUNT = MUTABLE_TABLE_COUNT.
Proof. reflexivity. Qed.

Definition stage8b_vmm_is_page_aligned (addr : Z) : bool :=
  stage7a_paging_page_offset addr =? 0.

(** [invlpg] drops the cached translation of the page. *)
Definition stage8b_vmm_invalidate_page (virtual_page_addr : Z) : M paging_state unit :=
  modify (λ p, set_tlb (delete (stage7a_paging_frame_addr virtual_page_addr) (tlb p)) p).

Section vmm.
Context `{KL : KernelLayout}.

(** [None] is a pointer to something that is not a page table of the kernel. *)
Definition stage8b_vmm_page_table_from_entry (entry : Z) : option table_ptr :=
  page_table_at (stage7a_paging_frame_addr entry).

Definition stage8b_vmm_clear_page_table (page_table : table_ptr) : M paging_state unit :=
  for_u32 STAGE7A_PAGING_ENTRIES_PER_TABLE (λ i, table_write page_table i 0).

Definition stage8b_vmm_table_is_empty (page_table : table_ptr) : M paging_state bool :=
  loop (S (Z.to_nat STAGE7A_PAGING_ENTRIES_PER_TABLE)) (λ i,
    if i <? STAGE7A_PAGING_ENTRIES_PER_TABLE then
      e ← table_read page_table i;
      if is_present e then break false else continue (u32 (i + 1))
    else break true) 0.

(** The result is the return value and the two out-parameters. *)
Definition stage8b_vmm_get_reserved_mapping_slot (virtual_page_addr : Z)
    (out_pd_index out_table_slot : option Z) : bool * option Z * option Z :=
  let reserved_start_pd_index := stage7a_paging_pd_index STAGE8B_VMM_MUTABLE_RESERVED_START in
  let pd_index := stage7a_paging_pd_index virtual_page_addr in
  if negb (stage8a_vmm_layout_is_addr_in_future_heap_reserved virtual_page_addr)
     && negb (stage8a_vmm_layout_is_addr_in_future_mapping_reserved virtual_page_addr)
  then (false, out_pd_index, out_table_slot) else
  if pd_index <? reserved_start_pd_index
  then (false, out_pd_index, out_table_slot) else
  let table_slot := u32 (pd_index - reserved_start_pd_index) in
  if STAGE8B_VMM_MUTABLE_TABLE_COUNT <=? table_slot
  then (false, out_pd_index, out_table_slot) else
  (true, (λ _, pd_index) <$> out_pd_index, (λ _, table_slot) <$> out_table_slot).

Definition stage8b_vmm_is_page_mapped (virtual_page_addr : Z) : M paging_state bool :=
  let pd_index := stage7a_paging_pd_index virtual_page_addr in
  let pt_index := stage7a_paging_pt_index virtual_page_addr in
  pde ← directory_read pd_index;
  if negb (stage8b_vmm_is_page_aligned virtual_page_addr) then mret false else
  if negb (is_present pde) then mret false else
  page_table ← from_option (stage8b_vmm_page_table_from_entry pde);
  pte ← table_read page_table pt_index;
  mret (is_present pte).

Definition stage8b_vmm_resolve_page_frame (virtual_page_addr : Z)
    (out_physical_frame_addr : option Z) : M paging_state (bool * option Z) :=
  let pd_index := stage7a_paging_pd_index virtual_page_addr in
  let pt_index := stage7a_paging_pt_index virtual_page_addr in
  pde ← directory_read pd_index;
  match out_physical_frame_addr with
  | None => mret (false, None)
  | Some _ =>
      if negb (stage8b_vmm_is_page_aligned virtual_page_addr)
      then mret (false, out_physical_frame_addr) else
      if negb (is_present pde) then mret (false, out_physical_frame_addr) else
      page_table ← from_option (stage8b_vmm_page_table_from_entry pde);
      pte ← table_read page_table pt_index;
      if negb (is_present pte) then mret (false, out_physical_frame_addr) else
      mret (true, Some (stage7a_paging_frame_addr pte))
  end.

Definition stage8b_vmm_map_page (virtual_page_addr physical_frame_addr : Z)
    : M paging_state bool :=
  let mapping_flags := Z.lor STAGE7A_PAGING_FLAG_PRESENT STAGE7A_PAGING_FLAG_WRITABLE in
  if negb (stage8b_vmm_is_page_aligned virtual_page_addr) then mret false else
  if negb (stage8b_vmm_is_page_aligned physical_frame_addr) then mret false else
  match stage8b_vmm_get_reserved_mapping_slot virtual_page_addr (Some 0) (Some 0) with
  | (true, Some pd_index, Some table_slot) =>
      let expected_page_table := MutableReservedPageTable table_slot in
      pde ← directory_read pd_index;
      ok ← (if negb (is_present pde) then
              stage8b_vmm_clear_page_table expected_page_table ;;
              directory_write pd_index
                (stage7a_paging_make_entry (table_addr expected_page_table) mapping_flags) ;;
              mret true
            else
              mret (stage7a_paging_frame_addr pde
                    =? stage7a_paging_frame_addr (table_addr expected_page_table)));
      if negb ok then mret false else
      let pt_index := stage7a_paging_pt_index virtual_page_addr in
      pte ← table_read expected_page_table pt_index;
      if is_present pte then mret false else
      table_write expected_page_table pt_index
        (stage7a_paging_make_entry physical_frame_addr mapping_flags) ;;
      stage8b_vmm_invalidate_page virtual_page_addr ;;
      mret true
  | _ => mret false
  end.

Definition stage8b_vmm_unmap_page (virtual_page_addr : Z) : M paging_state bool :=
  if negb (stage8b_vmm_is_page_aligned virtual_page_addr) then mret false else
  match stage8b_vmm_get_reserved_mapping_slot virtual_page_addr (Some 0) (Some 0) with
  | (true, Some pd_index, Some table_slot) =>
      let expected_page_table := MutableReservedPageTable table_slot in
      pde ← directory_read pd_index;
      if negb (is_present pde) then mret false else
      if negb (stage7a_paging_frame_addr pde
               =? stage7a_paging_frame_addr (table_addr expected_page_table))
      then mret false else
      let pt_index := stage7a_paging_pt_index virtual_page_addr in
      pte ← table_read expected_page_table pt_index;
      if negb (is_present pte) then mret false else
      table_write expected_page_table pt_index 0 ;;
      stage8b_vmm_invalidate_page virtual_page_addr ;;
      is_empty ← stage8b_vmm_table_is_empty expected_page_table;
      (if is_empty : bool then directory_write pd_index 0 else mret tt) ;;
      mret true
  | _ => mret false
  end.

(** ** The invariant of the paging structures *)
Definition pde_ok (i e : Z) : Prop :=
  if decide (i = 0) then e = stage7a_paging_make_entry addr_identity_page_table mapping_flags
  else if decide (1 ≤ i ≤ MUTABLE_TABLE_COUNT) then
    e = 0 ∨ e = stage7a_paging_make_entry
                  (table_addr (MutableReservedPageTable (i - 1))) mapping_flags
  else e = 0.

Definition pte_ok (e : Z) : Prop :=
  e = 0 ∨ ∃ f : Z, is_u32 f ∧ f mod 0x1000 = 0 ∧ e = stage7a_paging_make_entry f mapping_flags.

Record vmm_wf (p : paging_state) : Prop := {
  wf_cr3 : cr3 p = addr_page_directory;
  wf_enabled : paging_enabled p = true;
  wf_directory : length (page_directory p) = 1024%nat;
  wf_pdes : ∀ i (e : Z), array_get (page_directory p) i = Some e → pde_ok i e;
  wf_identity : identity_table p = identity_entries;
  wf_tables : length (mutable_tables p) = 3%nat;
  wf_ptes : ∀ k (l : list Z), array_get (mutable_tables p) k = Some l →
              length l = 1024%nat ∧ Forall pte_ok l;
  wf_tlb : tlb_coherent p;
}.

(** The addresses the interface may map. *)
Definition in_window (va : Z) : Prop := 0x400000 ≤ va < 0x1000000.
Definition same_page (a b : Z) : Prop := a / 0x1000 = b / 0x1000.
#[global] Instance in_window_dec va : Decision (in_window va).
Proof. unfold in_window. apply _. Defined.
#[global] Instance same_page_dec a b : Decision (same_page a b).
Proof. unfold same_page. apply _. Defined.
End vmm.

(** ** Walks through a well-formed directory *)
Section walks.
Context `{KL : KernelLayout, KLO : !KernelLayoutOk}.
Implicit Types p : paging_state.

Definition window_slot (va : Z) : Z := va / 0x400000 - 1.

(** What the processor sees through the directory entry of slot [k]. *)
Definition slot_contents (p : paging_state) (k : Z) : list Z :=
  default (replicate 1024 0) (directory_table p (k + 1)).

Lemma table_addr_ok k :
  0 ≤ k < MUTABLE_TABLE_COUNT →
  is_u32 (table_addr (MutableReservedPageTable k)) ∧
  table_addr (MutableReservedPageTable k) mod 0x1000 = 0.
Proof. intros Hk. destruct KLO. simpl. consts. lia. Qed.

Lemma window_slot_bounds va : in_window va → 0 ≤ window_slot va < MUTABLE_TABLE_COUNT.
Proof. unfold in_window, window_slot. consts. lia. Qed.

Lemma window_indices va :
  in_window va →
  stage7a_paging_pd_index va = window_slot va + 1 ∧
  stage7a_paging_pt_index va = (va / 0x1000) mod 1024.
Proof.
  unfold in_window, window_slot. intros. rewrite pd_index_eq, pt_index_eq. lia.
Qed.

Lemma same_page_window va va' :
  in_window va → is_u32 va' → window_slot va' = window_slot va →
  same_page va va' ∨ stage7a_paging_pt_index va ≠ stage7a_paging_pt_index va'.
Proof.
  unfold in_window, same_page, window_slot. intros Hw Hva' Hs.
  rewrite !pt_index_eq. lia.
Qed.

Lemma page_aligned_spec a : is_u32 a → stage8b_vmm_is_page_aligned a = (a mod 0x1000 =? 0).
Proof. intros. unfold stage8b_vmm_is_page_aligned. by rewrite page_offset_eq. Qed.

Lemma reserved_mapping_slot_spec va :
  is_u32 va →
  stage8b_vmm_get_reserved_mapping_slot va (Some 0) (Some 0) =
    if decide (in_window va)
    then (true, Some (window_slot va + 1), Some (window_slot va))
    else (false, Some 0, Some 0).
Proof.
  intros Hva. unfold stage8b_vmm_get_reserved_mapping_slot.
  change (stage7a_paging_pd_index STAGE8B_VMM_MUTABLE_RESERVED_START) with 1.
  change STAGE8B_VMM_MUTABLE_TABLE_COUNT with 3.
  unfold stage8a_vmm_layout_is_addr_in_future_heap_reserved,
    stage8a_vmm_layout_is_addr_in_future_mapping_reserved,
    stage8a_vmm_layout_addr_in_half_open_range. consts.
  rewrite <- negb_orb. unfold in_window.
  destruct (decide (0x400000 ≤ va < 0x1000000)) as [Hw|Hw].
  - destruct (window_indices va Hw) as [-> _].
    pose proof (window_slot_bounds va Hw). consts.
    rewrite u32_id by lia.
    destruct (Z.ltb_spec (window_slot va + 1) 1), (Z.leb_spec 3 (window_slot va + 1 - 1)); try lia.
    replace (window_slot va + 1 - 1) with (window_slot va) by lia.
    match goal with |- context [negb ?b] => replace b with true by lia end. done.
  - match goal with |- context [negb ?b] => replace b with false by lia end. done.
Qed.

Lemma directory_entry p i :
  vmm_wf p → 0 ≤ i < 1024 →
  ∃ e, array_get (page_directory p) i = Some e ∧ pde_ok i e.
Proof.
  intros Hwf Hi. destruct (array_get_lt (page_directory p) i) as [e He].
  { rewrite (wf_directory _ Hwf). lia. }
  eauto using wf_pdes.
Qed.

Lemma slot_table p k :
  vmm_wf p → 0 ≤ k < MUTABLE_TABLE_COUNT →
  ∃ l, table_entries (MutableReservedPageTable k) p = Some l ∧
       length l = 1024%nat ∧ Forall pte_ok l.
Proof.
  intros Hwf Hk. consts. destruct (array_get_lt (mutable_tables p) k) as [l Hl].
  { rewrite (wf_tables _ Hwf). lia. }
  exists l. split; [done|]. eauto using wf_ptes.
Qed.

(** The two shapes a mutable directory entry can have. *)
Lemma slot_cases p k l :
  vmm_wf p → 0 ≤ k < MUTABLE_TABLE_COUNT →
  table_entries (MutableReservedPageTable k) p = Some l →
  ∃ e, array_get (page_directory p) (k + 1) = Some e ∧
  ((e = 0 ∧ directory_table p (k + 1) = None) ∨
   (e = stage7a_paging_make_entry (table_addr (MutableReservedPageTable k)) mapping_flags ∧
    directory_table p (k + 1) = Some l)).
Proof.
  intros Hwf Hk Hl. destruct (table_addr_ok k Hk) as [Hu Ha].
  destruct (directory_entry p (k + 1) Hwf) as (e & He & Hok); [zlia|].
  exists e. split; [done|]. unfold directory_table. rewrite He. simpl.
  unfold pde_ok in Hok. consts. rewrite decide_False, decide_True in Hok by lia.
  replace (k + 1 - 1) with k in Hok by lia.
  destruct Hok as [->| ->]; [left|right]; (split; [done|]).
  - done.
  - rewrite make_entry_present, frame_addr_make_entry by done. simpl negb. cbv iota.
    rewrite Ha, Z.sub_0_r, page_table_at_mutable by done. done.
Qed.

Lemma slot_contents_length p k :
  vmm_wf p → 0 ≤ k < MUTABLE_TABLE_COUNT → 
  length (slot_contents p k) = 1024%nat ∧ Forall pte_ok (slot_contents p k).
Proof.
  intros Hwf Hk. destruct (slot_table p k Hwf Hk) as (l & Hl & Hlen & Hok).
  destruct (slot_cases p k l Hwf Hk Hl) as (e & _ & [[_ Hd]|[_ Hd]]);
    unfold slot_contents; rewrite Hd; simpl; [|done].
  split; [done|]. apply Forall_replicate. by left.
Qed.

Definition walk_entry (pte : option Z) (va : Z) : option Z :=
  pte ← pte;
  if negb (is_present pte) then None else
  Some (stage7a_paging_frame_addr pte + stage7a_paging_page_offset va).

Lemma mmu_walk_window p va :
  vmm_wf p → in_window va →
  mmu_walk p va =
    walk_entry (array_get (slot_contents p (window_slot va)) (stage7a_paging_pt_index va)) va.
Proof.
  intros Hwf Hw. pose proof (window_slot_bounds va Hw) as Hk.
  destruct KLO. unfold mmu_walk. rewrite (wf_cr3 _ Hwf), frame_addr_aligned, Z.eqb_refl by done.
  simpl negb. cbv iota. destruct (window_indices va Hw) as [-> _].
  destruct (slot_table p _ Hwf Hk) as (l & Hl & Hlen & _).
  unfold slot_contents.
  destruct (slot_cases p _ l Hwf Hk Hl) as (e & _ & [[_ ->]|[_ ->]]); simpl; [|done].
  rewrite array_get_replicate; [done|]. rewrite pt_index_eq. lia.
Qed.

Lemma mmu_walk_low p va : vmm_wf p → 0 ≤ va < 0x400000 → mmu_walk p va = Some va.
Proof.
  intros Hwf Hva. destruct KLO. unfold mmu_walk, directory_table.
  rewrite (wf_cr3 _ Hwf), frame_addr_aligned, Z.eqb_refl by done. simpl negb. cbv iota.
  rewrite pd_index_eq, pt_index_eq, page_offset_eq.
  rewrite (Z.div_small va 0x400000), Z.mod_0_l by lia.
  destruct (directory_entry p 0 Hwf) as (e & -> & Hok); [lia|].
  unfold pde_ok in Hok. rewrite decide_True in Hok by done. subst e. simpl.
  rewrite make_entry_present by done. simpl.
  rewrite frame_addr_identity_entry, page_table_at_identity. simpl.
  rewrite (wf_identity _ Hwf), identity_entries_lookup by lia. simpl.
  rewrite is_present_eq, frame_addr_eq by lia.
  replace ((va / 0x1000) mod 1024) with (va / 0x1000) by lia.
  destruct (Z.eqb_spec ((va / 0x1000 * 0x1000 + 3) mod 2) 0); [lia|]. simpl. f_equal. lia.
Qed.

Lemma mmu_walk_high p va : vmm_wf p → is_u32 va → 0x1000000 ≤ va → mmu_walk p va = None.
Proof.
  intros Hwf Hva Hge. unfold mmu_walk, directory_table. case_match; [done|].
  rewrite pd_index_eq.
  destruct (directory_entry p ((va / 0x400000) mod 1024) Hwf) as (e & -> & Hok); [lia|].
  unfold pde_ok in Hok. consts. rewrite decide_False, decide_False in Hok by lia.
  by subst e.
Qed.

(** A walk translates a page; the offset is carried over. *)
Lemma mmu_walk_page p a :
  mmu_walk p a = (λ f, f + a mod 0x1000) <$> mmu_walk p (a - a mod 0x1000).
Proof.
  unfold mmu_walk. destruct (negb _); [done|].
  rewrite !pd_index_eq, !pt_index_eq, !page_offset_eq.
  replace ((a - a mod 0x1000) / 0x400000) with (a / 0x400000) by lia.
  replace ((a - a mod 0x1000) / 0x1000) with (a / 0x1000) by lia.
  replace ((a - a mod 0x1000) mod 0x1000) with 0 by lia.
  destruct (directory_table _ _) as [es|]; cbn; [|done].
  destruct (array_get es _) as [pte|]; cbn; [|done].
  destruct (negb _); cbn; [done|]. f_equal. lia.
Qed.

(** With a coherent TLB every access goes where a walk goes. *)
Lemma translate_walk p va : vmm_wf p → is_u32 va → translate p va = mmu_walk p va.
Proof.
  intros Hwf Hva. unfold translate. rewrite (wf_enabled _ Hwf). simpl.
  destruct (tlb p !! stage7a_paging_frame_addr va) as [f|] eqn:Hf; [|done].
  destruct (wf_tlb _ Hwf _ _ Hf) as (_ & _ & Hwalk).
  rewrite frame_addr_eq in Hwalk by done.
  by rewrite mmu_walk_page, Hwalk, page_offset_eq.
Qed.
End walks.

(** ** Mapping and unmapping as updates of the slot contents *)
Section updates.
Context `{KL : KernelLayout, KLO : !KernelLayoutOk}.
Implicit Types p : paging_state.

(** The state with page [va]'s entry set to [pte], its table reachable and its
    cached translation gone. *)
Definition set_entry (va pte : Z) (p : paging_state) : paging_state :=
  let k := window_slot va in
  set_tlb (delete va (tlb p))
    (with_table (MutableReservedPageTable k)
      (<[Z.to_nat (stage7a_paging_pt_index va) := pte]> (slot_contents p k))
      (set_page_directory
        (<[Z.to_nat (k + 1) :=
             stage7a_paging_make_entry (table_addr (MutableReservedPageTable k)) mapping_flags]>
          (page_directory p)) p)).

(** The state with the directory entry of [va]'s table cleared. *)
Definition drop_table (va : Z) (p : paging_state) : paging_state :=
  set_page_directory (<[Z.to_nat (window_slot va + 1) := 0]> (page_directory p)) p.

Definition entry_of (va : Z) (p : paging_state) : option Z :=
  array_get (slot_contents p (window_slot va)) (stage7a_paging_pt_index va).

Lemma entry_of_ok p va :
  vmm_wf p → in_window va →
  ∃ e, entry_of va p = Some e ∧ pte_ok e ∧
       mmu_walk p va = walk_entry (Some e) va.
Proof.
  intros Hwf Hw. pose proof (window_slot_bounds va Hw) as Hk.
  destruct (slot_contents_length p _ Hwf Hk) as [Hlen Hok].
  rewrite mmu_walk_window by done. unfold entry_of.
  destruct (array_get_lt (slot_contents p (window_slot va)) (stage7a_paging_pt_index va))
    as [e He]; [rewrite Hlen, pt_index_eq; lia|].
  rewrite He. exists e. split_and!; [done| |done].
  eapply Forall_lookup_1; [exact Hok|]. unfold array_get in He. by case_decide.
Qed.

(** Whether an entry maps its page. *)
Lemma walk_entry_present e va : 
  walk_entry (Some e) va = if is_present e
    then Some (stage7a_paging_frame_addr e + stage7a_paging_page_offset va) else None.
Proof. unfold walk_entry. simpl. by destruct (is_present e). Qed.

Lemma set_page_directory_id p : set_page_directory (page_directory p) p = p.
Proof. by destruct p. Qed.

Lemma map_page_eq p va pa e :
  vmm_wf p → is_u32 va → is_u32 pa → in_window va →
  va mod 0x1000 = 0 → pa mod 0x1000 = 0 → entry_of va p = Some e →
  stage8b_vmm_map_page va pa p =
    if is_present e then Ret false p
    else Ret true (set_entry va (stage7a_paging_make_entry pa mapping_flags) p).
Proof.
  intros Hwf Hva Hpa Hw Hav Hap He. pose proof (window_slot_bounds va Hw) as Hk.
  destruct (slot_table p _ Hwf Hk) as (l & Hl & Hlen & Hok).
  destruct (table_addr_ok _ Hk) as [Hu Ha].
  unfold stage8b_vmm_map_page. fold mapping_flags.
  rewrite !page_aligned_spec, Hav, Hap, Z.eqb_refl by done.
  rewrite reserved_mapping_slot_spec, decide_True by done. cbn [negb].
  unfold entry_of, slot_contents in He. unfold set_entry, slot_contents.
  destruct (slot_cases p _ l Hwf Hk Hl) as (pde & Hpde & [[-> Hd]|[-> Hd]]);
    rewrite Hd in *; cbn [default] in *; mrun (directory_read_ok _ _ _ Hpde).
  - rewrite array_get_replicate in He by (rewrite pt_index_eq; lia). injection He as <-.
    rewrite is_present_0. cbn [negb].
    erewrite bind_run; last first.
    { unfold stage8b_vmm_clear_page_table.
      mrun (table_fill _ _ (λ _, 0) _ Hl Hlen). rewrite fmap_const_seqZ.
      erewrite bind_run; [|apply directory_write_ok]; [reflexivity|].
      rewrite page_directory_with_table, (wf_directory _ Hwf). zlia. }
    cbn [negb].
    assert (∀ d, table_entries (MutableReservedPageTable (window_slot va))
      (set_page_directory d (with_table (MutableReservedPageTable (window_slot va))
        (replicate (Z.to_nat 1024) 0) p)) = Some (replicate 1024 0)) as Hl'.
    { intros d. rewrite table_entries_set_page_directory.
      by erewrite table_entries_with_table. }
    erewrite bind_run; [|eapply table_read_ok; [apply Hl'|]];
      [|apply array_get_replicate; rewrite pt_index_eq; lia].
    rewrite is_present_0.
    erewrite bind_run; [|eapply table_write_ok; [apply Hl'|]];
      [|rewrite length_replicate, pt_index_eq; lia].
    unfold stage8b_vmm_invalidate_page. rewrite bind_modify.
    rewrite frame_addr_aligned by done. rewrite page_directory_with_table.
    rewrite tlb_with_table, with_table_through_directory. cbn [tlb set_page_directory].
    by rewrite tlb_with_table.
  - rewrite make_entry_present by done. cbn [negb].
    rewrite frame_addr_make_entry, Ha, Z.sub_0_r, frame_addr_aligned, Z.eqb_refl by done.
    rewrite bind_mret. cbn [negb].
    erewrite bind_run; [|eapply table_read_ok; [exact Hl|exact He]].
    destruct (is_present e); [done|].
    erewrite bind_run; [|eapply table_write_ok; [exact Hl|]];
      [|rewrite Hlen, pt_index_eq; lia].
    unfold stage8b_vmm_invalidate_page. rewrite bind_modify.
    rewrite frame_addr_aligned by done. rewrite tlb_with_table.
    by rewrite (list_insert_id (page_directory p)), set_page_directory_id by by apply array_get_lookup.
Qed.

(** *** What an update changes *)
Lemma directory_table_set_entry p va pte i :
  vmm_wf p → in_window va →
  directory_table (set_entry va pte p) i =
    if decide (i = window_slot va + 1)
    then Some (<[Z.to_nat (stage7a_paging_pt_index va) := pte]> (slot_contents p (window_slot va)))
    else directory_table p i.
Proof.
  intros Hwf Hw. pose proof (window_slot_bounds va Hw) as Hk.
  destruct (slot_table p _ Hwf Hk) as (l & Hl & Hlen & _).
  destruct (table_addr_ok _ Hk) as [Hu Ha].
  set (contents := <[_ := pte]> _). unfold directory_table, set_entry. fold contents.
  cbn [page_directory set_tlb]. rewrite page_directory_with_table.
  cbn [page_directory set_page_directory].
  rewrite array_get_insert by (rewrite (wf_directory _ Hwf); zlia).
  destruct (decide (window_slot va + 1 = i)) as [<-|Hi].
  - rewrite decide_True by done. cbn [mbind option_bind].
    rewrite make_entry_present, frame_addr_make_entry, Ha, Z.sub_0_r, page_table_at_mutable by done.
    cbn [negb mbind option_bind]. rewrite table_entries_set_tlb.
    by erewrite table_entries_with_table.
  - rewrite decide_False by done.
    destruct (array_get (page_directory p) i) as [e|] eqn:He; [|done]. cbn [mbind option_bind].
    destruct (is_present e) eqn:Hpres; [|done]. cbn [negb].
    pose proof (array_get_Some _ _ _ He) as Hib. rewrite (wf_directory _ Hwf) in Hib.
    assert (∃ t, page_table_at (stage7a_paging_frame_addr e) = Some t ∧
                 t ≠ MutableReservedPageTable (window_slot va)) as (t & -> & Hne).
    { pose proof (wf_pdes _ Hwf _ _ He) as Hok. unfold pde_ok in Hok.
      case_decide; [|case_decide].
      - subst e. rewrite frame_addr_identity_entry, page_table_at_identity. eauto.
      - destruct Hok as [->| ->]; [done|].
        assert (0 ≤ i - 1 < MUTABLE_TABLE_COUNT) as Hi1 by lia.
        destruct (table_addr_ok _ Hi1) as [Hu' Ha'].
        rewrite frame_addr_make_entry, Ha', Z.sub_0_r, page_table_at_mutable by done.
        eexists. split; [done|]. intros [= ?]. lia.
      - by subst e. }
    cbn [mbind option_bind]. rewrite table_entries_set_tlb.
    by erewrite table_entries_with_table_ne.
Qed.

Lemma same_page_indices a b :
  is_u32 a → is_u32 b →
  same_page a b ↔ stage7a_paging_pd_index a = stage7a_paging_pd_index b ∧
                  stage7a_paging_pt_index a = stage7a_paging_pt_index b.
Proof. intros Ha Hb. unfold same_page. rewrite !pd_index_eq, !pt_index_eq. lia. Qed.

Lemma mmu_walk_set_entry p va pte a :
  vmm_wf p → in_window va → is_u32 a →
  mmu_walk (set_entry va pte p) a =
    if decide (same_page va a) then walk_entry (Some pte) a else mmu_walk p a.
Proof.
  intros Hwf Hw Ha. pose proof (window_slot_bounds va Hw) as Hk.
  assert (is_u32 va) as Hva by (unfold in_window in Hw; lia).
  destruct (slot_contents_length p _ Hwf Hk) as [Hlen _].
  destruct (window_indices va Hw) as [Hpd _].
  unfold mmu_walk. rewrite directory_table_set_entry by done.
  unfold set_entry. cbn [cr3 set_tlb]. rewrite cr3_with_table. cbn [cr3 set_page_directory].
  destruct KLO. rewrite (wf_cr3 _ Hwf), frame_addr_aligned, Z.eqb_refl by done. cbn [negb].
  rewrite <- Hpd. destruct (decide (stage7a_paging_pd_index a = stage7a_paging_pd_index va)) as [Hi|Hi].
  - cbn [mbind option_bind]. rewrite array_get_insert by (rewrite Hlen, pt_index_eq; lia).
    destruct (decide (stage7a_paging_pt_index va = stage7a_paging_pt_index a)) as [Hj|Hj].
    + rewrite decide_True; [done|]. by apply same_page_indices.
    + rewrite decide_False; [|rewrite same_page_indices by done; tauto].
      rewrite Hi, Hpd. unfold slot_contents.
      destruct (slot_table p _ Hwf Hk) as (l & Hl & _).
      destruct (slot_cases p _ l Hwf Hk Hl) as (e & _ & [[_ ->]|[_ ->]]); cbn; [|done].
      rewrite array_get_replicate; [done|]. rewrite pt_index_eq. lia.
  - rewrite decide_False; [done|]. rewrite same_page_indices by done. intros []. congruence.
Qed.

Lemma set_entry_wf p va pte :
  vmm_wf p → in_window va → va mod 0x1000 = 0 → pte_ok pte → vmm_wf (set_entry va pte p).
Proof.
  intros Hwf Hw Hal Hpte. pose proof (window_slot_bounds va Hw) as Hk.
  destruct (slot_contents_length p _ Hwf Hk) as [Hlen Hok].
  constructor.
  - unfold set_entry. cbn. by rewrite (wf_cr3 _ Hwf).
  - apply (wf_enabled _ Hwf).
  - unfold set_entry. cbn. rewrite length_insert. apply (wf_directory _ Hwf).
  - intros i e. unfold set_entry. cbn [page_directory set_tlb].
    rewrite page_directory_with_table. cbn [page_directory set_page_directory].
    rewrite array_get_insert by (rewrite (wf_directory _ Hwf); zlia).
    case_decide as Hi; [|apply (wf_pdes _ Hwf)]. intros [= <-]. subst i.
    unfold pde_ok. rewrite decide_False, decide_True by lia. right. by replace (window_slot va + 1 - 1) with (window_slot va) by lia.
  - apply (wf_identity _ Hwf).
  - unfold set_entry. cbn. rewrite length_insert. apply (wf_tables _ Hwf).
  - intros k l. unfold set_entry. cbn [mutable_tables set_tlb with_table set_mutable_tables].
    cbn [mutable_tables set_page_directory].
    rewrite array_get_insert by (rewrite (wf_tables _ Hwf); consts; lia).
    case_decide; [|apply (wf_ptes _ Hwf)]. intros [= <-].
    rewrite length_insert. split; [done|]. by apply Forall_insert.
  - intros page frame. unfold set_entry at 1. cbn [tlb set_tlb].
    intros [Hne Hpage]%lookup_delete_Some.
    destruct (wf_tlb _ Hwf _ _ Hpage) as (Hu & Ha & Hwalk). split_and!; [lia..|].
    rewrite mmu_walk_set_entry by done. rewrite decide_False; [done|].
    unfold same_page. lia.
Qed.

Lemma bind_None_r {A B} (o : option A) : (o ≫= λ _, @None B) = None.
Proof. by destruct o. Qed.

(** Clearing the directory entry of an empty table changes no translation. *)
Lemma mmu_walk_drop_table p va a :
  vmm_wf p → in_window va →
  Forall (λ e, is_present e = false) (slot_contents p (window_slot va)) →
  mmu_walk (drop_table va p) a = mmu_walk p a.
Proof.
  intros Hwf Hw Hempty. pose proof (window_slot_bounds va Hw) as Hk.
  unfold mmu_walk, drop_table, directory_table. cbn [cr3 set_page_directory page_directory].
  case_match; [done|].
  rewrite array_get_insert by (rewrite (wf_directory _ Hwf); zlia).
  case_decide as Hi; cbn [mbind option_bind].
  - rewrite is_present_0. cbn [negb mbind option_bind]. rewrite <- Hi.
    fold (directory_table p (window_slot va + 1)).
    unfold slot_contents in Hempty.
    destruct (directory_table p (window_slot va + 1)) as [l|]; cbn in *; [|done].
    destruct (array_get l _) as [e|] eqn:He; cbn; [|done].
    apply array_get_lookup in He. rewrite Forall_lookup in Hempty.
    by rewrite (Hempty _ _ He).
  - destruct (array_get (page_directory p) _) as [e|]; cbn [mbind option_bind]; [|done].
    destruct (negb _); [done|]. destruct (page_table_at _) as [t|]; [|done].
    cbn [mbind option_bind]. by rewrite table_entries_set_page_directory.
Qed.

Lemma drop_table_wf p va :
  vmm_wf p → in_window va →
  Forall (λ e, is_present e = false) (slot_contents p (window_slot va)) →
  vmm_wf (drop_table va p).
Proof.
  intros Hwf Hw Hempty. pose proof (window_slot_bounds va Hw) as Hk.
  constructor; try apply Hwf.
  - cbn. rewrite length_insert. apply (wf_directory _ Hwf).
  - intros i e. cbn [drop_table page_directory set_page_directory].
    unfold drop_table. cbn [page_directory set_page_directory].
    rewrite array_get_insert by (rewrite (wf_directory _ Hwf); zlia).
    case_decide as Hi; [|apply (wf_pdes _ Hwf)]. intros [= <-]. subst i.
    unfold pde_ok. rewrite decide_False, decide_True by lia. by left.
  - intros page frame Hpf. destruct (wf_tlb _ Hwf page frame Hpf) as (? & ? & ?).
    split_and!; [lia..|]. by rewrite mmu_walk_drop_table.
Qed.

Lemma table_is_empty_eq p t l :
  table_entries t p = Some l → length l = 1024%nat →
  ∃ b, stage8b_vmm_table_is_empty t p = Ret b p ∧
       (b = true ↔ Forall (λ e, is_present e = false) l).
Proof.
  intros Hl Hlen.
  assert (wp (stage8b_vmm_table_is_empty t)
    (λ b p', p' = p ∧ (b = true ↔ Forall (λ e, is_present e = false) l)) p) as Hwp.
  { apply (wp_loop (λ i p', p' = p ∧ 0 ≤ i ≤ 1024 ∧
        ∀ j e, l !! j = Some e → Z.of_nat j < i → is_present e = false) (λ i _, 1024 - i)).
    - split_and!; [done|lia|lia|]. intros; lia.
    - intros i p' (-> & Hi & Hprefix). consts. destruct (Z.ltb_spec i 1024).
      + apply wp_bind. destruct (array_get_lt l i) as [e He]; [lia|].
        eapply wp_Ret; [by eapply table_read_ok|]. destruct (is_present e) eqn:Hpres; wp_steps.
        * split; [done|]. split; [done|]. intros Hall. apply array_get_lookup in He.
          eapply Forall_lookup_1 in Hall; [|exact He]. cbn in Hall. congruence.
        * rewrite u32_id by lia. split_and!; try done; [lia..| |lia|lia].
          intros j e' Hj Hlt. destruct (decide (j = Z.to_nat i)) as [->|].
          -- apply array_get_lookup in He. congruence.
          -- eapply Hprefix; [done|lia].
      + wp_steps. split; [done|]. split; [|done]. intros _. apply Forall_lookup_2.
        intros j e Hj. eapply Hprefix; [done|]. apply lookup_lt_Some in Hj. lia.
    - lia.
    - zlia. }
  apply wp_run in Hwp as (b & p' & Hrun & -> & Hb). eauto.
Qed.

Lemma unmap_page_eq p va e :
  vmm_wf p → is_u32 va → in_window va → va mod 0x1000 = 0 → entry_of va p = Some e →
  (is_present e = false ∧ stage8b_vmm_unmap_page va p = Ret false p) ∨
  (is_present e = true ∧
   let p1 := set_entry va 0 p in
   (stage8b_vmm_unmap_page va p = Ret true p1 ∨
    stage8b_vmm_unmap_page va p = Ret true (drop_table va p1) ∧
    Forall (λ e, is_present e = false) (slot_contents p1 (window_slot va)))).
Proof.
  intros Hwf Hva Hw Hav He. pose proof (window_slot_bounds va Hw) as Hk.
  destruct (slot_table p _ Hwf Hk) as (l & Hl & Hlen & Hok).
  destruct (table_addr_ok _ Hk) as [Hu Ha].
  unfold stage8b_vmm_unmap_page.
  rewrite !page_aligned_spec, Hav, Z.eqb_refl by done.
  rewrite reserved_mapping_slot_spec, decide_True by done. cbn [negb].
  unfold entry_of, slot_contents in He.
  destruct (slot_cases p _ l Hwf Hk Hl) as (pde & Hpde & [[-> Hd]|[-> Hd]]);
    rewrite Hd in He; cbn [default] in He; mrun (directory_read_ok _ _ _ Hpde).
  { left. rewrite array_get_replicate in He by (rewrite pt_index_eq; lia).
    injection He as <-. by rewrite is_present_0. }
  rewrite make_entry_present by done. cbn [negb].
  rewrite frame_addr_make_entry, Ha, Z.sub_0_r, frame_addr_aligned, Z.eqb_refl by done.
  cbn [negb]. erewrite bind_run; [|eapply table_read_ok; [exact Hl|exact He]].
  destruct (is_present e); [right|by left]. split; [done|]. cbn [negb].
  erewrite bind_run; [|eapply table_write_ok; [exact Hl|]]; [|rewrite Hlen, pt_index_eq; lia].
  unfold stage8b_vmm_invalidate_page. rewrite bind_modify.
  rewrite frame_addr_aligned, tlb_with_table by done.
  assert (set_entry va 0 p = set_tlb (delete va (tlb p))
    (with_table (MutableReservedPageTable (window_slot va))
      (<[Z.to_nat (stage7a_paging_pt_index va):=0]> l) p)) as Hse.
  { unfold set_entry, slot_contents. rewrite Hd. cbn [default].
    by rewrite (list_insert_id (page_directory p)), set_page_directory_id
      by by apply array_get_lookup. }
  cbv zeta. rewrite <- Hse.
  destruct (table_is_empty_eq (set_entry va 0 p) (MutableReservedPageTable (window_slot va))
    (<[Z.to_nat (stage7a_paging_pt_index va):=0]> l)) as (b & Hb & Hiff).
  { rewrite Hse, table_entries_set_tlb. by erewrite table_entries_with_table. }
  { by rewrite length_insert. }
  mrun Hb. destruct b; [right|by left]. split.
  - rewrite (bind_run _ _ _ tt (drop_table va (set_entry va 0 p))); [done|].
    rewrite directory_write_ok; [done|].
    rewrite Hse. cbn. rewrite (wf_directory _ Hwf). zlia.
  - unfold slot_contents. rewrite directory_table_set_entry, decide_True by done.
    unfold slot_contents. rewrite Hd. cbn [default]. by apply Hiff.
Qed.
End updates.

(** ** The interface refines a partial map from pages to frames

    [translate] is the processor's view of the state: the map the interface
    edits. *)
Section refinement.
Context `{KL : KernelLayout, KLO : !KernelLayoutOk}.
Implicit Types p : paging_state.

(** When [map_page] accepts, and when [unmap_page] does. *)
Definition can_map (p : paging_state) (va pa : Z) : Prop :=
  va mod 0x1000 = 0 ∧ pa mod 0x1000 = 0 ∧ in_window va ∧ translate p va = None.
Definition can_unmap (p : paging_state) (va : Z) : Prop :=
  va mod 0x1000 = 0 ∧ in_window va ∧ translate p va ≠ None.
#[global] Instance can_map_dec p va pa : Decision (can_map p va pa).
Proof. unfold can_map. apply _. Defined.
#[global] Instance can_unmap_dec p va : Decision (can_unmap p va).
Proof. unfold can_unmap. apply _. Defined.

Lemma make_entry_pte_ok f :
  is_u32 f → f mod 0x1000 = 0 → pte_ok (stage7a_paging_make_entry f mapping_flags).
Proof. right. eauto. Qed.

Lemma map_page_rejects p va pa :
  is_u32 va → is_u32 pa → ¬ (va mod 0x1000 = 0 ∧ pa mod 0x1000 = 0 ∧ in_window va) →
  stage8b_vmm_map_page va pa p = Ret false p.
Proof.
  intros Hva Hpa Hno. unfold stage8b_vmm_map_page. rewrite !page_aligned_spec by done.
  destruct (Z.eqb_spec (va mod 0x1000) 0); [|done]. cbn [negb].
  destruct (Z.eqb_spec (pa mod 0x1000) 0); [|done]. cbn [negb].
  rewrite reserved_mapping_slot_spec, decide_False by tauto. done.
Qed.

Lemma unmap_page_rejects p va :
  is_u32 va → ¬ (va mod 0x1000 = 0 ∧ in_window va) →
  stage8b_vmm_unmap_page va p = Ret false p.
Proof.
  intros Hva Hno. unfold stage8b_vmm_unmap_page. rewrite !page_aligned_spec by done.
  destruct (Z.eqb_spec (va mod 0x1000) 0); [|done]. cbn [negb].
  rewrite reserved_mapping_slot_spec, decide_False by tauto. done.
Qed.

(** [map_page] succeeds exactly on an aligned, unmapped page of the window
    and an aligned frame.  On success precisely that page now reaches the
    frame and no other address moves; on failure nothing changes. *)
Lemma map_page_spec p va pa :
  vmm_wf p → is_u32 va → is_u32 pa →
  ∃ p', stage8b_vmm_map_page va pa p = Ret (bool_decide (can_map p va pa)) p' ∧
    vmm_wf p' ∧
    (¬ can_map p va pa → p' = p) ∧
    ∀ a, is_u32 a → translate p' a =
      if decide (can_map p va pa ∧ same_page va a)
      then Some (pa + stage7a_paging_page_offset a) else translate p a.
Proof.
  intros Hwf Hva Hpa.
  destruct (decide (va mod 0x1000 = 0 ∧ pa mod 0x1000 = 0 ∧ in_window va))
    as [(Hav & Hap & Hw)|Hno].
  - destruct (entry_of_ok p va Hwf Hw) as (e & He & Hok & Hwalk).
    assert (can_map p va pa ↔ is_present e = false) as Hcan.
    { unfold can_map. rewrite translate_walk, Hwalk, walk_entry_present by done.
      destruct (is_present e); naive_solver. }
    erewrite map_page_eq by done. destruct (is_present e); eexists.
    + rewrite bool_decide_false by (rewrite Hcan; done). split_and!; [done..|].
      intros a Ha. by rewrite decide_False by (rewrite Hcan; naive_solver).
    + assert (vmm_wf (set_entry va (stage7a_paging_make_entry pa mapping_flags) p)) as Hwf'.
      { apply set_entry_wf; try done. by apply make_entry_pte_ok. }
      rewrite bool_decide_true by (by apply Hcan). split_and!; [done|done|tauto|].
      intros a Ha. rewrite !translate_walk, mmu_walk_set_entry by done.
      rewrite walk_entry_present, make_entry_present, frame_addr_make_entry by done.
      rewrite Hap, Z.sub_0_r. repeat case_decide; tauto.
  - assert (¬ can_map p va pa) by (unfold can_map; tauto).
    exists p. rewrite map_page_rejects, bool_decide_false by done. split_and!; [done..|].
    intros a Ha. by rewrite decide_False by tauto.
Qed.

(** [unmap_page] succeeds exactly on an aligned, mapped page of the window.
    On success precisely that page faults from then on, also through the
    TLB, and no other address moves, although the whole page table is
    detached when it has become empty. *)
Lemma unmap_page_spec p va :
  vmm_wf p → is_u32 va →
  ∃ p', stage8b_vmm_unmap_page va p = Ret (bool_decide (can_unmap p va)) p' ∧
    vmm_wf p' ∧
    (¬ can_unmap p va → p' = p) ∧
    ∀ a, is_u32 a → translate p' a =
      if decide (can_unmap p va ∧ same_page va a) then None else translate p a.
Proof.
  intros Hwf Hva.
  destruct (decide (va mod 0x1000 = 0 ∧ in_window va)) as [(Hav & Hw)|Hno].
  - destruct (entry_of_ok p va Hwf Hw) as (e & He & Hok & Hwalk).
    assert (vmm_wf (set_entry va 0 p)) as Hwf1 by (apply set_entry_wf; try done; by left).
    assert (can_unmap p va ↔ is_present e = true) as Hcan.
    { unfold can_unmap. rewrite translate_walk, Hwalk, walk_entry_present by done.
      destruct (is_present e); naive_solver. }
    destruct (unmap_page_eq p va e Hwf Hva Hw Hav He) as [[Hpres ->]|[Hpres Hcase]];
      rewrite Hpres in Hcan.
    + exists p. rewrite bool_decide_false by (rewrite Hcan; done). split_and!; [done..|].
      intros a Ha. by rewrite decide_False by (rewrite Hcan; naive_solver).
    + assert (∃ p', stage8b_vmm_unmap_page va p = Ret true p' ∧ vmm_wf p' ∧
        ∀ a, mmu_walk p' a = mmu_walk (set_entry va 0 p) a) as (p' & -> & Hwf' & Hw').
      { destruct Hcase as [->|[-> Hempty]]; eexists; (split; [done|]); [done|].
        split; [by apply drop_table_wf|]. intros a. by apply mmu_walk_drop_table. }
      exists p'. rewrite bool_decide_true by (by apply Hcan). split_and!; [done|done|tauto|].
      intros a Ha. rewrite !translate_walk, Hw', mmu_walk_set_entry by done.
      rewrite walk_entry_present, is_present_0. repeat case_decide; tauto.
  - assert (¬ can_unmap p va) by (unfold can_unmap; tauto).
    exists p. rewrite unmap_page_rejects, bool_decide_false by done. split_and!; [done..|].
    intros a Ha. by rewrite decide_False by tauto.
Qed.

Lemma queries_run p va o :
  vmm_wf p → is_u32 va →
  stage8b_vmm_resolve_page_frame va (Some o) p =
    Ret (match (if va mod 0x1000 =? 0 then translate p va else None) with
         | Some f => (true, Some f) | None => (false, Some o) end) p ∧
  stage8b_vmm_is_page_mapped va p =
    Ret (bool_decide (va mod 0x1000 = 0 ∧ translate p va ≠ None)) p.
Proof.
  intros Hwf Hva. rewrite translate_walk by done.
  assert (∃ e, array_get (page_directory p) (stage7a_paging_pd_index va) = Some e ∧
    pde_ok (stage7a_paging_pd_index va) e) as (e & He & Hok).
  { apply directory_entry; [done|]. rewrite pd_index_eq. lia. }
  unfold stage8b_vmm_resolve_page_frame, stage8b_vmm_is_page_mapped,
    stage8b_vmm_page_table_from_entry, mmu_walk, directory_table.
  do 2 mrun (directory_read_ok _ _ _ He). rewrite !page_aligned_spec by done.
  rewrite (wf_cr3 _ Hwf), (frame_addr_aligned addr_page_directory), Z.eqb_refl
    by (destruct KLO; done). cbn [negb].
  destruct (Z.eqb_spec (va mod 0x1000) 0) as [Hal|Hal]; cbn [negb];
    [|rewrite bool_decide_false by (intros [? _]; contradiction); split; reflexivity].
  rewrite He. cbn [mbind option_bind].
  destruct (is_present e) eqn:Hpres; cbn [negb]; [|rewrite bool_decide_false by (intros [_ Hne]; exact (Hne eq_refl)); split; reflexivity].
  assert (∃ t l, page_table_at (stage7a_paging_frame_addr e) = Some t ∧
    table_entries t p = Some l ∧ length l = 1024%nat) as (t & l & -> & Hl & Hlen).
  { unfold pde_ok in Hok. case_decide; [|case_decide].
    - subst e. rewrite frame_addr_identity_entry, page_table_at_identity.
      do 2 eexists. split_and!; [done|cbn; by rewrite (wf_identity _ Hwf)|].
      unfold identity_entries. by rewrite length_fmap, length_seqZ.
    - destruct Hok as [->| ->]; [done|].
      assert (0 ≤ stage7a_paging_pd_index va - 1 < MUTABLE_TABLE_COUNT) as Hi by lia.
      destruct (table_addr_ok _ Hi) as [Hu' Ha'].
      rewrite frame_addr_make_entry, Ha', Z.sub_0_r, page_table_at_mutable by done.
      destruct (slot_table p _ Hwf Hi) as (l & Hl & Hlen & _). eauto.
    - by subst e. }
  cbn [mbind option_bind]. rewrite Hl. cbn [mbind option_bind].
  destruct (array_get_lt l (stage7a_paging_pt_index va)) as [pte Hpte].
  { rewrite Hlen, pt_index_eq. lia. }
  rewrite Hpte. cbn [mbind option_bind].
  do 2 (rewrite (bind_from_option _ t) by done).
  do 2 (erewrite bind_run by (eapply table_read_ok; [exact Hl|exact Hpte])).
  rewrite page_offset_eq, Hal, Z.add_0_r.
  destruct (is_present pte); cbn [negb].
  - rewrite bool_decide_true by (split; congruence). split; reflexivity.
  - rewrite bool_decide_false by (intros [_ Hne]; exact (Hne eq_refl)). split; reflexivity.
Qed.

(** C31. The software walk agrees with the processor at every aligned address,
    inside and outside the window, and reports unaligned ones as unmapped. *)
Theorem queries_agree_with_mmu p va o :
  vmm_wf p → is_u32 va →
  stage8b_vmm_resolve_page_frame va (Some o) p =
    Ret (match (if va mod 0x1000 =? 0 then translate p va else None) with
         | Some f => (true, Some f) | None => (false, Some o) end) p ∧
  stage8b_vmm_is_page_mapped va p =
    Ret (bool_decide (va mod 0x1000 = 0 ∧ translate p va ≠ None)) p.
Proof. apply queries_run. Qed.

(** Two paging states are equivalent when the processor cannot tell them
    apart. *)
Definition paging_equiv (p q : paging_state) : Prop :=
  ∀ a, is_u32 a → translate p a = translate q a.
#[global] Instance paging_equiv_equivalence : Equivalence paging_equiv.
Proof.
  split; [by intros p a|by intros p q Hpq a Ha; rewrite Hpq|].
  intros p q r Hpq Hqr a Ha. by rewrite Hpq, Hqr.
Qed.
#[global] Instance translate_proper a :
  is_u32 a → Proper (paging_equiv ==> eq) (λ p, translate p a).
Proof. intros Ha p q Hpq. by apply Hpq. Qed.
#[global] Instance can_map_proper :
  Proper (paging_equiv ==> eq ==> eq ==> iff) (λ p va pa, can_map p va pa).
Proof.
  intros p q Hpq va ? <- pa ? <-. unfold can_map, in_window.
  split; intros (?&?&Hw&Ht); (split_and!; [lia..|]).
  - rewrite <- Hpq by lia. done.
  - rewrite Hpq by lia. done.
Qed.

(** C30. Mapping and then unmapping a page undoes the mapping: the processor
    cannot tell the state from the one before. *)
Theorem map_unmap_roundtrip p va pa :
  vmm_wf p → is_u32 pa → can_map p va pa →
  ∃ p1 p2, stage8b_vmm_map_page va pa p = Ret true p1 ∧
    stage8b_vmm_unmap_page va p1 = Ret true p2 ∧ vmm_wf p2 ∧ paging_equiv p2 p.
Proof.
  intros Hwf Hpa Hcan. assert (is_u32 va) as Hva.
  { unfold can_map, in_window in Hcan. lia. }
  destruct (map_page_spec p va pa Hwf Hva Hpa) as (p1 & Hm & Hwf1 & _ & Ht1).
  destruct (unmap_page_spec p1 va Hwf1 Hva) as (p2 & Hu & Hwf2 & _ & Ht2).
  rewrite bool_decide_true in Hm by done.
  assert (can_unmap p1 va) as Hcu.
  { unfold can_unmap. rewrite Ht1, decide_True by done. destruct Hcan as (? & ? & ? & ?). by split_and!. }
  rewrite bool_decide_true in Hu by done.
  exists p1, p2. split_and!; [done..|]. intros a Ha. rewrite Ht2, Ht1 by done.
  repeat case_decide; try tauto.
  assert (translate p va = None) as Hnone by apply Hcan.
  rewrite translate_walk, mmu_walk_page in Hnone |- * by done.
  match goal with H : _ ∧ same_page _ _ |- _ => destruct H as [_ Hsame] end.
  unfold same_page in Hsame.
  replace (va - va mod 0x1000) with (a - a mod 0x1000) in Hnone by lia.
  by destruct (mmu_walk p (a - a mod 0x1000)).
Qed.

(** *** Traces of operations *)
Inductive vmm_op : Set :=
| OpMap (virtual_addr physical_addr : Z)
| OpUnmap (virtual_addr : Z)
| OpIsMapped (virtual_addr : Z)
| OpResolve (virtual_addr : Z) (out : option Z).    (* what the out-parameter points to *)
Inductive vmm_result : Set :=
| Flag (b : bool)
| Frame (found : bool) (out : option Z).

Definition run_op (op : vmm_op) : M paging_state vmm_result :=
  match op with
  | OpMap va pa => b ← stage8b_vmm_map_page va pa; mret (Flag b)
  | OpUnmap va => b ← stage8b_vmm_unmap_page va; mret (Flag b)
  | OpIsMapped va => b ← stage8b_vmm_is_page_mapped va; mret (Flag b)
  | OpResolve va out => '(found, out) ← stage8b_vmm_resolve_page_frame va out; mret (Frame found out)
  end.
Definition op_u32 (op : vmm_op) : Prop :=
  match op with
  | OpMap va pa => is_u32 va ∧ is_u32 pa
  | OpUnmap va | OpIsMapped va | OpResolve va _ => is_u32 va
  end.

Fixpoint run_ops (ops : list vmm_op) : M paging_state (list vmm_result) :=
  match ops with
  | [] => mret []
  | op :: ops => r ← run_op op; rs ← run_ops ops; mret (r :: rs)
  end.

(** The specification: a partial map on addresses, edited a page at a time, and
    read at page addresses. *)
Definition address_map : Type := Z → option Z.
Definition spec_op (op : vmm_op) (m : address_map) : vmm_result * address_map :=
  match op with
  | OpMap va pa =>
      if decide (va mod 0x1000 = 0 ∧ pa mod 0x1000 = 0 ∧ in_window va ∧ m va = None)
      then (Flag true, λ a, if decide (same_page va a) then Some (pa + a mod 0x1000) else m a)
      else (Flag false, m)
  | OpUnmap va =>
      if decide (va mod 0x1000 = 0 ∧ in_window va ∧ m va ≠ None)
      then (Flag true, λ a, if decide (same_page va a) then None else m a)
      else (Flag false, m)
  | OpIsMapped va => (Flag (bool_decide (va mod 0x1000 = 0 ∧ m va ≠ None)), m)
  | OpResolve va out =>
      (match out, (if va mod 0x1000 =? 0 then m va else None) with
       | Some _, Some f => Frame true (Some f) | _, _ => Frame false out end, m)
  end.
Fixpoint spec_ops (ops : list vmm_op) (m : address_map) : list vmm_result * address_map :=
  match ops with
  | [] => ([], m)
  | op :: ops => let '(r, m1) := spec_op op m in
                 let '(rs, m2) := spec_ops ops m1 in (r :: rs, m2)
  end.

Definition implements (p : paging_state) (m : address_map) : Prop :=
  ∀ a, is_u32 a → translate p a = m a.

Lemma resolve_null p va :
  vmm_wf p → is_u32 va → stage8b_vmm_resolve_page_frame va None p = Ret (false, None) p.
Proof.
  intros Hwf Hva. destruct (directory_entry p (stage7a_paging_pd_index va) Hwf) as (e & He & _).
  { rewrite pd_index_eq. lia. }
  unfold stage8b_vmm_resolve_page_frame. by mrun (directory_read_ok _ _ _ He).
Qed.

Lemma run_op_refines p m op :
  vmm_wf p → implements p m → op_u32 op →
  ∃ p', run_op op p = Ret (spec_op op m).1 p' ∧ vmm_wf p' ∧ implements p' (spec_op op m).2.
Proof.
  intros Hwf Hm Hu. destruct op as [va pa|va|va|va out]; cbn [run_op spec_op op_u32] in *.
  - destruct Hu as [Hva Hpa].
    destruct (map_page_spec p va pa Hwf Hva Hpa) as (p' & E & Hwf' & _ & Ht). mrun E.
    assert (can_map p va pa ↔ va mod 0x1000 = 0 ∧ pa mod 0x1000 = 0 ∧ in_window va ∧ m va = None)
      as Hiff by (unfold can_map; by rewrite (Hm va Hva)).
    exists p'. case_decide as Hc; cbn [fst snd]; rewrite <- Hiff in Hc.
    + rewrite bool_decide_true by done. split_and!; [done..|].
      intros a Ha. rewrite Ht, Hm, page_offset_eq by done. repeat case_decide; tauto.
    + rewrite bool_decide_false by done. split_and!; [done..|].
      intros a Ha. by rewrite Ht, Hm, decide_False by tauto.
  - destruct (unmap_page_spec p va Hwf Hu) as (p' & E & Hwf' & _ & Ht). mrun E.
    assert (can_unmap p va ↔ va mod 0x1000 = 0 ∧ in_window va ∧ m va ≠ None)
      as Hiff by (unfold can_unmap; by rewrite (Hm va Hu)).
    exists p'. case_decide as Hc; cbn [fst snd]; rewrite <- Hiff in Hc.
    + rewrite bool_decide_true by done. split_and!; [done..|].
      intros a Ha. rewrite Ht, Hm by done. repeat case_decide; tauto.
    + rewrite bool_decide_false by done. split_and!; [done..|].
      intros a Ha. by rewrite Ht, Hm, decide_False by tauto.
  - destruct (queries_run p va 0 Hwf Hu) as [_ E]. mrun E. exists p. by rewrite (Hm va Hu).
  - destruct out as [out|]; [|mrun (resolve_null p va Hwf Hu); by exists p].
    destruct (queries_run p va out Hwf Hu) as [E _]. mrun E. exists p. rewrite (Hm va Hu).
    by destruct (if va mod 0x1000 =? 0 then m va else None).
Qed.

(** C4. Refinement: any sequence of map, unmap and query calls returns what the
    partial map returns (the frame a resolution stores through its out-parameter
    included) and leaves the processor translating by the edited map, with
    the paging invariant (TLB coherence included) intact throughout. *)
Theorem vmm_trace_refines p m ops :
  vmm_wf p → implements p m → Forall op_u32 ops →
  ∃ p', run_ops ops p = Ret (spec_ops ops m).1 p' ∧
    vmm_wf p' ∧ implements p' (spec_ops ops m).2.
Proof.
  intros Hwf Hm Hu. revert p m Hwf Hm.
  induction Hu as [|op ops Hop Hu IH]; intros p m Hwf Hm; cbn [run_ops spec_ops]; [eauto|].
  destruct (run_op_refines p m op Hwf Hm Hop) as (p1 & Hrun & Hwf1 & Hm1).
  mrun Hrun. destruct (spec_op op m) as [r m1]. cbn [fst snd] in *.
  destruct (IH p1 m1 Hwf1 Hm1) as (p2 & Hrun2 & Hwf2 & Hm2).
  mrun Hrun2. destruct (spec_ops ops m1) as [rs m2]. cbn [fst snd] in *. eauto.
Qed.

(** Activating paging in the state static initialisation leaves establishes
    the invariant. *)
Lemma activation_wf c0 c3 t :
  ∃ p', (stage7b_setup_early_identity_paging ;;
         stage7c_load_cr3_with_early_page_directory ;;
         stage7c_set_cr0_paging_enable) (reset_paging_state c0 c3 t) = Ret tt p' ∧
    vmm_wf p' ∧ ∀ va, is_u32 va → translate p' va = if va <? 0x400000 then Some va else None.
Proof.
  destruct (activation_eq (reset_paging_state c0 c3 t)) as (p' & Hrun & Hen & Htlb & Hd & Hi & Hm & Hc & Ht);
    [reflexivity..|]. exists p'. split; [exact Hrun|]. split; [|exact Ht].
  constructor.
  - exact Hc.
  - exact Hen.
  - rewrite Hd. unfold early_directory. cbn [length]. by rewrite length_replicate.
  - rewrite Hd. intros i e. unfold early_directory, pde_ok, array_get.
    case_decide; [|done]. destruct (decide (i = 0)) as [->|]; [by intros [= <-]|].
    replace (Z.to_nat i) with (S (Z.to_nat (i - 1))) by lia. cbn [lookup list_lookup].
    intros [-> _]%lookup_replicate. case_decide; auto.
  - exact Hi.
  - by rewrite Hm.
  - rewrite Hm. intros k l Hl%array_get_lookup. cbn [mutable_tables reset_paging_state] in Hl.
    apply lookup_replicate in Hl as [-> _]. rewrite length_replicate. split; [done|].
    apply Forall_replicate. by left.
  - exact Htlb.
Qed.
End refinement.

(** ** The theorems at concrete inputs *)
Section witnesses.
#[local] Existing Instance qemu_layout.
#[local] Existing Instance qemu_layout_ok.

Definition identity_only : address_map := λ va, if va <? 0x400000 then Some va else None.

Lemma vmm_trace_refines_witness :
  ∃ p p', vmm_wf p ∧
    run_ops [OpMap 0x400000 0x200000; OpMap 0x400000 0x300000; OpResolve 0x400000 (Some 7);
             OpUnmap 0x400000; OpIsMapped 0x400000; OpResolve 0x400000 (Some 7); OpMap 0x1000 0x200000] p
    = Ret [Flag true; Flag false; Frame true (Some 0x200000); Flag true; Flag false;
           Frame false (Some 7); Flag false] p' ∧ translate p' 0x400000 = None.
Proof.
  destruct (activation_wf 0x11 0 ∅) as (p & _ & Hwf & Ht).
  destruct (vmm_trace_refines p identity_only
    [OpMap 0x400000 0x200000; OpMap 0x400000 0x300000; OpResolve 0x400000 (Some 7);
     OpUnmap 0x400000; OpIsMapped 0x400000; OpResolve 0x400000 (Some 7); OpMap 0x1000 0x200000])
    as (p' & Hrun & _ & Hm).
  - exact Hwf.
  - exact Ht.
  - repeat constructor; lia.
  - exists p, p'. split; [exact Hwf|]. split; [exact Hrun|].
    rewrite Hm by lia. reflexivity.
Defined.

Lemma queries_agree_with_mmu_witness :
  ∃ p, vmm_wf p ∧
    stage8b_vmm_resolve_page_frame 0xB8000 (Some 0) p = Ret (true, Some 0xB8000) p.
Proof.
  destruct (activation_wf 0x11 0 ∅) as (p & _ & Hwf & Ht). exists p. split; [exact Hwf|].
  destruct (queries_agree_with_mmu p 0xB8000 0 Hwf) as [-> _]; [lia|].
  rewrite Ht by lia. reflexivity.
Defined.

Lemma map_unmap_roundtrip_witness :
  ∃ p p1 p2, stage8b_vmm_map_page 0x800000 0x300000 p = Ret true p1 ∧
    stage8b_vmm_unmap_page 0x800000 p1 = Ret true p2 ∧ paging_equiv p2 p.
Proof.
  destruct (activation_wf 0x11 0 ∅) as (p & _ & Hwf & Ht).
  destruct (map_unmap_roundtrip p 0x800000 0x300000 Hwf) as (p1 & p2 & H1 & H2 & _ & Heq).
  - lia.
  - unfold can_map, in_window. rewrite Ht by lia. repeat split; lia.
  - exists p, p1, p2. split; [exact H1|]. split; [exact H2|exact Heq].
Defined.
End witnesses.
