(* ===== verification/Memory.v ===== *)
(** * Memory as the kernel's pointers reach it

    Loads and stores through raw pointers ([(struct s* )(uintptr_t)addr],
    [(uint8_t* )dest] and so on) go through the MMU of [Paging] to physical
    memory.  An access to an unmapped page is a page fault.  The static
    objects of the kernel image (page tables, bookkeeping, stack) are separate
    components of the state, so a raw pointer into the image is [undefined]
    here: the theorems show that the code never uses one.  Multi-byte accesses
    are little-endian. *)
From S2P Require Import Prelude KernelMonad Paging.
#[local] Open Scope Z_scope.

(** [extern uint8_t __kernel_phys_start, __kernel_phys_end] (linker.ld). *)
Class KernelImage := {
  kernel_phys_start : Z;
  kernel_phys_end : Z;
}.

Record memory := mk_memory {
  paging : paging_state;
  ram : gmap Z Z;           (* bytes written since power-on *)
  power_on : Z → Z;         (* what the memory held before *)
}.

Definition set_paging p m := mk_memory p (ram m) (power_on m).
Definition set_ram r m := mk_memory (paging m) r (power_on m).

Definition paging_lens : lens memory paging_state := Lens paging set_paging.
#[export] Instance paging_lens_laws : LensLaws paging_lens.
Proof. split; by repeat intros []. Qed.

Definition ram_byte (m : memory) (pa : Z) : Z := u8 (default (power_on m pa) (ram m !! pa)).
Definition set_ram_byte (pa v : Z) (m : memory) : memory := set_ram (<[pa := u8 v]> (ram m)) m.

(** ** Words *)
Definition le_byte (k : Z) (v : Z) : Z := (v / 256 ^ k) mod 256.
Definition le_word (b0 b1 b2 b3 : Z) : Z :=
  b0 + 0x100 * b1 + 0x10000 * b2 + 0x1000000 * b3.

Section memory.
Context `{KernelLayout, KernelImage}.

(** The physical byte behind a pointer. *)
Definition in_kernel_image (pa : Z) : bool :=
  (kernel_phys_start <=? pa) && (pa <? kernel_phys_end).

Definition phys (m : memory) (va : Z) : option Z :=
  pa ← translate (paging m) va;
  if in_kernel_image pa then None else Some pa.

Definition resolve (va : Z) : M memory Z :=
  m ← get;
  match translate (paging m) va with
  | None => page_fault va
  | Some pa => if in_kernel_image pa then undefined else mret pa
  end.

(** [*(uint8_t* )va] and [*(uint32_t* )va]; a faulting store writes nothing. *)
Definition load8 (va : Z) : M memory Z :=
  pa ← resolve va;
  gets (λ m, ram_byte m pa).
Definition store8 (va v : Z) : M memory unit :=
  pa ← resolve va;
  modify (set_ram_byte pa v).
Definition load32 (va : Z) : M memory Z :=
  b0 ← load8 va;
  b1 ← load8 (u32 (va + 1));
  b2 ← load8 (u32 (va + 2));
  b3 ← load8 (u32 (va + 3));
  mret (le_word b0 b1 b2 b3).
Definition store32 (va v : Z) : M memory unit :=
  a0 ← resolve va;
  a1 ← resolve (u32 (va + 1));
  a2 ← resolve (u32 (va + 2));
  a3 ← resolve (u32 (va + 3));
  modify (λ m,
    set_ram_byte a3 (le_byte 3 v) (set_ram_byte a2 (le_byte 2 v)
      (set_ram_byte a1 (le_byte 1 v) (set_ram_byte a0 (le_byte 0 v) m)))).
Definition load64 (va : Z) : M memory Z :=
  lo ← load32 va;
  hi ← load32 (u32 (va + 4));
  mret (lo + 0x100000000 * hi).

(** ** The virtual view

    [vbyte m va] and [vword m va] are what a load at [va] yields; a window
    [lo, hi) is [usable] when every address in it reaches its own byte. *)
Definition vbyte (m : memory) (va : Z) : Z :=
  match phys m va with Some pa => ram_byte m pa | None => 0 end.
Definition vword (m : memory) (va : Z) : Z :=
  le_word (vbyte m va) (vbyte m (va + 1)) (vbyte m (va + 2)) (vbyte m (va + 3)).

Record usable (m : memory) (D : Z → Prop) : Prop := {
  usable_phys va : D va → is_Some (phys m va);
  usable_inj a b : D a → D b → phys m a = phys m b → a = b;
}.

Definition within (lo hi : Z) : Z → Prop := λ va, lo ≤ va < hi.

(** Memories that differ only in the bytes. *)
Definition same_paging (m m' : memory) : Prop := paging m' = paging m.

(** [m'] is [m] with the bytes of [f] written at the addresses of [W]. *)
Definition written (m m' : memory) (D W : Z → Prop) (f : Z → Z) : Prop :=
  same_paging m m' ∧
  (∀ va, D va → W va → vbyte m' va = f va) ∧
  (∀ va, D va → ¬ W va → vbyte m' va = vbyte m va).

End memory.

(** ** Lemmas: words *)
Lemma le_word_bytes v :
  is_u32 v → le_word (le_byte 0 v) (le_byte 1 v) (le_byte 2 v) (le_byte 3 v) = v.
Proof.
  intros Hv. unfold le_word, le_byte.
  change (256 ^ 0) with 1. change (256 ^ 1) with 0x100.
  change (256 ^ 2) with 0x10000. change (256 ^ 3) with 0x1000000. lia.
Qed.

Lemma le_byte_u8 k v : is_u8 (le_byte k v).
Proof. unfold le_byte. lia. Qed.
#[export] Hint Resolve le_byte_u8 : core.

Lemma le_word_u32 b0 b1 b2 b3 :
  is_u8 b0 → is_u8 b1 → is_u8 b2 → is_u8 b3 → is_u32 (le_word b0 b1 b2 b3).
Proof. unfold le_word. lia. Qed.

(** ** Lemmas: bytes *)
Section lemmas.
Context `{KL : KernelLayout, KI : KernelImage}.
Implicit Types m : memory.

Lemma ram_byte_u8 m pa : is_u8 (ram_byte m pa).
Proof. apply u8_range. Qed.

Lemma ram_byte_set m pa pb v :
  ram_byte (set_ram_byte pa v m) pb = if decide (pa = pb) then u8 v else ram_byte m pb.
Proof.
  unfold ram_byte, set_ram_byte. simpl. case_decide as Hp.
  - subst. rewrite lookup_insert_eq. simpl. apply u8_id, u8_range.
  - by rewrite lookup_insert_ne.
Qed.

Lemma phys_set_ram_byte m pa v va : phys (set_ram_byte pa v m) va = phys m va.
Proof. done. Qed.

Lemma vbyte_u8 m va : is_u8 (vbyte m va).
Proof. unfold vbyte. destruct (phys m va); [apply ram_byte_u8|lia]. Qed.
Lemma vword_u32 m va : is_u32 (vword m va).
Proof. apply le_word_u32; apply vbyte_u8. Qed.
#[local] Hint Resolve vbyte_u8 vword_u32 : core.

Lemma resolve_ok m va pa : phys m va = Some pa → resolve va m = Ret pa m.
Proof.
  unfold phys, resolve, mbind at 2, M_bind, get. destruct (translate _ _); simpl; [|done].
  destruct (in_kernel_image z); [done|]. by intros [= ->].
Qed.

Lemma load8_ok m va : is_Some (phys m va) → load8 va m = Ret (vbyte m va) m.
Proof.
  intros [pa Hpa]. unfold load8. mrun (resolve_ok _ _ _ Hpa).
  unfold gets, vbyte. by rewrite Hpa.
Qed.

Lemma vbyte_set m (D : Z → Prop) va pa v b :
  usable m D → D va → D b → phys m va = Some pa →
  vbyte (set_ram_byte pa v m) b = if decide (va = b) then u8 v else vbyte m b.
Proof.
  intros Hu Ha Hb Hpa. unfold vbyte. rewrite phys_set_ram_byte.
  destruct (usable_phys _ _ Hu b Hb) as [pb Hpb]. rewrite Hpb, ram_byte_set.
  do 2 case_decide; subst; try done.
  - destruct H0. apply (usable_inj _ _ Hu); congruence.
  - congruence.
Qed.

Lemma usable_set m D pa v : usable m D → usable (set_ram_byte pa v m) D.
Proof. intros []. by split. Qed.

Lemma usable_same m m' D : same_paging m m' → usable m D → usable m' D.
Proof.
  unfold same_paging. intros E []. split; unfold phys in *; by rewrite E.
Qed.

Lemma usable_subset m (D D' : Z → Prop) : (∀ va, D' va → D va) → usable m D → usable m D'.
Proof. intros HD []. split; eauto. Qed.

Lemma store8_written m D va v :
  usable m D → D va →
  ∃ m', store8 va v m = Ret tt m' ∧ written m m' D (λ a, a = va) (λ _, u8 v).
Proof.
  intros Hu Hva. destruct (usable_phys _ _ Hu va Hva) as [pa Hpa].
  exists (set_ram_byte pa v m). split.
  { unfold store8. by mrun (resolve_ok _ _ _ Hpa). }
  split_and!; [done| |]; intros a Ha Hw; rewrite (vbyte_set m D va) by done.
  - by rewrite decide_True.
  - by rewrite decide_False by congruence.
Qed.

Lemma load32_ok m D va :
  usable m D → is_u32 (va + 3) → 0 ≤ va → (∀ a, va ≤ a < va + 4 → D a) →
  load32 va m = Ret (vword m va) m.
Proof.
  intros [Hu _] Hva H0 HD. unfold load32. rewrite !u32_id by lia.
  assert (∀ k, 0 ≤ k < 4 → is_Some (phys m (va + k))) as Hk by (intros; apply Hu, HD; lia).
  mrun (load8_ok m va ltac:(rewrite <- (Z.add_0_r va); apply Hk; lia)).
  mrun (load8_ok m _ (Hk 1 ltac:(lia))). mrun (load8_ok m _ (Hk 2 ltac:(lia))).
  by mrun (load8_ok m _ (Hk 3 ltac:(lia))).
Qed.

Lemma store32_written m D va v :
  usable m D → is_u32 (va + 3) → 0 ≤ va → (∀ a, va ≤ a < va + 4 → D a) →
  ∃ m', store32 va v m = Ret tt m' ∧
    written m m' D (within va (va + 4)) (λ a, le_byte (a - va) v).
Proof.
  intros Hu Hva H0 HD.
  destruct (usable_phys _ _ Hu va) as [a0 Ha0]; [apply HD; lia|].
  destruct (usable_phys _ _ Hu (va + 1)) as [a1 Ha1]; [apply HD; lia|].
  destruct (usable_phys _ _ Hu (va + 2)) as [a2 Ha2]; [apply HD; lia|].
  destruct (usable_phys _ _ Hu (va + 3)) as [a3 Ha3]; [apply HD; lia|].
  eexists. split.
  { unfold store32. rewrite !u32_id by lia. mrun (resolve_ok _ _ _ Ha0).
    mrun (resolve_ok _ _ _ Ha1). mrun (resolve_ok _ _ _ Ha2). mrun (resolve_ok _ _ _ Ha3).
    unfold modify. reflexivity. }
  split; [done|].
  assert (∀ b, D b → vbyte (set_ram_byte a3 (le_byte 3 v) (set_ram_byte a2 (le_byte 2 v)
      (set_ram_byte a1 (le_byte 1 v) (set_ram_byte a0 (le_byte 0 v) m)))) b =
    if decide (va + 3 = b) then le_byte 3 v else if decide (va + 2 = b) then le_byte 2 v else
    if decide (va + 1 = b) then le_byte 1 v else if decide (va = b) then le_byte 0 v else
    vbyte m b) as Hb.
  { intros b Hb.
    rewrite (vbyte_set _ D (va + 3)) by (repeat apply usable_set; auto; apply HD; lia).
    rewrite (vbyte_set _ D (va + 2)) by (repeat apply usable_set; auto; apply HD; lia).
    rewrite (vbyte_set _ D (va + 1)) by (repeat apply usable_set; auto; apply HD; lia).
    rewrite (vbyte_set _ D va) by (repeat apply usable_set; auto; apply HD; lia).
    by rewrite !(u8_id (le_byte _ _)) by auto. }
  split; intros a Ha Hw; rewrite Hb by done; unfold within in Hw; repeat case_decide; subst; try lia;
    try f_equal; lia.
Qed.

(** A written word reads back; a word clear of the write is unchanged. *)
Lemma written_word m m' D va v :
  written m m' D (within va (va + 4)) (λ a, le_byte (a - va) v) →
  is_u32 v → (∀ a, va ≤ a < va + 4 → D a) → vword m' va = v.
Proof.
  intros (_ & Hw & _) Hv HD. unfold vword, within in *.
  rewrite !Hw by (try apply HD; lia).
  replace (va - va) with 0 by lia. replace (va + 1 - va) with 1 by lia.
  replace (va + 2 - va) with 2 by lia. replace (va + 3 - va) with 3 by lia.
  by apply le_word_bytes.
Qed.

Lemma written_other_word m m' D W f b :
  written m m' D W f → (∀ a, b ≤ a < b + 4 → D a ∧ ¬ W a) → vword m' b = vword m b.
Proof.
  intros (_ & _ & Hn) HD. unfold vword. by rewrite !Hn by (apply HD; lia).
Qed.

Lemma written_mono m m' (D D' W : Z → Prop) f :
  (∀ a, D' a → D a) → written m m' D W f → written m m' D' W f.
Proof. intros HD (? & ? & ?). split_and!; eauto. Qed.

Lemma vword_bytes_eq m m' a :
  (∀ b, a ≤ b < a + 4 → vbyte m' b = vbyte m b) → vword m' a = vword m a.
Proof. intros E. unfold vword. by rewrite !E by lia. Qed.
End lemmas.
#[export] Hint Resolve vbyte_u8 vword_u32 : core.

(** Without paging every 32-bit address reaches its own byte, except those of
    the kernel image. *)
Lemma usable_flat `{KernelLayout, KernelImage} m D :
  paging_enabled (paging m) = false → (∀ va, D va → in_kernel_image va = false) → usable m D.
Proof.
  intros Hp HD.
  assert (∀ va, D va → phys m va = Some va) as Hphys.
  { intros va Hva. unfold phys, translate. rewrite Hp. simpl. by rewrite HD. }
  split; [intros va Hva; rewrite Hphys by done; eauto|].
  intros a b Ha Hb. rewrite !Hphys by done. by intros [= ->].
Qed.

(** A machine before paging is enabled, whose memory holds each address's low
    byte. *)
Definition qemu_image : KernelImage :=
  {| kernel_phys_start := 0x100000; kernel_phys_end := 0x114000 |}.
Definition flat_memory : memory := mk_memory (reset_paging_state 0x11 0 ∅) ∅ (λ a, a mod 256).

Lemma flat_memory_usable lo hi :
  0x114000 ≤ lo → @usable qemu_layout qemu_image flat_memory (within lo hi).
Proof.
  intros Hlo. apply usable_flat; [reflexivity|]. unfold within, in_kernel_image. simpl.
  intros va Hva. lia.
Qed.
