(* ===== verification/Kmemory.v ===== *)
(** * Byte primitives ([kernel/mm/kmemory.c])

    [kmemset], [kmemcpy], [kmemmove] and [kmemcmp] over the memory of
    [Memory], each with its effect on a window of usable memory.  [kmemmove]
    is right for every overlap of the two regions; [kmemcpy] where copying
    forward is. *)
From S2P Require Import Prelude KernelMonad Paging Memory.
#[local] Open Scope Z_scope.

Section kmemory.
Context `{KL : KernelLayout, KI : KernelImage}.
Implicit Types m : memory.

(** [out[i] = in[i]] *)
Definition copy_byte (dest src i : Z) : M memory unit :=
  b ← load8 (u32 (src + i));
  store8 (u32 (dest + i)) b.

Definition kmemset (dest value count : Z) : M memory Z :=
  let byte_value := u8 value in
  for_u32 count (λ i, store8 (u32 (dest + i)) byte_value) ;;
  mret dest.

Definition kmemcpy (dest src count : Z) : M memory Z :=
  for_u32 count (copy_byte dest src) ;;
  mret dest.

Definition kmemmove (dest src count : Z) : M memory Z :=
  if (dest =? src) || (count =? 0) then mret dest else
  if (dest <? src) || (dest >=? u32 (src + count)) then
    for_u32 count (copy_byte dest src) ;;
    mret dest
  else
    loop (S (Z.to_nat count)) (λ i,
      if negb (i =? 0) then
        let i := u32 (i - 1) in
        copy_byte dest src i ;;
        continue i
      else break tt) count ;;
    mret dest.

Definition kmemcmp (a b count : Z) : M memory Z :=
  loop (S (Z.to_nat count)) (λ i,
    if i <? count then
      x ← load8 (u32 (a + i));
      y ← load8 (u32 (b + i));
      if negb (x =? y) then break (x - y) else
      continue (u32 (i + 1))
    else break 0) 0.

(** ** Correctness *)
(** A region of [count] bytes at [p] in a window [D] of usable memory. *)
Definition region (D : Z → Prop) (p count : Z) : Prop :=
  0 ≤ p ∧ is_u32 count ∧ p + count < 0x100000000 ∧ ∀ a, p ≤ a < p + count → D a.

Lemma copy_byte_written m D dest src i :
  usable m D → 0 ≤ i → is_u32 (dest + i) → is_u32 (src + i) → D (dest + i) → D (src + i) →
  ∃ m', copy_byte dest src i m = Ret tt m' ∧
    written m m' D (λ a, a = dest + i) (λ _, vbyte m (src + i)).
Proof.
  intros Hu Hi Hd Hs HDd HDs. unfold copy_byte. rewrite !u32_id by lia.
  mrun (load8_ok m (src + i) (usable_phys _ _ Hu _ HDs)).
  destruct (store8_written m D (dest + i) (vbyte m (src + i)) Hu HDd) as (m' & -> & Hw).
  exists m'. split; [done|]. by rewrite u8_id in Hw by auto.
Qed.

(** Copying forward: the bytes still to be read must not have been
    overwritten. *)
Lemma copy_forward m D dest src count :
  usable m D → region D dest count → region D src count →
  dest ≤ src ∨ src + count ≤ dest →
  ∃ m', for_u32 count (copy_byte dest src) m = Ret tt m' ∧
    written m m' D (within dest (dest + count)) (λ a, vbyte m (src + (a - dest))).
Proof.
  intros Hu (Hd0 & Hc & Hd & HDd) (Hs0 & _ & Hs & HDs) Hov.
  cut (wp (for_u32 count (copy_byte dest src)) (λ _ m',
    written m m' D (within dest (dest + count)) (λ a, vbyte m (src + (a - dest)))) m).
  { intros ([] & m' & ? & ?)%wp_run. eauto. }
  apply (wp_for_u32 (λ i m', written m m' D (within dest (dest + i))
    (λ a, vbyte m (src + (a - dest))))); [done| | |done].
  { split_and!; [done|unfold within; intros; lia|done]. }
  intros i m' Hi (Hp & Hw & Hn).
  destruct (copy_byte_written m' D dest src i) as (m'' & E & Hp' & Hw' & Hn');
    [by eapply usable_same|lia..|apply HDd; lia|apply HDs; lia|].
  eapply wp_Ret; [exact E|]. split_and!.
  - unfold same_paging in *. congruence.
  - unfold within in *. intros a Ha Hin. destruct (decide (a = dest + i)) as [->|].
    + rewrite Hw', Hn by (try done; try apply HDs; lia). f_equal. lia.
    + rewrite Hn', Hw by (try done; lia). done.
  - unfold within in *. intros a Ha Hout. rewrite Hn', Hn by (try done; lia). done.
Qed.

(** Copying backward, for a destination above the source. *)
Lemma copy_backward m D dest src count :
  usable m D → region D dest count → region D src count → src ≤ dest →
  ∃ m', loop (S (Z.to_nat count)) (λ i,
      if negb (i =? 0) then
        let i := u32 (i - 1) in copy_byte dest src i ;; continue i
      else break tt) count m = Ret tt m' ∧
    written m m' D (within dest (dest + count)) (λ a, vbyte m (src + (a - dest))).
Proof.
  intros Hu (Hd0 & Hc & Hd & HDd) (Hs0 & _ & Hs & HDs) Hov.
  match goal with |- ∃ m', ?l m = _ ∧ _ => cut (wp l (λ _ m',
    written m m' D (within dest (dest + count)) (λ a, vbyte m (src + (a - dest)))) m) end.
  { intros ([] & m' & ? & ?)%wp_run. eauto. }
  apply (wp_loop (λ i m', 0 ≤ i ≤ count ∧ written m m' D (within (dest + i) (dest + count))
    (λ a, vbyte m (src + (a - dest)))) (λ i _, i)); [| |lia|lia].
  { split; [lia|]. split_and!; [done|unfold within; intros; lia|done]. }
  intros i m' (Hi & Hp & Hw & Hn). destruct (Z.eqb_spec i 0) as [->|Hi0]; simpl.
  { wp_steps. rewrite Z.add_0_r in *. done. }
  rewrite u32_id by lia. wp_step.
  destruct (copy_byte_written m' D dest src (i - 1)) as (m'' & E & Hp' & Hw' & Hn');
    [|lia..|apply HDd; lia|apply HDs; lia|].
  { by eapply usable_same. }
  eapply wp_Ret; [exact E|]. wp_steps. split; [|lia]. split; [lia|]. split_and!.
  - unfold same_paging in *. congruence.
  - unfold within in *. intros a Ha Hin. destruct (decide (a = dest + (i - 1))) as [->|].
    + rewrite Hw', Hn by (try done; try apply HDs; lia). f_equal. lia.
    + rewrite Hn', Hw by (try done; lia). done.
  - unfold within in *. intros a Ha Hout. rewrite Hn', Hn by (try done; lia). done.
Qed.

(** [kmemset] stores the low byte of its argument over the whole region and
    changes nothing else. *)
Theorem kmemset_fills m D dest value count :
  usable m D → region D dest count →
  ∃ m', kmemset dest value count m = Ret dest m' ∧
    written m m' D (within dest (dest + count)) (λ _, u8 value).
Proof.
  intros Hu (Hd0 & Hc & Hd & HDd). unfold kmemset. cbv zeta.
  cut (wp (for_u32 count (λ i, store8 (u32 (dest + i)) (u8 value))) (λ _ m',
    written m m' D (within dest (dest + count)) (λ _, u8 value)) m).
  { intros ([] & m' & E & ?)%wp_run. exists m'. by mrun E. }
  apply (wp_for_u32 (λ i m', written m m' D (within dest (dest + i)) (λ _, u8 value)));
    [done| | |done].
  { split_and!; [done|unfold within; intros; lia|done]. }
  intros i m' Hi (Hp & Hw & Hn). rewrite u32_id by lia.
  destruct (store8_written m' D (dest + i) (u8 value)) as (m'' & E & Hp' & Hw' & Hn');
    [by eapply usable_same|apply HDd; lia|].
  eapply wp_Ret; [exact E|]. split_and!.
  - unfold same_paging in *. congruence.
  - unfold within in *. intros a Ha Hin. destruct (decide (a = dest + i)) as [->|].
    + rewrite Hw' by done. apply u8_id, u8_range.
    + rewrite Hn', Hw by (try done; lia). done.
  - unfold within in *. intros a Ha Hout. rewrite Hn', Hn by (try done; lia). done.
Qed.

Lemma kmemmove_spec m D dest src count :
  usable m D → region D dest count → region D src count →
  ∃ m', kmemmove dest src count m = Ret dest m' ∧
    written m m' D (within dest (dest + count)) (λ a, vbyte m (src + (a - dest))).
Proof.
  intros Hu Hd Hs. unfold kmemmove.
  destruct (Z.eqb_spec dest src) as [->|Hne]; cbn [orb].
  { exists m. split; [done|]. split_and!; [done| |done]. intros a _ _. f_equal. lia. }
  destruct (Z.eqb_spec count 0) as [->|Hc]; cbn [orb].
  { exists m. split; [done|]. split_and!; [done|unfold within; intros; lia|done]. }
  destruct Hs as (Hs0 & Hc' & Hse & HDs) eqn:EHs. rewrite u32_id by lia.
  destruct ((dest <? src) || (dest >=? src + count)) eqn:Eb.
  - destruct (copy_forward m D dest src count) as (m' & E & ?); [done..|lia|].
    exists m'. by mrun E.
  - destruct (copy_backward m D dest src count) as (m' & E & ?); [done..|lia|].
    exists m'. cbv zeta in E. by mrun E.
Qed.

(** C29. [kmemmove] copies the region as it was before the call, whatever the
    overlap of source and destination, and changes nothing else. *)
Theorem kmemmove_copies m D dest src count :
  usable m D → region D dest count → region D src count →
  ∃ m', kmemmove dest src count m = Ret dest m' ∧
    written m m' D (within dest (dest + count)) (λ a, vbyte m (src + (a - dest))).
Proof. apply kmemmove_spec. Qed.

Lemma kmemcpy_spec m D dest src count :
  usable m D → region D dest count → region D src count →
  dest ≤ src ∨ src + count ≤ dest →
  ∃ m', kmemcpy dest src count m = Ret dest m' ∧
    written m m' D (within dest (dest + count)) (λ a, vbyte m (src + (a - dest))).
Proof.
  intros Hu Hd Hs Hov. destruct (copy_forward m D dest src count) as (m' & E & ?); [done..|].
  exists m'. unfold kmemcpy. by mrun E.
Qed.

(** [kmemcpy] does the same whenever the destination does not start inside
    the source region (a forward overlap is the caller's error, as in C). *)
Theorem kmemcpy_copies m D dest src count :
  usable m D → region D dest count → region D src count →
  dest ≤ src ∨ src + count ≤ dest →
  ∃ m', kmemcpy dest src count m = Ret dest m' ∧
    written m m' D (within dest (dest + count)) (λ a, vbyte m (src + (a - dest))).
Proof. apply kmemcpy_spec. Qed.

Lemma kmemcmp_spec m D a b count :
  usable m D → region D a count → region D b count →
  ∃ r, kmemcmp a b count m = Ret r m ∧
    (r = 0 ↔ ∀ i, 0 ≤ i < count → vbyte m (a + i) = vbyte m (b + i)) ∧
    (r ≠ 0 → ∃ i, 0 ≤ i < count ∧ r = vbyte m (a + i) - vbyte m (b + i) ∧
       ∀ j, 0 ≤ j < i → vbyte m (a + j) = vbyte m (b + j)).
Proof.
  intros Hu (Ha0 & Hc & Ha & HDa) (Hb0 & _ & Hb & HDb).
  match goal with |- ∃ r, _ ∧ ?P =>
    cut (wp (kmemcmp a b count) (λ r m', m' = m ∧ (λ r, P) r) m) end.
  { intros (r & m' & ? & -> & ?)%wp_run. eauto. }
  unfold kmemcmp. apply (wp_loop (λ i m', 0 ≤ i ≤ count ∧ m' = m ∧
    ∀ j, 0 ≤ j < i → vbyte m (a + j) = vbyte m (b + j)) (λ i _, count - i));
    [| |lia|lia].
  { split_and!; [lia|lia|done|lia]. }
  intros i m' (Hi & -> & Heq). destruct (Z.ltb_spec i count) as [Hlt|Hge]; [|wp_steps].
  - rewrite !u32_id by lia.
    wp_step. eapply wp_Ret; [apply load8_ok, (usable_phys _ _ ltac:(eassumption)), HDa; lia|].
    wp_step. eapply wp_Ret; [apply load8_ok, (usable_phys _ _ ltac:(eassumption)), HDb; lia|].
    destruct (Z.eqb_spec (vbyte m (a + i)) (vbyte m (b + i))) as [E|Hne]; simpl; wp_steps.
    + split; [|lia]. split_and!; [lia|lia|done|].
      intros j Hj. destruct (decide (j = i)) as [->|]; [done|]. apply Heq. lia.
    + split; [done|]. split; [|intros _; exists i; split_and!; [lia|lia|done|done]].
      split; [lia|]. intros Hall. specialize (Hall i). lia.
  - split; [done|]. split; [|done]. split; [|done]. intros _ j Hj. apply Heq. lia.
Qed.

(** C35. [kmemcmp] compares without changing anything: zero exactly when the
    regions agree, otherwise the difference of the first two bytes that
    differ. *)
Theorem kmemcmp_compares m D a b count :
  usable m D → region D a count → region D b count →
  ∃ r, kmemcmp a b count m = Ret r m ∧
    (r = 0 ↔ ∀ i, 0 ≤ i < count → vbyte m (a + i) = vbyte m (b + i)) ∧
    (r ≠ 0 → ∃ i, 0 ≤ i < count ∧ r = vbyte m (a + i) - vbyte m (b + i) ∧
       ∀ j, 0 ≤ j < i → vbyte m (a + j) = vbyte m (b + j)).
Proof. apply kmemcmp_spec. Qed.
End kmemory.

(** ** The theorems at concrete regions *)
Definition window : Z → Prop := within 0x200000 0x200100.
Lemma window_region p n : 0 ≤ n → 0x200000 ≤ p → p + n ≤ 0x200100 → region window p n.
Proof. unfold region, window, within. intros. split_and!; [lia..|intros; lia]. Qed.

Lemma kmemset_fills_witness :
  ∃ m', @kmemset qemu_layout qemu_image 0x200010 0x1AB 8 flat_memory = Ret 0x200010 m' ∧
    @vbyte qemu_layout qemu_image m' 0x200017 = 0xAB.
Proof.
  destruct (@kmemset_fills qemu_layout qemu_image flat_memory window 0x200010 0x1AB 8)
    as (m' & E & _ & Hw & _).
  - apply flat_memory_usable. lia.
  - apply window_region; lia.
  - exists m'. split; [exact E|]. rewrite Hw; [reflexivity|unfold window, within; lia..].
Defined.

Lemma kmemmove_copies_witness :
  ∃ m', @kmemmove qemu_layout qemu_image 0x200001 0x200000 8 flat_memory = Ret 0x200001 m' ∧
    @vbyte qemu_layout qemu_image m' 0x200008 = 7.
Proof.
  destruct (@kmemmove_copies qemu_layout qemu_image flat_memory window 0x200001 0x200000 8)
    as (m' & E & _ & Hw & _).
  - apply flat_memory_usable. lia.
  - apply window_region; lia.
  - apply window_region; lia.
  - exists m'. split; [exact E|]. rewrite Hw; [reflexivity|unfold window, within; lia..].
Defined.

Lemma kmemcpy_copies_witness :
  ∃ m', @kmemcpy qemu_layout qemu_image 0x200000 0x200001 8 flat_memory = Ret 0x200000 m' ∧
    @vbyte qemu_layout qemu_image m' 0x200007 = 8.
Proof.
  destruct (@kmemcpy_copies qemu_layout qemu_image flat_memory window 0x200000 0x200001 8)
    as (m' & E & _ & Hw & _).
  - apply flat_memory_usable. lia.
  - apply window_region; lia.
  - apply window_region; lia.
  - lia.
  - exists m'. split; [exact E|]. rewrite Hw; [reflexivity|unfold window, within; lia..].
Defined.

Lemma kmemcmp_compares_witness :
  ∃ r, @kmemcmp qemu_layout qemu_image 0x200000 0x200010 4 flat_memory = Ret r flat_memory ∧ r ≠ 0.
Proof.
  destruct (@kmemcmp_compares qemu_layout qemu_image flat_memory window 0x200000 0x200010 4)
    as (r & E & Hz & _).
  - apply flat_memory_usable. lia.
  - apply window_region; lia.
  - apply window_region; lia.
  - exists r. split; [exact E|]. intros Hr. destruct Hz as [Hz _].
    specialize (Hz Hr 0 ltac:(lia)). vm_compute in Hz. discriminate Hz.
Defined.
