(* ===== verification/MemoryMap.v ===== *)
(** * The memory map ([stage0_main.c], Stages 5A to 5C)

    Accounting of the Multiboot2 memory map in the region table (Stage 5B) and
    its reduction to ranges of page frames the allocator may hand out (Stage
    5C).  The functions that also print, [stage5b_emit_summary],
    [stage5c_emit_summary] and [stage5c_prepare_frame_bookkeeping], are built
    from these in [Multiboot]. *)
From Stdlib Require Import Sorted.
From S2P Require Import Prelude KernelMonad.
#[local] Open Scope Z_scope.

Definition MULTIBOOT2_MEMORY_AVAILABLE : Z := 1.
Definition STAGE5B_MAX_REGIONS : Z := 128.
Definition STAGE5B_POLICY_MIN_ADDR : Z := 0x00100000.
Definition STAGE5B_REGION_FLAG_RAW_USABLE : Z := 0x01.
Definition STAGE5B_REGION_FLAG_POLICY_USABLE : Z := 0x02.
Definition STAGE5C_MAX_RANGES : Z := 128.
Definition STAGE5C_FRAME_SHIFT : Z := 12.
Definition STAGE5C_FRAME_SIZE : Z := Z.shiftl 1 STAGE5C_FRAME_SHIFT.

#[export] Hint Unfold
  MULTIBOOT2_MEMORY_AVAILABLE STAGE5B_MAX_REGIONS STAGE5B_POLICY_MIN_ADDR
  STAGE5C_MAX_RANGES STAGE5C_FRAME_SHIFT : consts.

(** ** Data *)
Record multiboot2_mmap_entry := mk_mmap_entry {
  entry_base_addr : Z;
  entry_length : Z;
  entry_type : Z;
}.

Record stage5b_region := mk_region {
  region_base_addr : Z;
  region_length : Z;
  region_end_addr : Z;
  region_multiboot_type : Z;
  region_flags : Z;
}.

Record stage5b_memory_bookkeeping := mk_memory_bookkeeping {
  region_count : Z;
  dropped_regions : Z;
  raw_usable_bytes : Z;
  raw_reserved_bytes : Z;
  policy_usable_bytes : Z;
  highest_usable_end : Z;
  regions : list stage5b_region;
}.

Record stage5c_frame_range := mk_range {
  start_frame : Z;
  frame_count : Z;
}.

(** [g_stage5c_frames] with the two [g_stage5c_kernel_reserved_*] globals. *)
Record stage5c_frame_bookkeeping := mk_frame_bookkeeping {
  range_count : Z;
  dropped_ranges : Z;
  eligible_frames : Z;
  highest_eligible_frame : Z;
  highest_eligible_addr : Z;
  ranges : list stage5c_frame_range;
  kernel_reserved_start : Z;
  kernel_reserved_end : Z;
}.

(** Zero-initialised static storage. *)
Definition zero_memory_bookkeeping : stage5b_memory_bookkeeping :=
  mk_memory_bookkeeping 0 0 0 0 0 0 (replicate 128 (mk_region 0 0 0 0 0)).
Definition zero_frame_bookkeeping : stage5c_frame_bookkeeping :=
  mk_frame_bookkeeping 0 0 0 0 0 (replicate 128 (mk_range 0 0)) 0 0.

(** ** 64-bit helpers *)
Definition align_up_8 (value : Z) : Z := Z.land (u32 (value + 7)) (not32 7).

Definition add_clamp_u64 (accumulator increment : Z) : Z :=
  let sum := u64 (accumulator + increment) in
  if sum <? accumulator then UINT64_MAX else sum.

(** The sum stored in [*out] and whether it wrapped. *)
Definition checked_add_u64 (a b : Z) : Z * bool :=
  let out := u64 (a + b) in (out, out <? a).

(** ** Stage 5B *)
Definition stage5b_reset_bookkeeping : M stage5b_memory_bookkeeping unit :=
  modify (λ b, mk_memory_bookkeeping 0 0 0 0 0 0 (regions b)).

Definition stage5b_record_region (base length end_ type flags : Z)
    : M stage5b_memory_bookkeeping unit :=
  b ← get;
  let index := region_count b in
  if index >=? STAGE5B_MAX_REGIONS then
    modify (λ b, mk_memory_bookkeeping (region_count b) (u32 (dropped_regions b + 1))
      (raw_usable_bytes b) (raw_reserved_bytes b) (policy_usable_bytes b)
      (highest_usable_end b) (regions b))
  else
    l ← from_option (array_set (regions b) index (mk_region base length end_ type flags));
    modify (λ b, mk_memory_bookkeeping (u32 (index + 1)) (dropped_regions b)
      (raw_usable_bytes b) (raw_reserved_bytes b) (policy_usable_bytes b)
      (highest_usable_end b) l).

Definition stage5b_policy_usable_length (base length type : Z) : Z :=
  if negb (type =? MULTIBOOT2_MEMORY_AVAILABLE) || (length =? 0) then 0 else
  let '(end_, overflow) := checked_add_u64 base length in
  if overflow then 0 else
  if end_ <=? STAGE5B_POLICY_MIN_ADDR then 0 else
  if base >=? STAGE5B_POLICY_MIN_ADDR then length else
  u64 (end_ - STAGE5B_POLICY_MIN_ADDR).

(** The flags and the end address [stage5b_account_entry] gives an entry. *)
Definition stage5b_account_entry (entry : multiboot2_mmap_entry)
    : M stage5b_memory_bookkeeping unit :=
  let region_flags := 0 in
  let '(sum, overflow) := checked_add_u64 (entry_base_addr entry) (entry_length entry) in
  let region_end := if overflow then UINT64_MAX else sum in
  let region_flags :=
    if entry_type entry =? MULTIBOOT2_MEMORY_AVAILABLE
    then Z.lor region_flags STAGE5B_REGION_FLAG_RAW_USABLE else region_flags in
  let policy_usable_length :=
    stage5b_policy_usable_length (entry_base_addr entry) (entry_length entry) (entry_type entry) in
  if policy_usable_length >? 0 then
    modify (λ b, mk_memory_bookkeeping (region_count b) (dropped_regions b)
      (raw_usable_bytes b) (raw_reserved_bytes b)
      (add_clamp_u64 (policy_usable_bytes b) policy_usable_length)
      (if region_end >? highest_usable_end b then region_end else highest_usable_end b)
      (regions b)) ;;
    stage5b_record_region (entry_base_addr entry) (entry_length entry) region_end (entry_type entry)
      (Z.lor region_flags STAGE5B_REGION_FLAG_POLICY_USABLE)
  else
    stage5b_record_region (entry_base_addr entry) (entry_length entry) region_end (entry_type entry) region_flags.

(** ** Stage 5C *)
Definition stage5c_reset_bookkeeping : M stage5c_frame_bookkeeping unit :=
  modify (λ f, mk_frame_bookkeeping 0 0 0 0 0 (ranges f) 0 0).

Definition stage5c_record_range (start count : Z) : M stage5c_frame_bookkeeping unit :=
  f ← get;
  let index := range_count f in
  if index >=? STAGE5C_MAX_RANGES then
    modify (λ f, mk_frame_bookkeeping (range_count f) (u32 (dropped_ranges f + 1))
      (eligible_frames f) (highest_eligible_frame f) (highest_eligible_addr f) (ranges f)
      (kernel_reserved_start f) (kernel_reserved_end f))
  else
    l ← from_option (array_set (ranges f) index (mk_range start count));
    modify (λ f, mk_frame_bookkeeping (u32 (index + 1)) (dropped_ranges f)
      (eligible_frames f) (highest_eligible_frame f) (highest_eligible_addr f) l
      (kernel_reserved_start f) (kernel_reserved_end f)).

(** The rounded value and the overflow flag. *)
Definition stage5c_align_up_4k (value : Z) : Z * bool :=
  let '(rounded, overflow) := checked_add_u64 value (STAGE5C_FRAME_SIZE - 1) in
  if overflow then (UINT64_MAX, true)
  else (Z.land rounded (not64 (STAGE5C_FRAME_SIZE - 1)), false).

Definition stage5c_record_eligible_span (start_addr end_addr : Z)
    : M stage5c_frame_bookkeeping unit :=
  if end_addr <=? start_addr then mret tt else
  let '(start_addr, overflow) := stage5c_align_up_4k start_addr in
  if overflow then mret tt else
  let end_addr := Z.land end_addr (not64 (STAGE5C_FRAME_SIZE - 1)) in
  if end_addr <=? start_addr then mret tt else
  let count := Z.shiftr (end_addr - start_addr) STAGE5C_FRAME_SHIFT in
  let start := Z.shiftr start_addr STAGE5C_FRAME_SHIFT in
  let highest_frame_addr := end_addr - STAGE5C_FRAME_SIZE in
  let highest_frame := Z.shiftr highest_frame_addr STAGE5C_FRAME_SHIFT in
  stage5c_record_range start count ;;
  modify (λ f,
    let '(hf, ha) := if highest_frame >? highest_eligible_frame f
      then (highest_frame, highest_frame_addr)
      else (highest_eligible_frame f, highest_eligible_addr f) in
    mk_frame_bookkeeping (range_count f) (dropped_ranges f)
      (add_clamp_u64 (eligible_frames f) count) hf ha (ranges f)
      (kernel_reserved_start f) (kernel_reserved_end f)).

(** One iteration of the loop of [stage5c_prepare_frame_bookkeeping]. *)
Definition stage5c_consider_region (reserved_start reserved_end : Z) (region : stage5b_region)
    : M stage5c_frame_bookkeeping unit :=
  let start_addr := region_base_addr region in
  let end_addr := region_end_addr region in
  if Z.land (region_flags region) STAGE5B_REGION_FLAG_POLICY_USABLE =? 0 then mret tt else
  if negb (region_multiboot_type region =? MULTIBOOT2_MEMORY_AVAILABLE) then mret tt else
  let start_addr :=
    if start_addr <? STAGE5B_POLICY_MIN_ADDR then STAGE5B_POLICY_MIN_ADDR else start_addr in
  if end_addr <=? start_addr then mret tt else
  if (end_addr <=? reserved_start) || (start_addr >=? reserved_end) then
    stage5c_record_eligible_span start_addr end_addr
  else
    (if start_addr <? reserved_start
     then stage5c_record_eligible_span start_addr reserved_start else mret tt) ;;
    (if end_addr >? reserved_end
     then stage5c_record_eligible_span reserved_end end_addr else mret tt).

(** The loop itself, over the region table [b]. *)
Definition stage5c_scan_regions (b : stage5b_memory_bookkeeping) (reserved_start reserved_end : Z)
    : M stage5c_frame_bookkeeping unit :=
  for_u32 (region_count b) (λ i,
    region ← from_option (array_get (regions b) i);
    stage5c_consider_region reserved_start reserved_end region).

(** ** The ranges of a region, mathematically

    The frames that lie wholly inside [start, end), if there are any. *)
Definition span_ranges (start_addr end_addr : Z) : list stage5c_frame_range :=
  let first := (start_addr + 0xFFF) / 0x1000 in
  let last := end_addr / 0x1000 in
  if decide (first < last) then [mk_range first (last - first)] else [].

Definition region_usable (r : stage5b_region) : bool :=
  negb (Z.land (region_flags r) STAGE5B_REGION_FLAG_POLICY_USABLE =? 0) &&
  (region_multiboot_type r =? MULTIBOOT2_MEMORY_AVAILABLE).

Definition region_ranges (ks ke : Z) (r : stage5b_region) : list stage5c_frame_range :=
  if negb (region_usable r) then [] else
  let lo := Z.max (region_base_addr r) STAGE5B_POLICY_MIN_ADDR in
  let hi := region_end_addr r in
  if decide (hi ≤ ks ∨ ke ≤ lo) then span_ranges lo hi
  else span_ranges lo ks ++ span_ranges ke hi.

(** Adding one range to the table, or dropping it when the table is full. *)
Definition add_range (f : stage5c_frame_bookkeeping) (r : stage5c_frame_range)
    : stage5c_frame_bookkeeping :=
  let full := bool_decide (128 ≤ range_count f) in
  let highest := start_frame r + frame_count r - 1 in
  let new_high := bool_decide (highest_eligible_frame f < highest) in
  mk_frame_bookkeeping
    (if full then range_count f else range_count f + 1)
    (if full then u32 (dropped_ranges f + 1) else dropped_ranges f)
    (add_clamp_u64 (eligible_frames f) (frame_count r))
    (if new_high then highest else highest_eligible_frame f)
    (if new_high then highest * 0x1000 else highest_eligible_addr f)
    (if full then ranges f else <[Z.to_nat (range_count f) := r]> (ranges f))
    (kernel_reserved_start f) (kernel_reserved_end f).

Record table_ok (f : stage5c_frame_bookkeeping) : Prop := {
  table_length : length (ranges f) = 128%nat;
  table_count : 0 ≤ range_count f ≤ 128;
}.

Definition recorded_ranges (f : stage5c_frame_bookkeeping) : list stage5c_frame_range :=
  take (Z.to_nat (range_count f)) (ranges f).

Lemma add_range_ok f r : table_ok f → table_ok (add_range f r).
Proof.
  intros [Hl Hc]. unfold add_range. split; simpl; case_bool_decide; rewrite ?length_insert; lia.
Qed.

Lemma recorded_add_range f r :
  table_ok f → range_count f < 128 →
  recorded_ranges (add_range f r) = recorded_ranges f ++ [r].
Proof.
  intros [Hl Hc] Hlt. unfold recorded_ranges, add_range. simpl.
  rewrite bool_decide_false by lia.
  replace (Z.to_nat (range_count f + 1)) with (S (Z.to_nat (range_count f))) by lia.
  rewrite (take_S_r _ _ r) by (apply list_lookup_insert_eq; lia).
  by rewrite take_insert_ge by lia.
Qed.

Lemma recorded_add_range_full f r :
  range_count f = 128 → recorded_ranges (add_range f r) = recorded_ranges f.
Proof. intros Hc. unfold recorded_ranges, add_range. simpl. by rewrite bool_decide_true by lia. Qed.

Lemma length_recorded f : table_ok f → Z.of_nat (length (recorded_ranges f)) = range_count f.
Proof. intros [Hl Hc]. unfold recorded_ranges. rewrite length_take. lia. Qed.

Lemma fold_add_range l f :
  table_ok f →
  table_ok (foldl add_range f l) ∧
  recorded_ranges (foldl add_range f l) = take 128 (recorded_ranges f ++ l).
Proof.
  revert f. induction l as [|r l IH]; intros f Hok; simpl.
  { split; [done|]. rewrite app_nil_r, take_ge; [done|].
    pose proof (length_recorded f Hok). destruct Hok. lia. }
  destruct (IH (add_range f r)) as [? ->]; [by apply add_range_ok|]. split; [done|].
  pose proof (length_recorded f Hok) as Hlen.
  destruct (decide (range_count f < 128)).
  - by rewrite recorded_add_range, <- app_assoc by done.
  - rewrite recorded_add_range_full by (destruct Hok; lia).
    by rewrite !take_app_le by (destruct Hok; lia).
Qed.

Lemma fold_add_range_reserved l f :
  kernel_reserved_start (foldl add_range f l) = kernel_reserved_start f ∧
  kernel_reserved_end (foldl add_range f l) = kernel_reserved_end f.
Proof. revert f. induction l as [|r l IH]; intros f; [done|]. simpl. by destruct (IH (add_range f r)). Qed.

(** The frames the count promises: all of them, also those of dropped ranges. *)
Definition total_frames (l : list stage5c_frame_range) : Z :=
  foldr (λ r n, frame_count r + n) 0 l.

Lemma fold_add_range_eligible l f :
  Forall (λ r, 0 ≤ frame_count r) l → 0 ≤ eligible_frames f →
  eligible_frames f + total_frames l ≤ UINT64_MAX →
  eligible_frames (foldl add_range f l) = eligible_frames f + total_frames l.
Proof.
  intros Hl. revert f. induction Hl as [|r l Hr Hl IH]; intros f Hf Hmax; simpl in *; [lia|].
  assert (0 ≤ total_frames l) by (clear -Hl; induction Hl; simpl; lia).
  assert (eligible_frames (add_range f r) = eligible_frames f + frame_count r) as E.
  { simpl. unfold add_clamp_u64. consts. rewrite u64_id by lia.
    destruct (Z.ltb_spec (eligible_frames f + frame_count r) (eligible_frames f)); lia. }
  rewrite IH; rewrite E; lia.
Qed.

(** ** The code computes these ranges *)
Lemma checked_add_spec a b :
  is_u64 a → is_u64 b →
  checked_add_u64 a b = (u64 (a + b), bool_decide (UINT64_MAX < a + b)).
Proof.
  intros Ha Hb. unfold checked_add_u64. f_equal. unfold u64. consts.
  case_bool_decide; lia.
Qed.

Lemma align_up_4k_spec v :
  is_u64 v →
  stage5c_align_up_4k v =
    if decide (v + 0xFFF ≤ UINT64_MAX) then ((v + 0xFFF) / 0x1000 * 0x1000, false)
    else (UINT64_MAX, true).
Proof.
  intros Hv. unfold stage5c_align_up_4k. change (STAGE5C_FRAME_SIZE - 1) with 0xFFF.
  rewrite checked_add_spec by lia. case_bool_decide; case_decide; try zlia; [done|].
  f_equal. rewrite u64_id by zlia. change 0xFFF with (2 ^ 12 - 1) at 2.
  rewrite land_not64 by zlia. change (2 ^ 12) with 0x1000. lia.
Qed.

Lemma align_down_4k_spec v :
  is_u64 v → Z.land v (not64 (STAGE5C_FRAME_SIZE - 1)) = v / 0x1000 * 0x1000.
Proof.
  intros Hv. change (STAGE5C_FRAME_SIZE - 1) with (2 ^ 12 - 1).
  rewrite land_not64 by lia. change (2 ^ 12) with 0x1000. lia.
Qed.

Lemma shiftr_frame v : Z.shiftr v STAGE5C_FRAME_SHIFT = v / 0x1000.
Proof. consts. by rewrite Z.shiftr_div_pow2 by lia. Qed.

Lemma record_range_eq f start count :
  table_ok f →
  stage5c_record_range start count f = Ret tt (mk_frame_bookkeeping
    (range_count (add_range f (mk_range start count)))
    (dropped_ranges (add_range f (mk_range start count)))
    (eligible_frames f) (highest_eligible_frame f) (highest_eligible_addr f)
    (ranges (add_range f (mk_range start count)))
    (kernel_reserved_start f) (kernel_reserved_end f)).
Proof.
  intros [Hl Hc]. unfold stage5c_record_range. rewrite bind_get. cbv zeta. consts. simpl.
  destruct (Z.geb_spec (range_count f) 128).
  - rewrite bool_decide_true by lia. done.
  - rewrite bool_decide_false by lia. rewrite array_set_lt by lia.
    unfold modify. by rewrite u32_id by lia.
Qed.

Lemma record_eligible_span_eq f s e :
  table_ok f → is_u64 s → is_u64 e →
  stage5c_record_eligible_span s e f = Ret tt (foldl add_range f (span_ranges s e)).
Proof.
  intros Hok Hs He. unfold stage5c_record_eligible_span, span_ranges.
  destruct (Z.leb_spec e s) as [|Hlt]; [by rewrite decide_False by lia|].
  rewrite align_up_4k_spec by done. case_decide as Hov; cycle 1.
  { rewrite decide_False by zlia. done. }
  rewrite align_down_4k_spec by done.
  destruct (Z.leb_spec (e / 0x1000 * 0x1000) ((s + 0xFFF) / 0x1000 * 0x1000)).
  { by rewrite decide_False by lia. }
  rewrite decide_True by lia. cbv zeta. rewrite !shiftr_frame.
  mrun (record_range_eq f _ _ Hok). unfold modify. simpl. f_equal. unfold add_range. simpl.
  change STAGE5C_FRAME_SIZE with 0x1000.
  replace ((e / 0x1000 * 0x1000 - (s + 0xFFF) / 0x1000 * 0x1000) / 0x1000)
    with (e / 0x1000 - (s + 0xFFF) / 0x1000) by lia.
  replace ((s + 0xFFF) / 0x1000 * 0x1000 / 0x1000) with ((s + 0xFFF) / 0x1000) by lia.
  replace ((e / 0x1000 * 0x1000 - 0x1000) / 0x1000) with (e / 0x1000 - 1) by lia.
  replace ((s + 0xFFF) / 0x1000 + (e / 0x1000 - (s + 0xFFF) / 0x1000) - 1)
    with (e / 0x1000 - 1) by lia.
  destruct (Z.gtb_spec (e / 0x1000 - 1) (highest_eligible_frame f)).
  - rewrite !(bool_decide_true (highest_eligible_frame f < _)) by lia. f_equal. lia.
  - rewrite !(bool_decide_false (highest_eligible_frame f < _)) by lia. done.
Qed.

Definition region_u64 (r : stage5b_region) : Prop :=
  is_u64 (region_base_addr r) ∧ is_u64 (region_end_addr r).

Lemma consider_region_eq ks ke r f :
  table_ok f → region_u64 r → is_u64 ks → is_u64 ke → ks < ke →
  stage5c_consider_region ks ke r f = Ret tt (foldl add_range f (region_ranges ks ke r)).
Proof.
  intros Hok [Hb He] Hks Hke Hk. unfold stage5c_consider_region, region_ranges, region_usable.
  cbv zeta. destruct (Z.land _ _ =? 0); [done|].
  destruct (region_multiboot_type r =? MULTIBOOT2_MEMORY_AVAILABLE); [|done]. cbn [negb andb].
  replace (if region_base_addr r <? STAGE5B_POLICY_MIN_ADDR then STAGE5B_POLICY_MIN_ADDR
    else region_base_addr r) with (Z.max (region_base_addr r) STAGE5B_POLICY_MIN_ADDR)
    by (destruct (Z.ltb_spec (region_base_addr r) STAGE5B_POLICY_MIN_ADDR); lia).
  set (lo := Z.max _ _). assert (is_u64 lo) by (unfold lo; zlia). clearbody lo.
  assert (∀ s e, e ≤ s → span_ranges s e = []) as Hnil
    by (intros; unfold span_ranges; by rewrite decide_False by lia).
  destruct (Z.leb_spec (region_end_addr r) lo).
  { case_decide; [by rewrite Hnil by lia|]. by rewrite !Hnil by lia. }
  destruct ((region_end_addr r <=? ks) || (lo >=? ke)) eqn:Eb.
  { rewrite decide_True by lia. by apply record_eligible_span_eq. }
  rewrite decide_False by lia. rewrite foldl_app.
  assert ((if lo <? ks then stage5c_record_eligible_span lo ks else mret tt) f =
    Ret tt (foldl add_range f (span_ranges lo ks))) as E1.
  { destruct (Z.ltb_spec lo ks); [by apply record_eligible_span_eq|]. by rewrite Hnil by lia. }
  mrun E1. destruct (Z.gtb_spec (region_end_addr r) ke).
  - apply record_eligible_span_eq; [|done..]. by apply fold_add_range.
  - by rewrite (Hnil ke) by lia.
Qed.

Record regions_ok (b : stage5b_memory_bookkeeping) : Prop := {
  regions_length : length (regions b) = 128%nat;
  regions_count : 0 ≤ region_count b ≤ 128;
  regions_u64 : Forall region_u64 (take (Z.to_nat (region_count b)) (regions b));
}.

Definition recorded_regions (b : stage5b_memory_bookkeeping) : list stage5b_region :=
  take (Z.to_nat (region_count b)) (regions b).

Lemma scan_regions_eq b ks ke f :
  regions_ok b → table_ok f → is_u64 ks → is_u64 ke → ks < ke →
  stage5c_scan_regions b ks ke f =
    Ret tt (foldl add_range f (recorded_regions b ≫= region_ranges ks ke)).
Proof.
  intros Hb Hok Hks Hke Hk. destruct Hb as [Hlen Hcount Hu64].
  assert (wp (stage5c_scan_regions b ks ke) (λ _ f', f' =
    foldl add_range f (recorded_regions b ≫= region_ranges ks ke)) f) as Hwp.
  { apply (wp_for_u32 (λ i f', table_ok f' ∧ f' =
      foldl add_range f (take (Z.to_nat i) (regions b) ≫= region_ranges ks ke))).
    - lia.
    - by rewrite take_0.
    - intros i f' Hi [Hok' ->].
      destruct (lookup_lt_is_Some_2 (regions b) (Z.to_nat i)) as [r Hr]; [lia|].
      wp_step. eapply wp_from_option.
      { unfold array_get. rewrite decide_True by lia. exact Hr. }
      eapply wp_Ret.
      { apply consider_region_eq; try done.
        rewrite Forall_lookup in Hu64. apply (Hu64 (Z.to_nat i)).
        rewrite lookup_take_lt by lia. done. }
      replace (Z.to_nat (i + 1)) with (S (Z.to_nat i)) by lia.
      rewrite (take_S_r _ _ r) by done. rewrite bind_app, foldl_app. simpl. rewrite app_nil_r.
      split; [|done]. by apply fold_add_range.
    - intros f' [_ ->]. done. }
  apply wp_run in Hwp as ([] & f' & -> & ->). done.
Qed.

(** ** What the table holds *)
Definition in_range (r : stage5c_frame_range) (k : Z) : Prop :=
  start_frame r ≤ k < start_frame r + frame_count r.
Definition in_ranges (l : list stage5c_frame_range) (k : Z) : Prop := ∃ r, r ∈ l ∧ in_range r k.

(** Page frame [k] lies in usable memory at or above 1 MiB and clear of the
    kernel. *)
Definition region_offers (ks ke : Z) (r : stage5b_region) (k : Z) : Prop :=
  region_usable r = true ∧
  region_base_addr r ≤ k * 0x1000 ∧ STAGE5B_POLICY_MIN_ADDR ≤ k * 0x1000 ∧
  (k + 1) * 0x1000 ≤ region_end_addr r ∧
  ((k + 1) * 0x1000 ≤ ks ∨ ke ≤ k * 0x1000).

Lemma in_ranges_app l l' k : in_ranges (l ++ l') k ↔ in_ranges l k ∨ in_ranges l' k.
Proof. unfold in_ranges. set_solver. Qed.
Lemma in_ranges_nil k : in_ranges [] k ↔ False.
Proof. unfold in_ranges. set_solver. Qed.

Lemma in_span_ranges s e k : in_ranges (span_ranges s e) k ↔ s ≤ k * 0x1000 ∧ (k + 1) * 0x1000 ≤ e.
Proof.
  unfold span_ranges. case_decide.
  - unfold in_ranges. setoid_rewrite list_elem_of_singleton. unfold in_range. split.
    + intros (r & -> & Hr). simpl in Hr. lia.
    + intros Hk. eexists. split; [done|]. simpl. lia.
  - rewrite in_ranges_nil. split; [done|]. lia.
Qed.

Lemma in_region_ranges ks ke r k :
  ks mod 0x1000 = 0 → ke mod 0x1000 = 0 → ks < ke →
  in_ranges (region_ranges ks ke r) k ↔ region_offers ks ke r k.
Proof.
  intros Hks Hke Hk. unfold region_ranges, region_offers.
  destruct (region_usable r); cbn [negb].
  - case_decide; rewrite ?in_ranges_app, !in_span_ranges; zlia.
  - rewrite in_ranges_nil. split; [done|]. by intros [? _].
Qed.

Lemma in_bind_ranges (g : stage5b_region → list stage5c_frame_range) l k :
  in_ranges (l ≫= g) k ↔ ∃ r, r ∈ l ∧ in_ranges (g r) k.
Proof. unfold in_ranges. setoid_rewrite list_elem_of_bind. set_solver. Qed.

Lemma span_ranges_inside s e x :
  x ∈ span_ranges s e →
  0 < frame_count x ∧ s ≤ start_frame x * 0x1000 ∧ (start_frame x + frame_count x) * 0x1000 ≤ e.
Proof.
  unfold span_ranges. case_decide; [|by intros ?%not_elem_of_nil].
  intros ->%list_elem_of_singleton. simpl. lia.
Qed.

Lemma region_ranges_inside ks ke r x :
  x ∈ region_ranges ks ke r →
  0 < frame_count x ∧ region_base_addr r ≤ start_frame x * 0x1000 ∧
  STAGE5B_POLICY_MIN_ADDR ≤ start_frame x * 0x1000 ∧
  (start_frame x + frame_count x) * 0x1000 ≤ region_end_addr r.
Proof.
  unfold region_ranges. destruct (region_usable r); cbn [negb]; [|by intros ?%not_elem_of_nil].
  case_decide; [|rewrite elem_of_app; intros [Hx|Hx]; revert Hx];
    intros ?%span_ranges_inside; zlia.
Qed.

(** Ascending, disjoint ranges; ascending, disjoint regions. *)
Definition range_before (x y : stage5c_frame_range) : Prop :=
  start_frame x + frame_count x ≤ start_frame y.
Definition region_before (r s : stage5b_region) : Prop :=
  region_end_addr r ≤ region_base_addr s.

Lemma StronglySorted_app {A} (R : A → A → Prop) l l' :
  StronglySorted R l → StronglySorted R l' → (∀ x y, x ∈ l → y ∈ l' → R x y) →
  StronglySorted R (l ++ l').
Proof.
  induction 1 as [|x l Hl IH Hx]; intros Hl' HR; simpl; [done|]. constructor.
  - apply IH; [done|]. intros y z Hy Hz. apply HR; [by right|done].
  - apply Forall_app. split; [done|]. apply Forall_forall. intros y Hy. apply HR; [by left|done].
Qed.

Lemma region_ranges_sorted ks ke r : ks < ke → StronglySorted range_before (region_ranges ks ke r).
Proof.
  assert (∀ s e, StronglySorted range_before (span_ranges s e)) as Hspan.
  { intros s e. unfold span_ranges. case_decide; repeat constructor. }
  intros Hk. unfold region_ranges. destruct (negb _); [constructor|]. case_decide; [done|].
  apply StronglySorted_app; [done..|].
  intros x y Hx%span_ranges_inside Hy%span_ranges_inside. unfold range_before. lia.
Qed.

Lemma bind_ranges_sorted ks ke l :
  ks < ke → StronglySorted region_before l →
  StronglySorted range_before (l ≫= region_ranges ks ke).
Proof.
  intros Hk. induction 1 as [|r l Hl IH Hr]; simpl; [constructor|].
  apply StronglySorted_app; [by apply region_ranges_sorted|done|].
  intros x y Hx (s & Hy & Hs)%list_elem_of_bind.
  rewrite Forall_forall in Hr. specialize (Hr s Hs).
  apply region_ranges_inside in Hx. apply region_ranges_inside in Hy.
  unfold region_before, range_before in *. lia.
Qed.

Lemma StronglySorted_take {A} (R : A → A → Prop) n l :
  StronglySorted R l → StronglySorted R (take n l).
Proof.
  intros Hl. revert n. induction Hl as [|x l Hl IH Hx]; intros [|n]; simpl; try constructor; [done|].
  by apply Forall_take.
Qed.

Lemma fold_add_range_dropped l f :
  table_ok f → dropped_ranges f = 0 ∨ range_count f = 128 →
  0 ≤ dropped_ranges f → dropped_ranges f + Z.of_nat (length l) < 0x100000000 →
  dropped_ranges (foldl add_range f l) =
    dropped_ranges f + Z.max 0 (range_count f + Z.of_nat (length l) - 128).
Proof.
  revert f. induction l as [|r l IH]; intros f Hok Hd H0 Hmax; simpl in *; [destruct Hok; lia|].
  pose proof (add_range_ok f r Hok) as Hok'. destruct Hok as [_ Hc].
  destruct (decide (range_count f < 128)).
  - assert (dropped_ranges (add_range f r) = dropped_ranges f ∧
      range_count (add_range f r) = range_count f + 1) as [E1 E2]
      by (simpl; by rewrite bool_decide_false by lia).
    rewrite IH by (exact Hok' || rewrite ?E1, ?E2; lia). rewrite E1, E2. lia.
  - assert (dropped_ranges (add_range f r) = dropped_ranges f + 1 ∧
      range_count (add_range f r) = range_count f) as [E1 E2].
    { simpl. rewrite bool_decide_true by lia. rewrite u32_id by lia. done. }
    rewrite IH by (exact Hok' || rewrite ?E1, ?E2; lia). rewrite E1, E2. lia.
Qed.

Lemma total_frames_bound l :
  Forall (λ r, 0 ≤ frame_count r < 0x10000000000000) l →
  0 ≤ total_frames l ≤ Z.of_nat (length l) * 0x10000000000000.
Proof. induction 1; simpl; lia. Qed.

Lemma length_region_ranges ks ke r : (length (region_ranges ks ke r) ≤ 2)%nat.
Proof.
  assert (∀ s e, (length (span_ranges s e) ≤ 1)%nat) as Hspan
    by (intros s e; unfold span_ranges; case_decide; simpl; lia).
  unfold region_ranges. destruct (negb _); [simpl; lia|]. set (lo := Z.max _ _). case_decide.
  - pose proof (Hspan lo (region_end_addr r)). lia.
  - rewrite length_app. pose proof (Hspan lo ks). pose proof (Hspan ke (region_end_addr r)). lia.
Qed.

Lemma length_bind_ranges ks ke l : (length (l ≫= region_ranges ks ke) ≤ 2 * length l)%nat.
Proof.
  induction l as [|r l IH]; [simpl; lia|]. rewrite bind_cons, length_app. cbn [length].
  pose proof (length_region_ranges ks ke r). lia.
Qed.

Definition frames_reset (f : stage5c_frame_bookkeeping) : Prop :=
  length (ranges f) = 128%nat ∧ range_count f = 0 ∧ dropped_ranges f = 0 ∧ eligible_frames f = 0.

(** The ranges of a region table, before the table of ranges limits them. *)
Definition table_ranges (b : stage5b_memory_bookkeeping) (ks ke : Z) : list stage5c_frame_range :=
  recorded_regions b ≫= region_ranges ks ke.

Lemma scan_regions_table b ks ke f :
  regions_ok b → frames_reset f →
  ks mod 0x1000 = 0 → ke mod 0x1000 = 0 → 0 ≤ ks < ke → ke < 0x10000000000000000 →
  ∃ f', stage5c_scan_regions b ks ke f = Ret tt f' ∧ table_ok f' ∧
    (∀ k, in_ranges (table_ranges b ks ke) k ↔ ∃ r, r ∈ recorded_regions b ∧ region_offers ks ke r k) ∧
    recorded_ranges f' = take 128 (table_ranges b ks ke) ∧
    dropped_ranges f' = Z.of_nat (length (table_ranges b ks ke) - 128) ∧
    eligible_frames f' = total_frames (table_ranges b ks ke).
Proof.
  intros Hb (Hlen & Hc & Hd & He) Hks Hke Hk Hke'.
  assert (table_ok f) as Hok by (split; lia).
  eexists. split; [apply scan_regions_eq; lia || done|]. fold (table_ranges b ks ke).
  set (l := table_ranges b ks ke).
  destruct (fold_add_range l f Hok) as [Hok' Hrec].
  assert (length l ≤ 256)%nat as Hl.
  { unfold l. pose proof (length_bind_ranges ks ke (recorded_regions b)) as Hl.
    destruct Hb as [H1 H2 _]. assert (length (recorded_regions b) ≤ 128)%nat
      by (unfold recorded_regions; rewrite length_take; lia). unfold table_ranges. lia. }
  assert (recorded_ranges f = []) as Hnil by (unfold recorded_ranges; by rewrite Hc).
  rewrite Hnil in Hrec. split; [done|]. split.
  { intros k. unfold l, table_ranges. rewrite in_bind_ranges. by setoid_rewrite in_region_ranges; [|lia..]. }
  split; [done|]. split; [rewrite fold_add_range_dropped; [lia|done|lia|lia|lia]|].
  assert (Forall (λ r, 0 ≤ frame_count r < 0x10000000000000) l) as Hf.
  { apply Forall_forall. unfold l. intros x (r & Hx & Hr)%list_elem_of_bind.
    destruct Hb as [_ _ Hu]. rewrite Forall_forall in Hu. destruct (Hu r Hr) as [??].
    apply region_ranges_inside in Hx. lia. }
  pose proof (total_frames_bound l Hf).
  rewrite fold_add_range_eligible; [lia| |lia|zlia].
  eapply Forall_impl; [exact Hf|]. simpl. lia.
Qed.

Lemma scan_regions_frames b ks ke f :
  regions_ok b → frames_reset f →
  ks mod 0x1000 = 0 → ke mod 0x1000 = 0 → 0 ≤ ks < ke → ke < 0x10000000000000000 →
  ∃ f', stage5c_scan_regions b ks ke f = Ret tt f' ∧ table_ok f' ∧
    (∀ k, in_ranges (recorded_ranges f') k →
       ∃ r, r ∈ recorded_regions b ∧ region_offers ks ke r k) ∧
    (dropped_ranges f' = 0 → ∀ r k, r ∈ recorded_regions b → region_offers ks ke r k →
       in_ranges (recorded_ranges f') k) ∧
    (dropped_ranges f' = 0 → eligible_frames f' = total_frames (recorded_ranges f')).
Proof.
  intros Hb Hf Hks Hke Hk Hke'.
  destruct (scan_regions_table b ks ke f Hb Hf Hks Hke Hk Hke') as (f' & E & Hok & Hin & Hrec & Hdrop & Hel).
  assert (dropped_ranges f' = 0 → recorded_ranges f' = table_ranges b ks ke) as Hall
    by (intros H0; rewrite Hrec; apply take_ge; lia).
  exists f'. split; [done|]. split; [done|]. split_and!.
  - intros k (r & Hr & Hkr). apply Hin. exists r. split; [|done].
    rewrite Hrec in Hr. by apply elem_of_take in Hr as (i & ?%list_elem_of_lookup_2 & _).
  - intros H0 r k Hr Hoff. rewrite Hall by done. apply Hin. eauto.
  - intros H0. by rewrite Hall.
Qed.

(** C13. Scanning the region table, which holds at most 128 regions, computes
    ranges that hold exactly the page frames in usable memory, at or above
    1 MiB and clear of the kernel, and records the first 128 of them: a
    range is dropped only when the table is full, every one that is dropped is
    counted, and the number of eligible frames is that of all ranges, the
    dropped ones included. *)
Theorem scan_regions_exact b ks ke f :
  regions_ok b → frames_reset f →
  ks mod 0x1000 = 0 → ke mod 0x1000 = 0 → 0 ≤ ks < ke → ke < 0x10000000000000000 →
  ∃ f', stage5c_scan_regions b ks ke f = Ret tt f' ∧ table_ok f' ∧
    (∀ k, in_ranges (table_ranges b ks ke) k ↔ ∃ r, r ∈ recorded_regions b ∧ region_offers ks ke r k) ∧
    recorded_ranges f' = take 128 (table_ranges b ks ke) ∧
    dropped_ranges f' = Z.of_nat (length (table_ranges b ks ke) - 128) ∧
    eligible_frames f' = total_frames (table_ranges b ks ke).
Proof. apply scan_regions_table. Qed.

(** A memory map in ascending order gives ranges in ascending order. *)
Lemma scan_regions_sorted b ks ke f f' :
  regions_ok b → frames_reset f → is_u64 ks → is_u64 ke → ks < ke →
  StronglySorted region_before (recorded_regions b) →
  stage5c_scan_regions b ks ke f = Ret tt f' →
  StronglySorted range_before (recorded_ranges f') ∧
  Forall (λ x, 0 < frame_count x ∧ STAGE5B_POLICY_MIN_ADDR ≤ start_frame x * 0x1000 ∧
    (start_frame x + frame_count x) * 0x1000 ≤ UINT64_MAX) (recorded_ranges f').
Proof.
  intros Hb (Hlen & Hc & Hd & He) Hks Hke Hk Hs E.
  assert (table_ok f) as Hok by (split; lia).
  rewrite scan_regions_eq in E by done. injection E as <-.
  destruct (fold_add_range (recorded_regions b ≫= region_ranges ks ke) f Hok) as [_ ->].
  assert (recorded_ranges f = []) as -> by (unfold recorded_ranges; by rewrite Hc). simpl.
  split; [by apply StronglySorted_take, bind_ranges_sorted|].
  apply Forall_take, Forall_forall. intros x (r & Hx & Hr)%list_elem_of_bind.
  destruct Hb as [_ _ Hu]. rewrite Forall_forall in Hu. destruct (Hu r Hr) as [??].
  apply region_ranges_inside in Hx. zlia.
Qed.

(** ** Accounting *)
Lemma add_clamp_spec a b :
  is_u64 a → is_u64 b → add_clamp_u64 a b = Z.min UINT64_MAX (a + b).
Proof.
  intros Ha Hb. unfold add_clamp_u64. consts. destruct (decide (a + b < 0x10000000000000000)).
  - rewrite u64_id by lia. destruct (Z.ltb_spec (a + b) a); lia.
  - replace (u64 (a + b)) with (a + b - 0x10000000000000000) by (unfold u64; lia).
    destruct (Z.ltb_spec (a + b - 0x10000000000000000) a); lia.
Qed.

(** When the table is full the frames of a span are counted as eligible although
    no range that holds them is recorded. *)
Theorem dropped_spans_are_counted f s e r :
  table_ok f → range_count f = 128 → is_u64 s → is_u64 e → span_ranges s e = [r] → is_u64 (eligible_frames f) →
  ∃ f', stage5c_record_eligible_span s e f = Ret tt f' ∧ recorded_ranges f' = recorded_ranges f ∧
    dropped_ranges f' = u32 (dropped_ranges f + 1) ∧
    eligible_frames f' = Z.min UINT64_MAX (eligible_frames f + frame_count r).
Proof.
  intros Hok Hc Hs He Hr Hf. rewrite record_eligible_span_eq, Hr by done. cbn [foldl].
  exists (add_range f r). split; [done|]. split; [by apply recorded_add_range_full|]. split.
  - cbn. by rewrite bool_decide_true by lia.
  - apply add_clamp_spec; [done|]. unfold span_ranges in Hr. case_decide; [|done]. injection Hr as <-. simpl. lia.
Qed.

(** The usable length of an entry is the number of its bytes at or above
    1 MiB; entries of other types, empty ones and those that wrap around the
    64-bit address space have none. *)
Theorem policy_usable_length_exact base length type :
  is_u64 base → is_u64 length →
  stage5b_policy_usable_length base length type =
    if decide (type = MULTIBOOT2_MEMORY_AVAILABLE ∧ base + length ≤ UINT64_MAX)
    then Z.max 0 (base + length - Z.max base STAGE5B_POLICY_MIN_ADDR) else 0.
Proof.
  intros Hb Hl. unfold stage5b_policy_usable_length. rewrite checked_add_spec by done.
  destruct (Z.eqb_spec type MULTIBOOT2_MEMORY_AVAILABLE) as [->|Ht]; simpl; cycle 1.
  { rewrite decide_False by (by intros [? _]). done. }
  destruct (Z.eqb_spec length 0) as [->|Hl0]; [case_decide; lia|].
  case_bool_decide as Hov.
  { rewrite decide_False by lia. done. }
  rewrite decide_True by (split; [done|lia]). rewrite u64_id by zlia.
  destruct (Z.leb_spec (base + length) STAGE5B_POLICY_MIN_ADDR); [zlia|].
  destruct (Z.geb_spec base STAGE5B_POLICY_MIN_ADDR); [zlia|]. rewrite u64_id by zlia. zlia.
Qed.

Lemma policy_usable_length_exact_witness :
  0 ≤ 0x9FC00 < 0x10000000000000000 ∧ 0 ≤ 0x200000 < 0x10000000000000000 ∧
  stage5b_policy_usable_length 0x9FC00 0x200000 1 = 0x19FC00.
Proof.
  split; [lia|]. split; [lia|].
  rewrite (policy_usable_length_exact 0x9FC00 0x200000 1) by lia. reflexivity.
Defined.

(** The table row an entry turns into. *)
Definition entry_usable (e : multiboot2_mmap_entry) : Prop :=
  entry_type e = MULTIBOOT2_MEMORY_AVAILABLE ∧ 0 < entry_length e ∧
  entry_base_addr e + entry_length e ≤ UINT64_MAX ∧
  STAGE5B_POLICY_MIN_ADDR < entry_base_addr e + entry_length e.
#[export] Instance entry_usable_dec e : Decision (entry_usable e).
Proof. unfold entry_usable. apply _. Defined.

Definition entry_flags (e : multiboot2_mmap_entry) : Z :=
  Z.lor (if entry_type e =? MULTIBOOT2_MEMORY_AVAILABLE then STAGE5B_REGION_FLAG_RAW_USABLE else 0)
    (if decide (entry_usable e) then STAGE5B_REGION_FLAG_POLICY_USABLE else 0).

Definition entry_region (e : multiboot2_mmap_entry) : stage5b_region :=
  mk_region (entry_base_addr e) (entry_length e)
    (Z.min UINT64_MAX (entry_base_addr e + entry_length e)) (entry_type e) (entry_flags e).

Definition entry_u64 (e : multiboot2_mmap_entry) : Prop :=
  is_u64 (entry_base_addr e) ∧ is_u64 (entry_length e).

Lemma entry_region_usable e : region_usable (entry_region e) = bool_decide (entry_usable e).
Proof.
  unfold region_usable, entry_region, entry_flags. simpl.
  destruct (Z.eqb_spec (entry_type e) MULTIBOOT2_MEMORY_AVAILABLE) as [Ht|Ht];
    case_bool_decide as Hu; case_decide; try done; destruct Hu as [? _]; done.
Qed.

(** What accounting one entry does to the bookkeeping. *)
Definition account (b : stage5b_memory_bookkeeping) (e : multiboot2_mmap_entry)
    : stage5b_memory_bookkeeping :=
  let full := bool_decide (128 ≤ region_count b) in
  let r := entry_region e in
  mk_memory_bookkeeping
    (if full then region_count b else region_count b + 1)
    (if full then u32 (dropped_regions b + 1) else dropped_regions b)
    (raw_usable_bytes b) (raw_reserved_bytes b)
    (if decide (entry_usable e)
     then Z.min UINT64_MAX (policy_usable_bytes b +
       (region_end_addr r - Z.max (region_base_addr r) STAGE5B_POLICY_MIN_ADDR))
     else policy_usable_bytes b)
    (if decide (entry_usable e) then Z.max (highest_usable_end b) (region_end_addr r)
     else highest_usable_end b)
    (if full then regions b else <[Z.to_nat (region_count b) := r]> (regions b)).

Record bookkeeping_ok (b : stage5b_memory_bookkeeping) : Prop := {
  bk_regions : regions_ok b;
  bk_policy : is_u64 (policy_usable_bytes b);
  bk_highest : is_u64 (highest_usable_end b);
}.

Lemma record_region_eq b base len end_ ty fl :
  regions_ok b →
  stage5b_record_region base len end_ ty fl b = Ret tt (mk_memory_bookkeeping
    (if bool_decide (128 ≤ region_count b) then region_count b else region_count b + 1)
    (if bool_decide (128 ≤ region_count b) then u32 (dropped_regions b + 1) else dropped_regions b)
    (raw_usable_bytes b) (raw_reserved_bytes b) (policy_usable_bytes b) (highest_usable_end b)
    (if bool_decide (128 ≤ region_count b) then regions b
     else <[Z.to_nat (region_count b) := mk_region base len end_ ty fl]> (regions b))).
Proof.
  intros [Hl Hc _]. unfold stage5b_record_region. rewrite bind_get. cbv zeta. consts.
  destruct (Z.geb_spec (region_count b) 128).
  - by rewrite bool_decide_true by lia.
  - rewrite bool_decide_false by lia. rewrite array_set_lt by lia.
    rewrite u32_id by lia. done.
Qed.

Lemma account_entry_eq b e :
  bookkeeping_ok b → entry_u64 e → stage5b_account_entry e b = Ret tt (account b e).
Proof.
  intros [Hr Hp Hh] [Hb Hl]. unfold stage5b_account_entry. rewrite checked_add_spec by done.
  cbv zeta. rewrite policy_usable_length_exact by done.
  assert ((if bool_decide (UINT64_MAX < entry_base_addr e + entry_length e) then UINT64_MAX
    else u64 (entry_base_addr e + entry_length e)) =
    Z.min UINT64_MAX (entry_base_addr e + entry_length e)) as ->.
  { case_bool_decide; [lia|]. rewrite u64_id by zlia. lia. }
  unfold account, entry_region, entry_flags. simpl. cbn [region_end_addr region_base_addr].
  destruct (decide (entry_usable e)) as [Hu|Hu].
  - destruct Hu as (Ht & H0 & Hw & H1). rewrite decide_True by done.
    destruct (Z.gtb_spec (Z.max 0 (entry_base_addr e + entry_length e -
      Z.max (entry_base_addr e) STAGE5B_POLICY_MIN_ADDR)) 0); [|lia].
    rewrite bind_modify, record_region_eq by (by destruct Hr). simpl. do 2 f_equal.
    + rewrite add_clamp_spec by (done || zlia). lia.
    + match goal with |- context [?a >? ?b] => destruct (Z.gtb_spec a b) end; lia.
  - assert ((if decide (entry_type e = MULTIBOOT2_MEMORY_AVAILABLE ∧
        entry_base_addr e + entry_length e ≤ UINT64_MAX)
      then Z.max 0 (entry_base_addr e + entry_length e -
        Z.max (entry_base_addr e) STAGE5B_POLICY_MIN_ADDR) else 0) = 0) as ->.
    { case_decide as Hd; [|done]. destruct Hd as [Ht Hw]. unfold entry_usable in Hu.
      destruct (decide (entry_base_addr e + entry_length e ≤ STAGE5B_POLICY_MIN_ADDR));
        [lia|]. destruct (decide (entry_length e = 0)); [lia|]. exfalso. apply Hu. lia. }
    simpl. rewrite record_region_eq by done. rewrite !Z.lor_0_r.
    by destruct (entry_type e =? MULTIBOOT2_MEMORY_AVAILABLE).
Qed.

Lemma entry_region_u64 e : entry_u64 e → region_u64 (entry_region e).
Proof. intros [??]. unfold region_u64. simpl. zlia. Qed.

Lemma account_ok b e :
  bookkeeping_ok b → entry_u64 e →
  bookkeeping_ok (account b e) ∧
  recorded_regions (account b e) = take 128 (recorded_regions b ++ [entry_region e]).
Proof.
  intros [[Hl Hc Hu] Hp Hh] He. pose proof (entry_region_u64 e He) as Her.
  destruct He as [Hb Hlen].
  assert (recorded_regions (account b e) = take 128 (recorded_regions b ++ [entry_region e])) as E.
  { unfold recorded_regions, account. simpl. case_bool_decide.
    - replace (region_count b) with 128 by lia. change (Z.to_nat 128) with 128%nat.
      rewrite take_app_le, take_take by (rewrite length_take; lia). done.
    - replace (Z.to_nat (region_count b + 1)) with (S (Z.to_nat (region_count b))) by lia.
      rewrite (take_S_r _ _ (entry_region e)) by (apply list_lookup_insert_eq; lia).
      rewrite take_insert_ge by lia. symmetry. apply take_ge.
      rewrite length_app, length_take. simpl. lia. }
  split; [|done]. split; [split| |]; simpl.
  - case_bool_decide; by rewrite ?length_insert.
  - case_bool_decide; lia.
  - change (Forall region_u64 (recorded_regions (account b e))). rewrite E. apply Forall_take, Forall_app. auto.
  - case_decide as Hue; [|done]. destruct Hue as (?&?&?&?). zlia.
  - case_decide; zlia.
Qed.

(** C33. Accounting a memory-map entry appends its region to the table, or counts
    it as dropped when the table is full, adds its usable bytes to the running
    total without overflow, and keeps the bookkeeping well formed. *)
Theorem account_entry_exact b e :
  bookkeeping_ok b → entry_u64 e → dropped_regions b < UINT32_MAX → 0 ≤ dropped_regions b →
  ∃ b', stage5b_account_entry e b = Ret tt b' ∧ bookkeeping_ok b' ∧
    recorded_regions b' = take 128 (recorded_regions b ++ [entry_region e]) ∧
    region_count b' + dropped_regions b' = region_count b + dropped_regions b + 1 ∧
    policy_usable_bytes b' = Z.min UINT64_MAX (policy_usable_bytes b +
      stage5b_policy_usable_length (entry_base_addr e) (entry_length e) (entry_type e)) ∧
    (region_usable (entry_region e) = true ↔ entry_usable e).
Proof.
  intros Hb He Hd Hd0. exists (account b e). rewrite account_entry_eq by done.
  destruct (account_ok b e Hb He) as [Hok Hrec]. split_and!; [done..| | |].
  - unfold account. simpl. case_bool_decide; [rewrite u32_id by zlia|]; lia.
  - destruct He as [He1 He2]. rewrite policy_usable_length_exact by done. simpl.
    destruct Hb as [_ Hp _]. unfold entry_usable.
    repeat case_decide; try (destruct_and?; zlia).
  - rewrite entry_region_usable. apply bool_decide_eq_true.
Qed.

Lemma zero_bookkeeping_ok : bookkeeping_ok zero_memory_bookkeeping.
Proof. split; [split|..]; simpl; [done|lia|constructor|lia|lia]. Qed.

Lemma account_entry_exact_witness :
  ∃ b', stage5b_account_entry (mk_mmap_entry 0x100000 0x7F00000 1) zero_memory_bookkeeping
    = Ret tt b' ∧ policy_usable_bytes b' = 0x7F00000.
Proof.
  destruct (account_entry_exact zero_memory_bookkeeping (mk_mmap_entry 0x100000 0x7F00000 1))
    as (b' & E & _ & _ & _ & Hp & _).
  - exact zero_bookkeeping_ok.
  - unfold entry_u64. simpl. lia.
  - reflexivity.
  - reflexivity.
  - exists b'. split; [exact E|]. rewrite Hp. reflexivity.
Defined.

Lemma zero_frames_reset : frames_reset zero_frame_bookkeeping.
Proof. unfold frames_reset. split_and!; reflexivity. Qed.

(** A full region table: 128 regions of one megabyte, every other one, around
    which the kernel splits the first. *)
Definition crowded_map : stage5b_memory_bookkeeping :=
  foldl account zero_memory_bookkeeping
    ((λ i, mk_mmap_entry (0x100000 + i * 0x200000) 0x100000 1) <$> seqZ 0 128).

Lemma crowded_map_ok : regions_ok crowded_map.
Proof.
  assert (∀ l b, Forall entry_u64 l → bookkeeping_ok b → bookkeeping_ok (foldl account b l)) as Hfold.
  { induction l as [|e l IH]; intros b Hl Hb; [done|]. apply Forall_cons in Hl as [He Hl].
    apply IH; [done|]. by apply account_ok. }
  apply Hfold; [|exact zero_bookkeeping_ok]. clear Hfold.
  apply Forall_fmap, Forall_forall. intros i Hi%elem_of_seqZ. unfold entry_u64. simpl. lia.
Qed.

Lemma scan_regions_exact_witness :
  ∃ f', stage5c_scan_regions crowded_map 0x110000 0x124000 zero_frame_bookkeeping = Ret tt f' ∧
    table_ok f' ∧ recorded_ranges f' !! 1%nat = Some (mk_range 0x124 0xDC) ∧ dropped_ranges f' = 1 ∧
    eligible_frames f' = 128 * 0x100 - 0x14.
Proof.
  destruct (scan_regions_exact crowded_map 0x110000 0x124000 zero_frame_bookkeeping)
    as (f' & E & Hok & _ & Hr & Hd & He).
  - exact crowded_map_ok.
  - exact zero_frames_reset.
  - reflexivity.
  - reflexivity.
  - lia.
  - lia.
  - exists f'. split; [exact E|]. split; [exact Hok|]. rewrite Hr, Hd, He.
    split; [vm_compute; reflexivity|]. split; vm_compute; reflexivity.
Defined.
