(* ===== verification/FrameAllocator.v ===== *)
(** * The interface of the page-frame allocator

    [kheap.c] declares [extern int stage6b_pmm_alloc_frame(uint64_t* )] and
    nothing else about the allocator.  [FrameAllocator] is that declaration:
    a state and the call, whose out-parameter is the pointee before ([None]
    for a null pointer) and after.  [FrameAllocatorOk] is what the heap needs
    of an implementation: a granted frame is page aligned, outside the kernel
    image, was not live before and is live afterwards.  [Pmm] discharges it. *)
From S2P Require Import Prelude KernelMonad Memory.
#[local] Open Scope Z_scope.

Class FrameAllocator (F : Type) := {
  alloc_frame : option Z → M F (bool * option Z);
}.

(** A page frame at [pa] that raw pointers may reach. *)
Definition frame_usable `{KernelImage} (pa : Z) : Prop :=
  is_u64 pa ∧ pa mod 0x1000 = 0 ∧
  ∀ o, 0 ≤ o < 0x1000 → in_kernel_image (pa + o) = false.

Class FrameAllocatorOk (F : Type) `{FrameAllocator F, KernelImage} := {
  allocator_wf : F → Prop;
  live_frame : F → Z → Prop;   (* physical address of the frame *)
  alloc_frame_ok s v :
    allocator_wf s →
    ∃ ok out s', alloc_frame (Some v) s = Ret (ok, Some out) s' ∧ allocator_wf s' ∧
      if ok : bool then
        frame_usable out ∧ ¬ live_frame s out ∧
        ∀ pa, live_frame s' pa ↔ live_frame s pa ∨ pa = out
      else ∀ pa, live_frame s' pa ↔ live_frame s pa;
}.

(** [granted k a b]: the next [k] calls of the heap each grant a frame below
    4 GiB, and [b] is the allocator then. *)
Fixpoint granted {F} `{FrameAllocator F} (k : nat) (a b : F) : Prop :=
  match k with
  | O => a = b
  | S k => ∃ out a', alloc_frame (Some 0) a = Ret (true, Some out) a' ∧
      out ≤ UINT32_MAX ∧ granted k a' b
  end.

Lemma granted_next {F} `{FrameAllocator F} k a b ok out a' :
  granted (S k) a b → alloc_frame (Some 0) a = Ret (ok, Some out) a' →
  ok = true ∧ out ≤ UINT32_MAX ∧ granted k a' b.
Proof. intros (o & c & E' & Ho & Hc) E. rewrite E in E'. by injection E' as -> -> ->. Qed.

(** The next call grants nothing the heap can use: no frame, or one at or above
    4 GiB. *)
Definition dry {F} `{FrameAllocator F} (a : F) : Prop :=
  ∀ out a', alloc_frame (Some 0) a = Ret (true, Some out) a' → UINT32_MAX < out.
