(* ===== verification/Pmm.v ===== *)
(** * The page-frame allocator ([stage0_main.c], Stages 6A to 6D)

    Frames are handed out from the ranges of [MemoryMap] in order; freed
    frames wait in a FIFO of 64 entries and are handed out first.  A call's
    [uint64_t* ] out-parameter is modelled by its pointee, [None] for a null
    pointer; a C truth value is a [bool].  The abstract specification is three
    lists: the frames issued so far, those never issued, and the queue of
    freed ones. *)
From Stdlib Require Import Sorted.
From S2P Require Import Prelude KernelMonad Memory MemoryMap FrameAllocator.
#[local] Open Scope Z_scope.

Definition STAGE6C_MAX_PENDING_FREE : Z := 64.
#[export] Hint Unfold STAGE6C_MAX_PENDING_FREE : consts.

(** [g_stage6a_pmm], the pending frames of Stage 6C and the ranges of Stage
    5C they are taken from. *)
Record stage6a_pmm_state := mk_pmm_state {
  is_initialized : Z;
  range_index : Z;
  next_frame_index : Z;
  remaining_frame_count : Z;
  allocation_count : Z;
}.

Record pmm := mk_pmm {
  frames : stage5c_frame_bookkeeping;      (* g_stage5c_frames *)
  pmm_state : stage6a_pmm_state;           (* g_stage6a_pmm *)
  pending_free_frames : list Z;            (* g_stage6c_pending_free_frames *)
  pending_free_count : Z;                  (* g_stage6c_pending_free_count *)
}.

Definition set_frames f s := mk_pmm f (pmm_state s) (pending_free_frames s) (pending_free_count s).
Definition set_pmm_state p s := mk_pmm (frames s) p (pending_free_frames s) (pending_free_count s).
Definition set_pending l n s := mk_pmm (frames s) (pmm_state s) l n.

Definition set_range_index i := λ s, set_pmm_state (mk_pmm_state (is_initialized (pmm_state s)) i
  (next_frame_index (pmm_state s)) (remaining_frame_count (pmm_state s))
  (allocation_count (pmm_state s))) s.
Definition set_next_frame_index n := λ s, set_pmm_state (mk_pmm_state (is_initialized (pmm_state s))
  (range_index (pmm_state s)) n (remaining_frame_count (pmm_state s))
  (allocation_count (pmm_state s))) s.
Definition set_remaining n := λ s, set_pmm_state (mk_pmm_state (is_initialized (pmm_state s))
  (range_index (pmm_state s)) (next_frame_index (pmm_state s)) n
  (allocation_count (pmm_state s))) s.
Definition set_allocation_count n := λ s, set_pmm_state (mk_pmm_state (is_initialized (pmm_state s))
  (range_index (pmm_state s)) (next_frame_index (pmm_state s))
  (remaining_frame_count (pmm_state s)) n) s.
Definition set_initialized v := λ s, set_pmm_state (mk_pmm_state v
  (range_index (pmm_state s)) (next_frame_index (pmm_state s))
  (remaining_frame_count (pmm_state s)) (allocation_count (pmm_state s))) s.

(** The end of a range, clamped. *)
Definition range_end (range : stage5c_frame_range) : Z :=
  let '(sum, overflow) := checked_add_u64 (start_frame range) (frame_count range) in
  if overflow then UINT64_MAX else sum.

(** ** Stage 6A *)
Definition stage6a_pmm_reset_state : M pmm unit :=
  modify (set_pmm_state (mk_pmm_state 0 0 0 0 0)).

(** Every iteration that does not leave the loop advances the range index. *)
Definition stage6a_pmm_advance_to_next_eligible : M pmm unit :=
  s ← get;
  loop (S (Z.to_nat (range_count (frames s)))) (λ _,
    s ← get;
    if range_index (pmm_state s) <? range_count (frames s) then
      range ← from_option (array_get (ranges (frames s)) (range_index (pmm_state s)));
      if frame_count range =? 0 then
        modify (λ s, set_range_index (u32 (range_index (pmm_state s) + 1)) s) ;; continue tt
      else
        let range_end_frame := range_end range in
        (if next_frame_index (pmm_state s) <? start_frame range
         then modify (set_next_frame_index (start_frame range)) else mret tt) ;;
        s ← get;
        if next_frame_index (pmm_state s) <? range_end_frame then break tt else
        modify (λ s, set_range_index (u32 (range_index (pmm_state s) + 1)) s) ;; continue tt
    else break tt) tt.

Definition stage6a_pmm_seed_from_stage5c : M pmm unit :=
  stage6a_pmm_reset_state ;;
  modify (λ s, set_remaining (eligible_frames (frames s)) s) ;;
  s ← get;
  if (range_count (frames s) =? 0) || (eligible_frames (frames s) =? 0) then
    modify (set_initialized 1)
  else
    range ← from_option (array_get (ranges (frames s)) 0);
    modify (set_next_frame_index (start_frame range)) ;;
    stage6a_pmm_advance_to_next_eligible ;;
    modify (set_initialized 1).

Definition stage6a_pmm_try_allocate_frame (out_phys_addr : option Z) : M pmm (bool * option Z) :=
  match out_phys_addr with
  | None => mret (false, None)
  | Some _ =>
      s ← get;
      (if is_initialized (pmm_state s) =? 0 then stage6a_pmm_seed_from_stage5c else mret tt) ;;
      s ← get;
      if remaining_frame_count (pmm_state s) =? 0 then mret (false, out_phys_addr) else
      stage6a_pmm_advance_to_next_eligible ;;
      s ← get;
      if range_index (pmm_state s) >=? range_count (frames s)
      then mret (false, out_phys_addr) else
      let frame := next_frame_index (pmm_state s) in
      modify (set_next_frame_index (u64 (frame + 1))) ;;
      modify (λ s, set_remaining (u64 (remaining_frame_count (pmm_state s) - 1)) s) ;;
      modify (λ s, set_allocation_count (add_clamp_u64 (allocation_count (pmm_state s)) 1) s) ;;
      if frame >? Z.shiftr UINT64_MAX STAGE5C_FRAME_SHIFT then mret (false, out_phys_addr) else
      mret (true, Some (u64 (Z.shiftl frame STAGE5C_FRAME_SHIFT)))
  end.

Definition stage6b_pmm_get_remaining_frames : M pmm Z :=
  gets (λ s, remaining_frame_count (pmm_state s)).

(** ** Stage 6D: reuse *)
Definition stage6d_pmm_pop_pending_free_fifo (out_frame : option Z) : M pmm (bool * option Z) :=
  match out_frame with
  | None => mret (false, None)
  | Some _ =>
      s ← get;
      if pending_free_count s =? 0 then mret (false, out_frame) else
      frame ← from_option (array_get (pending_free_frames s) 0);
      loop (S (Z.to_nat (pending_free_count s))) (λ i,
        s ← get;
        if u64 (i + 1) <? pending_free_count s then
          next ← from_option (array_get (pending_free_frames s) (u64 (i + 1)));
          l ← from_option (array_set (pending_free_frames s) i next);
          modify (λ s, set_pending l (pending_free_count s) s) ;;
          continue (u64 (i + 1))
        else break tt) 0 ;;
      modify (λ s, set_pending (pending_free_frames s) (u64 (pending_free_count s - 1)) s) ;;
      mret (true, Some frame)
  end.

Definition stage6d_pmm_try_allocate_reused_frame (out_phys_addr : option Z)
    : M pmm (bool * option Z) :=
  match out_phys_addr with
  | None => mret (false, None)
  | Some _ =>
      s ← get;
      if remaining_frame_count (pmm_state s) =? 0 then mret (false, out_phys_addr) else
      '(ok, popped) ← stage6d_pmm_pop_pending_free_fifo (Some 0);
      if negb ok then mret (false, out_phys_addr) else
      frame ← from_option popped;
      if frame >? Z.shiftr UINT64_MAX STAGE5C_FRAME_SHIFT then mret (false, out_phys_addr) else
      modify (λ s, set_remaining (u64 (remaining_frame_count (pmm_state s) - 1)) s) ;;
      modify (λ s, set_allocation_count (add_clamp_u64 (allocation_count (pmm_state s)) 1) s) ;;
      mret (true, Some (u64 (Z.shiftl frame STAGE5C_FRAME_SHIFT)))
  end.

(** ** Stage 6B: the public allocator *)
Definition stage6b_pmm_alloc_frame (out_phys_addr : option Z) : M pmm (bool * option Z) :=
  '(ok, out) ← stage6d_pmm_try_allocate_reused_frame out_phys_addr;
  if ok : bool then mret (true, out) else stage6a_pmm_try_allocate_frame out.

(** The index of the first range that contains the frame. *)
Definition stage6d_pmm_find_frame_range (frame : Z) (out_range_index : option Z)
    : M pmm (bool * option Z) :=
  s ← get;
  loop (S (Z.to_nat (range_count (frames s)))) (λ i,
    if i <? range_count (frames s) then
      range ← from_option (array_get (ranges (frames s)) i);
      if frame_count range =? 0 then continue (u32 (i + 1)) else
      if (frame >=? start_frame range) && (frame <? range_end range) then
        break (true, match out_range_index with Some _ => Some i | None => None end)
      else continue (u32 (i + 1))
    else break (false, out_range_index)) 0.

Definition stage6c_is_eligible_frame (frame : Z) : M pmm bool :=
  '(found, _) ← stage6d_pmm_find_frame_range frame None;
  mret found.

Definition stage6d_pmm_was_frame_issued (frame : Z) : M pmm bool :=
  s ← get;
  if is_initialized (pmm_state s) =? 0 then mret false else
  '(found, index) ← stage6d_pmm_find_frame_range frame (Some 0);
  if negb found then mret false else
  frame_range_index ← from_option index;
  if range_index (pmm_state s) >=? range_count (frames s) then mret true else
  if frame_range_index <? range_index (pmm_state s) then mret true else
  if frame_range_index >? range_index (pmm_state s) then mret false else
  mret (frame <? next_frame_index (pmm_state s)).

(** ** Stage 6C: free *)
Definition stage6c_pmm_free_frame (phys_addr : Z) : M pmm bool :=
  if negb (Z.land phys_addr (STAGE5C_FRAME_SIZE - 1) =? 0) then mret false else
  if phys_addr <? STAGE5B_POLICY_MIN_ADDR then mret false else
  let frame := Z.shiftr phys_addr STAGE5C_FRAME_SHIFT in
  eligible ← stage6c_is_eligible_frame frame;
  if negb eligible then mret false else
  issued ← stage6d_pmm_was_frame_issued frame;
  if negb issued then mret false else
  s ← get;
  pending ← loop (S (Z.to_nat (pending_free_count s))) (λ i,
    if i <? pending_free_count s then
      queued ← from_option (array_get (pending_free_frames s) i);
      if queued =? frame then break true else continue (u64 (i + 1))
    else break false) 0;
  if pending : bool then mret false else
  if pending_free_count s >=? STAGE6C_MAX_PENDING_FREE then mret false else
  l ← from_option (array_set (pending_free_frames s) (pending_free_count s) frame);
  modify (λ s, set_pending l (u64 (pending_free_count s + 1)) s) ;;
  modify (λ s, set_remaining (add_clamp_u64 (remaining_frame_count (pmm_state s)) 1) s) ;;
  mret true.

Definition stage6c_pmm_get_pending_free_frames (out_count : option Z) : M pmm (bool * option Z) :=
  match out_count with
  | None => mret (false, None)
  | Some _ => s ← get; mret (true, Some (pending_free_count s))
  end.

(** ** The abstract allocator *)
Record alloc_spec := mk_alloc_spec {
  sp_issued : list Z;   (* frames handed out at least once, in order *)
  sp_fresh : list Z;    (* frames never handed out, in order *)
  sp_queue : list Z;    (* freed frames, oldest first *)
}.

Definition spec_alloc (a : alloc_spec) : option Z * alloc_spec :=
  match sp_queue a, sp_fresh a with
  | f :: q, _ => (Some f, mk_alloc_spec (sp_issued a) (sp_fresh a) q)
  | [], f :: l => (Some f, mk_alloc_spec (sp_issued a ++ [f]) l [])
  | [], [] => (None, a)
  end.

Definition may_free (a : alloc_spec) (pa : Z) : Prop :=
  pa mod 0x1000 = 0 ∧ pa / 0x1000 ∈ sp_issued a ∧ pa / 0x1000 ∉ sp_queue a ∧
  (length (sp_queue a) < 64)%nat.
#[export] Instance may_free_dec a pa : Decision (may_free a pa).
Proof. unfold may_free. apply _. Defined.

Definition spec_free (pa : Z) (a : alloc_spec) : bool * alloc_spec :=
  if decide (may_free a pa)
  then (true, mk_alloc_spec (sp_issued a) (sp_fresh a) (sp_queue a ++ [pa / 0x1000]))
  else (false, a).

(** ** The frames on either side of the cursor *)
Definition frames_of (r : stage5c_frame_range) : list Z := seqZ (start_frame r) (frame_count r).
Definition end_frame (r : stage5c_frame_range) : Z := start_frame r + frame_count r.

Section cursor.
Variable R : list stage5c_frame_range.

Definition fresh_at (i : nat) (n : Z) : list Z :=
  match R !! i with
  | Some r => seqZ (Z.max n (start_frame r)) (end_frame r - Z.max n (start_frame r))
                ++ (drop (S i) R ≫= frames_of)
  | None => []
  end.
Definition issued_at (i : nat) (n : Z) : list Z :=
  match R !! i with
  | Some r => (take i R ≫= frames_of)
                ++ seqZ (start_frame r) (Z.max n (start_frame r) - start_frame r)
  | None => R ≫= frames_of
  end.

Definition range_ok (r : stage5c_frame_range) : Prop :=
  0 < frame_count r ∧ STAGE5B_POLICY_MIN_ADDR ≤ start_frame r * 0x1000 ∧
  end_frame r * 0x1000 ≤ UINT64_MAX.

(** The cursor does not run past the end of its range. *)
Record cursor_ok (i : nat) (n : Z) : Prop := {
  cursor_pos : 0 ≤ n;
  cursor_end : ∀ r, R !! i = Some r → n ≤ end_frame r;
}.

Context (Rok : Forall range_ok R) (Rsorted : StronglySorted range_before R).

Lemma range_ok_at i r : R !! i = Some r → range_ok r.
Proof. rewrite Forall_lookup in Rok. apply Rok. Qed.

Lemma sorted_lookup (l : list stage5c_frame_range) i j x y :
  StronglySorted range_before l → l !! i = Some x → l !! j = Some y → (i < j)%nat →
  range_before x y.
Proof.
  intros Hl. revert i j. induction Hl as [|z l Hl IH Hz]; intros [|i] [|j]; simpl; try done; try lia.
  - intros [= ->] Hy _. rewrite Forall_lookup in Hz. eauto.
  - intros Hx Hy Hij. apply (IH i j); [done..|lia].
Qed.

Lemma issued_fresh i n : cursor_ok i n → issued_at i n ++ fresh_at i n = R ≫= frames_of.
Proof.
  intros [Hn Hc]. unfold issued_at, fresh_at. destruct (R !! i) as [r|] eqn:Er; [|by rewrite app_nil_r].
  specialize (Hc r eq_refl). destruct (range_ok_at i r Er) as (Hpos & _).
  rewrite <- (take_drop_middle R i r Er) at 3. rewrite bind_app, bind_cons.
  rewrite <- app_assoc. f_equal. rewrite app_assoc. f_equal. unfold frames_of, end_frame in *.
  set (m := Z.max n (start_frame r)) in *.
  replace (frame_count r) with ((m - start_frame r) + (start_frame r + frame_count r - m)) at 2 by lia.
  rewrite seqZ_app by (unfold m; lia). f_equal. f_equal. lia.
Qed.

(** Moving past an exhausted range. *)
Lemma fresh_next i n r :
  R !! i = Some r → n = end_frame r → fresh_at i n = fresh_at (S i) n ∧ cursor_ok (S i) n.
Proof.
  intros Er ->. destruct (range_ok_at i r Er) as (Hpos & Hmin & _).
  assert (∀ r', R !! S i = Some r' → end_frame r ≤ start_frame r' ∧ 0 < frame_count r') as Hnext.
  { intros r' Er'. split; [|by destruct (range_ok_at (S i) r' Er')].
    apply (sorted_lookup R i (S i) r r' Rsorted Er Er'). lia. }
  split.
  - unfold fresh_at. rewrite Er. unfold end_frame in *.
    rewrite seqZ_nil by lia. simpl. destruct (R !! S i) as [r'|] eqn:Er'.
    + destruct (Hnext r' eq_refl). rewrite (drop_S R r' (S i)) by done.
      rewrite bind_cons. f_equal. unfold frames_of. f_equal; lia.
    + by rewrite drop_ge by by apply lookup_ge_None.
  - split; [unfold end_frame; zlia|]. intros r' Er'.
    destruct (Hnext r' Er'). unfold end_frame in *. lia.
Qed.

Lemma all_frames_NoDup l : StronglySorted range_before l → NoDup (l ≫= frames_of).
Proof.
  induction 1 as [|r l Hl IH Hr]; [constructor|].
  rewrite bind_cons. apply NoDup_app. split_and!; [apply NoDup_seqZ| |done].
  intros f Hf (r' & Hf' & Hr')%list_elem_of_bind. rewrite Forall_forall in Hr.
  specialize (Hr r' Hr'). unfold frames_of in *. apply elem_of_seqZ in Hf, Hf'.
  unfold range_before in Hr. lia.
Qed.

Lemma all_frames_sorted l : StronglySorted range_before l → StronglySorted Z.lt (l ≫= frames_of).
Proof.
  induction 1 as [|r l Hl IH Hr]; [constructor|]. rewrite bind_cons. apply StronglySorted_app; [|done|].
  - unfold frames_of. generalize (start_frame r), (frame_count r). intros a n.
    destruct (Z.le_gt_cases 0 n) as [Hn|Hn]; [|rewrite seqZ_nil by lia; constructor].
    revert a. pattern n. apply natlike_ind; [intros a; constructor| |done].
    intros m Hm IHm a. rewrite seqZ_cons by lia. constructor; [rewrite Z.pred_succ; apply IHm|].
    apply Forall_forall. intros x Hx%elem_of_seqZ. lia.
  - intros x y Hx (r' & Hy & Hr')%list_elem_of_bind. rewrite Forall_forall in Hr. specialize (Hr r' Hr').
    unfold frames_of in *. apply elem_of_seqZ in Hx, Hy. unfold range_before in Hr. lia.
Qed.

(** The first (and only) range of a frame. *)
Lemma range_unique i j r r' f :
  R !! i = Some r → R !! j = Some r' → in_range r f → in_range r' f → i = j.
Proof.
  intros Hi Hj Hf Hf'. unfold in_range in *. destruct (lt_eq_lt_dec i j) as [[Hij|]|Hji]; [|done|].
  - pose proof (sorted_lookup R i j r r' Rsorted Hi Hj Hij). unfold range_before in *. lia.
  - pose proof (sorted_lookup R j i r' r Rsorted Hj Hi Hji). unfold range_before in *. lia.
Qed.

Lemma elem_of_frames_of r f : f ∈ frames_of r ↔ in_range r f.
Proof. unfold frames_of, in_range. apply elem_of_seqZ. Qed.

Lemma elem_of_issued i n j r f :
  cursor_ok i n → R !! j = Some r → in_range r f →
  f ∈ issued_at i n ↔ R !! i = None ∨ (j < i)%nat ∨ (j = i ∧ f < n).
Proof.
  intros [Hn Hc] Hj Hf. unfold issued_at. destruct (R !! i) as [ri|] eqn:Ei.
  - rewrite elem_of_app, list_elem_of_bind, elem_of_seqZ. split.
    + intros [(r' & Hf' & Hr')|Hf'].
      * apply elem_of_take in Hr' as (k & Hk & Hki). rewrite elem_of_frames_of in Hf'.
        right. left. by rewrite (range_unique j k r r' f).
      * right. right. specialize (Hc ri eq_refl). assert (j = i) as ->.
        { apply (range_unique j i r ri f); [done..|]. unfold in_range, end_frame in *. lia. }
        split; [done|]. lia.
    + intros [?|[Hji|[-> Hfn]]]; [done| |].
      * left. exists r. rewrite elem_of_frames_of. split; [done|]. apply elem_of_take. eauto.
      * right. simplify_eq. unfold in_range in Hf. lia.
  - rewrite list_elem_of_bind. split; [by left|]. intros _. exists r.
    rewrite elem_of_frames_of. eauto using list_elem_of_lookup_2.
Qed.

Lemma fresh_head i n r :
  R !! i = Some r → start_frame r ≤ n < end_frame r →
  fresh_at i n = n :: fresh_at i (n + 1) ∧ cursor_ok i (n + 1) ∧
  issued_at i (n + 1) = issued_at i n ++ [n].
Proof.
  intros Er Hn. destruct (range_ok_at i r Er) as (Hpos & Hmin & _). split_and!.
  - unfold fresh_at. rewrite Er. rewrite !Z.max_l by lia. rewrite seqZ_cons by lia. simpl.
    do 2 f_equal. f_equal; lia.
  - split; [zlia|]. intros r' Er'. simplify_eq. lia.
  - unfold issued_at. rewrite Er. rewrite !Z.max_l by lia. rewrite <- app_assoc. f_equal.
    replace (n + 1 - start_frame r) with ((n - start_frame r) + 1) by lia.
    rewrite seqZ_app by lia. f_equal. replace (start_frame r + (n - start_frame r)) with n by lia.
    by rewrite seqZ_cons, (seqZ_nil _ (Z.pred 1)) by lia.
Qed.
End cursor.

(** ** The invariant *)
Definition table (s : pmm) : list stage5c_frame_range := recorded_ranges (frames s).
Definition queue (s : pmm) : list Z := take (Z.to_nat (pending_free_count s)) (pending_free_frames s).
Definition cursor_range (s : pmm) : nat := Z.to_nat (range_index (pmm_state s)).
Definition cursor_frame (s : pmm) : Z := next_frame_index (pmm_state s).
Definition fresh (s : pmm) : list Z := fresh_at (table s) (cursor_range s) (cursor_frame s).
Definition issued (s : pmm) : list Z := issued_at (table s) (cursor_range s) (cursor_frame s).
Definition abstract (s : pmm) : alloc_spec := mk_alloc_spec (issued s) (fresh s) (queue s).

(** Ranges none of which is empty, at usable addresses. *)
Record ranges_ok (f : stage5c_frame_bookkeeping) : Prop := {
  ra_table : table_ok f;
  ra_ranges : Forall range_ok (recorded_ranges f);
}.

(** In ascending order too, as [MemoryMap] leaves them for a memory map in
    ascending order. *)
Record frames_ok (f : stage5c_frame_bookkeeping) : Prop := {
  fr_table : table_ok f;
  fr_sorted : StronglySorted range_before (recorded_ranges f);
  fr_ranges : Forall range_ok (recorded_ranges f);
}.

Lemma frames_ok_ranges f : frames_ok f → ranges_ok f.
Proof. by intros []. Qed.

Record pmm_wf (s : pmm) : Prop := {
  wf_frames : frames_ok (frames s);
  wf_initialized : is_initialized (pmm_state s) = 1;
  wf_range : 0 ≤ range_index (pmm_state s) ≤ range_count (frames s);
  wf_cursor : cursor_ok (table s) (cursor_range s) (cursor_frame s);
  wf_pending_length : length (pending_free_frames s) = 64%nat;
  wf_pending_count : 0 ≤ pending_free_count s ≤ 64;
  wf_queue_NoDup : NoDup (queue s);
  wf_queue_issued : ∀ f, f ∈ queue s → f ∈ issued s;
  wf_remaining : remaining_frame_count (pmm_state s) =
    Z.of_nat (length (queue s)) + Z.of_nat (length (fresh s));
  wf_allocations : is_u64 (allocation_count (pmm_state s));
}.

Definition with_cursor (i n : Z) (s : pmm) : pmm := set_range_index i (set_next_frame_index n s).

Lemma with_cursor_id s :
  with_cursor (range_index (pmm_state s)) (next_frame_index (pmm_state s)) s = s.
Proof. by destruct s as [? [] ? ?]. Qed.

Lemma table_lookup s i :
  table_ok (frames s) → 0 ≤ i < range_count (frames s) →
  ∃ r, array_get (ranges (frames s)) i = Some r ∧ table s !! Z.to_nat i = Some r.
Proof.
  intros [Hl Hc] Hi. destruct (array_get_lt (ranges (frames s)) i) as [r Hr]; [lia|].
  exists r. split; [done|]. unfold table, recorded_ranges. rewrite lookup_take_lt by lia.
  by apply array_get_lookup.
Qed.

Lemma table_end s : table_ok (frames s) → table s !! Z.to_nat (range_count (frames s)) = None.
Proof.
  intros Hok. apply lookup_ge_None. pose proof (length_recorded _ Hok). unfold table. lia.
Qed.

Lemma range_end_eq r : range_ok r → range_end r = end_frame r.
Proof.
  intros (Hpos & Hmin & Hmax). unfold range_end, end_frame in *.
  rewrite checked_add_spec by zlia. rewrite bool_decide_false by zlia. apply u64_id. zlia.
Qed.

(** Advancing moves the cursor to the next fresh frame and changes neither
    list; the loop ends because every iteration passes a range. *)
Lemma advance_spec s :
  frames_ok (frames s) → 0 ≤ range_index (pmm_state s) ≤ range_count (frames s) →
  cursor_ok (table s) (cursor_range s) (cursor_frame s) →
  ∃ i n, let s' := with_cursor i n s in
    stage6a_pmm_advance_to_next_eligible s = Ret tt s' ∧
    0 ≤ i ≤ range_count (frames s) ∧ cursor_ok (table s') (cursor_range s') (cursor_frame s') ∧
    fresh s' = fresh s ∧ issued s' = issued s ∧
    (i < range_count (frames s) → ∃ r, table s !! Z.to_nat i = Some r ∧
       start_frame r ≤ n < end_frame r).
Proof.
  intros [Htab Hsort Hran] Hi Hc. set (R := table s). fold R in Hc.
  change (recorded_ranges (frames s)) with R in Hsort, Hran.
  cut (wp stage6a_pmm_advance_to_next_eligible (λ _ s', ∃ i n, s' = with_cursor i n s ∧
    0 ≤ i ≤ range_count (frames s) ∧ cursor_ok R (Z.to_nat i) n ∧
    fresh_at R (Z.to_nat i) n = fresh s ∧
    (i < range_count (frames s) → ∃ r, R !! Z.to_nat i = Some r ∧
       start_frame r ≤ n < end_frame r)) s).
  { intros ([] & s' & E & i & n & -> & Hi' & Hc' & Hf & Hr)%wp_run. exists i, n. cbv zeta.
    split_and!; [done|lia|lia|done|exact Hf| |done].
    apply (app_inv_tail (fresh s)). transitivity (R ≫= frames_of).
    - rewrite <- Hf. apply issued_fresh; done.
    - symmetry. apply issued_fresh; done. }
  unfold stage6a_pmm_advance_to_next_eligible. wp_step. wp_step.
  apply (wp_loop (λ _ s', ∃ i n, s' = with_cursor i n s ∧ 0 ≤ i ≤ range_count (frames s) ∧
    cursor_ok R (Z.to_nat i) n ∧ fresh_at R (Z.to_nat i) n = fresh s)
    (λ _ s', range_count (frames s) - range_index (pmm_state s'))); [| |lia|lia].
  { exists (range_index (pmm_state s)), (next_frame_index (pmm_state s)).
    rewrite with_cursor_id. split_and!; [done|lia|lia|done|done]. }
  clear Hi Hc. intros _ ? (i & n & -> & Hi & [Hn Hc] & Hf). wp_step. wp_step.
  cbn [frames pmm_state with_cursor set_range_index set_next_frame_index set_pmm_state range_index].
  destruct (Z.ltb_spec i (range_count (frames s))) as [Hlt|Hge]; cycle 1.
  { wp_steps. exists i, n. split_and!; [done|lia|lia|by split|done|lia]. }
  destruct (table_lookup s i Htab ltac:(lia)) as (r & Hr & HR). fold R in HR.
  wp_step. eapply wp_from_option; [exact Hr|].
  pose proof (range_ok_at R Hran _ _ HR) as Hrok. pose proof Hrok as (Hpos & Hmin & Hmax).
  rewrite (proj2 (Z.eqb_neq _ _)) by lia. rewrite range_end_eq by done. cbv zeta.
  specialize (Hc r HR). cbn [next_frame_index].
  assert (wp (if n <? start_frame r then modify (set_next_frame_index (start_frame r)) else mret tt)
    (λ _ s', s' = with_cursor i (Z.max n (start_frame r)) s) (with_cursor i n s)) as Hraise.
  { destruct (Z.ltb_spec n (start_frame r)); wp_steps.
    - unfold with_cursor, set_range_index, set_next_frame_index, set_pmm_state. simpl. do 2 f_equal. lia.
    - by rewrite Z.max_l by lia. }
  wp_step. eapply wp_mono; [|exact Hraise]. intros [] s' ->. wp_step. wp_step.
  cbn [frames pmm_state with_cursor set_range_index set_next_frame_index set_pmm_state
    next_frame_index].
  assert (fresh_at R (Z.to_nat i) (Z.max n (start_frame r)) = fresh s) as Hf'.
  { rewrite <- Hf. unfold fresh_at. rewrite HR. by rewrite <- Z.max_assoc, Z.max_id. }
  assert (cursor_ok R (Z.to_nat i) (Z.max n (start_frame r))) as Hc'.
  { split; [zlia|]. intros r' Hr'. simplify_eq. unfold end_frame in *. lia. }
  destruct (Z.ltb_spec (Z.max n (start_frame r)) (end_frame r)); wp_steps.
  - exists i, (Z.max n (start_frame r)). split_and!; [done|lia|lia|exact Hc'|done|].
    intros _. exists r. split; [done|lia].
  - split; [|simpl; destruct Htab; rewrite u32_id by lia; lia].
    exists (i + 1), (Z.max n (start_frame r)).
    destruct (fresh_next R Hran Hsort (Z.to_nat i) (Z.max n (start_frame r)) r) as [E [E1 E2]];
      [done|unfold end_frame in *; lia|].
    replace (Z.to_nat (i + 1)) with (S (Z.to_nat i)) by lia.
    split_and!; [|lia|lia|by split|congruence].
    unfold with_cursor, set_range_index, set_next_frame_index, set_pmm_state. simpl.
    destruct Htab. by rewrite u32_id by lia.
Qed.

(** ** The loops of the remaining operations *)
Lemma pop_spec s v :
  length (pending_free_frames s) = 64%nat → 0 ≤ pending_free_count s ≤ 64 →
  match queue s with
  | [] => stage6d_pmm_pop_pending_free_fifo (Some v) s = Ret (false, Some v) s
  | f :: q => ∃ l, length l = 64%nat ∧
      stage6d_pmm_pop_pending_free_fifo (Some v) s =
        Ret (true, Some f) (set_pending l (pending_free_count s - 1) s) ∧
      take (Z.to_nat (pending_free_count s - 1)) l = q
  end.
Proof.
  intros Hlen Hc. unfold queue, stage6d_pmm_pop_pending_free_fifo. rewrite bind_get.
  destruct (Z.eqb_spec (pending_free_count s) 0) as [E|Hne]; [by rewrite E|].
  destruct (pending_free_frames s) as [|f l] eqn:El; [done|].
  set (n := pending_free_count s) in *.
  assert (take (Z.to_nat n) (f :: l) = f :: take (Z.to_nat (n - 1)) l) as ->
    by (by replace (Z.to_nat n) with (S (Z.to_nat (n - 1))) by lia).
  set (sh i := take i l ++ drop i (f :: l)).
  assert (∀ i, (i < 64)%nat → length (sh i) = 64%nat) as Hsh.
  { intros i Hi. unfold sh. rewrite length_app, length_take, length_drop. simpl in *. lia. }
  exists (sh (Z.to_nat (n - 1))). split; [apply Hsh; lia|]. split; cycle 1.
  { unfold sh. rewrite take_app_le by (rewrite length_take; simpl in *; lia).
    apply take_take_eq || (rewrite take_take; f_equal; lia). }
  erewrite bind_from_option by reflexivity.
  match goal with |- (loop ?k ?b ?i ≫= _) _ = _ =>
    assert (wp (loop k b i) (λ _ s', s' = set_pending (sh (Z.to_nat (n - 1))) n s) s) as Hwp end.
  { apply (wp_loop (λ i s', 0 ≤ i < n ∧ s' = set_pending (sh (Z.to_nat i)) n s) (λ i _, n - i));
      [split; [lia|]; unfold sh; rewrite <- El; by destruct s| |lia|lia].
    intros i ? [Hi ->]. wp_step. wp_step. cbn [pending_free_count pending_free_frames set_pending].
    rewrite u64_id by lia. destruct (Z.ltb_spec (i + 1) n); wp_steps.
    - destruct (lookup_lt_is_Some_2 l (Z.to_nat i)) as [x Hx]; [simpl in Hlen; lia|].
      eapply wp_from_option.
      { unfold array_get. rewrite decide_True by lia. unfold sh.
        rewrite lookup_app_r by (rewrite length_take; lia).
        rewrite length_take, lookup_drop. simpl in Hlen.
        replace (Z.to_nat i + (Z.to_nat (i + 1) - Z.to_nat i `min` length l))%nat
          with (S (Z.to_nat i)) by lia. exact Hx. }
      wp_step. eapply wp_from_option; [apply array_set_lt; rewrite Hsh by lia; lia|].
      wp_steps. split; [|lia]. split; [lia|].
      unfold set_pending. cbn [frames pmm_state pending_free_count]. f_equal.
      unfold sh. rewrite fill_step by (rewrite ?length_take; simpl in *; lia).
      replace (Z.to_nat (i + 1)) with (S (Z.to_nat i)) by lia. by rewrite (take_S_r _ _ x).
    - by replace (n - 1) with i by lia. }
  apply wp_run in Hwp as ([] & s' & E & ->). mrun E.
  rewrite bind_modify. cbn [pending_free_count pending_free_frames set_pending].
  by rewrite u64_id by lia.
Qed.

Lemma find_frame_range_spec s f out :
  ranges_ok (frames s) →
  (∃ i r, stage6d_pmm_find_frame_range f out s =
      Ret (true, match out with Some _ => Some (Z.of_nat i) | None => None end) s ∧
    table s !! i = Some r ∧ in_range r f) ∨
  (stage6d_pmm_find_frame_range f out s = Ret (false, out) s ∧ ¬ in_ranges (table s) f).
Proof.
  intros [Htab Hran].
  assert (wp (stage6d_pmm_find_frame_range f out) (λ b s', s' = s ∧
    ((∃ i r, b = (true, match out with Some _ => Some (Z.of_nat i) | None => None end) ∧
       table s !! i = Some r ∧ in_range r f) ∨ (b = (false, out) ∧ ¬ in_ranges (table s) f))) s)
    as Hwp.
  { unfold stage6d_pmm_find_frame_range. wp_step. wp_step.
    apply (wp_loop (λ i s', s' = s ∧ 0 ≤ i ≤ range_count (frames s) ∧
      ∀ j r, (j < Z.to_nat i)%nat → table s !! j = Some r → ¬ in_range r f)
      (λ i _, range_count (frames s) - i)); [split_and!; [done|lia|destruct Htab; lia|intros j r Hj; exfalso; lia]| |destruct Htab; lia|lia].
    intros i ? (-> & Hi & Hno). destruct (Z.ltb_spec i (range_count (frames s))); cycle 1.
    { wp_steps. split; [done|]. right. split; [done|].
      intros (r & (j & Hj)%list_elem_of_lookup & Hr). apply (Hno j r); [|done..].
      apply lookup_lt_Some in Hj as Hlt. pose proof (length_recorded _ Htab). unfold table in Hlt. lia. }
    destruct (table_lookup s i Htab ltac:(lia)) as (r & Hr & HR).
    wp_step. eapply wp_from_option; [exact Hr|].
    pose proof (range_ok_at _ Hran _ _ HR) as Hrok. pose proof Hrok as (Hpos & _).
    rewrite (proj2 (Z.eqb_neq _ _)) by lia. rewrite range_end_eq by done.
    assert (in_range r f ↔ (f >=? start_frame r) && (f <? end_frame r) = true) as Hin
      by (unfold in_range, end_frame; lia).
    destruct ((f >=? start_frame r) && (f <? end_frame r)); wp_steps.
    - split; [done|]. left. exists (Z.to_nat i), r. rewrite Z2Nat.id by lia.
      split_and!; [done|done|by apply Hin].
    - destruct Htab. rewrite u32_id by lia. split; [|lia]. split_and!; [done|lia|lia|].
      intros j r' Hj Hr'. destruct (decide (j = Z.to_nat i)) as [->|].
      + simplify_eq. rewrite Hin. done.
      + apply (Hno j); [lia|done]. }
  apply wp_run in Hwp as (b & s' & E & -> & [(i & r & -> & ?)|[-> ?]]); rewrite E.
  - left. exists i, r. done.
  - right. done.
Qed.

Lemma eligible_frame_spec s f :
  ranges_ok (frames s) →
  ∃ b, stage6c_is_eligible_frame f s = Ret b s ∧ (b = true ↔ in_ranges (table s) f).
Proof.
  intros Hf. unfold stage6c_is_eligible_frame.
  destruct (find_frame_range_spec s f None Hf) as [(i & r & E & Hr & Hin)|[E Hno]]; mrun E.
  - exists true. split; [done|]. split; [|done]. intros _. exists r.
    eauto using list_elem_of_lookup_2.
  - exists false. split; [done|]. split; [done|]. intros ?. contradiction.
Qed.

Lemma issued_in_ranges s f : pmm_wf s → f ∈ issued s → in_ranges (table s) f.
Proof.
  intros [[_ _ Hran] _ _ Hc _ _ _ _ _ _] Hf.
  assert (f ∈ table s ≫= frames_of) as (r & Hr & Hr')%list_elem_of_bind.
  { rewrite <- (issued_fresh (table s) Hran (cursor_range s) (cursor_frame s) Hc).
    apply elem_of_app. by left. }
  exists r. by rewrite elem_of_frames_of in Hr.
Qed.

Lemma was_frame_issued_spec s f :
  pmm_wf s → stage6d_pmm_was_frame_issued f s = Ret (bool_decide (f ∈ issued s)) s.
Proof.
  intros Hwf. pose proof Hwf as [Hfr Hinit Hi Hc _ _ _ _ _ _]. pose proof Hfr as [Htab Hsort Hran].
  unfold stage6d_pmm_was_frame_issued. rewrite bind_get, Hinit. simpl.
  destruct (find_frame_range_spec s f (Some 0) (frames_ok_ranges _ Hfr)) as [(j & r & E & Hr & Hin)|[E Hno]]; mrun E.
  - simpl. cbv [mbind M_bind from_option mret M_ret].
    pose proof (elem_of_issued (table s) Hsort _ _ j r f Hc Hr Hin) as Hiff.
    change (issued_at _ _ _) with (issued s) in Hiff.
    assert (table s !! cursor_range s = None ↔ range_count (frames s) ≤ range_index (pmm_state s))
      as Hnone.
    { rewrite lookup_ge_None. pose proof (length_recorded _ Htab). unfold table, cursor_range. lia. }
    unfold cursor_range, cursor_frame in *. rewrite Hnone in Hiff.
    destruct (Z.geb_spec (range_index (pmm_state s)) (range_count (frames s))).
    { f_equal. symmetry. apply bool_decide_eq_true, Hiff. lia. }
    destruct (Z.ltb_spec (Z.of_nat j) (range_index (pmm_state s))).
    { f_equal. symmetry. apply bool_decide_eq_true, Hiff. lia. }
    destruct (Z.gtb_spec (Z.of_nat j) (range_index (pmm_state s))).
    { f_equal. symmetry. apply bool_decide_eq_false. rewrite Hiff. lia. }
    f_equal. case_bool_decide as Hf; rewrite Hiff in Hf; lia.
  - simpl. f_equal. symmetry. apply bool_decide_eq_false. intros Hf.
    by apply Hno, issued_in_ranges.
Qed.

Lemma queue_scan s f (Q : bool → pmm → Prop) :
  length (pending_free_frames s) = 64%nat → 0 ≤ pending_free_count s ≤ 64 →
  Q (bool_decide (f ∈ queue s)) s →
  wp (loop (S (Z.to_nat (pending_free_count s))) (λ i,
    if i <? pending_free_count s then
      queued ← from_option (array_get (pending_free_frames s) i);
      if queued =? f then break true else continue (u64 (i + 1))
    else break false) 0) Q s.
Proof.
  intros Hlen Hc HQ.
  apply (wp_loop (λ i s', s' = s ∧ 0 ≤ i ≤ pending_free_count s ∧
    ∀ j, (j < Z.to_nat i)%nat → pending_free_frames s !! j ≠ Some f)
    (λ i _, pending_free_count s - i)); [split_and!; [done|lia|lia|intros; lia]| |lia|lia].
  intros i ? (-> & Hi & Hno). destruct (Z.ltb_spec i (pending_free_count s)).
  - destruct (lookup_lt_is_Some_2 (pending_free_frames s) (Z.to_nat i)) as [x Hx]; [lia|].
    wp_step. eapply wp_from_option; [unfold array_get; rewrite decide_True by lia; exact Hx|].
    destruct (Z.eqb_spec x f) as [->|Hxf]; wp_steps.
    + rewrite bool_decide_true in HQ; [done|]. apply elem_of_take. exists (Z.to_nat i).
      split; [done|lia].
    + rewrite u64_id by lia. split; [|lia]. split_and!; [done|lia|lia|].
      intros j Hj. destruct (decide (j = Z.to_nat i)) as [->|]; [congruence|]. apply Hno. lia.
  - wp_steps. rewrite bool_decide_false in HQ; [done|].
    intros (j & Hj & Hlt)%elem_of_take. apply (Hno j); [lia|done].
Qed.

(** ** Refinement *)
Lemma in_ranges_bounds s f :
  frames_ok (frames s) → in_ranges (table s) f →
  STAGE5B_POLICY_MIN_ADDR ≤ f * 0x1000 ∧ (f + 1) * 0x1000 ≤ UINT64_MAX.
Proof.
  intros [_ _ Hran] (r & Hr & Hf). rewrite Forall_forall in Hran.
  destruct (Hran r Hr) as (Hpos & Hmin & Hmax). unfold in_range, end_frame in *. lia.
Qed.

Lemma length_all_frames s :
  frames_ok (frames s) → Z.of_nat (length (table s ≫= frames_of)) ≤ 128 * 0x10000000000000.
Proof.
  intros [Htab _ Hran]. pose proof (length_recorded _ Htab) as Hl. destruct Htab as [_ Hc].
  change (recorded_ranges (frames s)) with (table s) in Hl, Hran.
  assert (Z.of_nat (length (table s ≫= frames_of)) ≤
    Z.of_nat (length (table s)) * 0x10000000000000); [|lia].
  clear Hl Hc. induction Hran as [|r l Hr Hl IH]; [done|].
  rewrite bind_cons, length_app. unfold frames_of at 1. rewrite length_seqZ.
  destruct Hr as (?&?&?). unfold end_frame in *. cbn [length]. zlia.
Qed.

Lemma fresh_bound s :
  frames_ok (frames s) → cursor_ok (table s) (cursor_range s) (cursor_frame s) →
  Z.of_nat (length (fresh s)) ≤ 128 * 0x10000000000000.
Proof.
  intros Hf Hc. pose proof (length_all_frames s Hf) as Hl. destruct Hf as [_ _ Hran].
  rewrite <- (issued_fresh (table s) Hran _ _ Hc), length_app in Hl. unfold fresh. lia.
Qed.

(** What a successful call stores through its out-parameter. *)
Lemma frame_address f :
  0 ≤ f → (f + 1) * 0x1000 ≤ UINT64_MAX →
  (f >? Z.shiftr UINT64_MAX STAGE5C_FRAME_SHIFT) = false ∧
  u64 (Z.shiftl f STAGE5C_FRAME_SHIFT) = f * 0x1000.
Proof.
  intros Hf Hmax. rewrite shiftr_frame. consts. rewrite Z.shiftl_mul_pow2 by lia.
  change (2 ^ 12) with 0x1000. rewrite u64_id by lia. split; [lia|done].
Qed.

Lemma length_queue s :
  length (pending_free_frames s) = 64%nat → 0 ≤ pending_free_count s ≤ 64 →
  Z.of_nat (length (queue s)) = pending_free_count s.
Proof. intros Hl Hc. unfold queue. rewrite length_take. lia. Qed.

Lemma reuse_frame_spec s v :
  pmm_wf s →
  match queue s with
  | [] => stage6d_pmm_try_allocate_reused_frame (Some v) s = Ret (false, Some v) s
  | f :: q => ∃ s', stage6d_pmm_try_allocate_reused_frame (Some v) s =
        Ret (true, Some (f * 0x1000)) s' ∧
      pmm_wf s' ∧ abstract s' = mk_alloc_spec (issued s) (fresh s) q ∧ frames s' = frames s
  end.
Proof.
  intros Hwf. pose proof Hwf as [Hfr Hinit Hi Hc Hlen Hcount Hnd Hqi Hrem Halloc].
  pose proof (pop_spec s 0 Hlen Hcount) as Hpop.
  pose proof (length_queue s Hlen Hcount) as Hql.
  unfold stage6d_pmm_try_allocate_reused_frame. rewrite bind_get.
  destruct (queue s) as [|f q] eqn:Eq.
  { destruct (remaining_frame_count (pmm_state s) =? 0); [done|]. by mrun Hpop. }
  destruct Hpop as (l & Hl & E & Hq). simpl length in Hrem, Hql.
  rewrite (proj2 (Z.eqb_neq _ _)) by lia. mrun E. cbn [negb].
  erewrite bind_from_option by reflexivity.
  assert (in_ranges (table s) f) as Hin by (apply issued_in_ranges, Hqi; [done|by left]).
  destruct (in_ranges_bounds s f Hfr Hin) as [Hlo Hhi].
  destruct (frame_address f) as [E1 E2]; [zlia|done|]. rewrite E1, E2, !bind_modify.
  eexists. split; [reflexivity|].
  assert (pending_free_count s ≠ 0) as Hne by (unfold queue in Eq; intros Hz; rewrite Hz in Eq; done).
  split; [|split; [|done]].
  - constructor; try done; unfold queue; cbn; rewrite ?Hq.
    + lia.
    + by apply NoDup_cons in Hnd as [_ ?].
    + intros g Hg. apply Hqi. by right.
    + change (fresh _) with (fresh s).
      pose proof (fresh_bound s Hfr Hc). rewrite u64_id by lia. lia.
    + rewrite add_clamp_spec by lia. zlia.
  - unfold abstract. f_equal. exact Hq.
Qed.

Lemma fresh_alloc_spec s v :
  pmm_wf s → queue s = [] →
  match fresh s with
  | [] => ∃ s', stage6a_pmm_try_allocate_frame (Some v) s = Ret (false, Some v) s' ∧
      pmm_wf s' ∧ abstract s' = abstract s ∧ frames s' = frames s
  | f :: l => ∃ s', stage6a_pmm_try_allocate_frame (Some v) s = Ret (true, Some (f * 0x1000)) s' ∧
      pmm_wf s' ∧ abstract s' = mk_alloc_spec (issued s ++ [f]) l [] ∧ frames s' = frames s
  end.
Proof.
  intros Hwf Hq. pose proof Hwf as [Hfr Hinit Hi Hc Hlen Hcount Hnd Hqi Hrem Halloc].
  pose proof Hfr as [Htab Hsort Hran].
  change (recorded_ranges (frames s)) with (table s) in Hsort, Hran.
  unfold stage6a_pmm_try_allocate_frame. rewrite bind_get, Hinit. simpl Z.eqb. cbv iota.
  rewrite bind_mret, bind_get. rewrite Hq in Hrem. simpl length in Hrem.
  destruct (fresh s) as [|f l] eqn:Ef.
  { rewrite (proj2 (Z.eqb_eq _ _)) by done. exists s. done. }
  simpl length in Hrem. rewrite (proj2 (Z.eqb_neq _ _)) by lia.
  destruct (advance_spec s Hfr Hi Hc) as (i & n & E & Hi' & Hc' & Hf & Hiss & Hr). mrun E.
  rewrite bind_get. cbn [pmm_state frames with_cursor set_range_index set_next_frame_index
    set_pmm_state range_index next_frame_index].
  assert (i < range_count (frames s)) as Hlt.
  { destruct (decide (i < range_count (frames s))); [done|]. exfalso. rewrite Ef in Hf.
    unfold fresh, fresh_at, cursor_range in Hf. cbn in Hf.
    replace i with (range_count (frames s)) in Hf by lia.
    change (table (with_cursor (range_count (frames s)) n s)) with (table s) in Hf.
    by rewrite table_end in Hf. }
  destruct (Z.geb_spec i (range_count (frames s))); [lia|].
  destruct (Hr Hlt) as (r & HR & Hn). pose proof (range_ok_at _ Hran _ _ HR) as Hrok.
  destruct Hrok as (Hpos & Hmin & Hmax).
  destruct (fresh_head (table s) Hran (Z.to_nat i) n r HR Hn) as (Hhead & Hc'' & Hiss').
  assert (n = f ∧ fresh_at (table s) (Z.to_nat i) (n + 1) = l) as [-> Hl].
  { rewrite Ef in Hf. change (fresh _) with (fresh_at (table s) (Z.to_nat i) n) in Hf.
    rewrite Hhead in Hf. by injection Hf. }
  destruct (frame_address f) as [E1 E2]; [zlia|unfold end_frame in *; zlia|].
  rewrite !bind_modify, E1, E2. eexists. split; [reflexivity|].
  assert (issued_at (table s) (Z.to_nat i) f = issued s) as Hi0 by exact Hiss.
  rewrite (u64_id (f + 1)) by (unfold end_frame in *; zlia).
  split; [|split; [|done]].
  - constructor; try done; cbn.
    + intros g Hg. exfalso. change (queue _) with (queue s) in Hg. rewrite Hq in Hg.
      by apply not_elem_of_nil in Hg.
    + change (queue _) with (queue s). rewrite Hq.
      change (fresh _) with (fresh_at (table s) (Z.to_nat i) (f + 1)). rewrite Hl.
      pose proof (fresh_bound s Hfr Hc) as Hb. rewrite Ef in Hb. simpl length in *.
      rewrite u64_id by lia. lia.
    + rewrite add_clamp_spec by lia. zlia.
  - unfold abstract. f_equal; [|exact Hl|exact Hq].
    transitivity (issued_at (table s) (Z.to_nat i) (f + 1)); [reflexivity|]. by rewrite Hiss', Hi0.
Qed.

Lemma alloc_frame_refines s v :
  pmm_wf s →
  ∃ ok out s', stage6b_pmm_alloc_frame (Some v) s = Ret (ok, Some out) s' ∧
    pmm_wf s' ∧ abstract s' = snd (spec_alloc (abstract s)) ∧ frames s' = frames s ∧
    (ok, out) = match fst (spec_alloc (abstract s)) with
                | Some f => (true, f * 0x1000) | None => (false, v) end.
Proof.
  intros Hwf. unfold stage6b_pmm_alloc_frame, spec_alloc. simpl.
  pose proof (reuse_frame_spec s v Hwf) as Hre. destruct (queue s) as [|f q] eqn:Eq.
  - mrun Hre. pose proof (fresh_alloc_spec s v Hwf Eq) as Hfr.
    destruct (fresh s) as [|f l] eqn:Ef; destruct Hfr as (s' & -> & Hwf' & Habs & Hframes).
    + exists false, v, s'. done.
    + exists true, (f * 0x1000), s'. done.
  - destruct Hre as (s' & E & Hwf' & Habs & Hframes). mrun E.
    exists true, (f * 0x1000), s'. done.
Qed.

Lemma free_frame_refines s pa :
  pmm_wf s → is_u64 pa →
  ∃ s', stage6c_pmm_free_frame pa s = Ret (fst (spec_free pa (abstract s))) s' ∧
    pmm_wf s' ∧ abstract s' = snd (spec_free pa (abstract s)) ∧ frames s' = frames s ∧
    (fst (spec_free pa (abstract s)) = false → s' = s).
Proof.
  intros Hwf Hpa. pose proof Hwf as [Hfr Hinit Hi Hc Hlen Hcount Hnd Hqi Hrem Halloc].
  assert (¬ may_free (abstract s) pa →
    (∃ s', Ret (A := bool) false s = Ret (fst (spec_free pa (abstract s))) s' ∧
      pmm_wf s' ∧ abstract s' = snd (spec_free pa (abstract s)) ∧ frames s' = frames s ∧
      (fst (spec_free pa (abstract s)) = false → s' = s))) as Hreject.
  { intros Hno. exists s. unfold spec_free. by rewrite decide_False. }
  unfold stage6c_pmm_free_frame. change (STAGE5C_FRAME_SIZE - 1) with (2 ^ 12 - 1).
  rewrite land_mask by lia. change (2 ^ 12) with 0x1000.
  destruct (Z.eqb_spec (pa mod 0x1000) 0) as [Hal|Hal]; cbn [negb]; cycle 1.
  { apply Hreject. by intros [? _]. }
  assert (pa / 0x1000 ∈ issued s → STAGE5B_POLICY_MIN_ADDR ≤ pa) as Hlow.
  { intros Hf. apply issued_in_ranges in Hf; [|done].
    apply in_ranges_bounds in Hf; [|done]. lia. }
  destruct (Z.ltb_spec pa STAGE5B_POLICY_MIN_ADDR) as [Hmin|Hmin].
  { apply Hreject. intros (_ & Hf & _). apply Hlow in Hf. lia. }
  rewrite shiftr_frame. cbv zeta.
  destruct (eligible_frame_spec s (pa / 0x1000) (frames_ok_ranges _ Hfr)) as (b & E & Hb). mrun E.
  destruct b; cbn [negb]; cycle 1.
  { apply Hreject. intros (_ & Hf & _). apply issued_in_ranges, Hb in Hf; done. }
  mrun (was_frame_issued_spec s (pa / 0x1000) Hwf). case_bool_decide as Hiss; cbn [negb]; cycle 1.
  { apply Hreject. by intros (_ & ? & _). }
  rewrite bind_get.
  destruct (proj1 (wp_run _ _ _) (queue_scan s (pa / 0x1000)
    (λ b s', b = bool_decide (pa / 0x1000 ∈ queue s) ∧ s' = s) Hlen Hcount (conj eq_refl eq_refl)))
    as (b & ? & E' & -> & ->). mrun E'. clear E'.
  case_bool_decide as Hq.
  { apply Hreject. by intros (_ & _ & ? & _). }
  pose proof (length_queue s Hlen Hcount) as Hql.
  destruct (Z.geb_spec (pending_free_count s) STAGE6C_MAX_PENDING_FREE) as [Hfull|Hroom].
  { apply Hreject. intros (_ & _ & _ & Hlt). simpl in Hlt. zlia. }
  rewrite array_set_lt by zlia. rewrite (bind_from_option _ _ _ _ eq_refl), !bind_modify.
  unfold spec_free. rewrite decide_True by (split_and!; [done..|simpl; zlia]). simpl fst.
  eexists. split; [reflexivity|]. rewrite u64_id by zlia.
  set (l := <[Z.to_nat (pending_free_count s) := pa / 0x1000]> (pending_free_frames s)).
  assert (take (Z.to_nat (pending_free_count s + 1)) l = queue s ++ [pa / 0x1000]) as Hl.
  { replace (Z.to_nat (pending_free_count s + 1)) with (S (Z.to_nat (pending_free_count s))) by lia.
    unfold l. rewrite (take_S_r _ _ (pa / 0x1000)) by (apply list_lookup_insert_eq; zlia).
    by rewrite take_insert_ge by lia. }
  split; [|split; [|done]].
  - constructor; try done; unfold queue; cbn; rewrite ?Hl.
    + unfold l. by rewrite length_insert.
    + zlia.
    + apply NoDup_app. split_and!; [done| |apply NoDup_singleton].
      intros x Hx ->%list_elem_of_singleton. contradiction.
    + intros g [?| ->%list_elem_of_singleton]%elem_of_app; [by apply Hqi|exact Hiss].
    + change (fresh _) with (fresh s). rewrite length_app. simpl length.
      pose proof (fresh_bound s Hfr Hc). rewrite add_clamp_spec by zlia. zlia.
  - unfold abstract. cbn [snd]. f_equal. exact Hl.
Qed.

(** ** Traces *)
Inductive pmm_op : Set :=
| AllocFrame
| FreeFrame (phys_addr : Z).

(** The result of an operation: the address granted or refused, or whether
    the free was accepted. *)
Definition run_pmm_op (op : pmm_op) : M pmm (bool * option Z) :=
  match op with
  | AllocFrame => stage6b_pmm_alloc_frame (Some 0)
  | FreeFrame pa => ok ← stage6c_pmm_free_frame pa; mret (ok, None)
  end.
Definition spec_pmm_op (op : pmm_op) (a : alloc_spec) : (bool * option Z) * alloc_spec :=
  match op with
  | AllocFrame =>
      let '(r, a') := spec_alloc a in
      (match r with Some f => (true, Some (f * 0x1000)) | None => (false, Some 0) end, a')
  | FreeFrame pa => let '(ok, a') := spec_free pa a in ((ok, None), a')
  end.

Fixpoint run_pmm_ops (ops : list pmm_op) : M pmm (list (bool * option Z)) :=
  match ops with
  | [] => mret []
  | op :: ops => r ← run_pmm_op op; rs ← run_pmm_ops ops; mret (r :: rs)
  end.
Fixpoint spec_pmm_ops (ops : list pmm_op) (a : alloc_spec) : list (bool * option Z) * alloc_spec :=
  match ops with
  | [] => ([], a)
  | op :: ops =>
      let '(r, a') := spec_pmm_op op a in
      let '(rs, a'') := spec_pmm_ops ops a' in (r :: rs, a'')
  end.

Definition pmm_op_u64 (op : pmm_op) : Prop :=
  match op with AllocFrame => True | FreeFrame pa => is_u64 pa end.

Lemma run_pmm_op_refines op s :
  pmm_wf s → pmm_op_u64 op →
  ∃ s', run_pmm_op op s = Ret (fst (spec_pmm_op op (abstract s))) s' ∧
    pmm_wf s' ∧ abstract s' = snd (spec_pmm_op op (abstract s)).
Proof.
  intros Hwf Hop. destruct op as [|pa]; simpl.
  - destruct (alloc_frame_refines s 0 Hwf) as (ok & out & s' & E & Hwf' & Habs & _ & Hr).
    exists s'. rewrite E. destruct (spec_alloc (abstract s)) as [[f|] a']; simpl in *;
      injection Hr as -> ->; done.
  - destruct (free_frame_refines s pa Hwf Hop) as (s' & E & Hwf' & Habs & _).
    exists s'. mrun E. destruct (spec_free pa (abstract s)) as [ok a']. done.
Qed.

Lemma run_pmm_ops_refines ops s :
  pmm_wf s → Forall pmm_op_u64 ops →
  ∃ s', run_pmm_ops ops s = Ret (fst (spec_pmm_ops ops (abstract s))) s' ∧
    pmm_wf s' ∧ abstract s' = snd (spec_pmm_ops ops (abstract s)).
Proof.
  intros Hwf Hops. revert s Hwf. induction Hops as [|op ops Hop Hops IH]; intros s Hwf; simpl.
  { exists s. done. }
  destruct (run_pmm_op_refines op s Hwf Hop) as (s1 & E1 & Hwf1 & Habs1). mrun E1.
  destruct (IH s1 Hwf1) as (s2 & E2 & Hwf2 & Habs2). mrun E2. exists s2.
  destruct (spec_pmm_op op (abstract s)) as [r a']. simpl in *. rewrite Habs1 in *.
  destruct (spec_pmm_ops ops a') as [rs a'']. done.
Qed.

(** C3. Every sequence of allocations and frees, from a well-formed state,
    returns what the abstract allocator returns: frees in any order are
    accepted exactly for frames that were issued and are not already queued
    (and while the queue has room), allocations take the oldest freed frame
    first and then the next fresh one. *)
Theorem pmm_trace_refines ops s :
  pmm_wf s → Forall pmm_op_u64 ops →
  ∃ s', run_pmm_ops ops s = Ret (fst (spec_pmm_ops ops (abstract s))) s' ∧
    pmm_wf s' ∧ abstract s' = snd (spec_pmm_ops ops (abstract s)).
Proof. intros Hwf Hops. by apply run_pmm_ops_refines. Qed.
(** ** Live frames: the interface the heap uses *)
Definition live (s : pmm) (f : Z) : Prop := f ∈ issued s ∧ f ∉ queue s.

Lemma issued_fresh_disjoint s f : pmm_wf s → f ∈ issued s → f ∈ fresh s → False.
Proof.
  intros [[_ Hsort Hran] _ _ Hc _ _ _ _ _ _] Hi Hf.
  pose proof (all_frames_NoDup _ Hsort) as Hnd.
  rewrite <- (issued_fresh _ Hran _ _ Hc) in Hnd. apply NoDup_app in Hnd as (_ & Hnd & _).
  exact (Hnd f Hi Hf).
Qed.

Lemma fresh_in_ranges s f : pmm_wf s → f ∈ fresh s → in_ranges (table s) f.
Proof.
  intros [[_ _ Hran] _ _ Hc _ _ _ _ _ _] Hf.
  assert (f ∈ table s ≫= frames_of) as (r & Hr & Hr')%list_elem_of_bind.
  { rewrite <- (issued_fresh (table s) Hran (cursor_range s) (cursor_frame s) Hc).
    apply elem_of_app. by right. }
  exists r. by rewrite elem_of_frames_of in Hr.
Qed.

Lemma alloc_live s v :
  pmm_wf s →
  ∃ ok out s', stage6b_pmm_alloc_frame (Some v) s = Ret (ok, Some out) s' ∧ pmm_wf s' ∧
    frames s' = frames s ∧
    (ok = false → issued s ++ fresh s = issued s ∧ queue s = [] ∧ ∀ f, live s' f ↔ live s f) ∧
    (ok = true → ∃ f, out = f * 0x1000 ∧ in_ranges (table s) f ∧ ¬ live s f ∧
       ∀ g, live s' g ↔ live s g ∨ g = f).
Proof.
  intros Hwf. destruct (alloc_frame_refines s v Hwf) as (ok & out & s' & E & Hwf' & Habs & Hfr & Hr).
  exists ok, out, s'. split_and!; [done..| |]; unfold spec_alloc in *; simpl in *;
    destruct (queue s) as [|f q] eqn:Eq; [destruct (fresh s) as [|f l] eqn:Ef| |
      destruct (fresh s) as [|f l] eqn:Ef|]; injection Hr as -> ->; intros Hok; try done;
    simpl in Habs; injection Habs as Hi Hf Hq.
  - rewrite app_nil_r. split_and!; [done..|]. unfold live. by rewrite Hi, Hq, Eq.
  - exists f. split; [done|]. split; [apply fresh_in_ranges; [done|]; rewrite Ef; by left|].
    split.
    + intros [Hlive _]. apply (issued_fresh_disjoint s f); [done..|]. rewrite Ef. by left.
    + intros g. unfold live. rewrite Hi, Hq, Eq, elem_of_app, list_elem_of_singleton.
      assert (g ∉ []) by apply not_elem_of_nil. tauto.
  - exists f. split; [done|].
    assert (f ∈ issued s) as Hfi by (destruct Hwf; apply wf_queue_issued0; rewrite Eq; by left).
    split; [by apply issued_in_ranges|]. split.
    + intros [_ Hn]. apply Hn. rewrite Eq. by left.
    + destruct Hwf as [_ _ _ _ _ _ Hnd _ _ _]. rewrite Eq in Hnd. apply NoDup_cons in Hnd as [Hnq _].
      intros g. unfold live. rewrite Hi, Hq, Eq, not_elem_of_cons.
      destruct (decide (g = f)) as [->|]; tauto.
Qed.

Lemma free_live s pa :
  pmm_wf s → is_u64 pa →
  ∃ ok s', stage6c_pmm_free_frame pa s = Ret ok s' ∧ pmm_wf s' ∧
    (ok = true → pa mod 0x1000 = 0 ∧ live s (pa / 0x1000) ∧
       ∀ g, live s' g ↔ live s g ∧ g ≠ pa / 0x1000) ∧
    (ok = false → s' = s).
Proof.
  intros Hwf Hpa. destruct (free_frame_refines s pa Hwf Hpa) as (s' & E & Hwf' & Habs & _ & Hno).
  unfold spec_free in *. exists (if decide (may_free (abstract s) pa) then true else false), s'.
  split_and!; [by case_decide|done| |by case_decide].
  case_decide as Hmay; [|done]. intros _. destruct Hmay as (Hal & Hi & Hq & _).
  simpl in *. injection Habs as Hi' _ Hq'. split_and!; [done|done|].
  intros g. unfold live. rewrite Hi', Hq', elem_of_app, list_elem_of_singleton. tauto.
Qed.

(** C10. A granted frame lies in a recorded range and was not live; granting and
    freeing change the set of live frames by that frame alone, a free that is
    refused changes nothing, and only live frames can be freed: no frame is
    ever handed out twice without an accepted free in between. *)
Theorem live_frames_are_exclusive s pa :
  pmm_wf s → is_u64 pa →
  (∃ ok out s', stage6b_pmm_alloc_frame (Some 0) s = Ret (ok, Some out) s' ∧ pmm_wf s' ∧
     (ok = false → ∀ f, live s' f ↔ live s f) ∧
     (ok = true → ∃ f, out = f * 0x1000 ∧ in_ranges (table s) f ∧ ¬ live s f ∧
        ∀ g, live s' g ↔ live s g ∨ g = f)) ∧
  (∃ ok s', stage6c_pmm_free_frame pa s = Ret ok s' ∧ pmm_wf s' ∧
     (ok = true → pa mod 0x1000 = 0 ∧ live s (pa / 0x1000) ∧
        ∀ g, live s' g ↔ live s g ∧ g ≠ pa / 0x1000) ∧
     (ok = false → s' = s)).
Proof.
  intros Hwf Hpa. split; [|by apply free_live].
  destruct (alloc_live s 0 Hwf) as (ok & out & s' & E & Hwf' & _ & Hno & Hyes).
  exists ok, out, s'. split_and!; [done..| |done]. intros Hok. by apply Hno.
Qed.

(** The allocator of the kernel implements the heap's interface, for ranges
    that avoid the kernel image. *)
Definition frames_clear `{KernelImage} (s : pmm) : Prop :=
  ∀ f, in_ranges (table s) f → frame_usable (f * 0x1000).

#[export] Instance pmm_allocator : FrameAllocator pmm :=
  {| alloc_frame := stage6b_pmm_alloc_frame |}.

#[export] Instance pmm_allocator_ok `{KernelImage} : FrameAllocatorOk pmm.
Proof.
  refine {| allocator_wf := λ s, pmm_wf s ∧ frames_clear s;
            live_frame := λ s pa, ∃ f, pa = f * 0x1000 ∧ live s f |}.
  intros s v [Hwf Hclear].
  destruct (alloc_live s v Hwf) as (ok & out & s' & E & Hwf' & Hfr & Hno & Hyes).
  exists ok, out, s'. split; [done|]. split.
  { split; [done|]. unfold frames_clear, table in *. by rewrite Hfr. }
  destruct ok.
  - destruct (Hyes eq_refl) as (f & -> & Hin & Hnl & Hl). split; [by apply Hclear|]. split.
    + intros (g & Hg & Hlg). by replace f with g in Hnl by lia.
    + intros pa. setoid_rewrite Hl. split.
      * intros (g & -> & [?| ->]); [left; eauto|by right].
      * intros [(g & -> & ?)| ->]; eauto.
  - destruct (Hno eq_refl) as (_ & _ & Hl). intros pa. by setoid_rewrite Hl.
Defined.

(** ** Seeding *)
Lemma total_frames_length l :
  Forall range_ok l → Z.of_nat (length (l ≫= frames_of)) = total_frames l.
Proof.
  induction 1 as [|r l (Hpos & _) Hl IH]; [done|]. rewrite bind_cons, length_app.
  unfold frames_of at 1. rewrite length_seqZ. simpl. lia.
Qed.

Definition unseeded (s : pmm) : Prop :=
  frames_ok (frames s) ∧ eligible_frames (frames s) = total_frames (table s) ∧
  length (pending_free_frames s) = 64%nat ∧ pending_free_count s = 0.

Lemma seed_ok s :
  unseeded s →
  ∃ s', stage6a_pmm_seed_from_stage5c s = Ret tt s' ∧ pmm_wf s' ∧ frames s' = frames s ∧
    abstract s' = mk_alloc_spec [] (table s ≫= frames_of) [].
Proof.
  intros (Hfr & Hel & Hlen & Hcount). pose proof Hfr as [Htab Hsort Hran].
  change (recorded_ranges (frames s)) with (table s) in Hsort, Hran.
  pose proof (total_frames_length _ Hran) as Htot. pose proof (length_recorded _ Htab) as Hrl.
  change (recorded_ranges (frames s)) with (table s) in Hrl.
  unfold stage6a_pmm_seed_from_stage5c, stage6a_pmm_reset_state.
  rewrite !bind_modify, bind_get.
  set (s0 := set_remaining (eligible_frames (frames s)) (set_pmm_state (mk_pmm_state 0 0 0 0 0) s)).
  change (frames (set_pmm_state _ s)) with (frames s). fold s0. change (frames s0) with (frames s).
  assert (queue s = []) as Hq by (unfold queue; by rewrite Hcount).
  destruct (Z.eqb_spec (range_count (frames s)) 0) as [Hz|Hnz].
  - cbn [orb]. eexists. split; [reflexivity|].
    assert (table s = []) as Hnil by (apply nil_length_inv; lia).
    assert (fresh (set_initialized 1 s0) = [] ∧ issued (set_initialized 1 s0) = []) as [Ef Ei]
      by (unfold fresh, issued; change (table _) with (table s); by rewrite Hnil).
    split; [constructor; try done; try (change (queue _) with (queue s); rewrite Hq)|split; [done|]].
    + cbn. lia.
    + split; [done|]. change (table _) with (table s). by rewrite Hnil.
    + cbn. lia.
    + constructor.
    + intros f Hf. by apply not_elem_of_nil in Hf.
    + rewrite Ef. cbn. by rewrite Hel, Hnil.
    + unfold abstract. rewrite Ef, Ei, Hnil. f_equal. exact Hq.
  - destruct (table_lookup s 0 Htab) as (r & Hr & HR); [destruct Htab; lia|].
    pose proof (range_ok_at _ Hran _ _ HR) as (Hpos & Hmin & Hmax).
    assert (eligible_frames (frames s) ≠ 0) as Hne.
    { rewrite Hel, <- Htot. rewrite <- (take_drop_middle _ _ _ HR). simpl take.
      rewrite app_nil_l, bind_cons, length_app. unfold frames_of at 1. rewrite length_seqZ. lia. }
    rewrite (proj2 (Z.eqb_neq _ _) Hne). cbn [orb]. mrun (f_equal (λ o, from_option o s0) Hr).
    rewrite bind_modify. set (s1 := set_next_frame_index (start_frame r) s0).
    assert (cursor_ok (table s1) (cursor_range s1) (cursor_frame s1)) as Hc.
    { split; [change (0 ≤ start_frame r); zlia|]. change (table s1) with (table s).
      change (cursor_range s1) with (Z.to_nat 0). rewrite HR. intros r' [= <-].
      change (start_frame r ≤ end_frame r). unfold end_frame. lia. }
    destruct (advance_spec s1) as (i & n & E & Hi & Hc' & Hf & Hiss & _);
      [done|simpl; destruct Htab; lia|done|].
    assert (fresh s1 = table s ≫= frames_of) as Hf1.
    { unfold fresh, fresh_at. change (table s1) with (table s).
      change (cursor_range s1) with (Z.to_nat 0). rewrite HR.
      change (cursor_frame s1) with (start_frame r). rewrite Z.max_id.
      rewrite <- (take_drop_middle _ _ _ HR) at 2. simpl take. rewrite app_nil_l, bind_cons.
      f_equal. unfold frames_of, end_frame. f_equal. lia. }
    assert (issued s1 = []) as Hi1.
    { unfold issued, issued_at. change (table s1) with (table s).
      change (cursor_range s1) with (Z.to_nat 0). rewrite HR.
      change (cursor_frame s1) with (start_frame r). rewrite Z.max_id, Z.sub_diag. done. }
    cbv zeta in E. mrun E. eexists. split; [reflexivity|].
    set (s2 := set_initialized 1 (with_cursor i n s1)).
    assert (fresh s2 = table s ≫= frames_of) as Hf2 by (rewrite <- Hf1, <- Hf; done).
    assert (issued s2 = []) as Hi2 by (rewrite <- Hi1, <- Hiss; done).
    split; [constructor; try done; try (change (queue s2) with (queue s); rewrite Hq)|split; [done|]].
    + cbn. lia.
    + constructor.
    + intros f Hff. by apply not_elem_of_nil in Hff.
    + rewrite Hf2. cbn. lia.
    + unfold abstract. rewrite Hf2, Hi2. f_equal. exact Hq.
Qed.

(** Allocations alone return the fresh frames in order and then fail. *)
Lemma spec_allocs l issued :
  fst (spec_pmm_ops (replicate (length l + 1) AllocFrame) (mk_alloc_spec issued l [])) =
    ((λ f, (true, Some (f * 0x1000))) <$> l) ++ [(false, Some 0)].
Proof.
  revert issued. induction l as [|f l IH]; intros issued; [done|].
  cbn [length Nat.add]. rewrite replicate_S. cbn [spec_pmm_ops]. unfold spec_pmm_op, spec_alloc.
  cbn [sp_queue sp_fresh sp_issued]. specialize (IH (issued ++ [f])).
  destruct (spec_pmm_ops _ _) as [rs a]. simpl in *. by rewrite IH.
Qed.

(** C15. When the recorded ranges are in ascending order and disjoint, none was
    dropped from their count, and no frame waits to be reused, the allocator
    hands out after seeding every frame of every range, each exactly once and in
    ascending order, before it refuses: none is lost and none is invented. *)
Theorem seeded_allocator_is_complete s :
  table_ok (frames s) → Forall range_ok (table s) → StronglySorted range_before (table s) →
  eligible_frames (frames s) = total_frames (table s) →
  length (pending_free_frames s) = 64%nat → pending_free_count s = 0 →
  ∃ s', (stage6a_pmm_seed_from_stage5c ;;
         run_pmm_ops (replicate (length (table s ≫= frames_of) + 1) AllocFrame)) s =
    Ret (((λ f, (true, Some (f * 0x1000))) <$> (table s ≫= frames_of)) ++ [(false, Some 0)]) s' ∧
    NoDup (table s ≫= frames_of) ∧ StronglySorted Z.lt (table s ≫= frames_of) ∧
    ∀ f, f ∈ table s ≫= frames_of ↔ in_ranges (table s) f.
Proof.
  intros Htab Hran Hsort Hel Hlen Hcount. assert (unseeded s) as Hs by (split_and!; [by split|done..]).
  destruct (seed_ok s Hs) as (s1 & E1 & Hwf & _ & Habs). mrun E1.
  destruct (run_pmm_ops_refines (replicate (length (table s ≫= frames_of) + 1) AllocFrame) s1)
    as (s' & E & _); [done|by apply Forall_replicate|].
  exists s'. rewrite E, Habs, spec_allocs.
  split_and!; [done|by apply all_frames_NoDup|by apply all_frames_sorted|].
  intros f. rewrite list_elem_of_bind. unfold in_ranges. setoid_rewrite elem_of_frames_of. naive_solver.
Qed.

(** A concrete machine: two ranges above a kernel of twenty pages. *)
Definition demo_frames : stage5c_frame_bookkeeping :=
  mk_frame_bookkeeping 2 0 6 0x201 0x201000
    ([mk_range 0x114 4; mk_range 0x200 2] ++ replicate 126 (mk_range 0 0)) 0x100000 0x114000.
Definition demo_pmm : pmm := mk_pmm demo_frames (mk_pmm_state 0 0 0 0 0) (replicate 64 0) 0.

Lemma demo_unseeded : unseeded demo_pmm.
Proof.
  split_and!; [split|done..]; simpl.
  - split; [reflexivity|simpl; lia].
  - change (recorded_ranges _) with [mk_range 0x114 4; mk_range 0x200 2].
    repeat constructor; unfold range_before; simpl; lia.
  - change (recorded_ranges _) with [mk_range 0x114 4; mk_range 0x200 2].
    repeat constructor; unfold end_frame; simpl; zlia.
Qed.

Lemma seeded_allocator_is_complete_witness :
  ∃ rs s', (stage6a_pmm_seed_from_stage5c ;; run_pmm_ops (replicate 7 AllocFrame)) demo_pmm =
    Ret rs s' ∧ rs !! 4%nat = Some (true, Some 0x200000).
Proof.
  destruct demo_unseeded as ([Htab Hsort Hran] & Hel & Hlen & Hcount).
  destruct (seeded_allocator_is_complete demo_pmm Htab Hran Hsort Hel Hlen Hcount) as (s' & E & _).
  eexists _, s'. split; [exact E|]. reflexivity.
Defined.

(** The seeded state of the concrete machine. *)
Definition demo_seeded : pmm :=
  match stage6a_pmm_seed_from_stage5c demo_pmm with Ret _ s => s | _ => demo_pmm end.
Lemma demo_seeded_wf : pmm_wf demo_seeded.
Proof.
  destruct (seed_ok demo_pmm demo_unseeded) as (s' & E & Hwf & _).
  unfold demo_seeded. by rewrite E.
Qed.

Lemma pmm_trace_refines_witness :
  ∃ s', run_pmm_ops [AllocFrame; AllocFrame; FreeFrame 0x114000; FreeFrame 0x114000; AllocFrame]
      demo_seeded =
    Ret [(true, Some 0x114000); (true, Some 0x115000); (true, None); (false, None);
         (true, Some 0x114000)] s' ∧ pmm_wf s'.
Proof.
  destruct (pmm_trace_refines
    [AllocFrame; AllocFrame; FreeFrame 0x114000; FreeFrame 0x114000; AllocFrame] demo_seeded)
    as (s' & E & Hwf & _).
  - exact demo_seeded_wf.
  - repeat constructor; simpl; lia.
  - exists s'. split; [exact E|exact Hwf].
Defined.

Lemma live_frames_are_exclusive_witness :
  ∃ out s', stage6b_pmm_alloc_frame (Some 0) demo_seeded = Ret (true, Some out) s' ∧
    live s' (out / 0x1000).
Proof.
  destruct (live_frames_are_exclusive demo_seeded 0x114000 demo_seeded_wf ltac:(lia))
    as ((ok & out & s' & E & _ & _ & Hyes) & _).
  exists out, s'. destruct ok.
  - split; [exact E|]. destruct (Hyes eq_refl) as (f & -> & _ & _ & Hl).
    rewrite Z.div_mul by lia. apply Hl. right. reflexivity.
  - exfalso. vm_compute in E. discriminate E.
Defined.
