(* ===== verification/PmmOrder.v ===== *)
(** * The page-frame allocator on ranges in any order

    Multiboot2 does not promise an ascending memory map, and the cursor of the
    allocator never moves back.  [handed_out] is the frames it hands out for a
    table in whatever order; [PmmOrder] shows that the code hands out these and
    what becomes of the others. *)
From Stdlib Require Import Sorted.
From S2P Require Import Prelude KernelMonad Memory MemoryMap FrameAllocator Pmm.
#[local] Open Scope Z_scope.

(** The cursor is at [n]; from every range it takes what is not below it. *)
Fixpoint handed_out (n : Z) (R : list stage5c_frame_range) : list Z :=
  match R with
  | [] => []
  | r :: R =>
      let m := Z.max n (start_frame r) in
      seqZ m (end_frame r - m) ++ handed_out (Z.max m (end_frame r)) R
  end.




(** For an ascending table that is all frames in order. *)
Lemma handed_out_ascending n R :
  Forall range_ok R → StronglySorted range_before R → Forall (λ r, n ≤ start_frame r) R →
  handed_out n R = R ≫= frames_of.
Proof.
  intros HR Hs. revert n HR. induction Hs as [|r R Hs IH Hr]; intros n HR Hn; [done|].
  apply Forall_cons in HR as [(Hpos & _) HR]. apply Forall_cons in Hn as [Hn _].
  cbn [handed_out]. rewrite bind_cons, Z.max_r by done. f_equal.
  - unfold frames_of, end_frame. f_equal. lia.
  - apply IH; [done|]. eapply Forall_impl; [exact Hr|]. intros x. unfold range_before, end_frame. lia.
Qed.

(** ** The allocator hands these out *)









(** ** Frames that are never handed out *)




