(* ===== verification/Kheap.v ===== *)
(** * The kernel heap ([kernel/mm/kheap.c])

    A first-fit allocator over the window 0x00400000-0x00800000.  Every block
    is a 16-byte header in memory followed by its payload; the blocks tile the
    window from its start up to [current].  Pages are mapped on demand with
    frames from the allocator of [FrameAllocator].  Pointers are addresses, 0
    is the null pointer; out-parameters are modelled by their pointees. *)
From S2P Require Import Prelude KernelMonad VmmLayout Paging Vmm Memory FrameAllocator.
#[local] Open Scope Z_scope.

Definition STAGE8C_KHEAP_MIN_ALIGNMENT : Z := 8.
Definition STAGE9A_KHEAP_ALLOCATION_HEADER_MAGIC : Z := 0x39414C48.
Definition STAGE9A_KHEAP_ALLOCATION_STATE_ALLOCATED : Z := 1.
Definition STAGE9A_KHEAP_ALLOCATION_STATE_FREED : Z := 2.
(** [sizeof(struct stage9a_kheap_allocation_header)], four 32-bit words. *)
Definition ALLOCATION_HEADER_SIZE : Z := 16.
#[export] Hint Unfold STAGE8C_KHEAP_MIN_ALIGNMENT ALLOCATION_HEADER_SIZE : consts.

Record stage8c_kheap_state := mk_kheap_state {
  heap_is_initialized : Z;
  heap_start : Z;
  heap_current : Z;
  heap_end_exclusive : Z;
  heap_mapped_end_exclusive : Z;
}.

(** What the heap works on: memory, its own bookkeeping and the allocator. *)
Record kheap_machine (F : Type) := mk_machine {
  mem : memory;
  heap : stage8c_kheap_state;     (* g_stage8c_kheap *)
  allocator : F;
}.
Arguments mk_machine {F}.
Arguments mem {F}.
Arguments heap {F}.
Arguments allocator {F}.

Definition set_mem {F} m (s : kheap_machine F) := mk_machine m (heap s) (allocator s).
Definition set_heap {F} h (s : kheap_machine F) := mk_machine (mem s) h (allocator s).
Definition set_allocator {F} (a : F) (s : kheap_machine F) := mk_machine (mem s) (heap s) a.
Definition set_current {F} c (s : kheap_machine F) := set_heap (mk_kheap_state
  (heap_is_initialized (heap s)) (heap_start (heap s)) c (heap_end_exclusive (heap s))
  (heap_mapped_end_exclusive (heap s))) s.
Definition set_mapped_end {F} e (s : kheap_machine F) := set_heap (mk_kheap_state
  (heap_is_initialized (heap s)) (heap_start (heap s)) (heap_current (heap s))
  (heap_end_exclusive (heap s)) e) s.

Definition mem_lens {F} : lens (kheap_machine F) memory := Lens mem set_mem.
Definition allocator_lens {F} : lens (kheap_machine F) F := Lens allocator set_allocator.
#[export] Instance mem_lens_laws {F} : LensLaws (@mem_lens F).
Proof. split; by repeat intros []. Qed.
#[export] Instance allocator_lens_laws {F} : LensLaws (@allocator_lens F).
Proof. split; intros; try done; by destruct s. Qed.

Section kheap.
Context `{KL : KernelLayout, KI : KernelImage} {F : Type} `{FA : FrameAllocator F}.
#[local] Abbreviation H := (M (kheap_machine F)).

(** The fields of [struct stage9a_kheap_allocation_header] at an address. *)
Definition read_magic (header : Z) : H Z := zoom mem_lens (load32 header).
Definition read_payload_size (header : Z) : H Z := zoom mem_lens (load32 (u32 (header + 4))).
Definition read_state (header : Z) : H Z := zoom mem_lens (load32 (u32 (header + 8))).
Definition write_magic (header v : Z) : H unit := zoom mem_lens (store32 header v).
Definition write_payload_size (header v : Z) : H unit := zoom mem_lens (store32 (u32 (header + 4)) v).
Definition write_state (header v : Z) : H unit := zoom mem_lens (store32 (u32 (header + 8)) v).
Definition write_reserved (header v : Z) : H unit := zoom mem_lens (store32 (u32 (header + 12)) v).

(** Fuel of a walk over the blocks: every step passes at least 24 bytes. *)
Definition walk_fuel (s : kheap_machine F) : nat :=
  S (Z.to_nat ((heap_current (heap s) - heap_start (heap s)) / 24)).

(** 1, 0 or -1 for reused, nothing fits, or a corrupt block. *)
Definition stage9c_kheap_try_reuse_aligned_allocation (aligned_size : Z)
    (out_payload_start : option Z) : H (Z * option Z) :=
  match out_payload_start with
  | None => mret (-1, None)
  | Some _ =>
      let out := Some 0 in
      s ← get;
      loop (walk_fuel s) (λ cursor,
        s ← get;
        let current := heap_current (heap s) in
        if cursor <? current then
          if cursor >? u32 (current - ALLOCATION_HEADER_SIZE) then break (-1, out) else
          magic ← read_magic cursor;
          if negb (magic =? STAGE9A_KHEAP_ALLOCATION_HEADER_MAGIC) then break (-1, out) else
          payload_size ← read_payload_size cursor;
          if (payload_size =? 0)
             || negb (Z.land payload_size (STAGE8C_KHEAP_MIN_ALIGNMENT - 1) =? 0)
          then break (-1, out) else
          let payload_start := u32 (cursor + ALLOCATION_HEADER_SIZE) in
          if payload_size >? u32 (current - payload_start) then break (-1, out) else
          let payload_end_exclusive := u32 (payload_start + payload_size) in
          state ← read_state cursor;
          if (state =? STAGE9A_KHEAP_ALLOCATION_STATE_FREED) && (payload_size >=? aligned_size) then
            let remainder := u32 (payload_size - aligned_size) in
            (if remainder >=? ALLOCATION_HEADER_SIZE + STAGE8C_KHEAP_MIN_ALIGNMENT then
               let split_header := u32 (payload_start + aligned_size) in
               write_payload_size cursor aligned_size ;;
               write_state cursor STAGE9A_KHEAP_ALLOCATION_STATE_ALLOCATED ;;
               write_magic split_header STAGE9A_KHEAP_ALLOCATION_HEADER_MAGIC ;;
               write_payload_size split_header (u32 (remainder - ALLOCATION_HEADER_SIZE)) ;;
               write_state split_header STAGE9A_KHEAP_ALLOCATION_STATE_FREED ;;
               write_reserved split_header 0
             else write_state cursor STAGE9A_KHEAP_ALLOCATION_STATE_ALLOCATED) ;;
            break (1, Some payload_start)
          else if payload_end_exclusive <=? cursor then break (-1, out)
          else continue payload_end_exclusive
        else break (0, out)) (heap_start (heap s))
  end.

Definition stage8c_kheap_align_up (value alignment : Z) (out_aligned_value : option Z)
    : bool * option Z :=
  let mask := u32 (alignment - 1) in
  match out_aligned_value with
  | None => (false, None)
  | Some _ =>
      if (alignment =? 0) || negb (Z.land alignment mask =? 0) then (false, out_aligned_value) else
      if Z.land value mask =? 0 then (true, Some value) else
      if value >? u32 (UINT32_MAX - mask) then (false, out_aligned_value) else
      (true, Some (Z.land (u32 (value + mask)) (not32 mask)))
  end.

(** Every iteration that does not leave the loop maps one page. *)
Definition stage8c_kheap_ensure_mapped_until (required_end_exclusive : Z) : H bool :=
  s ← get;
  loop (S (Z.to_nat ((required_end_exclusive - heap_mapped_end_exclusive (heap s)) / 0x1000 + 1)))
    (λ _,
      s ← get;
      let mapped_end := heap_mapped_end_exclusive (heap s) in
      if mapped_end <? required_end_exclusive then
        let virtual_page_addr := mapped_end in
        if mapped_end >=? heap_end_exclusive (heap s) then break false else
        '(ok, out) ← zoom allocator_lens (alloc_frame (Some 0));
        if negb ok then break false else
        physical_frame_addr_64 ← from_option out;
        if physical_frame_addr_64 >? UINT32_MAX then break false else
        let physical_frame_addr := stage7a_paging_frame_addr (u32 physical_frame_addr_64) in
        mapped ← zoom mem_lens (zoom paging_lens
          (stage8b_vmm_map_page virtual_page_addr physical_frame_addr));
        if negb mapped then break false else
        modify (λ s, set_mapped_end
          (u32 (heap_mapped_end_exclusive (heap s) + STAGE7A_PAGING_PAGE_SIZE)) s) ;;
        continue tt
      else break true) tt.

Definition stage8c_kheap_bootstrap_init : H bool :=
  s ← get;
  if negb (heap_is_initialized (heap s) =? 0) then mret true else
  if negb stage8a_vmm_layout_validate_policy then mret false else
  modify (set_heap (mk_kheap_state 1
    STAGE8A_VMM_LAYOUT_FUTURE_HEAP_RESERVED_START
    STAGE8A_VMM_LAYOUT_FUTURE_HEAP_RESERVED_START
    STAGE8A_VMM_LAYOUT_FUTURE_HEAP_RESERVED_END_EXCLUSIVE
    STAGE8A_VMM_LAYOUT_FUTURE_HEAP_RESERVED_START)) ;;
  mret true.

Definition stage8c_kheap_alloc (size : Z) : H Z :=
  s ← get;
  let allocation_header_start := heap_current (heap s) in
  if (heap_is_initialized (heap s) =? 0) || (size =? 0) then mret 0 else
  let '(ok, aligned) := stage8c_kheap_align_up size STAGE8C_KHEAP_MIN_ALIGNMENT (Some 0) in
  if negb ok then mret 0 else
  aligned_size ← from_option aligned;
  '(reuse_result, reused) ← stage9c_kheap_try_reuse_aligned_allocation aligned_size (Some 0);
  if reuse_result <? 0 then mret 0 else
  if reuse_result >? 0 then from_option reused else
  s ← get;
  if allocation_header_start >? u32 (heap_end_exclusive (heap s) - ALLOCATION_HEADER_SIZE)
  then mret 0 else
  let payload_start := u32 (allocation_header_start + ALLOCATION_HEADER_SIZE) in
  if aligned_size >? u32 (heap_end_exclusive (heap s) - payload_start) then mret 0 else
  let allocation_end_exclusive := u32 (payload_start + aligned_size) in
  let '(ok, required) :=
    stage8c_kheap_align_up allocation_end_exclusive STAGE7A_PAGING_PAGE_SIZE (Some 0) in
  if negb ok then mret 0 else
  required_mapped_end_exclusive ← from_option required;
  mapped ← stage8c_kheap_ensure_mapped_until required_mapped_end_exclusive;
  if negb mapped then mret 0 else
  write_magic allocation_header_start STAGE9A_KHEAP_ALLOCATION_HEADER_MAGIC ;;
  write_payload_size allocation_header_start aligned_size ;;
  write_state allocation_header_start STAGE9A_KHEAP_ALLOCATION_STATE_ALLOCATED ;;
  write_reserved allocation_header_start 0 ;;
  modify (set_current allocation_end_exclusive) ;;
  mret payload_start.

Definition stage9a_kheap_free (ptr : Z) : H bool :=
  s ← get;
  if (heap_is_initialized (heap s) =? 0) || (ptr =? 0) then mret false else
  let target_ptr := ptr in
  if (target_ptr <? heap_start (heap s)) || (target_ptr >=? heap_current (heap s))
  then mret false else
  loop (walk_fuel s) (λ cursor,
    s ← get;
    let current := heap_current (heap s) in
    if cursor <? current then
      if cursor >? u32 (current - ALLOCATION_HEADER_SIZE) then break false else
      magic ← read_magic cursor;
      if negb (magic =? STAGE9A_KHEAP_ALLOCATION_HEADER_MAGIC) then break false else
      payload_size ← read_payload_size cursor;
      if (payload_size =? 0)
         || negb (Z.land payload_size (STAGE8C_KHEAP_MIN_ALIGNMENT - 1) =? 0)
      then break false else
      let payload_start := u32 (cursor + ALLOCATION_HEADER_SIZE) in
      if payload_size >? u32 (current - payload_start) then break false else
      let payload_end_exclusive := u32 (payload_start + payload_size) in
      if target_ptr =? payload_start then
        state ← read_state cursor;
        if negb (state =? STAGE9A_KHEAP_ALLOCATION_STATE_ALLOCATED) then break false else
        write_state cursor STAGE9A_KHEAP_ALLOCATION_STATE_FREED ;;
        break true
      else if (target_ptr >? payload_start) && (target_ptr <? payload_end_exclusive)
      then break false
      else if payload_end_exclusive <=? cursor then break false
      else continue payload_end_exclusive
    else break false) (heap_start (heap s)).

Definition stage8c_kheap_get_state
    (out_start out_current out_end_exclusive out_mapped_end_exclusive : option Z)
    : H (bool * (option Z * option Z * option Z * option Z)) :=
  s ← get;
  let unchanged := (out_start, out_current, out_end_exclusive, out_mapped_end_exclusive) in
  match out_start, out_current, out_end_exclusive, out_mapped_end_exclusive with
  | Some _, Some _, Some _, Some _ =>
      if heap_is_initialized (heap s) =? 0 then mret (false, unchanged) else
      mret (true, (Some (heap_start (heap s)), Some (heap_current (heap s)),
        Some (heap_end_exclusive (heap s)), Some (heap_mapped_end_exclusive (heap s))))
  | _, _, _, _ => mret (false, unchanged)
  end.
End kheap.
