(* ===== verification/KheapSpec.v ===== *)
(** * What the kernel heap promises

    The abstract heap is the list of its blocks.  [first_fit] and [spec_free]
    are the reference allocator on such lists; [heap_inv] ties a list to the
    headers in memory, to the mapped pages behind them and to the live frames
    of the page-frame allocator.  The theorems show that [Kheap]'s operations
    refine the reference, keep the invariant, and never touch the payload of
    a live block. *)
From S2P Require Import Prelude KernelMonad VmmLayout Paging Vmm Memory FrameAllocator Kheap.
#[local] Open Scope Z_scope.

(** ** Abstract heap *)
Record block := mk_block {
  b_size : Z;
  b_allocated : bool;
}.

Definition HEAP_START : Z := 0x400000.
Definition HEAP_END : Z := 0x800000.
#[export] Hint Unfold HEAP_START HEAP_END : consts.

Definition block_ok (b : block) : Prop := 0 < b_size b ∧ b_size b mod 8 = 0.
Definition block_span (b : block) : Z := 16 + b_size b.
Fixpoint span (bs : list block) : Z :=
  match bs with [] => 0 | b :: bs => block_span b + span bs end.

Definition fits (n : Z) (b : block) : bool := negb (b_allocated b) && (n <=? b_size b).

(** Carving [n] bytes out of a free block. *)
Definition carve (n : Z) (b : block) : list block :=
  if decide (24 ≤ b_size b - n)
  then [mk_block n true; mk_block (b_size b - n - 16) false]
  else [mk_block (b_size b) true].

(** The payload address of the first free block that fits and the blocks
    afterwards; [a] is the address of the first header. *)
Fixpoint first_fit (a : Z) (bs : list block) (n : Z) : option (Z * list block) :=
  match bs with
  | [] => None
  | b :: bs =>
      if fits n b then Some (a + 16, carve n b ++ bs) else
      '(p, bs') ← first_fit (a + block_span b) bs n; Some (p, b :: bs')
  end.

Fixpoint spec_free (a : Z) (bs : list block) (p : Z) : option (list block) :=
  match bs with
  | [] => None
  | b :: bs =>
      if decide (p = a + 16) then
        if b_allocated b then Some (mk_block (b_size b) false :: bs) else None
      else cons b <$> spec_free (a + block_span b) bs p
  end.

(** The live allocations: address and size of every allocated payload. *)
Fixpoint payloads (a : Z) (bs : list block) : list (Z * Z) :=
  match bs with
  | [] => []
  | b :: bs =>
      (if b_allocated b then [(a + 16, b_size b)] else []) ++ payloads (a + block_span b) bs
  end.

(** ** Lemmas on blocks *)
Lemma span_app bs bs' : span (bs ++ bs') = span bs + span bs'.
Proof. induction bs as [|b bs IH]; simpl; lia. Qed.

Lemma span_nonneg bs : Forall block_ok bs → 0 ≤ span bs ∧ span bs mod 8 = 0.
Proof.
  induction 1 as [|b bs [Hb Hm] Hbs IH]; simpl; [done|]. unfold block_span. lia.
Qed.

Lemma carve_span n b : span (carve n b) = block_span b.
Proof. unfold carve. case_decide; simpl; unfold block_span; simpl; lia. Qed.

Lemma carve_ok n b : 0 < n → n mod 8 = 0 → block_ok b → Forall block_ok (carve n b).
Proof.
  intros Hn Hm [Hb Hbm]. unfold carve.
  case_decide; repeat constructor; simpl; lia.
Qed.

Lemma payloads_app a bs bs' : payloads a (bs ++ bs') = payloads a bs ++ payloads (a + span bs) bs'.
Proof.
  revert a. induction bs as [|b bs IH]; intros a; simpl; [by rewrite Z.add_0_r|].
  rewrite IH, <- app_assoc. do 3 f_equal. lia.
Qed.

Lemma first_fit_app a bs bs' n :
  Forall (λ b, fits n b = false) bs →
  first_fit a (bs ++ bs') n =
    '(p, l) ← first_fit (a + span bs) bs' n; Some (p, bs ++ l).
Proof.
  intros Hno. revert a. induction Hno as [|b bs Hb Hno IH]; intros a; simpl.
  - rewrite Z.add_0_r. by destruct (first_fit a bs' n) as [[??]|].
  - rewrite Hb, IH. replace (a + block_span b + span bs) with (a + (block_span b + span bs)) by lia.
    by destruct (first_fit _ bs' n) as [[??]|].
Qed.

Lemma first_fit_none a bs n : Forall (λ b, fits n b = false) bs → first_fit a bs n = None.
Proof.
  intros Hno. rewrite <- (app_nil_r bs), first_fit_app by done. done.
Qed.

Lemma payload_in_bounds a bs p sz :
  Forall block_ok bs → (p, sz) ∈ payloads a bs →
  a + 16 ≤ p ∧ p + sz ≤ a + span bs ∧ 0 < sz.
Proof.
  intros Hbs. revert a. induction Hbs as [|b bs [Hb Hm] Hbs IH]; intros a; simpl.
  { by intros ?%not_elem_of_nil. }
  destruct (span_nonneg bs Hbs). unfold block_span in *.
  intros [Hin|Hin]%elem_of_app.
  - destruct (b_allocated b); [|by apply not_elem_of_nil in Hin].
    apply list_elem_of_singleton in Hin as [= -> ->]. lia.
  - apply IH in Hin. lia.
Qed.

(** ** Headers in memory *)
Section headers.
Context `{KL : KernelLayout, KI : KernelImage}.
Implicit Types m : memory.

Definition state_word (b : block) : Z :=
  if b_allocated b then STAGE9A_KHEAP_ALLOCATION_STATE_ALLOCATED
  else STAGE9A_KHEAP_ALLOCATION_STATE_FREED.

Record header_at (m : memory) (a : Z) (b : block) : Prop := {
  header_magic : vword m a = STAGE9A_KHEAP_ALLOCATION_HEADER_MAGIC;
  header_size : vword m (a + 4) = b_size b;
  header_state : vword m (a + 8) = state_word b;
}.

Fixpoint headers (m : memory) (a : Z) (bs : list block) : Prop :=
  match bs with
  | [] => True
  | b :: bs => header_at m a b ∧ headers m (a + block_span b) bs
  end.

(** The bytes of the three header words in use. *)
Fixpoint in_header (a : Z) (bs : list block) (va : Z) : Prop :=
  match bs with
  | [] => False
  | b :: bs => a ≤ va < a + 12 ∨ in_header (a + block_span b) bs va
  end.

Lemma headers_app m a bs bs' :
  headers m a (bs ++ bs') ↔ headers m a bs ∧ headers m (a + span bs) bs'.
Proof.
  revert a. induction bs as [|b bs IH]; intros a; simpl; [rewrite Z.add_0_r; tauto|].
  rewrite IH. replace (a + block_span b + span bs) with (a + (block_span b + span bs)) by lia. tauto.
Qed.

Lemma in_header_bounds a bs va :
  Forall block_ok bs → in_header a bs va → a ≤ va < a + span bs.
Proof.
  intros Hbs. revert a. induction Hbs as [|b bs [Hb Hm] Hbs IH]; intros a; simpl; [done|].
  destruct (span_nonneg bs Hbs). unfold block_span in *. intros [?|Hin]; [lia|].
  apply IH in Hin. lia.
Qed.

Lemma header_at_frame m m' a b :
  header_at m a b → (∀ va, a ≤ va < a + 12 → vbyte m' va = vbyte m va) → header_at m' a b.
Proof.
  intros [H1 H2 H3] E. constructor; rewrite <- ?H1, <- ?H2, <- ?H3;
    apply vword_bytes_eq; intros va Hva; apply E; lia.
Qed.

Lemma headers_frame m m' a bs :
  headers m a bs → (∀ va, in_header a bs va → vbyte m' va = vbyte m va) → headers m' a bs.
Proof.
  revert a. induction bs as [|b bs IH]; intros a; simpl; [done|]. intros [Hb Hbs] E. split.
  - eapply header_at_frame; [exact Hb|]. auto.
  - apply IH; [done|]. auto.
Qed.

(** A payload byte of a live block is in no header. *)
Lemma payload_not_header a bs p sz va :
  Forall block_ok bs → (p, sz) ∈ payloads a bs → p ≤ va < p + sz → ¬ in_header a bs va.
Proof.
  intros Hbs. revert a. induction Hbs as [|b bs [Hb Hm] Hbs IH]; intros a; simpl.
  { by intros ?%not_elem_of_nil. }
  unfold block_span in *. intros [Hin|Hin]%elem_of_app Hva [Hh|Hh].
  - destruct (b_allocated b); [|by apply not_elem_of_nil in Hin].
    apply list_elem_of_singleton in Hin as [= -> ->]. lia.
  - destruct (b_allocated b); [|by apply not_elem_of_nil in Hin].
    apply list_elem_of_singleton in Hin as [= -> ->]. apply in_header_bounds in Hh; [lia|done].
  - apply payload_in_bounds in Hin; [lia|done].
  - by eapply IH.
Qed.

(** ** Sequences of word stores *)
Record stored (m m' : memory) (D : Z → Prop) (ws : list (Z * Z)) : Prop := {
  stored_paging : same_paging m m';
  stored_words a v : (a, v) ∈ ws → vword m' a = v;
  stored_other va : D va → (∀ a v, (a, v) ∈ ws → ¬ a ≤ va < a + 4) → vbyte m' va = vbyte m va;
}.

Lemma stored_nil m D : stored m m D [].
Proof. constructor; [done| |done]. by intros a v ?%not_elem_of_nil. Qed.

Lemma stored_cons m m1 m2 (D : Z → Prop) ws a v :
  stored m m1 D ws → written m1 m2 D (within a (a + 4)) (λ b, le_byte (b - a) v) →
  is_u32 v → (∀ b, a ≤ b < a + 4 → D b) →
  (∀ b w, (b, w) ∈ ws → (b + 4 ≤ a ∨ a + 4 ≤ b) ∧ ∀ c, b ≤ c < b + 4 → D c) →
  stored m m2 D ((a, v) :: ws).
Proof.
  intros [Hp Hw Ho] Hwr Hv Ha Hws. constructor.
  - destruct Hwr as (Hp' & _). unfold same_paging in *. congruence.
  - intros b w [[= -> ->]|Hb]%elem_of_cons; [by eapply written_word|].
    destruct (Hws b w Hb) as [Hd HD]. rewrite <- (Hw b w Hb).
    eapply written_other_word; [exact Hwr|]. intros c Hc. split; [by apply HD|]. unfold within. lia.
  - intros va Hva Hno. destruct Hwr as (_ & _ & Hn). rewrite Hn; [|done|].
    + apply Ho; [done|]. intros b w Hb. apply (Hno b w). by right.
    + apply (Hno a v). by left.
Qed.
End headers.

(** ** The invariant *)
Section invariant.
Context `{KL : KernelLayout, KLO : !KernelLayoutOk, KI : KernelImage}.
Context {F : Type} `{FA : FrameAllocator F, FAO : !FrameAllocatorOk F}.
#[local] Abbreviation machine := (kheap_machine F).
Implicit Types s : machine.

Definition mapped_heap s : Z → Prop := within HEAP_START (heap_mapped_end_exclusive (heap s)).

Record heap_inv (bs : list block) (s : machine) : Prop := {
  hi_initialized : heap_is_initialized (heap s) = 1;
  hi_start : heap_start (heap s) = HEAP_START;
  hi_end : heap_end_exclusive (heap s) = HEAP_END;
  hi_current : heap_current (heap s) = HEAP_START + span bs;
  hi_blocks : Forall block_ok bs;
  hi_mapped : heap_current (heap s) ≤ heap_mapped_end_exclusive (heap s) ≤ HEAP_END;
  hi_mapped_page : heap_mapped_end_exclusive (heap s) mod 0x1000 = 0;
  hi_headers : headers (mem s) HEAP_START bs;
  hi_usable : usable (mem s) (mapped_heap s);
  hi_paging : vmm_wf (paging (mem s));
  hi_allocator : allocator_wf (allocator s);
  hi_backed va pa : mapped_heap s va → translate (paging (mem s)) va = Some pa →
    live_frame (allocator s) (pa - pa mod 0x1000);
  hi_unmapped va : heap_mapped_end_exclusive (heap s) ≤ va < HEAP_END →
    translate (paging (mem s)) va = None;
}.

(** The bytes of every live payload are the same in [s'] as in [s], and so is
    the translation of addresses outside the window. *)
Record preserves (bs : list block) s s' : Prop := {
  pv_payloads p sz va : (p, sz) ∈ payloads HEAP_START bs → p ≤ va < p + sz →
    vbyte (mem s') va = vbyte (mem s) va;
  pv_outside va : is_u32 va → ¬ HEAP_START ≤ va < HEAP_END →
    translate (paging (mem s')) va = translate (paging (mem s)) va;
}.

Lemma heap_inv_bounds bs s :
  heap_inv bs s → 0 ≤ span bs ∧ span bs mod 8 = 0 ∧ HEAP_START + span bs ≤ HEAP_END.
Proof.
  intros Hi. destruct (span_nonneg bs (hi_blocks _ _ Hi)).
  pose proof (hi_current _ _ Hi). pose proof (hi_mapped _ _ Hi). lia.
Qed.

(** Updates of memory that leave the paging structures alone. *)
Lemma heap_inv_set_mem bs bs' s m :
  heap_inv bs s → same_paging (mem s) m → headers m HEAP_START bs' →
  span bs' = span bs → Forall block_ok bs' → heap_inv bs' (set_mem m s).
Proof.
  intros [] Hp Hh Hspan Hok. unfold same_paging in Hp.
  constructor; cbn [mem heap allocator set_mem]; try done; try (by rewrite Hp).
  - by rewrite Hspan.
  - by apply (usable_same (mem s)).
Qed.

(** Blocks before, at and after the cursor of a walk. *)
Definition cursor_at (bs1 : list block) : Z := HEAP_START + span bs1.

Lemma cursor_facts bs1 b bs2 s :
  heap_inv (bs1 ++ b :: bs2) s →
  header_at (mem s) (cursor_at bs1) b ∧ block_ok b ∧
  HEAP_START ≤ cursor_at bs1 ∧ cursor_at bs1 mod 8 = 0 ∧
  cursor_at bs1 + block_span b ≤ heap_current (heap s) ∧ heap_current (heap s) ≤ HEAP_END.
Proof.
  intros Hi. pose proof (hi_headers _ _ Hi) as Hh. apply headers_app in Hh as [_ [Hb _]].
  pose proof (hi_blocks _ _ Hi) as Hok. apply Forall_app in Hok as [Hok1 Hok2].
  apply Forall_cons in Hok2 as [Hokb Hok2].
  destruct (span_nonneg _ Hok1), (span_nonneg _ Hok2).
  pose proof (hi_current _ _ Hi) as Hc. rewrite span_app in Hc. simpl in Hc.
  pose proof (hi_mapped _ _ Hi). unfold cursor_at, block_span in *.
  split; [exact Hb|]. split; [exact Hokb|]. zlia.
Qed.

Lemma read_word s D a :
  usable (mem s) D → 0 ≤ a → is_u32 (a + 3) → (∀ b, a ≤ b < a + 4 → D b) →
  zoom mem_lens (load32 a) s = Ret (vword (mem s) a) s.
Proof.
  intros Hu H0 Ha HD. unfold zoom. simpl. rewrite (load32_ok _ D) by done. by destruct s.
Qed.

(** Reading the header at the cursor. *)
Lemma read_header bs1 b bs2 s :
  heap_inv (bs1 ++ b :: bs2) s →
  read_magic (cursor_at bs1) s = Ret STAGE9A_KHEAP_ALLOCATION_HEADER_MAGIC s ∧
  read_payload_size (cursor_at bs1) s = Ret (b_size b) s ∧
  read_state (cursor_at bs1) s = Ret (state_word b) s.
Proof.
  intros Hi. destruct (cursor_facts _ _ _ _ Hi) as ([H1 H2 H3] & [Hb _] & Hlo & _ & Hhi & Hend).
  pose proof (hi_mapped _ _ Hi) as Hm. unfold block_span in Hhi. rewrite <- H1, <- H2, <- H3.
  unfold read_magic, read_payload_size, read_state. rewrite !u32_id by zlia.
  split_and!; apply (read_word s (mapped_heap s)); try apply (hi_usable _ _ Hi);
    unfold mapped_heap, within; zlia.
Qed.

Lemma wp_store32 s (D : Z → Prop) ws a v m0 Q :
  usable (mem s) D → stored m0 (mem s) D ws →
  0 ≤ a → is_u32 (a + 3) → is_u32 v → (∀ b, a ≤ b < a + 4 → D b) →
  (∀ b w, (b, w) ∈ ws → (b + 4 ≤ a ∨ a + 4 ≤ b) ∧ ∀ c, b ≤ c < b + 4 → D c) →
  (∀ m, usable m D → stored m0 m D ((a, v) :: ws) → Q tt (set_mem m s)) →
  wp (zoom mem_lens (store32 a v)) Q s.
Proof.
  intros Hu Hst H0 Ha Hv HD Hws HQ.
  destruct (store32_written (mem s) D a v Hu) as (m & E & Hw); [done..|].
  apply wp_zoom. simpl. eapply wp_Ret; [exact E|]. apply HQ.
  - destruct Hw as (Hp & _). by apply (usable_same (mem s)).
  - by eapply stored_cons.
Qed.

(** The guards of a walk, at a well-formed block. *)
Lemma walk_guards bs1 b bs2 s :
  heap_inv (bs1 ++ b :: bs2) s →
  let c := cursor_at bs1 in let current := heap_current (heap s) in
  (c <? current) = true ∧ (c >? u32 (current - ALLOCATION_HEADER_SIZE)) = false ∧
  (b_size b =? 0) || negb (Z.land (b_size b) (STAGE8C_KHEAP_MIN_ALIGNMENT - 1) =? 0) = false ∧
  u32 (c + ALLOCATION_HEADER_SIZE) = c + 16 ∧
  (b_size b >? u32 (current - (c + 16))) = false ∧
  u32 (c + 16 + b_size b) = cursor_at (bs1 ++ [b]) ∧
  (cursor_at (bs1 ++ [b]) <=? c) = false ∧
  cursor_at (bs1 ++ [b]) = c + 16 + b_size b ∧ cursor_at (bs1 ++ [b]) <= current ∧
  24 ≤ 16 + b_size b.
Proof.
  intros Hi. destruct (cursor_facts _ _ _ _ Hi) as (_ & [Hb Hm] & Hlo & _ & Hhi & Hend). cbv zeta.
  change (STAGE8C_KHEAP_MIN_ALIGNMENT - 1) with (2 ^ 3 - 1). rewrite land_mask by lia.
  change (2 ^ 3) with 8. unfold block_span in Hhi.
  assert (cursor_at (bs1 ++ [b]) = cursor_at bs1 + 16 + b_size b) as ->
    by (unfold cursor_at; rewrite span_app; simpl; unfold block_span; lia).
  consts. rewrite !u32_id by lia. lia.
Qed.

Lemma stored_other_word m m' D ws a :
  stored m m' D ws → (∀ b, a ≤ b < a + 4 → D b) →
  (∀ b v, (b, v) ∈ ws → b + 4 ≤ a ∨ a + 4 ≤ b) → vword m' a = vword m a.
Proof.
  intros [_ _ Ho] HD Hws. apply vword_bytes_eq. intros b Hb. apply Ho; [by apply HD|].
  intros c v Hin. apply Hws in Hin. lia.
Qed.

(** Replacing a block by others of the same span through stores that stay
    inside it, and inside its header if it is live. *)
Lemma replace_block bs1 b bs2 new s m ws :
  heap_inv (bs1 ++ b :: bs2) s →
  stored (mem s) m (mapped_heap s) ws →
  (∀ a v, (a, v) ∈ ws → cursor_at bs1 ≤ a ∧
     a + 4 ≤ cursor_at bs1 + if b_allocated b then 16 else block_span b) →
  headers m (cursor_at bs1) new → span new = block_span b → Forall block_ok new →
  heap_inv (bs1 ++ new ++ bs2) (set_mem m s) ∧ preserves (bs1 ++ b :: bs2) s (set_mem m s).
Proof.
  intros Hi [Hp Hw Ho] Hws Hnew Hspan Hok.
  destruct (cursor_facts _ _ _ _ Hi) as (_ & [Hb _] & Hlo & _ & Hhi & Hend).
  pose proof (hi_mapped _ _ Hi) as Hm. pose proof (hi_current _ _ Hi) as Hc.
  pose proof (hi_blocks _ _ Hi) as Hall. apply Forall_app in Hall as [Hok1 Hok2].
  apply Forall_cons in Hok2 as [Hokb Hok2].
  destruct (span_nonneg _ Hok1), (span_nonneg _ Hok2).
  rewrite span_app in Hc. simpl in Hc. unfold cursor_at in *.
  assert (∀ va, HEAP_START ≤ va < HEAP_START + span bs1 ∨
      HEAP_START + span bs1 + block_span b ≤ va < heap_current (heap s) →
      vbyte m va = vbyte (mem s) va) as Hout.
  { intros va Hva. apply Ho; [unfold mapped_heap, within, block_span in *; lia|]. intros a v Hin Hr.
    apply Hws in Hin. unfold block_span in *. destruct (b_allocated b); lia. }
  split.
  - eapply heap_inv_set_mem; [exact Hi|exact Hp| | |].
    + pose proof (hi_headers _ _ Hi) as Hh. apply headers_app in Hh as [Hh1 [_ Hh2]].
      rewrite !headers_app, Hspan. split_and!; [|done|]; eapply headers_frame; try done;
        intros va Hva; apply Hout; apply in_header_bounds in Hva; try done; unfold block_span in *; lia.
    + rewrite !span_app, Hspan. simpl. lia.
    + rewrite !Forall_app. done.
  - split; [|intros va _ _; cbn; unfold same_paging in Hp; by rewrite Hp]. intros p sz va Hin Hva. cbn [mem set_mem].
    rewrite payloads_app in Hin. simpl in Hin.
    unfold block_span in *. rewrite !elem_of_app in Hin. destruct Hin as [Hin|[Hin|Hin]].
    + apply payload_in_bounds in Hin; [|done]. apply Hout. lia.
    + destruct (b_allocated b) eqn:Eb; [|by apply not_elem_of_nil in Hin].
      apply list_elem_of_singleton in Hin as [= -> ->].
      apply Ho; [unfold mapped_heap, within; lia|]. intros a v Hin' Hr. apply Hws in Hin'. lia.
    + apply payload_in_bounds in Hin; [|done]. apply Hout. lia.
Qed.

(** A property of every element of an explicit list of stores. *)
Ltac each_store :=
  let Hin := fresh in intros ? ? Hin;
  repeat (apply elem_of_cons in Hin as [[= -> ->]|Hin]; [unfold mapped_heap, within, HEAP_START in *; cbn;
    first [lia | split; [lia|intros; lia]]|]);
  by apply not_elem_of_nil in Hin.
(** One word store of such a sequence, inside the mapped heap of [s]. *)
Ltac store_word s ws m' Hu Hst :=
  wp_step; eapply (wp_store32 _ (mapped_heap s) ws _ _ (mem s));
    [eassumption|eassumption|lia|lia|lia|unfold mapped_heap, within, HEAP_START; lia|each_store|];
  clear Hu Hst; intros m' Hu Hst.

(** Rewriting only the state word of a block. *)
Lemma mark_spec bs1 b bs2 s al :
  heap_inv (bs1 ++ b :: bs2) s →
  wp (write_state (cursor_at bs1) (state_word (mk_block (b_size b) al))) (λ _ s', ∃ m,
    s' = set_mem m s ∧ heap_inv (bs1 ++ mk_block (b_size b) al :: bs2) s' ∧
    preserves (bs1 ++ b :: bs2) s s') s.
Proof.
  intros Hi. destruct (cursor_facts _ _ _ _ Hi) as ([H1 H2 H3] & Hb & Hlo & _ & Hhi & Hend).
  pose proof (hi_mapped _ _ Hi) as Hm. pose proof (hi_usable _ _ Hi) as Hu.
  pose proof (stored_nil (mem s) (mapped_heap s)) as Hst. destruct Hb as [Hb Hb8].
  unfold block_span in Hhi. consts. unfold write_state. rewrite u32_id by lia.
  eapply (wp_store32 _ (mapped_heap s) [] _ _ (mem s)); [done..|lia|lia| | | |].
  { unfold state_word, STAGE9A_KHEAP_ALLOCATION_STATE_ALLOCATED,
      STAGE9A_KHEAP_ALLOCATION_STATE_FREED. simpl. destruct al; lia. }
  { unfold mapped_heap, within. consts. lia. }
  { each_store. }
  clear Hst Hu. intros m Hu Hst. exists m. split; [done|].
  eapply (replace_block bs1 b bs2 [mk_block (b_size b) al]); [done..| | | |].
  - unfold block_span. destruct (b_allocated b); each_store.
  - split; [|done]. constructor.
    + rewrite <- H1. eapply stored_other_word; [exact Hst| |each_store].
      unfold mapped_heap, within. consts. lia.
    + simpl. rewrite <- H2. eapply stored_other_word; [exact Hst| |each_store].
      unfold mapped_heap, within. consts. lia.
    + apply (stored_words _ _ _ _ Hst). by left.
  - simpl. unfold block_span. simpl. lia.
  - by repeat constructor.
Qed.

(** The writes of the reuse path. *)
Definition carve_writes (c n size : Z) : M machine unit :=
  let remainder := u32 (size - n) in
  if remainder >=? ALLOCATION_HEADER_SIZE + STAGE8C_KHEAP_MIN_ALIGNMENT then
    let split_header := u32 (c + 16 + n) in
    write_payload_size c n ;;
    write_state c STAGE9A_KHEAP_ALLOCATION_STATE_ALLOCATED ;;
    write_magic split_header STAGE9A_KHEAP_ALLOCATION_HEADER_MAGIC ;;
    write_payload_size split_header (u32 (remainder - ALLOCATION_HEADER_SIZE)) ;;
    write_state split_header STAGE9A_KHEAP_ALLOCATION_STATE_FREED ;;
    write_reserved split_header 0
  else write_state c STAGE9A_KHEAP_ALLOCATION_STATE_ALLOCATED.

Lemma carve_spec bs1 b bs2 s n :
  heap_inv (bs1 ++ b :: bs2) s → 0 < n → n mod 8 = 0 → fits n b = true →
  wp (carve_writes (cursor_at bs1) n (b_size b)) (λ _ s', ∃ m, s' = set_mem m s ∧
    heap_inv (bs1 ++ carve n b ++ bs2) s' ∧ preserves (bs1 ++ b :: bs2) s s') s.
Proof.
  intros Hi Hn Hn8 Hfit.
  destruct (cursor_facts _ _ _ _ Hi) as ([H1 H2 H3] & [Hb Hb8] & Hlo & Hc8 & Hhi & Hend).
  assert (b_allocated b = false ∧ n ≤ b_size b) as [Hfree Hle]
    by (unfold fits in Hfit; destruct (b_allocated b); simpl in *; lia).
  unfold carve_writes, carve. unfold block_span in Hhi. rewrite (u32_id (b_size b - n)) by zlia.
  cbv zeta. change (ALLOCATION_HEADER_SIZE + STAGE8C_KHEAP_MIN_ALIGNMENT) with 24.
  destruct (Z.geb_spec (b_size b - n) 24); cycle 1.
  { rewrite decide_False by lia. by apply (mark_spec bs1 b bs2 s true). }
  rewrite decide_True by lia.
  pose proof (hi_mapped _ _ Hi) as Hm. pose proof (hi_usable _ _ Hi) as Hu.
  pose proof (stored_nil (mem s) (mapped_heap s)) as Hst.
  set (c := cursor_at bs1) in *. consts.
  unfold write_payload_size, write_state, write_magic, write_reserved, ALLOCATION_HEADER_SIZE,
    STAGE9A_KHEAP_ALLOCATION_STATE_ALLOCATED, STAGE9A_KHEAP_ALLOCATION_STATE_FREED,
    STAGE9A_KHEAP_ALLOCATION_HEADER_MAGIC in *.
  rewrite !(u32_id (c + 16 + n)), !(u32_id (c + _)) by lia.
  rewrite !(u32_id (c + 16 + n + _)) by lia.
  rewrite (u32_id (b_size b - n - 16)) by lia.
  store_word s (@nil (Z * Z)) m1 Hu Hst. store_word s [(c + 4, n)] m2 Hu Hst.
  store_word s [(c + 8, 1); (c + 4, n)] m3 Hu Hst.
  store_word s [(c + 16 + n, 0x39414C48); (c + 8, 1); (c + 4, n)] m4 Hu Hst.
  store_word s [(c + 16 + n + 4, b_size b - n - 16); (c + 16 + n, 0x39414C48); (c + 8, 1);
    (c + 4, n)] m5 Hu Hst.
  eapply (wp_store32 _ (mapped_heap s) [(c + 16 + n + 8, 2); (c + 16 + n + 4, b_size b - n - 16);
    (c + 16 + n, 0x39414C48); (c + 8, 1); (c + 4, n)] _ _ (mem s));
    [eassumption|eassumption|lia|lia|lia|unfold mapped_heap, within, HEAP_START; lia|each_store|].
  clear Hu Hst. intros m Hu Hst. exists m. split; [done|].
  match goal with |- heap_inv (_ ++ ?new ++ _) _ ∧ _ =>
    change (set_mem m _) with (set_mem m s); eapply (replace_block bs1 b bs2 new) end;
    [done|exact Hst| | | |].
  - rewrite Hfree. unfold block_span. fold c. each_store.
  - split; [constructor|split; [constructor|done]]; simpl; unfold block_span; simpl;
      rewrite ?Z.add_assoc; try (apply (stored_words _ _ _ _ Hst); set_solver).
    etransitivity; [|exact H1]. eapply stored_other_word; [exact Hst| |each_store].
    unfold mapped_heap, within, HEAP_START. lia.
  - simpl. unfold block_span. simpl. lia.
  - repeat constructor; simpl; lia.
Qed.

(** ** The walks *)
Lemma walk_fuel_enough bs s :
  heap_inv bs s →
  0 ≤ (heap_current (heap s) - HEAP_START) / 24 ∧
  (Z.to_nat ((heap_current (heap s) - HEAP_START) / 24) < walk_fuel s)%nat.
Proof.
  intros Hi. pose proof (heap_inv_bounds _ _ Hi) as (? & _ & _).
  rewrite (hi_current _ _ Hi). unfold walk_fuel. rewrite (hi_start _ _ Hi), (hi_current _ _ Hi). lia.
Qed.

Lemma walk_end bs s :
  heap_inv bs s → (cursor_at bs <? heap_current (heap s)) = false.
Proof. intros Hi. rewrite (hi_current _ _ Hi). unfold cursor_at. lia. Qed.

(** The result of the reuse walk is that of [first_fit]. *)
Lemma reuse_spec bs s n v :
  heap_inv bs s → 0 < n → n mod 8 = 0 →
  wp (stage9c_kheap_try_reuse_aligned_allocation n (Some v)) (λ r s',
    match first_fit HEAP_START bs n with
    | None => r = (0, Some 0) ∧ s' = s
    | Some (p, bs') => r = (1, Some p) ∧ ∃ m, s' = set_mem m s ∧ heap_inv bs' s' ∧
        preserves bs s s'
    end) s.
Proof.
  intros Hi Hn Hn8. destruct (walk_fuel_enough bs s Hi) as [Hv0 Hfuel].
  unfold stage9c_kheap_try_reuse_aligned_allocation. cbv zeta. wp_step. wp_step.
  rewrite (hi_start _ _ Hi).
  apply (wp_loop (λ l s', s' = s ∧ ∃ bs1 bs2, bs = bs1 ++ bs2 ∧ l = cursor_at bs1 ∧
      Forall (λ b, fits n b = false) bs1)
    (λ l _, (heap_current (heap s) - l) / 24)); [|clear Hv0 Hfuel|exact Hv0|exact Hfuel].
  { split; [done|]. exists [], bs. split_and!; [done|unfold cursor_at; simpl; lia|constructor]. }
  intros l ? (-> & bs1 & bs2 & -> & -> & Hno). wp_step. wp_step.
  destruct bs2 as [|b bs2].
  { rewrite app_nil_r in *. rewrite (walk_end _ _ Hi). wp_steps.
    by rewrite first_fit_none by done. }
  destruct (walk_guards _ _ _ _ Hi) as (-> & -> & G3 & E1 & G5 & E2 & G7 & E3 & Hle & H24).
  destruct (read_header _ _ _ _ Hi) as (Rm & Rs & Rt).
  wp_step. eapply wp_Ret; [exact Rm|]. rewrite Z.eqb_refl. cbn [negb].
  wp_step. eapply wp_Ret; [exact Rs|]. rewrite G3, E1, G5, E2.
  wp_step. eapply wp_Ret; [exact Rt|].
  assert ((state_word b =? STAGE9A_KHEAP_ALLOCATION_STATE_FREED) && (b_size b >=? n) = fits n b)
    as -> by (unfold state_word, fits; destruct (b_allocated b); simpl; lia).
  destruct (fits n b) eqn:Hfit.
  - wp_step. eapply wp_mono; [|apply (carve_spec bs1 b bs2 s n Hi Hn Hn8 Hfit)].
    intros [] s' (m & -> & Hi' & Hpres). wp_steps.
    rewrite first_fit_app by done. simpl. rewrite Hfit. split; [done|]. eauto.
  - rewrite G7. wp_steps. split; [|pose proof (hi_mapped _ _ Hi); lia].
    split; [done|]. exists (bs1 ++ [b]), bs2. rewrite <- app_assoc. split_and!; [done..|].
    apply Forall_app. auto.
Qed.

(** Pointers outside the blocks are no payload addresses. *)
Lemma spec_free_below a bs p : Forall block_ok bs → p < a + 16 → spec_free a bs p = None.
Proof.
  intros Hok. revert a. induction Hok as [|b bs [Hb Hm] Hok IH]; intros a Hp; simpl; [done|].
  unfold block_span. rewrite decide_False, IH by lia. done.
Qed.

Lemma spec_free_above a bs p : Forall block_ok bs → a + span bs ≤ p → spec_free a bs p = None.
Proof.
  intros Hok. revert a. induction Hok as [|b bs [Hb Hm] Hok IH]; intros a Hp; simpl in *; [done|].
  destruct (span_nonneg bs Hok). unfold block_span in *. rewrite decide_False, IH by lia. done.
Qed.

(** The result of the free walk is that of [spec_free]. *)
Lemma free_spec bs s p :
  heap_inv bs s → is_u32 p →
  wp (stage9a_kheap_free p) (λ r s',
    match spec_free HEAP_START bs p with
    | None => r = false ∧ s' = s
    | Some bs' => r = true ∧ ∃ m, s' = set_mem m s ∧ heap_inv bs' s' ∧ preserves bs s s'
    end) s.
Proof.
  intros Hi Hp. destruct (walk_fuel_enough bs s Hi) as [Hv0 Hfuel].
  unfold stage9a_kheap_free. wp_step. wp_step. rewrite (hi_initialized _ _ Hi). cbv zeta.
  change (1 =? 0) with false. cbn [orb].
  pose proof (hi_blocks _ _ Hi) as Hok. rewrite (hi_start _ _ Hi).
  destruct (Z.eqb_spec p 0) as [->|Hp0].
  { wp_steps. by rewrite spec_free_below by (done || zlia). }
  destruct (Z.ltb_spec p HEAP_START) as [|Hlo].
  { wp_steps. by rewrite spec_free_below by (done || zlia). }
  destruct (Z.geb_spec p (heap_current (heap s))) as [Hge|Hlt]; cbn [orb].
  { wp_steps. rewrite (hi_current _ _ Hi) in Hge. by rewrite spec_free_above. }
  apply (wp_loop (λ l s', s' = s ∧ ∃ bs1 bs2, bs = bs1 ++ bs2 ∧ l = cursor_at bs1 ∧
      spec_free HEAP_START bs p = app bs1 <$> spec_free (cursor_at bs1) bs2 p)
    (λ l _, (heap_current (heap s) - l) / 24)); [|clear Hv0 Hfuel|exact Hv0|exact Hfuel].
  { split; [done|]. exists [], bs. assert (HEAP_START = cursor_at []) as <- by done.
    split_and!; [done..|]. by destruct (spec_free _ bs p). }
  intros l ? (-> & bs1 & bs2 & -> & -> & Hspec). wp_step. wp_step. rewrite Hspec.
  destruct bs2 as [|b bs2].
  { rewrite app_nil_r in *. rewrite (walk_end _ _ Hi). by wp_steps. }
  destruct (walk_guards _ _ _ _ Hi) as (-> & -> & G3 & E1 & G5 & E2 & G7 & E3 & Hle & H24).
  destruct (read_header _ _ _ _ Hi) as (Rm & Rs & Rt).
  apply Forall_app in Hok as [Hok1 Hok2]. apply Forall_cons in Hok2 as [Hokb Hok2].
  wp_step. eapply wp_Ret; [exact Rm|]. rewrite Z.eqb_refl. cbn [negb].
  wp_step. eapply wp_Ret; [exact Rs|]. rewrite G3, E1, G5, E2. simpl spec_free.
  assert (cursor_at bs1 + block_span b = cursor_at (bs1 ++ [b])) as Enext
    by (rewrite E3; unfold block_span; lia).
  rewrite Enext. destruct (Z.eqb_spec p (cursor_at bs1 + 16)) as [Heq|Hne].
  - rewrite decide_True by done. wp_step. eapply wp_Ret; [exact Rt|].
    unfold state_word. destruct (b_allocated b) eqn:Eb; simpl; [|by wp_steps].
    wp_step. eapply wp_mono; [|apply (mark_spec bs1 b bs2 s false Hi)].
    intros [] s' (m & -> & Hi' & Hpres). wp_steps. eauto.
  - rewrite decide_False by done.
    destruct ((p >? cursor_at bs1 + 16) && (p <? cursor_at (bs1 ++ [b]))) eqn:Ein.
    + wp_steps. by rewrite spec_free_below by (done || lia).
    + rewrite G7. wp_steps. split; [|pose proof (hi_mapped _ _ Hi); lia].
      split; [done|]. exists (bs1 ++ [b]), bs2. rewrite <- app_assoc. split_and!; [done..|].
      rewrite <- option_fmap_compose. apply option_fmap_ext. intros l. simpl.
      by rewrite <- app_assoc.
Qed.

(** ** Mapping more of the heap *)
Lemma heap_inv_set_allocator bs s a :
  heap_inv bs s → allocator_wf a → (∀ pa, live_frame (allocator s) pa → live_frame a pa) →
  heap_inv bs (set_allocator a s).
Proof.
  intros [] Ha Hlive. constructor; cbn [mem heap allocator set_allocator]; try done. eauto.
Qed.

Lemma phys_translate m va : phys m va =
  (pa ← translate (paging m) va; if in_kernel_image pa then None else Some pa).
Proof. done. Qed.

(** The next page of the heap, backed by a frame that was not live. *)
Lemma map_next bs s out a :
  let e := heap_mapped_end_exclusive (heap s) in
  heap_inv bs s → e < HEAP_END → allocator_wf a → frame_usable out → is_u32 out →
  ¬ live_frame (allocator s) out →
  (∀ pa, live_frame a pa ↔ live_frame (allocator s) pa ∨ pa = out) →
  ∃ p, stage8b_vmm_map_page e out (paging (mem s)) = Ret true p ∧
    let s' := set_mapped_end (e + 0x1000)
      (set_mem (set_paging p (mem s)) (set_allocator a s)) in
    heap_inv bs s' ∧ (∀ va, mapped_heap s va → vbyte (mem s') va = vbyte (mem s) va) ∧
    ∀ va, is_u32 va → ¬ HEAP_START ≤ va < HEAP_END →
      translate (paging (mem s')) va = translate (paging (mem s)) va.
Proof.
  intros e Hi He Ha (Hout & Hal & Himg) Hu32 Hnl Hlive.
  pose proof (hi_mapped _ _ Hi) as Hm. pose proof (hi_mapped_page _ _ Hi) as Hmp.
  pose proof (heap_inv_bounds _ _ Hi) as (Hb1 & _ & _). pose proof (hi_current _ _ Hi) as Hcur.
  fold e in Hm, Hmp. consts.
  destruct (map_page_spec (paging (mem s)) e out (hi_paging _ _ Hi)) as (p & E & Hwf & _ & Htr);
    [lia|lia|].
  assert (can_map (paging (mem s)) e out) as Hcan.
  { unfold can_map, in_window. split_and!; [done|done|lia|lia|]. apply (hi_unmapped _ _ Hi).
    fold e. consts. lia. }
  rewrite bool_decide_true in E by done. exists p. split; [done|].
  assert (∀ va, is_u32 va → translate p va =
    if decide (e ≤ va < e + 0x1000) then Some (out + (va - e)) else translate (paging (mem s)) va)
    as Htr'.
  { intros va Hva. rewrite Htr, page_offset_eq by done. unfold same_page.
    destruct (decide (e ≤ va < e + 0x1000)).
    - rewrite decide_True by (split; [done|lia]). f_equal. lia.
    - by rewrite decide_False by (intros [_ ?]; lia). }
  assert (∀ va, mapped_heap s va → translate p va = translate (paging (mem s)) va) as Hold.
  { unfold mapped_heap, within. fold e. consts. intros va Hva.
    rewrite Htr' by lia. by rewrite decide_False by lia. }
  assert (∀ va, e ≤ va < e + 0x1000 → translate p va = Some (out + (va - e))) as Hnew.
  { intros va Hva. rewrite Htr' by lia. by rewrite decide_True by lia. }
  cbv zeta. set (m := set_paging p (mem s)).
  assert (∀ va, mapped_heap s va → phys m va = phys (mem s) va) as Hphys.
  { intros va Hva. rewrite !phys_translate. cbn [paging m set_paging]. by rewrite Hold. }
  assert (∀ va, mapped_heap s va → vbyte m va = vbyte (mem s) va) as Hbytes.
  { intros va Hva. unfold vbyte. by rewrite Hphys. }
  assert (∀ va, within HEAP_START (e + 0x1000) va ↔ mapped_heap s va ∨ e ≤ va < e + 0x1000) as Hsplit.
  { intros va. unfold mapped_heap, within. fold e. consts. lia. }
  assert (∀ va pa, mapped_heap s va → phys (mem s) va = Some pa → ¬ out ≤ pa < out + 0x1000) as Hdisj.
  { intros va pa Hva Hpa Hr. rewrite phys_translate in Hpa.
    destruct (translate (paging (mem s)) va) as [pa'|] eqn:Et; [|done]. simpl in Hpa.
    destruct (in_kernel_image pa'); [done|]. injection Hpa as ->.
    pose proof (hi_backed _ _ Hi va pa Hva Et) as Hl.
    replace (pa - pa mod 0x1000) with out in Hl by lia. done. }
  assert (∀ va, e ≤ va < e + 0x1000 → phys m va = Some (out + (va - e))) as Hpnew.
  { intros va Hva. rewrite phys_translate. cbn [paging m set_paging]. rewrite Hnew by done. simpl.
    by rewrite Himg by lia. }
  split; [|split; [exact Hbytes|]]; cycle 1.
  { intros va Hva Hnw. cbn [mem set_mem]. change (paging m) with p. rewrite Htr' by done.
    rewrite decide_False; [done|]. consts. lia. }
  destruct Hi. constructor; cbn [mem heap allocator set_mem set_mapped_end set_heap set_allocator
    heap_is_initialized heap_start heap_end_exclusive heap_current heap_mapped_end_exclusive];
    unfold mapped_heap; cbn [heap set_mapped_end set_heap heap_mapped_end_exclusive];
    try done; try (consts; lia).
  - eapply headers_frame; [done|]. intros va Hva. apply Hbytes.
    apply in_header_bounds in Hva; [|done]. unfold mapped_heap, within. consts. fold e. lia.
  - destruct hi_usable0 as [Hex Hinj]. split.
    + intros va [Hva|Hva]%Hsplit; [rewrite Hphys by done; by apply Hex|rewrite Hpnew by done; eauto].
    + intros x y [Hx|Hx]%Hsplit [Hy|Hy]%Hsplit; rewrite ?(Hphys x), ?(Hphys y), ?(Hpnew x), ?(Hpnew y) by done.
      * by apply Hinj.
      * intros Exy. exfalso. eapply Hdisj; [exact Hx|exact Exy|lia].
      * intros Exy. exfalso. eapply Hdisj; [exact Hy|symmetry; exact Exy|lia].
      * intros [= ?]. lia.
  - intros va pa [Hva|Hva]%Hsplit Et; apply Hlive.
    + left. rewrite Hold in Et by done. by apply (hi_backed0 va).
    + right. rewrite Hnew in Et by done. injection Et as <-. lia.
  - intros va Hva. cbn [mem set_mem]. change (paging m) with p. rewrite Htr' by (consts; lia).
    rewrite decide_False by lia. apply hi_unmapped0. fold e. lia.
Qed.

(** The pages mapped between two states. *)
Definition new_pages s s' : Z :=
  (heap_mapped_end_exclusive (heap s') - heap_mapped_end_exclusive (heap s)) / 0x1000.

(** What growing the mapping leaves alone. *)
Record grown (bs : list block) s s' : Prop := {
  grown_inv : heap_inv bs s';
  grown_current : heap_current (heap s') = heap_current (heap s);
  grown_mapped : heap_mapped_end_exclusive (heap s) ≤ heap_mapped_end_exclusive (heap s');
  grown_bytes va : mapped_heap s va → vbyte (mem s') va = vbyte (mem s) va;
  grown_outside va : is_u32 va → ¬ HEAP_START ≤ va < HEAP_END →
    translate (paging (mem s')) va = translate (paging (mem s)) va;
}.

Lemma grown_trans bs s1 s2 s3 : grown bs s1 s2 → grown bs s2 s3 → grown bs s1 s3.
Proof.
  intros [I1 C1 M1 B1 O1] [I2 C2 M2 B2 O2]. constructor; [done|congruence|lia| |].
  - intros va Hva. rewrite B2, B1; [done..|]. unfold mapped_heap, within in *. lia.
  - intros va Hva Hout. by rewrite O2, O1.
Qed.

Lemma grown_refl bs s : heap_inv bs s → grown bs s s.
Proof. intros Hi. by constructor. Qed.

(** A call of the allocator that gave no frame the heap could use. *)
Lemma grown_refused bs s a :
  heap_inv bs s → allocator_wf a → (∀ pa, live_frame (allocator s) pa → live_frame a pa) →
  grown bs s (set_allocator a s).
Proof. intros Hi Ha Hlive. constructor; [by apply heap_inv_set_allocator|done..]. Qed.

(** The allocator has given a frame for every new page, and none after it ran
    dry. *)
Definition drew s s' : Prop :=
  ∀ k b, granted k (allocator s) b →
    (new_pages s s' ≤ Z.of_nat k → granted (k - Z.to_nat (new_pages s s')) (allocator s') b) ∧
    (dry b → new_pages s s' ≤ Z.of_nat k).

(** Either every page up to the bound is mapped afterwards and no other, or a
    frame was missing for one that was not. *)
Lemma ensure_mapped_spec bs s required :
  heap_inv bs s → required ≤ HEAP_END → required mod 0x1000 = 0 →
  let e := heap_mapped_end_exclusive (heap s) in
  wp (stage8c_kheap_ensure_mapped_until required) (λ ok s', grown bs s s' ∧
    if ok then heap_mapped_end_exclusive (heap s') = Z.max e required ∧ drew s s'
    else e < required ∧ ∀ k b, granted k (allocator s) b → e + Z.of_nat k * 0x1000 < required ∧
      (dry b → new_pages s s' = Z.of_nat k ∧ ∃ r, alloc_frame (Some 0) b = Ret r (allocator s'))) s.
Proof.
  intros Hi Hreq Hpage e. unfold stage8c_kheap_ensure_mapped_until. wp_step. wp_step. fold e.
  set (V := λ (_ : unit) (s' : machine),
    Z.max 0 ((required - heap_mapped_end_exclusive (heap s')) / 0x1000 + 1)).
  pose proof (grown_refl bs s Hi) as Hrefl. pose proof (hi_mapped_page _ _ Hi) as Hmp. fold e in Hmp.
  assert (drew s s) as Hdrew.
  { intros k b Hk. unfold new_pages. replace (k - _)%nat with k by lia. split; [done|lia]. }
  destruct (decide (e < required)) as [Hlt|Hge]; cycle 1.
  { simpl. wp_steps. fold e. destruct (Z.ltb_spec e required); [lia|].
    wp_steps. split; [done|]. split; [fold e; lia|done]. }
  apply (wp_loop (λ _ s', grown bs s s' ∧ heap_mapped_end_exclusive (heap s') ≤ required ∧ drew s s') V);
    [split; [done|split; [fold e; lia|done]]| |unfold V; lia|unfold V; lia].
  clear Hdrew. intros [] s1 (Hg & Hle & Hdrew). pose proof (grown_inv _ _ _ Hg) as Hi1.
  pose proof (hi_mapped _ _ Hi1) as Hm. pose proof (hi_end _ _ Hi1) as Hend.
  pose proof (hi_mapped_page _ _ Hi1) as Hmp1. pose proof (grown_mapped _ _ _ Hg) as Hge. fold e in Hge.
  wp_step. wp_step. destruct (Z.ltb_spec (heap_mapped_end_exclusive (heap s1)) required) as [Hlt1|]; cycle 1.
  { wp_steps. split; [done|]. split; [lia|done]. }
  cbv zeta. rewrite Hend.
  destruct (Z.geb_spec (heap_mapped_end_exclusive (heap s1)) HEAP_END); [lia|]. wp_step.
  destruct (alloc_frame_ok (allocator s1) 0 (hi_allocator _ _ Hi1)) as (ok & out & a & E & Ha & Hok).
  assert ((∀ k b, ¬ granted (S k) (allocator s1) b) → ∀ k b, granted k (allocator s) b →
    e + Z.of_nat k * 0x1000 < required ∧
    (dry b → new_pages s s1 = Z.of_nat k ∧ ∃ r, alloc_frame (Some 0) b = Ret r a)) as Hmissing.
  { intros Hno k b Hk. destruct (Hdrew k b Hk) as [Hgr Hdry]. unfold new_pages in *. fold e in Hgr, Hdry |- *.
    assert (Z.of_nat k ≤ (heap_mapped_end_exclusive (heap s1) - e) / 0x1000) as Hk1.
    { destruct (decide ((heap_mapped_end_exclusive (heap s1) - e) / 0x1000 < Z.of_nat k)); [|lia].
      exfalso. specialize (Hgr ltac:(lia)). destruct (k - _)%nat eqn:Ek in Hgr; [lia|]. by eapply Hno. }
    split; [lia|]. intros Hd. specialize (Hdry Hd). specialize (Hgr ltac:(lia)).
    split; [lia|]. replace (k - _)%nat with O in Hgr by lia. cbn in Hgr. subst b. by eexists. }
  apply wp_zoom. cbn [view over allocator_lens]. eapply wp_Ret; [exact E|]. destruct ok; cbn [negb]; cycle 1.
  { assert (∀ k b, ¬ granted (S k) (allocator s1) b) as Hno
      by (intros k b Hk; by destruct (granted_next _ _ _ _ _ _ Hk E)).
    wp_steps. split; [|split; [fold e; lia|by apply Hmissing]]. eapply grown_trans; [exact Hg|].
    apply grown_refused; [done..|]. intros pa Hpa. by apply Hok. }
  destruct Hok as (Hus & Hnl & Hlive). wp_step. eapply wp_from_option; [done|].
  pose proof Hus as (Hu64 & Hal & _).
  destruct (Z.gtb_spec out UINT32_MAX).
  { assert (∀ k b, ¬ granted (S k) (allocator s1) b) as Hno
      by (intros k b Hk; destruct (granted_next _ _ _ _ _ _ Hk E) as (_ & ? & _); lia).
    wp_steps. split; [|split; [fold e; lia|by apply Hmissing]]. eapply grown_trans; [exact Hg|].
    apply grown_refused; [done..|]. intros pa Hpa. apply Hlive. by left. }
  rewrite u32_id, frame_addr_aligned by zlia. wp_step.
  destruct (map_next bs s1 out a Hi1) as (p & Emap & Hi2 & Hb2 & Ho2); [done..|zlia|done|done|].
  apply wp_zoom. cbn [view over mem_lens]. apply wp_zoom. cbn [view over paging_lens].
  eapply wp_Ret; [exact Emap|]. cbn [negb]. wp_steps. cbn [view over mem_lens paging_lens allocator_lens heap set_mem set_allocator].
  change STAGE7A_PAGING_PAGE_SIZE with 0x1000. pose proof (heap_inv_bounds _ _ Hi1) as (? & _ & _).
  pose proof (hi_current _ _ Hi1) as Hcur. rewrite u32_id by zlia.
  split; [|unfold V; cbn; lia]. split; [|split; [cbn; lia|]].
  { eapply grown_trans; [exact Hg|]. by constructor; [exact Hi2|done|cbn; lia|exact Hb2|exact Ho2]. }
  intros k b Hk. destruct (Hdrew k b Hk) as [Hgr Hdry]. unfold new_pages in *. cbn. fold e in Hgr, Hdry |- *. split.
  - intros Hroom. specialize (Hgr ltac:(lia)). destruct (k - _)%nat as [|j] eqn:Ek in Hgr; [lia|].
    destruct (granted_next _ _ _ _ _ _ Hgr E) as (_ & _ & Hj).
    match goal with |- granted ?x _ _ => by replace x with j by lia end.
  - intros Hd. specialize (Hdry Hd). specialize (Hgr Hdry). destruct (k - _)%nat as [|j] eqn:Ek in Hgr; [|lia].
    cbn in Hgr. subst b. specialize (Hd _ _ E). lia.
Qed.

Lemma kheap_align_up_8 n v :
  0 < n → is_u32 n →
  stage8c_kheap_align_up n 8 (Some v) =
    if decide (n ≤ UINT32_MAX - 7) then (true, Some ((n + 7) / 8 * 8)) else (false, Some v).
Proof.
  intros Hn Hu. unfold stage8c_kheap_align_up. rewrite (u32_id (8 - 1)) by lia.
  change (8 - 1) with (2 ^ 3 - 1). rewrite !land_mask by lia. change (2 ^ 3) with 8.
  change (negb (8 mod 8 =? 0)) with false. cbn [Z.eqb orb]. consts. rewrite (u32_id (_ - _)) by lia.
  destruct (Z.eqb_spec (n mod 8) 0); [rewrite decide_True by lia; do 2 f_equal; lia|].
  destruct (Z.gtb_spec n (0xFFFFFFFF - (8 - 1))); [by rewrite decide_False by lia|].
  rewrite decide_True by lia. rewrite u32_id by lia. change (8 - 1) with (2 ^ 3 - 1).
  rewrite land_not32 by lia. change (2 ^ 3) with 8. do 2 f_equal. lia.
Qed.

Lemma kheap_align_up_page n v :
  0 ≤ n ≤ HEAP_END →
  stage8c_kheap_align_up n STAGE7A_PAGING_PAGE_SIZE (Some v) =
    (true, Some ((n + 0xFFF) / 0x1000 * 0x1000)).
Proof.
  intros Hn. unfold stage8c_kheap_align_up. change STAGE7A_PAGING_PAGE_SIZE with 0x1000.
  rewrite (u32_id (0x1000 - 1)) by lia.
  change (0x1000 - 1) with (2 ^ 12 - 1). rewrite !land_mask by lia. change (2 ^ 12) with 0x1000.
  change (negb (0x1000 mod 0x1000 =? 0)) with false. cbn [Z.eqb orb]. consts.
  rewrite (u32_id (_ - _)) by lia.
  destruct (Z.eqb_spec (n mod 0x1000) 0); [do 2 f_equal; lia|].
  destruct (Z.gtb_spec n (0xFFFFFFFF - (0x1000 - 1))); [lia|].
  rewrite u32_id by lia. change (0x1000 - 1) with (2 ^ 12 - 1).
  rewrite land_not32 by lia. change (2 ^ 12) with 0x1000. do 2 f_equal. lia.
Qed.

(** ** Allocation *)
Definition round_up_8 (n : Z) : Z := (n + 7) / 8 * 8.

(** What a call returns and leaves: the first free block that fits, or a new
    block at the end, or the null pointer when the new block needs pages that
    cannot be had. *)
Definition alloc_outcome (bs : list block) (mapped_end n p : Z) (bs' : list block) : Prop :=
  if decide (n = 0 ∨ UINT32_MAX - 7 < n) then p = 0 ∧ bs' = bs else
  match first_fit HEAP_START bs (round_up_8 n) with
  | Some (q, l) => p = q ∧ bs' = l
  | None =>
      let payload := HEAP_START + span bs + 16 in
      (p = payload ∧ bs' = bs ++ [mk_block (round_up_8 n) true] ∧
         payload + round_up_8 n ≤ HEAP_END) ∨
      (p = 0 ∧ bs' = bs ∧ mapped_end < payload + round_up_8 n)
  end.

(** The same when there is room and the allocator has frames for it: the
    reference allocator's answer. *)
Definition reference_alloc (bs : list block) (n : Z) : Z * list block :=
  match first_fit HEAP_START bs (round_up_8 n) with
  | Some r => r
  | None => (HEAP_START + span bs + 16, bs ++ [mk_block (round_up_8 n) true])
  end.
Definition page_up (x : Z) : Z := (x + 0xFFF) / 0x1000 * 0x1000.
Definition new_top (bs : list block) (n : Z) : Z := page_up (HEAP_START + span (reference_alloc bs n).2).
Record supplied_outcome (bs : list block) (n p : Z) (bs' : list block) s s' : Prop := {
  (* there are frames enough *)
  so_granted k b : granted k (allocator s) b →
    let e := heap_mapped_end_exclusive (heap s) in
    0 < n ≤ UINT32_MAX - 7 → new_top bs n ≤ HEAP_END → new_top bs n ≤ e + Z.of_nat k * 0x1000 →
    (p, bs') = reference_alloc bs n ∧ heap_mapped_end_exclusive (heap s') = Z.max e (new_top bs n) ∧
    granted (k - Z.to_nat (new_pages s s')) (allocator s') b;
  (* the frames run out: they are mapped, and the call fails *)
  so_refused k b : granted k (allocator s) b → dry b →
    let e := heap_mapped_end_exclusive (heap s) in
    0 < n ≤ UINT32_MAX - 7 → new_top bs n ≤ HEAP_END → e + Z.of_nat k * 0x1000 < new_top bs n →
    p = 0 ∧ bs' = bs ∧ new_pages s s' = Z.of_nat k ∧ ∃ r, alloc_frame (Some 0) b = Ret r (allocator s');
}.

Lemma first_fit_span a bs n p bs' :
  first_fit a bs n = Some (p, bs') → span bs' = span bs.
Proof.
  revert a p bs'. induction bs as [|b bs IH]; intros a p bs'; [done|]. cbn [first_fit].
  destruct (fits n b).
  - intros [= _ <-]. rewrite span_app, carve_span. done.
  - destruct (first_fit _ bs n) as [[q l]|] eqn:E; [|done]. intros [= _ <-]. cbn. by rewrite (IH _ _ _ E).
Qed.

(** A call that maps nothing. *)
Lemma supplied_reuse bs n p bs' s m :
  heap_inv bs s → 0 < n → first_fit HEAP_START bs (round_up_8 n) = Some (p, bs') →
  supplied_outcome bs n p bs' s (set_mem m s).
Proof.
  intros Hi Hn E. assert (reference_alloc bs n = (p, bs')) as R by (unfold reference_alloc; by rewrite E).
  assert (new_top bs n ≤ heap_mapped_end_exclusive (heap s)) as Htop.
  { unfold new_top. rewrite R. cbn [snd]. rewrite (first_fit_span _ _ _ _ _ E).
    pose proof (hi_mapped _ _ Hi). pose proof (hi_current _ _ Hi). pose proof (hi_mapped_page _ _ Hi).
    unfold page_up. lia. }
  split; [|intros k b _ _ e _ _ ?; unfold e in *; lia]. intros k b Hk e _ _ _. split; [done|].
  unfold new_pages. cbn. fold e. replace (k - _)%nat with k by lia. split; [unfold e; lia|done].
Qed.

(** A call that does nothing. *)
Lemma supplied_nothing bs n p bs' s :
  ¬ (0 < n ≤ UINT32_MAX - 7 ∧ new_top bs n ≤ HEAP_END) → supplied_outcome bs n p bs' s s.
Proof. intros Hno. split; [intros k b _ e H1 H2 _|intros k b _ _ e H1 H2 _]; by destruct Hno. Qed.

Lemma preserves_refl bs s : preserves bs s s.
Proof. done. Qed.

Lemma preserves_grown bs s s1 : heap_inv bs s → grown bs s s1 → preserves bs s s1.
Proof.
  intros Hi Hg. split; [|by apply (grown_outside _ _ _ Hg)].
  intros p sz va Hin Hva. apply (grown_bytes _ _ _ Hg).
  apply payload_in_bounds in Hin; [|apply (hi_blocks _ _ Hi)].
  pose proof (hi_current _ _ Hi). pose proof (hi_mapped _ _ Hi).
  unfold mapped_heap, within. lia.
Qed.

(** Writing the header of a new block behind the last one. *)
Definition append_writes (c n : Z) : M machine Z :=
  write_magic c STAGE9A_KHEAP_ALLOCATION_HEADER_MAGIC ;;
  write_payload_size c n ;;
  write_state c STAGE9A_KHEAP_ALLOCATION_STATE_ALLOCATED ;;
  write_reserved c 0 ;;
  modify (set_current (c + 16 + n)) ;;
  mret (c + 16).

Lemma append_spec bs s n :
  heap_inv bs s → 0 < n → n mod 8 = 0 →
  HEAP_START + span bs + 16 + n ≤ heap_mapped_end_exclusive (heap s) →
  wp (append_writes (HEAP_START + span bs) n) (λ p s', p = HEAP_START + span bs + 16 ∧
    heap_inv (bs ++ [mk_block n true]) s' ∧ preserves bs s s' ∧
    heap_mapped_end_exclusive (heap s') = heap_mapped_end_exclusive (heap s) ∧
    allocator s' = allocator s) s.
Proof.
  intros Hi Hn Hn8 Hroom. pose proof (hi_mapped _ _ Hi) as Hm.
  pose proof (heap_inv_bounds _ _ Hi) as (Hs0 & Hs8 & Hend). pose proof (hi_usable _ _ Hi) as Hu.
  pose proof (stored_nil (mem s) (mapped_heap s)) as Hst. consts.
  unfold append_writes, write_payload_size, write_state, write_magic, write_reserved,
    STAGE9A_KHEAP_ALLOCATION_STATE_ALLOCATED, STAGE9A_KHEAP_ALLOCATION_HEADER_MAGIC.
  unfold HEAP_START, HEAP_END in *. set (c := 0x400000 + span bs) in *.
  rewrite !(u32_id (c + _)) by lia.
  store_word s (@nil (Z * Z)) m1 Hu Hst. store_word s [(c, 0x39414C48)] m2 Hu Hst.
  store_word s [(c + 4, n); (c, 0x39414C48)] m3 Hu Hst.
  store_word s [(c + 8, 1); (c + 4, n); (c, 0x39414C48)] m Hu Hst. wp_steps.
  change (set_current (c + 16 + n) (set_mem m _)) with (set_current (c + 16 + n) (set_mem m s)).
  assert (∀ va, HEAP_START ≤ va < c → vbyte m va = vbyte (mem s) va) as Hout.
  { intros va Hva. apply (stored_other _ _ _ _ Hst); [|each_store].
    unfold mapped_heap, within, HEAP_START in *. lia. }
  split; [done|]. split.
  - pose proof (hi_current _ _ Hi) as Hc. pose proof (stored_paging _ _ _ _ Hst) as Hp.
    unfold same_paging in Hp. pose proof (hi_headers _ _ Hi) as Hh.
    destruct Hi. constructor; cbn [mem heap allocator set_current set_heap set_mem
      heap_is_initialized heap_start heap_end_exclusive heap_current heap_mapped_end_exclusive];
      try done; try (by rewrite Hp).
    + rewrite span_app. simpl. unfold block_span, c. simpl. unfold HEAP_START. lia.
    + apply Forall_app. by repeat constructor.
    + unfold HEAP_END. lia.
    + apply headers_app. split.
      * eapply headers_frame; [exact Hh|]. intros va Hva. apply Hout.
        apply in_header_bounds in Hva; [|done]. unfold HEAP_START in *. lia.
      * split; [|done]. constructor; apply (stored_words _ _ _ _ Hst); unfold HEAP_START; fold c;
          set_solver.
  - pose proof (stored_paging _ _ _ _ Hst) as Hp. unfold same_paging in Hp.
    split; [|done]. split; [|intros va _ _; cbn; by rewrite Hp].
    intros p sz va Hin Hva. cbn [mem set_current set_heap set_mem]. apply Hout.
    apply payload_in_bounds in Hin; [|apply (hi_blocks _ _ Hi)]. unfold HEAP_START in *. lia.
Qed.

Lemma alloc_spec bs s n :
  heap_inv bs s → is_u32 n →
  wp (stage8c_kheap_alloc n) (λ p s', ∃ bs', heap_inv bs' s' ∧ preserves bs s s' ∧
    alloc_outcome bs (heap_mapped_end_exclusive (heap s)) n p bs' ∧
    supplied_outcome bs n p bs' s s') s.
Proof.
  intros Hi Hn. pose proof (heap_inv_bounds _ _ Hi) as (Hs0 & Hs8 & Hend).
  unfold stage8c_kheap_alloc. wp_step. wp_step. cbv zeta.
  rewrite (hi_initialized _ _ Hi). change (1 =? 0) with false. cbn [orb].
  destruct (Z.eqb_spec n 0) as [->|Hn0].
  { wp_steps. exists bs. split; [done|]. split; [apply preserves_refl|]. split; [done|].
    apply supplied_nothing. lia. }
  change STAGE8C_KHEAP_MIN_ALIGNMENT with 8. rewrite kheap_align_up_8 by lia.
  destruct (decide (n ≤ UINT32_MAX - 7)) as [Hmax|Hmax]; cbn [negb]; cycle 1.
  { wp_steps. exists bs. split; [done|]. split; [apply preserves_refl|].
    unfold alloc_outcome. rewrite decide_True by lia. split; [done|]. apply supplied_nothing. lia. }
  fold (round_up_8 n). set (e := heap_mapped_end_exclusive (heap s)).
  assert (∀ p bs', match first_fit HEAP_START bs (round_up_8 n) with
      | Some (q, l) => p = q ∧ bs' = l
      | None => (p = HEAP_START + span bs + 16 ∧ bs' = bs ++ [mk_block (round_up_8 n) true] ∧
            HEAP_START + span bs + 16 + round_up_8 n ≤ HEAP_END) ∨
          (p = 0 ∧ bs' = bs ∧ e < HEAP_START + span bs + 16 + round_up_8 n)
      end → alloc_outcome bs e n p bs') as Hout.
  { intros p bs'. unfold alloc_outcome. by rewrite decide_False by lia. }
  assert (n ≤ round_up_8 n ≤ UINT32_MAX ∧ round_up_8 n mod 8 = 0) as [Hr Hr8]
    by (unfold round_up_8; zlia).
  set (al := round_up_8 n) in *.
  assert (first_fit HEAP_START bs al = None →
    reference_alloc bs n = (HEAP_START + span bs + 16, bs ++ [mk_block al true])) as Href
    by (intros Hnone; unfold reference_alloc; fold al; by rewrite Hnone).
  assert (HEAP_START + span (bs ++ [mk_block al true]) = HEAP_START + span bs + 16 + al) as Hspan
    by (rewrite span_app; unfold span at 2, block_span; cbn; lia).
  assert (∀ r l, first_fit HEAP_START bs al = Some (r, l) → ∀ m, supplied_outcome bs n r l s (set_mem m s))
    as Hreuse by (intros r l E m; apply supplied_reuse; [done|lia|done]).
  clearbody al.
  assert (HEAP_END < HEAP_START + span bs + 16 + al → first_fit HEAP_START bs al = None →
    ∃ bs', heap_inv bs' s ∧ preserves bs s s ∧ alloc_outcome bs e n 0 bs' ∧
      supplied_outcome bs n 0 bs' s s) as Hfull.
  { intros Hlt Hnone. exists bs. split; [done|]. split; [apply preserves_refl|]. split.
    - apply Hout. rewrite Hnone. right. split_and!; [done..|].
      pose proof (hi_mapped _ _ Hi). unfold e. lia.
    - apply supplied_nothing. unfold new_top. rewrite Href by done. cbn [snd].
      rewrite Hspan. unfold page_up. lia. }
  wp_step. eapply wp_from_option; [done|].
  wp_step. eapply wp_mono; [|apply (reuse_spec bs s al 0 Hi); lia].
  intros r s1. destruct (first_fit HEAP_START bs al) as [[q l]|].
  { intros [-> (m & -> & Hi' & Hpres)]. simpl. apply wp_ret. exists l. split; [done|]. split; [done|]. by auto. }
  intros [-> ->]. cbv beta iota. change (0 <? 0) with false. change (0 >? 0) with false. cbv iota. wp_step. wp_step.
  rewrite (hi_end _ _ Hi), (hi_current _ _ Hi).
  pose proof (hi_mapped _ _ Hi) as Hm. rewrite (hi_current _ _ Hi) in Hm.
  rewrite (u32_id (HEAP_END - _)) by zlia.
  destruct (Z.gtb_spec (HEAP_START + span bs) (HEAP_END - ALLOCATION_HEADER_SIZE)).
  { wp_steps. apply Hfull; [zlia|done]. }
  rewrite (u32_id (HEAP_START + span bs + ALLOCATION_HEADER_SIZE)) by zlia.
  change ALLOCATION_HEADER_SIZE with 16 in *. rewrite (u32_id (HEAP_END - _)) by zlia.
  destruct (Z.gtb_spec al (HEAP_END - (HEAP_START + span bs + 16))).
  { wp_steps. apply Hfull; [zlia|done]. }
  rewrite u32_id by zlia. rewrite kheap_align_up_page by zlia. cbn [negb].
  wp_step. eapply wp_from_option; [done|]. wp_step.
  set (top := (HEAP_START + span bs + 16 + al + 0xFFF) / 0x1000 * 0x1000).
  assert (new_top bs n = top) as Htop by (unfold new_top; rewrite Href by done; cbn [snd]; by rewrite Hspan).
  eapply wp_mono; [|apply (ensure_mapped_spec bs s top); [done|unfold top; zlia|unfold top; lia]].
  intros ok s2 [Hg Hok]. fold e in Hok. pose proof (grown_inv _ _ _ Hg) as Hi2.
  pose proof (preserves_grown _ _ _ Hi Hg) as Hpres. destruct ok; cbn [negb]; cycle 1.
  { destruct Hok as [Hok Hmiss]. wp_steps. exists bs. split; [done|]. split; [done|]. split; cycle 1.
    { split; rewrite Htop; intros k b Hk; destruct (Hmiss k b Hk) as [Hlt Hdry]; [intros e' _ _ ?; lia|].
      intros Hd e' _ _ _. destruct (Hdry Hd). by split_and!. }
    apply Hout. right. split_and!; [done..|].
    pose proof (hi_mapped_page _ _ Hi). unfold e, top in *. lia. }
  assert (HEAP_START + span bs + 16 + al ≤ top) by (unfold top; lia).
  eapply wp_mono; [|apply (append_spec bs s2 al); [done|lia|done|lia]].
  intros p s' (-> & Hi' & Hpres' & Em & Ea). exists (bs ++ [mk_block al true]). split; [done|]. split; [|split].
  - split; [intros q sz va Hq Hva|intros va Hva Hno].
    + rewrite (pv_payloads _ _ _ Hpres' q sz) by done. by eapply pv_payloads.
    + by rewrite (pv_outside _ _ _ Hpres'), (pv_outside _ _ _ Hpres).
  - apply Hout. left. split_and!; [done..|zlia].
  - destruct Hok as [Hok Hdrew]. pose proof (hi_mapped_page _ _ Hi) as Hmp. unfold drew, new_pages in *. fold e in Hmp, Hdrew.
    split; rewrite Htop, ?Em, ?Ea; fold e; intros k b Hk; destruct (Hdrew k b Hk) as [Hgr Hdry]; cbv zeta.
    + rewrite Href by done. intros _ _ Hroom. unfold new_pages. rewrite Em. fold e. split; [done|]. split; [done|].
      apply Hgr. lia.
    + intros Hd _ _ ?. specialize (Hdry Hd). unfold top in *. lia.
Qed.
End invariant.
