(* ===== verification/KheapSafety.v ===== *)
(** * Safety of the kernel heap for its clients

    The theorems about [Kheap] as its callers see it: what one call of the
    allocator or of [stage9a_kheap_free] does, and what holds after any
    sequence of calls and of writes to live payloads.  The state of the
    clients is the map from live pointers to requested sizes, with the bytes
    they have written; [heap_step] is one action of a client. *)
From S2P Require Import Prelude KernelMonad VmmLayout Paging Vmm Memory MemoryMap FrameAllocator Pmm.
From S2P Require Import Kheap KheapSpec.
#[local] Open Scope Z_scope.

(** ** The live payloads of the reference allocator *)
Lemma elem_of_payloads_cons a b bs x :
  x ∈ payloads a (b :: bs) ↔
    (b_allocated b = true ∧ x = (a + 16, b_size b)) ∨ x ∈ payloads (a + block_span b) bs.
Proof.
  simpl. rewrite elem_of_app. destruct (b_allocated b).
  - rewrite list_elem_of_singleton. naive_solver.
  - rewrite elem_of_nil. naive_solver.
Qed.

Lemma payloads_disjoint a bs p sz q tz :
  Forall block_ok bs → (p, sz) ∈ payloads a bs → (q, tz) ∈ payloads a bs →
  (p = q ∧ sz = tz) ∨ p + sz + 16 ≤ q ∨ q + tz + 16 ≤ p.
Proof.
  intros Hok. revert a. induction Hok as [|b bs [Hb Hm] Hok IH]; intros a.
  { by intros ?%not_elem_of_nil. }
  rewrite !elem_of_payloads_cons. unfold block_span.
  intros [[_ [= -> ->]]|Hp] [[_ [= -> ->]]|Hq]; [by left| | |by eapply IH].
  - apply payload_in_bounds in Hq; [|done]. lia.
  - apply payload_in_bounds in Hp; [|done]. lia.
Qed.

Lemma payload_aligned a bs p sz :
  Forall block_ok bs → a mod 8 = 0 → (p, sz) ∈ payloads a bs → p mod 8 = 0.
Proof.
  intros Hok. revert a. induction Hok as [|b bs [Hb Hm] Hok IH]; intros a Ha.
  { by intros ?%not_elem_of_nil. }
  rewrite elem_of_payloads_cons. unfold block_span.
  intros [[_ [= -> ->]]|Hp]; [lia|]. apply (IH (a + (16 + b_size b))); [lia|done].
Qed.

Lemma payloads_carve a b n x :
  x ∈ payloads a (carve n b) ↔ x = (a + 16, if decide (24 ≤ b_size b - n) then n else b_size b).
Proof.
  unfold carve. case_decide; rewrite !elem_of_payloads_cons, elem_of_nil; simpl; naive_solver.
Qed.

Lemma fits_spec n b : fits n b = true ↔ b_allocated b = false ∧ n ≤ b_size b.
Proof. unfold fits. destruct (b_allocated b); simpl; lia. Qed.

Lemma first_fit_address a bs n p bs' :
  Forall block_ok bs → first_fit a bs n = Some (p, bs') → a + 16 ≤ p.
Proof.
  intros Hok. revert a bs'. induction Hok as [|b bs [Hb Hm] Hok IH]; intros a bs'; simpl; [done|].
  destruct (fits n b); [intros [= <- _]; lia|].
  destruct (first_fit _ bs n) as [[q l]|] eqn:E; simpl; [|done].
  intros [= <- _]. apply IH in E. unfold block_span in *. lia.
Qed.

(** First fit adds one live payload, which was not live, and no other. *)
Lemma first_fit_payloads a bs n p bs' :
  Forall block_ok bs → first_fit a bs n = Some (p, bs') →
  (∃ sz, n ≤ sz ∧ ∀ x, x ∈ payloads a bs' ↔ x = (p, sz) ∨ x ∈ payloads a bs) ∧
  ∀ tz, (p, tz) ∉ payloads a bs.
Proof.
  intros Hok. revert a bs'. induction Hok as [|b bs [Hb Hm] Hok IH]; intros a bs'; cbn [first_fit];
    [done|]. destruct (fits n b) eqn:Hfit.
  - intros [= <- <-]. apply fits_spec in Hfit as [Hfree Hle]. split.
    + exists (if decide (24 ≤ b_size b - n) then n else b_size b). split; [case_decide; lia|].
      intros x. rewrite payloads_app, carve_span, elem_of_app, payloads_carve,
        elem_of_payloads_cons, Hfree. naive_solver.
    + intros tz. rewrite elem_of_payloads_cons, Hfree. intros [[? _]|Hin]; [done|].
      apply payload_in_bounds in Hin; [|done]. unfold block_span in *. lia.
  - destruct (first_fit (a + block_span b) bs n) as [[q l]|] eqn:E;
      cbn [mbind option_bind]; [|done].
    intros [= <- <-]. destruct (IH _ _ E) as ((sz & Hsz & Hiff) & Hno).
    apply first_fit_address in E; [|done]. split.
    + exists sz. split; [done|]. intros x. rewrite !elem_of_payloads_cons, Hiff. tauto.
    + intros tz. rewrite elem_of_payloads_cons. intros [[_ [= -> ->]]|Hin]; [|by eapply Hno].
      unfold block_span in *. lia.
Qed.

(** Freeing removes exactly the payload with that address, if it is live. *)
Lemma spec_free_payloads a bs p :
  Forall block_ok bs →
  match spec_free a bs p with
  | Some bs' => (∃ sz, (p, sz) ∈ payloads a bs) ∧
      ∀ x, x ∈ payloads a bs' ↔ x ∈ payloads a bs ∧ x.1 ≠ p
  | None => ∀ sz, (p, sz) ∉ payloads a bs
  end.
Proof.
  intros Hok. revert a. induction Hok as [|b bs [Hb Hm] Hok IH]; intros a; cbn [spec_free].
  { intros sz. apply not_elem_of_nil. }
  assert (∀ q tz, (q, tz) ∈ payloads (a + block_span b) bs → a + 16 < q) as Hlater.
  { intros q tz Hq. apply payload_in_bounds in Hq; [|done]. unfold block_span in *. lia. }
  case_decide as Hp.
  - destruct (b_allocated b) eqn:Eb.
    + split; [exists (b_size b); rewrite elem_of_payloads_cons; naive_solver|].
      intros [q tz]. rewrite !elem_of_payloads_cons, Eb. simpl. unfold block_span at 1. simpl. split.
      * intros [[? _]|Hin]; [done|]. specialize (Hlater q tz Hin). split; [by right|lia].
      * intros [[[_ [= -> ->]]|Hin] Hne]; [done|by right].
    + intros sz. rewrite elem_of_payloads_cons, Eb. intros [[? _]|Hin]; [done|].
      specialize (Hlater p sz Hin). lia.
  - specialize (IH (a + block_span b)). destruct (spec_free _ bs p) as [l|]; cbn [fmap option_fmap option_map].
    + destruct IH as [[sz Hsz] Hiff].
      split; [exists sz; apply elem_of_payloads_cons; by right|].
      intros [q tz]. rewrite !elem_of_payloads_cons, Hiff. simpl. split.
      * intros [[Eb [= -> ->]]|[Hin Hne]]; [|tauto]. split; [by left|congruence].
      * intros [[?|?] ?]; tauto.
    + intros sz. rewrite elem_of_payloads_cons. intros [[_ [= -> _]]|Hin]; [done|by eapply IH].
Qed.

Section safety.
Context `{KL : KernelLayout, KLO : !KernelLayoutOk, KI : KernelImage}.
Context {F : Type} `{FA : FrameAllocator F, FAO : !FrameAllocatorOk F}.
#[local] Abbreviation machine := (kheap_machine F).
Implicit Types s : machine.

(** ** One call *)
(** C2. An allocation does what the reference allocator does: it takes the first
    free block that is large enough and splits it when a block would remain,
    else appends a block, else (no pages to be had) returns the null pointer
    and changes no block.  The last case cannot occur while the window has room
    and the page-frame allocator frames.  It always returns, keeps the invariant and leaves
    every live payload byte for byte as it was, and the addresses outside the
    window translated as before. *)
Theorem kheap_alloc_refines bs s n :
  heap_inv bs s → is_u32 n →
  ∃ p s' bs', stage8c_kheap_alloc n s = Ret p s' ∧ heap_inv bs' s' ∧ preserves bs s s' ∧
    alloc_outcome bs (heap_mapped_end_exclusive (heap s)) n p bs' ∧
    supplied_outcome bs n p bs' s s'.
Proof.
  intros Hi Hn. destruct (proj1 (wp_run _ _ _) (alloc_spec bs s n Hi Hn)) as (p & s' & E & bs' & ?).
  exists p, s', bs'. done.
Qed.

(** C14. A free succeeds exactly on the payload address of a live block, which
    becomes free; anything else (a null pointer, an interior or foreign
    pointer, a block freed before) is refused without any change. *)
Theorem kheap_free_refines bs s p :
  heap_inv bs s → is_u32 p →
  ∃ s', match spec_free HEAP_START bs p with
    | Some bs' => stage9a_kheap_free p s = Ret true s' ∧ heap_inv bs' s' ∧ preserves bs s s' ∧
        (∃ sz, (p, sz) ∈ payloads HEAP_START bs) ∧
        ∀ x, x ∈ payloads HEAP_START bs' ↔ x ∈ payloads HEAP_START bs ∧ x.1 ≠ p
    | None => stage9a_kheap_free p s = Ret false s' ∧ s' = s ∧
        ∀ sz, (p, sz) ∉ payloads HEAP_START bs
    end.
Proof.
  intros Hi Hp. pose proof (spec_free_payloads HEAP_START bs p (hi_blocks _ _ Hi)) as Hpay.
  destruct (proj1 (wp_run _ _ _) (free_spec bs s p Hi Hp)) as (r & s' & E & Hr).
  exists s'. destruct (spec_free HEAP_START bs p) as [bs'|].
  - destruct Hr as [-> (m & -> & Hi' & Hpres)]. destruct Hpay. done.
  - destruct Hr as [-> ->]. done.
Qed.

(** What an allocation adds to the live payloads. *)
Lemma alloc_outcome_payloads bs e n p bs' :
  Forall block_ok bs → is_u32 n → HEAP_START + span bs ≤ HEAP_END → alloc_outcome bs e n p bs' →
  (p = 0 ∧ bs' = bs) ∨
  (p ≠ 0 ∧ 0 < n ∧ (∀ tz, (p, tz) ∉ payloads HEAP_START bs) ∧
   ∃ sz, n ≤ sz ∧ ∀ x, x ∈ payloads HEAP_START bs' ↔ x = (p, sz) ∨ x ∈ payloads HEAP_START bs).
Proof.
  intros Hok Hn Hspan. unfold alloc_outcome. case_decide; [by left|].
  assert (n ≤ round_up_8 n) as Hr by (unfold round_up_8; lia).
  destruct (first_fit HEAP_START bs (round_up_8 n)) as [[q l]|] eqn:E.
  - intros [-> ->]. right. destruct (first_fit_payloads _ _ _ _ _ Hok E) as ((sz & Hsz & Hiff) & Hno).
    apply first_fit_address in E; [|done]. split; [zlia|]. split; [lia|]. split; [done|].
    exists sz. split; [lia|done].
  - destruct (span_nonneg _ Hok). intros [(-> & -> & _)|(-> & -> & _)]; [right|by left].
    split; [zlia|]. split; [lia|]. split.
    + intros tz Hin. apply payload_in_bounds in Hin; [|done]. lia.
    + exists (round_up_8 n). split; [done|]. intros x.
      rewrite payloads_app, elem_of_app, elem_of_payloads_cons. simpl.
      assert (x ∉ []) by apply not_elem_of_nil. naive_solver.
Qed.

(** ** Clients *)
Record client := mk_client {
  cl_machine : machine;
  cl_live : gmap Z Z;    (* live pointers and the sizes asked for *)
  cl_bytes : gmap Z Z;   (* what the clients wrote, by address *)
}.

Inductive heap_step : client → client → Prop :=
| step_alloc c n p s' :
    is_u32 n → stage8c_kheap_alloc n (cl_machine c) = Ret p s' → p ≠ 0 →
    heap_step c (mk_client s' (<[p := n]> (cl_live c))
      (filter (λ x, ¬ p ≤ x.1 < p + n) (cl_bytes c)))
| step_alloc_null c n s' :
    is_u32 n → stage8c_kheap_alloc n (cl_machine c) = Ret 0 s' →
    heap_step c (mk_client s' (cl_live c) (cl_bytes c))
| step_free c p s' :
    is_u32 p → stage9a_kheap_free p (cl_machine c) = Ret true s' →
    heap_step c (mk_client s' (delete p (cl_live c)) (cl_bytes c))
| step_free_refused c p s' :
    is_u32 p → stage9a_kheap_free p (cl_machine c) = Ret false s' →
    heap_step c (mk_client s' (cl_live c) (cl_bytes c))
| step_write c p n va v s' :
    cl_live c !! p = Some n → p ≤ va < p + n →
    zoom mem_lens (store8 va v) (cl_machine c) = Ret tt s' →
    heap_step c (mk_client s' (cl_live c) (<[va := u8 v]> (cl_bytes c))).

Definition live_byte (c : client) (va : Z) : Prop :=
  ∃ p n, cl_live c !! p = Some n ∧ p ≤ va < p + n.

Record client_inv (bs : list block) (c : client) : Prop := {
  ci_heap : heap_inv bs (cl_machine c);
  ci_live p n : cl_live c !! p = Some n →
    0 < n ∧ ∃ sz, n ≤ sz ∧ (p, sz) ∈ payloads HEAP_START bs;
  ci_payloads p sz : (p, sz) ∈ payloads HEAP_START bs → is_Some (cl_live c !! p);
  ci_bytes va v : live_byte c va → cl_bytes c !! va = Some v → vbyte (mem (cl_machine c)) va = v;
}.

Lemma live_payload bs c p n va :
  client_inv bs c → cl_live c !! p = Some n → p ≤ va < p + n →
  ∃ sz, (p, sz) ∈ payloads HEAP_START bs ∧ p ≤ va < p + sz.
Proof.
  intros Hc Hp Hva. destruct (ci_live _ _ Hc p n Hp) as (_ & sz & Hsz & Hin).
  exists sz. split; [done|lia].
Qed.

Lemma payload_mapped bs s p sz va :
  heap_inv bs s → (p, sz) ∈ payloads HEAP_START bs → p ≤ va < p + sz → mapped_heap s va.
Proof.
  intros Hi Hin Hva. apply payload_in_bounds in Hin; [|apply (hi_blocks _ _ Hi)].
  pose proof (hi_mapped _ _ Hi). pose proof (hi_current _ _ Hi). unfold mapped_heap, within. lia.
Qed.

(** Writes to the payloads of live blocks keep the heap as it is. *)
Lemma heap_inv_payload_writes bs s m :
  heap_inv bs s → same_paging (mem s) m →
  (∀ a, mapped_heap s a → (∀ p sz, (p, sz) ∈ payloads HEAP_START bs → ¬ p ≤ a < p + sz) →
    vbyte m a = vbyte (mem s) a) →
  heap_inv bs (set_mem m s).
Proof.
  intros Hi Hp Hout. eapply heap_inv_set_mem; [done|done| |done|apply (hi_blocks _ _ Hi)].
  eapply headers_frame; [apply (hi_headers _ _ Hi)|]. intros b Hb. apply Hout.
  - apply in_header_bounds in Hb; [|apply (hi_blocks _ _ Hi)].
    pose proof (hi_mapped _ _ Hi). pose proof (hi_current _ _ Hi). unfold mapped_heap, within. lia.
  - intros p sz Hin Hr. by eapply payload_not_header; [apply (hi_blocks _ _ Hi)|exact Hin|exact Hr|].
Qed.

(** A byte stored in a live payload disturbs no header. *)
Lemma write_payload_spec bs s p sz va v :
  heap_inv bs s → (p, sz) ∈ payloads HEAP_START bs → p ≤ va < p + sz →
  ∃ m, zoom mem_lens (store8 va v) s = Ret tt (set_mem m s) ∧ heap_inv bs (set_mem m s) ∧
    ∀ b, mapped_heap s b → vbyte m b = if decide (b = va) then u8 v else vbyte (mem s) b.
Proof.
  intros Hi Hin Hva. pose proof (payload_mapped _ _ _ _ _ Hi Hin Hva) as HD.
  destruct (store8_written (mem s) (mapped_heap s) va v (hi_usable _ _ Hi) HD) as (m & E & Hp & Hw & Hn).
  exists m. split; [unfold zoom; simpl; by rewrite E|]. split.
  - apply heap_inv_payload_writes; [done|done|]. intros a Ha Hno. apply Hn; [done|].
    intros ->. by eapply Hno.
  - intros b Hb. case_decide; [by apply Hw|by apply Hn].
Qed.

(** What a call preserves, the clients find again. *)
Lemma kept bs c s' p n va v :
  client_inv bs c → preserves bs (cl_machine c) s' → cl_live c !! p = Some n →
  p ≤ va < p + n → cl_bytes c !! va = Some v → vbyte (mem s') va = v.
Proof.
  intros Hc Hpres Hp Hva Hb. destruct (live_payload _ _ _ _ _ Hc Hp Hva) as (sz & Hin & Hva').
  rewrite (pv_payloads _ _ _ Hpres p sz va Hin Hva'). apply (ci_bytes _ _ Hc); [|done]. by exists p, n.
Qed.

(** The outcome of [stage8c_kheap_alloc] for a client. *)
Lemma alloc_call bs s n p s' :
  heap_inv bs s → is_u32 n → stage8c_kheap_alloc n s = Ret p s' →
  ∃ bs', heap_inv bs' s' ∧ preserves bs s s' ∧ supplied_outcome bs n p bs' s s' ∧
    ((p = 0 ∧ bs' = bs) ∨
     (p ≠ 0 ∧ 0 < n ∧ (∀ tz, (p, tz) ∉ payloads HEAP_START bs) ∧
      ∃ sz, n ≤ sz ∧ ∀ x, x ∈ payloads HEAP_START bs' ↔ x = (p, sz) ∨ x ∈ payloads HEAP_START bs)).
Proof.
  intros Hi Hn E. pose proof (hi_blocks _ _ Hi) as Hok.
  pose proof (heap_inv_bounds _ _ Hi) as (_ & _ & Hend).
  destruct (proj1 (wp_run _ _ _) (alloc_spec bs _ n Hi Hn)) as (? & ? & E' & bs' & Hi' & Hpres & Ho & Hs).
  rewrite E in E'. injection E' as <- <-. exists bs'. do 3 (split; [done|]).
  by eapply alloc_outcome_payloads.
Qed.

Lemma alloc_inv bs c n p s' :
  client_inv bs c → is_u32 n → stage8c_kheap_alloc n (cl_machine c) = Ret p s' → p ≠ 0 →
  ∃ bs', client_inv bs' (mk_client s' (<[p := n]> (cl_live c))
    (filter (λ x, ¬ p ≤ x.1 < p + n) (cl_bytes c))).
Proof.
  intros Hc Hn E Hp0.
  destruct (alloc_call _ _ _ _ _ (ci_heap _ _ Hc) Hn E) as (bs' & Hi' & Hpres & _ & [[? _]|(_ & Hn0 & Hno & sz & Hsz & Hiff)]);
    [done|]. exists bs'. constructor; cbn; [done| | |].
  - intros q k. rewrite lookup_insert. case_decide as Hq.
    + intros [= <-]. subst q. split; [done|]. exists sz. split; [done|]. apply Hiff. by left.
    + intros Hk. destruct (ci_live _ _ Hc q k Hk) as (? & tz & ? & Hin).
      split; [done|]. exists tz. split; [done|]. apply Hiff. by right.
  - intros q tz. rewrite Hiff. intros [[= -> ->]|Hin]; [rewrite lookup_insert_eq; eauto|].
    destruct (decide (p = q)) as [->|]; [rewrite lookup_insert_eq; eauto|].
    rewrite lookup_insert_ne by done. by eapply ci_payloads.
  - intros va v (q & k & Hq & Hva) Hb. apply map_lookup_filter_Some in Hb as [Hb Hout].
    cbn in Hq. rewrite lookup_insert in Hq. case_decide; [simplify_eq; simpl in Hout; lia|].
    by eapply kept.
Qed.

Lemma free_call bs s p ok s' :
  heap_inv bs s → is_u32 p → stage9a_kheap_free p s = Ret ok s' →
  if ok then ∃ bs', heap_inv bs' s' ∧ preserves bs s s' ∧
    (∃ sz, (p, sz) ∈ payloads HEAP_START bs) ∧
    ∀ x, x ∈ payloads HEAP_START bs' ↔ x ∈ payloads HEAP_START bs ∧ x.1 ≠ p
  else s' = s ∧ ∀ sz, (p, sz) ∉ payloads HEAP_START bs.
Proof.
  intros Hi Hp E.
  pose proof (spec_free_payloads HEAP_START bs p (hi_blocks _ _ Hi)) as Hpay.
  destruct (proj1 (wp_run _ _ _) (free_spec bs _ p Hi Hp)) as (? & ? & E' & Hr).
  rewrite E in E'. injection E' as <- <-. destruct (spec_free HEAP_START bs p) as [bs'|].
  - destruct Hr as [-> (m & -> & Hi' & Hpres)]. exists bs'. by destruct Hpay.
  - by destruct Hr as [-> ->].
Qed.

Lemma free_inv bs c p s' :
  client_inv bs c → is_u32 p → stage9a_kheap_free p (cl_machine c) = Ret true s' →
  ∃ bs', client_inv bs' (mk_client s' (delete p (cl_live c)) (cl_bytes c)).
Proof.
  intros Hc Hp E. destruct (free_call _ _ _ _ _ (ci_heap _ _ Hc) Hp E) as (bs' & Hi' & Hpres & _ & Hiff).
  exists bs'. constructor; cbn; [done| | |].
  - intros q k [Hne Hk]%lookup_delete_Some.
    destruct (ci_live _ _ Hc q k Hk) as (? & tz & ? & Hin). split; [done|].
    exists tz. split; [done|]. by apply Hiff.
  - intros q tz Hin. apply Hiff in Hin as [Hin Hne]. simpl in Hne.
    rewrite lookup_delete_ne by done. by eapply ci_payloads.
  - intros va v (q & k & Hq & Hva) Hb. cbn in Hq. apply lookup_delete_Some in Hq as [_ Hq].
    by eapply kept.
Qed.

Lemma write_inv bs c p n va v s' :
  client_inv bs c → cl_live c !! p = Some n → p ≤ va < p + n →
  zoom mem_lens (store8 va v) (cl_machine c) = Ret tt s' →
  client_inv bs (mk_client s' (cl_live c) (<[va := u8 v]> (cl_bytes c))).
Proof.
  intros Hc Hp Hva E. pose proof (ci_heap _ _ Hc) as Hi.
  destruct (live_payload _ _ _ _ _ Hc Hp Hva) as (sz & Hin & Hva').
  destruct (write_payload_spec bs _ p sz va v Hi Hin Hva') as (m & E' & Hi' & Hbytes).
  rewrite E in E'. injection E' as ->.
  constructor; cbn; [done|apply (ci_live _ _ Hc)|apply (ci_payloads _ _ Hc)|].
  intros b w (q & k & Hq & Hb) Hw. cbn in Hq.
  destruct (live_payload _ _ _ _ _ Hc Hq Hb) as (tz & Hinq & Hb').
  rewrite Hbytes by by eapply payload_mapped. rewrite lookup_insert in Hw.
  repeat case_decide; subst; try done; [congruence|].
  apply (ci_bytes _ _ Hc); [|done]. by exists q, k.
Qed.

Lemma heap_step_inv bs c c' :
  client_inv bs c → heap_step c c' → ∃ bs', client_inv bs' c'.
Proof.
  intros Hc Hstep. destruct Hstep as [c0 n p s' Hn E Hp0|c0 n s' Hn E|c0 p s' Hp E|c0 p s' Hp E|c0 p n va v s' Hp Hva E].
  - by eapply alloc_inv.
  - destruct (alloc_call _ _ _ _ _ (ci_heap _ _ Hc) Hn E) as (bs' & Hi' & Hpres & _ & [[_ ->]|[? _]]); [|done].
    exists bs. constructor; cbn; [done|apply (ci_live _ _ Hc)|apply (ci_payloads _ _ Hc)|].
    intros va v (q & k & Hq & Hva) Hb. by eapply kept.
  - by eapply free_inv.
  - destruct (free_call _ _ _ _ _ (ci_heap _ _ Hc) Hp E) as [-> _]. exists bs. by destruct c0.
  - exists bs. by eapply write_inv.
Qed.

(** ** All sequences of client actions *)
(** What every client may rely on. *)
Record heap_safe (c : client) : Prop := {
  safe_window p n : cl_live c !! p = Some n →
    HEAP_START ≤ p ∧ p + n ≤ HEAP_END ∧ p mod 8 = 0;
  safe_disjoint p n q k : cl_live c !! p = Some n → cl_live c !! q = Some k → p ≠ q →
    p + n ≤ q ∨ q + k ≤ p;
  safe_contents va v : live_byte c va → cl_bytes c !! va = Some v →
    zoom mem_lens (load8 va) (cl_machine c) = Ret v (cl_machine c);
  safe_write va v : live_byte c va → ∃ s', zoom mem_lens (store8 va v) (cl_machine c) = Ret tt s';
  safe_alloc n : is_u32 n → ∃ p s', stage8c_kheap_alloc n (cl_machine c) = Ret p s';
  safe_free p : is_u32 p → ∃ ok s', stage9a_kheap_free p (cl_machine c) = Ret ok s' ∧
    (ok = true ↔ is_Some (cl_live c !! p));
}.

Lemma client_inv_safe bs c : client_inv bs c → heap_safe c.
Proof.
  intros Hc. pose proof (ci_heap _ _ Hc) as Hi. pose proof (hi_blocks _ _ Hi) as Hok.
  pose proof (heap_inv_bounds _ _ Hi) as (_ & _ & Hend). constructor.
  - intros p n Hp. destruct (ci_live _ _ Hc p n Hp) as (Hn & sz & Hsz & Hin).
    pose proof (payload_aligned HEAP_START bs p sz Hok eq_refl Hin).
    apply payload_in_bounds in Hin; [|done]. lia.
  - intros p n q k Hp Hq Hne.
    destruct (ci_live _ _ Hc p n Hp) as (Hn & sz & Hsz & Hin).
    destruct (ci_live _ _ Hc q k Hq) as (Hk & tz & Htz & Hinq).
    destruct (payloads_disjoint _ _ _ _ _ _ Hok Hin Hinq) as [[? _]|?]; [done|lia].
  - intros va v (p & n & Hp & Hva) Hb.
    destruct (live_payload _ _ _ _ _ Hc Hp Hva) as (sz & Hin & Hva').
    pose proof (payload_mapped _ _ _ _ _ Hi Hin Hva') as HD. unfold zoom. simpl.
    rewrite load8_ok by apply (usable_phys _ _ (hi_usable _ _ Hi) va HD).
    rewrite (ci_bytes _ _ Hc va v) by (done || by exists p, n). by destruct (cl_machine c).
  - intros va v (p & n & Hp & Hva).
    destruct (live_payload _ _ _ _ _ Hc Hp Hva) as (sz & Hin & Hva').
    destruct (write_payload_spec bs _ p sz va v Hi Hin Hva') as (m & E & _). eauto.
  - intros n Hn. destruct (proj1 (wp_run _ _ _) (alloc_spec bs _ n Hi Hn)) as (p & s' & E & _). eauto.
  - intros p Hp. destruct (proj1 (wp_run _ _ _) (free_spec bs _ p Hi Hp)) as (ok & s' & E & _).
    exists ok, s'. split; [done|]. pose proof (free_call _ _ _ _ _ (ci_heap _ _ Hc) Hp E) as Hcall. destruct ok.
    + destruct Hcall as (_ & _ & _ & [sz Hin] & _). split; [|done]. intros _. by eapply ci_payloads.
    + destruct Hcall as [_ Hno]. split; [done|]. intros [n Hn].
      destruct (ci_live _ _ Hc p n Hn) as (_ & sz & _ & Hin). by apply Hno in Hin.
Qed.

Definition fresh_client (s : machine) : client := mk_client s ∅ ∅.

Lemma fresh_client_inv s : heap_inv [] s → client_inv [] (fresh_client s).
Proof.
  intros Hi. constructor; simpl; [done| | |].
  - intros p n Hp. by rewrite lookup_empty in Hp.
  - by intros p sz ?%not_elem_of_nil.
  - intros va v _ Hb. by rewrite lookup_empty in Hb.
Qed.

(** C1. Whatever sequence of allocations, frees (also of wild or stale pointers)
    and writes to their own live payloads the clients make on an empty heap:
    live payloads stay inside the window, aligned and pairwise disjoint; what
    was written to one is read back until it is freed; every allocation and
    every free returns, no access faults; and a free succeeds exactly for a
    live pointer. *)
Theorem heap_clients_are_safe s c :
  heap_inv [] s → rtc heap_step (fresh_client s) c → heap_safe c.
Proof.
  intros Hi Hsteps.
  assert (∀ c1, (∃ bs, client_inv bs c1) → rtc heap_step c1 c → ∃ bs, client_inv bs c) as Hrtc.
  { clear Hsteps. intros c1 Hc1 Hr. induction Hr as [|c1 c2 c3 Hstep Hr IH]; [done|].
    destruct Hc1 as [bs Hc1]. apply IH. by eapply heap_step_inv. }
  destruct (Hrtc (fresh_client s)) as [bs Hc]; [|exact Hsteps|exact (client_inv_safe bs c Hc)].
  exists []. by apply fresh_client_inv.
Qed.

(** ** Corrupted heaps *)
(** The bookkeeping is sound; nothing is assumed of the bytes of the heap. *)
Record heap_bounds (s : machine) : Prop := {
  hb_initialized : heap_is_initialized (heap s) = 1;
  hb_start : heap_start (heap s) = HEAP_START;
  hb_current : HEAP_START ≤ heap_current (heap s) ≤ heap_mapped_end_exclusive (heap s);
  hb_mapped : heap_mapped_end_exclusive (heap s) ≤ HEAP_END;
  hb_usable : usable (mem s) (mapped_heap s);
}.

Lemma heap_inv_has_bounds bs s : heap_inv bs s → heap_bounds s.
Proof.
  intros Hi. pose proof (hi_current _ _ Hi) as Hc. pose proof (hi_mapped _ _ Hi) as Hm.
  pose proof (proj1 (span_nonneg _ (hi_blocks _ _ Hi))). destruct Hi. constructor; try done; lia.
Qed.

Lemma heap_bounds_set_mem s m :
  heap_bounds s → usable m (mapped_heap s) → heap_bounds (set_mem m s).
Proof. intros [] Hu. constructor; done. Qed.

(** [m] can be accessed where the memory of [s] can, and has the bytes of it
    outside the mapped heap. *)
Definition outside_kept (s : machine) (m : memory) : Prop :=
  ∀ D, usable (mem s) D → (∀ a, mapped_heap s a → D a) →
    usable m D ∧ ∀ a, D a → ¬ mapped_heap s a → vbyte m a = vbyte (mem s) a.

Definition survived (s s' : machine) : Prop := heap_bounds s' ∧ outside_kept s (mem s').

Lemma survived_refl s : heap_bounds s → survived s s.
Proof. intros Hb. by split; [|intros D Hu _]. Qed.

Lemma survived_set_mem s m : heap_bounds s → outside_kept s m → survived s (set_mem m s).
Proof. intros Hb Hk. split; [|done]. apply heap_bounds_set_mem; [done|]. by apply (Hk (mapped_heap s)); [apply Hb|]. Qed.

Lemma wp_write s a v Q :
  heap_bounds s → HEAP_START ≤ a → a + 4 ≤ heap_mapped_end_exclusive (heap s) →
  (∀ m, outside_kept s m → Q tt (set_mem m s)) →
  wp (zoom mem_lens (store32 a v)) Q s.
Proof.
  intros [] Ha Hb HQ.
  destruct (store32_written (mem s) (mapped_heap s) a v) as (m & E & _);
    [done|zlia|zlia|unfold mapped_heap, within; lia|].
  apply wp_zoom. simpl. eapply wp_Ret; [exact E|]. apply HQ. intros D Hu HD.
  destruct (store32_written (mem s) D a v) as (m' & E' & Hp & _ & Ho);
    [done|zlia|zlia|intros; apply HD; unfold mapped_heap, within; lia|].
  rewrite E in E'. injection E' as <-. split; [by eapply usable_same|].
  intros x Hx Hn. apply Ho; [done|]. intros Hw. apply Hn. unfold mapped_heap, within in *. lia.
Qed.

Lemma wp_write_again s m0 a v Q :
  heap_bounds s → outside_kept s m0 →
  HEAP_START ≤ a → a + 4 ≤ heap_mapped_end_exclusive (heap s) →
  (∀ m, outside_kept s m → Q tt (set_mem m s)) →
  wp (zoom mem_lens (store32 a v)) Q (set_mem m0 s).
Proof.
  intros Hb Hk Ha He HQ.
  apply (wp_write (set_mem m0 s)); [by apply survived_set_mem|done..|].
  intros m Hm. apply HQ. intros D Hu HD. destruct (Hk D Hu HD) as [Hu0 Ho0].
  destruct (Hm D Hu0 HD) as [Hu1 Ho1]. split; [done|].
  intros x Hx Hn. rewrite <- Ho0 by done. by apply Ho1.
Qed.

Lemma wp_read s a (Q : Z → machine → Prop) :
  heap_bounds s → HEAP_START ≤ a → a + 4 ≤ heap_mapped_end_exclusive (heap s) →
  Q (vword (mem s) a) s → wp (zoom mem_lens (load32 a)) Q s.
Proof.
  intros [] Ha Hb HQ. eapply wp_Ret; [|exact HQ].
  apply (read_word s (mapped_heap s)); [done|zlia|zlia|unfold mapped_heap, within; lia].
Qed.

(** The guards bound the block at the cursor, whatever its header says. *)
Lemma size_guard size :
  is_u32 size →
  (size =? 0) || negb (Z.land size (STAGE8C_KHEAP_MIN_ALIGNMENT - 1) =? 0) = false → 8 ≤ size.
Proof.
  intros Hs. change (STAGE8C_KHEAP_MIN_ALIGNMENT - 1) with (2 ^ 3 - 1). rewrite land_mask by lia.
  change (2 ^ 3) with 8. lia.
Qed.

Ltac read_field s := wp_step; unfold read_magic, read_payload_size, read_state;
  apply (wp_read s); [done|consts; rewrite ?u32_id by lia; lia|
    consts; rewrite ?u32_id by lia; lia|].

Lemma free_survives s p : heap_bounds s → wp (stage9a_kheap_free p) (λ _ s', survived s s') s.
Proof.
  intros Hb. pose proof (survived_refl _ Hb) as Hs0. pose proof Hb as [Hini Hst Hcur Hmap Hu]. unfold stage9a_kheap_free. wp_step. wp_step.
  cbv zeta. destruct ((heap_is_initialized (heap s) =? 0) || (p =? 0)); [by wp_steps|].
  destruct ((p <? heap_start (heap s)) || (p >=? heap_current (heap s))); [by wp_steps|].
  rewrite Hst. apply (wp_loop (λ c s', s' = s ∧ HEAP_START ≤ c ≤ heap_current (heap s))
    (λ c _, (heap_current (heap s) - c) / 24)); [split; [done|lia]| |lia|unfold walk_fuel; lia].
  intros c ? [-> Hc]. wp_step. wp_step. consts.
  destruct (Z.ltb_spec c (heap_current (heap s))); [|by wp_steps].
  rewrite (u32_id (heap_current (heap s) - 16)) by lia.
  destruct (Z.gtb_spec c (heap_current (heap s) - 16)); [by wp_steps|].
  read_field s. destruct (negb _); [by wp_steps|]. read_field s.
  destruct ((_ =? 0) || _) eqn:Hsize; [by wp_steps|]. apply size_guard in Hsize; [|apply vword_u32].
  rewrite (u32_id (c + 16)), (u32_id (heap_current (heap s) - _)) by lia.
  set (size := vword _ _) in *. destruct (Z.gtb_spec size (heap_current (heap s) - (c + 16)));
    [by wp_steps|]. rewrite (u32_id (c + 16 + size)) by lia.
  destruct (p =? c + 16).
  - read_field s. destruct (negb _); [by wp_steps|]. wp_step. unfold write_state.
    apply (wp_write s); [done|consts; rewrite u32_id by lia; lia..|].
    intros m Hm. wp_steps. by apply survived_set_mem.
  - destruct (_ && _); [by wp_steps|]. destruct (Z.leb_spec (c + 16 + size) c); [by wp_steps|].
    wp_steps. split; [split; [done|lia]|lia].
Qed.

Lemma reuse_survives s n v :
  heap_bounds s → 0 < n → wp (stage9c_kheap_try_reuse_aligned_allocation n (Some v))
    (λ _ s', survived s s') s.
Proof.
  intros Hb Hn. pose proof (survived_refl _ Hb) as Hs0. pose proof Hb as [Hini Hst Hcur Hmap Hu].
  unfold stage9c_kheap_try_reuse_aligned_allocation. cbv zeta. wp_step. wp_step. rewrite Hst.
  apply (wp_loop (λ c s', s' = s ∧ HEAP_START ≤ c ≤ heap_current (heap s))
    (λ c _, (heap_current (heap s) - c) / 24)); [split; [done|lia]| |lia|unfold walk_fuel; lia].
  intros c ? [-> Hc]. wp_step. wp_step. consts.
  destruct (Z.ltb_spec c (heap_current (heap s))); [|by wp_steps].
  rewrite (u32_id (heap_current (heap s) - 16)) by lia.
  destruct (Z.gtb_spec c (heap_current (heap s) - 16)); [by wp_steps|].
  read_field s. destruct (negb _); [by wp_steps|]. read_field s.
  destruct ((_ =? 0) || _) eqn:Hsize; [by wp_steps|]. apply size_guard in Hsize; [|apply vword_u32].
  rewrite (u32_id (c + 16)), (u32_id (heap_current (heap s) - _)) by lia.
  set (size := vword _ _) in *. destruct (Z.gtb_spec size (heap_current (heap s) - (c + 16)));
    [by wp_steps|]. rewrite (u32_id (c + 16 + size)) by lia. read_field s.
  destruct (_ && (size >=? n)) eqn:Hfit.
  - assert (n ≤ size) by lia. rewrite (u32_id (size - n)) by lia. wp_step.
    eapply (wp_mono _ (λ _ s', survived s s')); [intros [] s' Hs'; by wp_steps|].
    unfold write_payload_size, write_state, write_magic, write_reserved.
    destruct (Z.geb_spec (size - n) (16 + 8)).
    + rewrite !(u32_id (c + 16 + n)), (u32_id (c + _)) by lia.
      wp_step. apply (wp_write s); [done|consts; rewrite ?u32_id by lia; lia..|]. intros m Hm.
      do 4 (wp_step; apply (wp_write_again s); [done|done|consts; rewrite ?u32_id by lia; lia..|];
        clear m Hm; intros m Hm).
      apply (wp_write_again s); [done|done|consts; rewrite ?u32_id by lia; lia..|].
      clear m Hm. intros m Hm. by apply survived_set_mem.
    + apply (wp_write s); [done|consts; rewrite u32_id by lia; lia..|].
      intros m Hm. by apply survived_set_mem.
  - destruct (Z.leb_spec (c + 16 + size) c); [by wp_steps|].
    wp_steps. split; [split; [done|lia]|lia].
Qed.

(** C16. Whatever the heap's bytes are, for instance after a client has overrun its
    block and destroyed headers, the walks of [stage9a_kheap_free] and of the
    reuse path end, change no byte outside the mapped heap and leave the
    bookkeeping in bounds. *)
Theorem corrupt_heap_walks_return s p n :
  heap_bounds s → 0 < n →
  (∃ ok s', stage9a_kheap_free p s = Ret ok s' ∧ survived s s') ∧
  (∃ r s', stage9c_kheap_try_reuse_aligned_allocation n (Some 0) s = Ret r s' ∧ survived s s').
Proof.
  intros Hb Hn. split; apply wp_run; [by apply free_survives|by apply reuse_survives].
Qed.

(** ** Bootstrap *)
(** An uninitialised heap becomes the empty heap; an initialised one is left
    alone. *)
Lemma bootstrap_spec s :
  heap_is_initialized (heap s) = 0 → vmm_wf (paging (mem s)) → allocator_wf (allocator s) →
  (∀ va, HEAP_START ≤ va < HEAP_END → translate (paging (mem s)) va = None) →
  ∃ s', stage8c_kheap_bootstrap_init s = Ret true s' ∧ heap_inv [] s' ∧
    stage8c_kheap_bootstrap_init s' = Ret true s'.
Proof.
  intros Hini Hwf Ha Hun. eexists. split.
  { unfold stage8c_kheap_bootstrap_init. rewrite bind_get, Hini. reflexivity. }
  split; [|reflexivity].
  constructor; cbn [mem heap allocator set_heap heap_is_initialized heap_start heap_current
    heap_end_exclusive heap_mapped_end_exclusive span]; try done; try (consts; done).
  - split; [intros va Hva|intros va vb Hva]; unfold mapped_heap, within in Hva; cbn in Hva; zlia.
  - unfold mapped_heap, within. cbn. intros va pa Hva. zlia.
Qed.
End safety.

(** ** The theorems at a concrete machine *)
Section witnesses.
#[local] Existing Instance qemu_layout.
#[local] Existing Instance qemu_layout_ok.
#[local] Existing Instance qemu_image.

Lemma demo_frames_clear : frames_clear demo_seeded.
Proof.
  intros f Hf.
  assert (in_ranges [mk_range 0x114 4; mk_range 0x200 2] f) as (r & Hr & Hin) by exact Hf.
  unfold in_range in Hin. unfold frame_usable, in_kernel_image. simpl.
  rewrite !elem_of_cons, elem_of_nil in Hr. destruct Hr as [->|[->|[]]]; simpl in Hin;
    split_and!; try (intros; lia); lia.
Qed.

(** A machine just after paging was enabled. *)
Definition demo_paging : paging_state :=
  match (stage7b_setup_early_identity_paging ;;
         stage7c_load_cr3_with_early_page_directory ;;
         stage7c_set_cr0_paging_enable) (reset_paging_state 0x11 0 ∅) with
  | Ret _ p => p | _ => reset_paging_state 0x11 0 ∅ end.
Definition demo_machine : kheap_machine pmm :=
  mk_machine (mk_memory demo_paging ∅ (λ _, 0)) (mk_kheap_state 0 0 0 0 0) demo_seeded.

Lemma demo_bootstrap :
  ∃ s, stage8c_kheap_bootstrap_init demo_machine = Ret true s ∧ heap_inv [] s.
Proof.
  destruct (activation_wf 0x11 0 ∅) as (p & E & Hwf & Ht).
  assert (demo_paging = p) as Ep by (unfold demo_paging; by rewrite E).
  destruct (bootstrap_spec demo_machine) as (s & Es & Hi & _).
  - reflexivity.
  - simpl. by rewrite Ep.
  - split; [exact demo_seeded_wf|exact demo_frames_clear].
  - intros va Hva. simpl. rewrite Ep, Ht by zlia. by rewrite (proj2 (Z.ltb_ge _ _)) by zlia.
  - eauto.
Qed.

Lemma kheap_alloc_refines_witness :
  ∃ s p s' bs', stage8c_kheap_alloc 24 s = Ret p s' ∧ heap_inv bs' s' ∧
    alloc_outcome [] (heap_mapped_end_exclusive (heap s)) 24 p bs'.
Proof.
  destruct demo_bootstrap as (s & _ & Hi).
  destruct (kheap_alloc_refines [] s 24 Hi ltac:(lia)) as (p & s' & bs' & E & Hi' & _ & Ho & _).
  exists s, p, s', bs'. split; [exact E|]. split; [exact Hi'|exact Ho].
Defined.

(** The bootstrapped machine, computed; then with a live block, and with the
    magic word of that block overwritten. *)
Definition end_state {S A} (o : outcome S A) (s : S) : S := match o with Ret _ s' => s' | _ => s end.
Definition demo_heap : kheap_machine pmm :=
  match stage8c_kheap_bootstrap_init demo_machine with Ret _ s => s | _ => demo_machine end.
Lemma demo_heap_inv : heap_inv [] demo_heap.
Proof. destruct demo_bootstrap as (s & E & Hi). unfold demo_heap. by rewrite E. Qed.

Definition demo_heap_24 : kheap_machine pmm :=
  match stage8c_kheap_alloc 24 demo_heap with Ret _ s => s | _ => demo_heap end.
Lemma demo_alloc_24 : stage8c_kheap_alloc 24 demo_heap = Ret 0x400010 demo_heap_24.
Proof. vm_compute. reflexivity. Qed.
Lemma demo_heap_24_inv : ∃ bs, heap_inv bs demo_heap_24.
Proof.
  destruct (proj1 (wp_run _ _ _) (alloc_spec [] demo_heap 24 demo_heap_inv ltac:(lia)))
    as (p & s' & E & bs' & Hi & _). assert (∀ x y : Z, ∀ u v : kheap_machine pmm, Ret x u = Ret y v → u = v) as Hinj by congruence.
  rewrite demo_alloc_24 in E. apply Hinj in E as <-. by exists bs'.
Qed.
Lemma demo_free_24 : ¬ ∃ s', stage9a_kheap_free 0x400010 demo_heap_24 = Ret false s'.
Proof.
  intros [s' E]. apply (f_equal (λ o, match o with Ret b _ => b | _ => true end)) in E.
  revert E. vm_compute. discriminate.
Qed.

Definition demo_corrupt : kheap_machine pmm :=
  end_state (zoom mem_lens (store32 0x400000 0xDEADBEEF) demo_heap_24) demo_heap_24.
Lemma demo_corrupt_bounds : heap_bounds demo_corrupt.
Proof.
  destruct demo_heap_24_inv as [bs Hi]. pose proof (heap_inv_has_bounds _ _ Hi) as Hb.
  assert (heap_mapped_end_exclusive (heap demo_heap_24) = 0x401000) as He by (by vm_compute).
  destruct (proj1 (wp_run _ _ _) (wp_write demo_heap_24 0x400000 0xDEADBEEF
    (λ _ s', heap_bounds s') Hb ltac:(zlia) ltac:(rewrite He; lia)
    (λ m Hm, proj1 (survived_set_mem _ _ Hb Hm)))) as (u & s' & E & Hs').
  unfold demo_corrupt. by rewrite E.
Qed.
Lemma demo_corrupt_magic : vword (mem demo_corrupt) 0x400000 = 0xDEADBEEF.
Proof. vm_compute. reflexivity. Qed.

Lemma kheap_free_refines_witness :
  ∃ bs s', heap_inv bs demo_heap_24 ∧ stage9a_kheap_free 0x400010 demo_heap_24 = Ret true s'.
Proof.
  destruct demo_heap_24_inv as [bs Hi].
  destruct (kheap_free_refines bs demo_heap_24 0x400010 Hi ltac:(lia)) as (s' & E).
  exists bs, s'. destruct (spec_free HEAP_START bs 0x400010) as [bs'|].
  - destruct E as [E _]. split; [exact Hi|exact E].
  - destruct E as [E _]. destruct demo_free_24. exists s'. exact E.
Defined.

Lemma heap_clients_are_safe_witness :
  heap_inv [] demo_heap ∧ heap_safe (mk_client demo_heap_24 {[0x400010 := 24]} ∅).
Proof.
  split; [exact demo_heap_inv|].
  apply (heap_clients_are_safe demo_heap _ demo_heap_inv). eapply rtc_l; [|apply rtc_refl].
  exact (step_alloc (fresh_client demo_heap) 24 0x400010 demo_heap_24 ltac:(lia) demo_alloc_24
    ltac:(lia)).
Defined.

Lemma corrupt_heap_walks_return_witness :
  heap_bounds demo_corrupt ∧ vword (mem demo_corrupt) 0x400000 ≠ STAGE9A_KHEAP_ALLOCATION_HEADER_MAGIC ∧
  ∃ ok s', stage9a_kheap_free 0x400010 demo_corrupt = Ret ok s'.
Proof.
  split; [exact demo_corrupt_bounds|]. split; [rewrite demo_corrupt_magic; discriminate|].
  destruct (corrupt_heap_walks_return demo_corrupt 0x400010 8 demo_corrupt_bounds ltac:(lia))
    as [(ok & s' & E & _) _].
  exists ok, s'. exact E.
Defined.
End witnesses.
