(* ===== verification/Kmalloc.v ===== *)
(** * The allocation interface ([kernel/mm/kmalloc.c])

    [kmalloc] and [kfree] guard the heap against zero sizes and null pointers
    and forward to it; the heap makes the same checks, so the two interfaces
    agree on every argument and in every state. *)
From S2P Require Import Prelude KernelMonad Paging Memory FrameAllocator Kheap.
#[local] Open Scope Z_scope.

Section kmalloc.
Context `{KL : KernelLayout, KI : KernelImage} {F : Type} `{FA : FrameAllocator F}.

Definition kmalloc (size : Z) : M (kheap_machine F) Z :=
  if size =? 0 then mret 0 else stage8c_kheap_alloc size.

Definition kfree (ptr : Z) : M (kheap_machine F) bool :=
  if ptr =? 0 then mret false else stage9a_kheap_free ptr.

(** The guards change nothing: the heap itself answers a zero size with the
    null pointer and refuses the null pointer. *)
Lemma kmalloc_eq size s : kmalloc size s = stage8c_kheap_alloc size s.
Proof.
  unfold kmalloc. destruct (Z.eqb_spec size 0) as [->|]; [|done].
  unfold stage8c_kheap_alloc. rewrite bind_get. cbv zeta. by rewrite orb_true_r.
Qed.

Lemma kfree_eq ptr s : kfree ptr s = stage9a_kheap_free ptr s.
Proof.
  unfold kfree. destruct (Z.eqb_spec ptr 0) as [->|]; [|done].
  unfold stage9a_kheap_free. rewrite bind_get. by rewrite orb_true_r.
Qed.
End kmalloc.
