(* ===== verification/HeapModel.v ===== *)
(** * The heap as a function of its blocks

    While the window has room and the page-frame allocator has frames, every
    call of the heap has one answer.  A [model] is what determines it: the
    blocks, the end of the mapped pages and how many frames are still to be
    had.  [model_alloc] and [model_free] compute the answers. *)
From S2P Require Import Prelude KernelMonad VmmLayout Paging Vmm Memory FrameAllocator Kheap Kmalloc.
From S2P Require Import KheapSpec KheapSafety.
#[local] Open Scope Z_scope.

Record model := mk_model {
  md_blocks : list block;
  md_mapped : Z;
  md_supply : nat;
}.

Definition model_alloc (h : model) (n : Z) : option (Z * model) :=
  let '(p, bs') := reference_alloc (md_blocks h) n in
  let top := page_up (HEAP_START + span bs') in
  let e' := Z.max (md_mapped h) top in
  if decide (0 < n ≤ UINT32_MAX - 7) then
    if decide (top ≤ HEAP_END ∧ top ≤ md_mapped h + Z.of_nat (md_supply h) * 0x1000)
    then Some (p, mk_model bs' e' (md_supply h - Z.to_nat ((e' - md_mapped h) / 0x1000)))
    else None
  else None.

(** The answer when the supply is too small: the pages it suffices for are
    mapped, and the call fails. *)
Definition model_refused (h : model) (n : Z) : option model :=
  let top := page_up (HEAP_START + span (snd (reference_alloc (md_blocks h) n))) in
  let e' := md_mapped h + Z.of_nat (md_supply h) * 0x1000 in
  if decide (0 < n ≤ UINT32_MAX - 7 ∧ top ≤ HEAP_END ∧ e' < top)
  then Some (mk_model (md_blocks h) e' 0) else None.

Definition set_supply (k : nat) (h : model) : model := mk_model (md_blocks h) (md_mapped h) k.

Definition model_free (h : model) (p : Z) : bool * model :=
  match spec_free HEAP_START (md_blocks h) p with
  | Some bs' => (true, mk_model bs' (md_mapped h) (md_supply h))
  | None => (false, h)
  end.

Section model.
Context `{KL : KernelLayout, KLO : !KernelLayoutOk, KI : KernelImage}.
Context {F : Type} `{FA : FrameAllocator F, FAO : !FrameAllocatorOk F}.
(** The allocator when the frames the heap may still take are gone. *)
Variable R : F → Prop.
Implicit Types s : kheap_machine F.

Record heap_at (h : model) s : Prop := {
  ha_inv : heap_inv (md_blocks h) s;
  ha_mapped : heap_mapped_end_exclusive (heap s) = md_mapped h;
  ha_supply : ∃ b, granted (md_supply h) (allocator s) b ∧ R b;
}.

(** Updates of the payloads' bytes. *)
Lemma heap_at_set_mem h s m : heap_at h s → heap_inv (md_blocks h) (set_mem m s) → heap_at h (set_mem m s).
Proof. intros [] ?. by split. Qed.

Lemma supplied_at h s n p q bs' h' s' :
  heap_at h s → model_alloc h n = Some (q, h') → heap_inv bs' s' →
  supplied_outcome (md_blocks h) n p bs' s s' → p = q ∧ heap_at h' s' ∧ bs' = md_blocks h'.
Proof.
  intros [Hi He (b & Hk & HR)] E Hi' [Hs _]. unfold model_alloc in E.
  specialize (Hs _ _ Hk). cbv zeta in Hs. unfold new_top in Hs. rewrite He in Hs.
  destruct (reference_alloc (md_blocks h) n) as [r l]. cbn [snd] in Hs.
  case_decide; [|done]. case_decide as Hr; [|done]. injection E as <- <-.
  destruct (Hs ltac:(done) (proj1 Hr) (proj2 Hr)) as ([= -> ->] & He' & Hk').
  split; [done|]. split; [|done]. split; [done|exact He'|]. cbn. exists b. split; [|done].
  unfold new_pages in Hk'. by rewrite He, He' in Hk'.
Qed.

Lemma model_alloc_run h s n p h' :
  heap_at h s → model_alloc h n = Some (p, h') →
  ∃ s', stage8c_kheap_alloc n s = Ret p s' ∧ heap_at h' s' ∧ preserves (md_blocks h) s s'.
Proof.
  intros Hh E. assert (is_u32 n) as Hn.
  { unfold model_alloc in E. destruct (reference_alloc _ _). case_decide; [|done]. zlia. }
  destruct (proj1 (wp_run _ _ _) (alloc_spec _ s n (ha_inv _ _ Hh) Hn))
    as (q & s' & Er & bs' & Hi' & Hp & _ & Hs).
  destruct (supplied_at _ _ _ _ _ _ _ _ Hh E Hi' Hs) as (-> & Hh' & _). by exists s'.
Qed.

(** An allocator that never again grants a frame the heap can use. *)
Definition runs_dry : Prop :=
  ∀ b, R b → dry b ∧ ∀ r b', alloc_frame (Some 0) b = Ret r b' → R b'.

Lemma model_refused_run h s n h' :
  runs_dry → heap_at h s → model_refused h n = Some h' →
  ∃ s', stage8c_kheap_alloc n s = Ret 0 s' ∧ heap_at h' s' ∧ preserves (md_blocks h) s s'.
Proof.
  intros Hdry [Hi He (b & Hk & HR)] E. unfold model_refused in E. case_decide as Hc; [|done]. injection E as <-.
  destruct Hc as (Hn & Htop & Hlt). assert (is_u32 n) as Hu by zlia.
  destruct (proj1 (wp_run _ _ _) (alloc_spec _ s n Hi Hu)) as (q & s' & Er & bs' & Hi' & Hp & _ & [_ Hs]).
  destruct (Hdry b HR) as [Hd Hnext]. rewrite <- He in Hlt.
  destruct (Hs _ _ Hk Hd Hn Htop Hlt) as (-> & -> & Hpages & r & Ea).
  exists s'. split; [done|]. split; [|done]. split; [done| |exists (allocator s'); split; [done|by eapply Hnext]].
  cbn. unfold new_pages in Hpages. pose proof (hi_mapped_page _ _ Hi). pose proof (hi_mapped_page _ _ Hi'). lia.
Qed.

Lemma model_free_run h s p :
  heap_at h s → is_u32 p →
  ∃ s', stage9a_kheap_free p s = Ret (model_free h p).1 s' ∧ heap_at (model_free h p).2 s' ∧
    ((model_free h p).1 = false → s' = s) ∧ preserves (md_blocks h) s s'.
Proof.
  intros Hh Hp. destruct (proj1 (wp_run _ _ _) (free_spec _ s p (ha_inv _ _ Hh) Hp)) as (r & s' & E & Hr).
  exists s'. unfold model_free. destruct (spec_free HEAP_START (md_blocks h) p) as [bs'|]; cbn [fst snd].
  - destruct Hr as (-> & m & -> & Hi' & Hpres). destruct Hh. by split_and!.
  - destruct Hr as [-> ->]. split_and!; [done|done|done|apply preserves_refl].
Qed.

Lemma bootstrap_at k s :
  heap_is_initialized (heap s) = 0 → vmm_wf (paging (mem s)) → allocator_wf (allocator s) →
  (∀ va, HEAP_START ≤ va < HEAP_END → translate (paging (mem s)) va = None) →
  (∃ b, granted k (allocator s) b ∧ R b) →
  ∃ s', stage8c_kheap_bootstrap_init s = Ret true s' ∧ heap_at (mk_model [] HEAP_START k) s' ∧
    mem s' = mem s.
Proof.
  intros Hini Hwf Ha Hun Hk. destruct (bootstrap_spec s Hini Hwf Ha Hun) as (s' & E & Hi & _).
  exists s'. split; [done|]. revert E Hi. unfold stage8c_kheap_bootstrap_init.
  rewrite bind_get, Hini. cbv beta iota. intros [= <-] Hi. by split.
Qed.
End model.

(** ** Taking the supply apart *)
Section supply.
Context `{KL : KernelLayout, KLO : !KernelLayoutOk, KI : KernelImage}.
Context {F : Type} `{FA : FrameAllocator F, FAO : !FrameAllocatorOk F}.

(** [R] holds after [k] more grants. *)
Definition later (k : nat) (R : F → Prop) (a : F) : Prop := ∃ b, granted k a b ∧ R b.

Lemma heap_at_later k R h s :
  heap_at (later (S k) R) (set_supply 0 h) s → heap_at (later k R) (set_supply 1 h) s.
Proof.
  intros [Hi He (b & Hb & c & Hc & HR)]. cbn in Hb. subst b. destruct Hc as (out & a & E & Hout & Ha).
  split; [done|done|]. exists a. split; [by exists out, a|by exists c].
Qed.
End supply.
