(* ===== verification/HighFrames.v ===== *)
(** * Frames the heap cannot use are lost

    [stage8c_kheap_ensure_mapped_until] maps a frame by its 32-bit address.  It
    refuses a frame at or above 4 GiB, but does not give it back: the allocator
    keeps it as granted, and the next call draws the next one. *)
From S2P Require Import Prelude KernelMonad VmmLayout Paging Vmm Memory MemoryMap FrameAllocator Pmm.
From S2P Require Import Kheap KheapSpec KheapSafety.
#[local] Open Scope Z_scope.

Section high_frames.
Context `{KL : KernelLayout, KLO : !KernelLayoutOk, KI : KernelImage}.
Implicit Types s : kheap_machine pmm.

(** [k] allocations of [n] bytes one after the other. *)
Fixpoint allocations (n : Z) (k : nat) : M (kheap_machine pmm) (list Z) :=
  match k with
  | O => mret []
  | S k => p ← stage8c_kheap_alloc n; ps ← allocations n k; mret (p :: ps)
  end.

Lemma high_frame_lost bs s n I f rest :
  heap_inv bs s → 0 < n ≤ UINT32_MAX - 7 →
  heap_mapped_end_exclusive (heap s) < new_top bs n ≤ HEAP_END →
  abstract (allocator s) = mk_alloc_spec I (f :: rest) [] → 0x100000 ≤ f →
  ∃ s', stage8c_kheap_alloc n s = Ret 0 s' ∧ heap_inv bs s' ∧
    heap_mapped_end_exclusive (heap s') = heap_mapped_end_exclusive (heap s) ∧
    abstract (allocator s') = mk_alloc_spec (I ++ [f]) rest [].
Proof.
  intros Hi Hn [Hlt Htop] Ha Hf. destruct (hi_allocator _ _ Hi) as [Hwf _].
  destruct (alloc_frame_refines (allocator s) 0 Hwf) as (ok & out & b & E & _ & Hb & _ & Hr).
  rewrite Ha in Hb, Hr. cbn in Hb, Hr. injection Hr as -> ->.
  destruct (proj1 (wp_run _ _ _) (alloc_spec bs s n Hi ltac:(zlia)))
    as (p & s' & Es & bs' & Hi' & _ & _ & [_ Hs]).
  assert (alloc_frame (Some 0) (allocator s) = Ret (true, Some (f * 0x1000)) b) as E2 by exact E.
  destruct (Hs 0%nat (allocator s)) as (-> & -> & Hp & r & Er); [done| |done|done|cbn; lia|].
  { intros out a' E'. rewrite E2 in E'. injection E' as <- _. zlia. }
  rewrite E2 in Er. injection Er as _ Eb. exists s'. split; [done|]. split; [done|]. split; [|by rewrite <- Eb].
  unfold new_pages in Hp. pose proof (hi_mapped_page _ _ Hi). pose proof (hi_mapped_page _ _ Hi'). lia.
Qed.

(** C28. When only frames at or above 4 GiB are left, every allocation that needs a
    new page fails and takes one of them away from the allocator, although it
    is mapped nowhere: after as many calls as there are such frames all of them
    count as issued. *)
Theorem high_frames_are_lost bs s n I fs rest :
  heap_inv bs s → 0 < n ≤ UINT32_MAX - 7 →
  heap_mapped_end_exclusive (heap s) < new_top bs n ≤ HEAP_END →
  abstract (allocator s) = mk_alloc_spec I (fs ++ rest) [] → Forall (λ f, 0x100000 ≤ f) fs →
  ∃ s', allocations n (length fs) s = Ret (replicate (length fs) 0) s' ∧ heap_inv bs s' ∧
    heap_mapped_end_exclusive (heap s') = heap_mapped_end_exclusive (heap s) ∧
    abstract (allocator s') = mk_alloc_spec (I ++ fs) rest [] ∧ ∀ f, f ∈ fs → live (allocator s') f.
Proof.
  intros Hi Hn Htop Ha Hfs. enough (∃ s', allocations n (length fs) s = Ret (replicate (length fs) 0) s' ∧
    heap_inv bs s' ∧ heap_mapped_end_exclusive (heap s') = heap_mapped_end_exclusive (heap s) ∧
    abstract (allocator s') = mk_alloc_spec (I ++ fs) rest []) as (s' & E & Hi' & Hm & Ha').
  { exists s'. split_and!; try done. intros f Hf. unfold live. injection Ha' as -> _ ->.
    split; [apply elem_of_app; by right|apply not_elem_of_nil]. }
  revert s I Hi Htop Ha. induction Hfs as [|f fs Hf Hfs IH]; intros s I Hi Htop Ha.
  { exists s. by rewrite app_nil_r. }
  destruct (high_frame_lost bs s n I f (fs ++ rest) Hi Hn Htop Ha Hf) as (s1 & E1 & Hi1 & Hm1 & Ha1).
  destruct (IH s1 (I ++ [f]) Hi1 ltac:(by rewrite Hm1) Ha1) as (s2 & E2 & Hi2 & Hm2 & Ha2).
  exists s2. split; [cbn [length allocations]; mrun E1; by mrun E2|]. split; [done|].
  split; [by rewrite Hm2|by rewrite Ha2, <- app_assoc].
Qed.
End high_frames.

Section witnesses.
#[local] Existing Instance qemu_layout.
#[local] Existing Instance qemu_layout_ok.
#[local] Existing Instance qemu_image.

(** A machine whose only free frames are the two at 4 GiB. *)
Definition high_pmm : pmm :=
  let p := mk_pmm (mk_frame_bookkeeping 1 0 2 0x100002 0x100002000
      ([mk_range 0x100000 2] ++ replicate 127 (mk_range 0 0)) 0x100000 0x114000)
    (mk_pmm_state 0 0 0 0 0) (replicate 64 0) 0 in
  match stage6a_pmm_seed_from_stage5c p with Ret _ p' => p' | _ => p end.

Lemma high_pmm_ok : pmm_wf high_pmm ∧ frames_clear high_pmm ∧ abstract high_pmm = mk_alloc_spec [] [0x100000; 0x100001] [].
Proof.
  set (p := mk_pmm (mk_frame_bookkeeping 1 0 2 0x100002 0x100002000
      ([mk_range 0x100000 2] ++ replicate 127 (mk_range 0 0)) 0x100000 0x114000)
    (mk_pmm_state 0 0 0 0 0) (replicate 64 0) 0).
  assert (unseeded p) as Hun.
  { split_and!; [split|done..]; simpl.
    - split; [reflexivity|simpl; lia].
    - change (recorded_ranges _) with [mk_range 0x100000 2]. repeat constructor.
    - change (recorded_ranges _) with [mk_range 0x100000 2]. repeat constructor; unfold end_frame; simpl; zlia. }
  destruct (seed_ok p Hun) as (p' & E & Hwf & Hfr & Ha). assert (high_pmm = p') as -> by (unfold high_pmm; fold p; by rewrite E).
  split; [done|]. split; [|rewrite Ha; reflexivity].
  intros f (r & Hr & Hin). unfold table in Hr. rewrite Hfr in Hr.
  change (recorded_ranges _) with [mk_range 0x100000 2] in Hr. apply list_elem_of_singleton in Hr as ->.
  unfold in_range in Hin. cbn in Hin. unfold frame_usable, in_kernel_image. simpl. split_and!; try (intros; lia); lia.
Qed.

Lemma high_frames_are_lost_witness :
  ∃ s s' : kheap_machine pmm, fresh (allocator s) = [0x100000; 0x100001] ∧
    allocations 24 2 s = Ret [0; 0] s' ∧ issued (allocator s') = [0x100000; 0x100001].
Proof.
  destruct high_pmm_ok as (Hwf & Hclear & Ha).
  destruct (activation_wf 0x11 0 ∅) as (p & E & Hpwf & Ht).
  destruct (bootstrap_spec (mk_machine (mk_memory p ∅ (λ _, 0)) (mk_kheap_state 0 0 0 0 0) high_pmm))
    as (s & Es & Hi & _); [reflexivity|exact Hpwf|by split|..].
  { intros va Hva. simpl. rewrite Ht by zlia. by rewrite (proj2 (Z.ltb_ge _ _)) by zlia. }
  injection Es as <-.
  destruct (high_frames_are_lost [] _ 24 [] [0x100000; 0x100001] [] Hi) as (s' & E' & _ & _ & Ha' & _).
  - zlia.
  - split; [reflexivity|by vm_compute].
  - exact Ha.
  - repeat constructor; lia.
  - eexists _, s'. split; [|split; [exact E'|exact (f_equal sp_issued Ha')]]. exact (f_equal sp_fresh Ha).
Defined.
End witnesses.
