(* ===== verification/Kobject.v ===== *)
(** * Kernel objects ([kernel/kernel/kobject.c], [kobject.h])

    Nodes live in memory (id, value, next, 12 bytes) and are linked into a
    list with head, tail and count.  A node pointer is an address, 0 is null;
    a [struct kobject_list* ] is modelled by its pointee before and after a
    call, [None] for a null pointer.  [chain] and [list_repr] relate a list to
    the Rocq list of its nodes; the operations are proved against append,
    search and removal on that list.  Traversals take fuel: a well-formed
    list of n nodes needs n + 1. *)
From Stdlib Require Import Sorted.
From S2P Require Import Prelude KernelMonad Paging Vmm Memory FrameAllocator Kheap Kmalloc.
From S2P Require Import KheapSpec KheapSafety.
#[local] Open Scope Z_scope.

Record kobject_list := mk_list {
  list_head : Z;
  list_tail : Z;
  list_count : Z;
}.

(** [sizeof(struct kobject_node)] *)
Definition KOBJECT_NODE_SIZE : Z := 12.

Section kobject.
Context `{KL : KernelLayout, KI : KernelImage} {F : Type} `{FA : FrameAllocator F}.

(** The fields of [struct kobject_node]. *)
Definition node_id (node : Z) : M memory Z := load32 node.
Definition node_next (node : Z) : M memory Z := load32 (u32 (node + 8)).
Definition set_node_id (node v : Z) : M memory unit := store32 node v.
Definition set_node_value (node v : Z) : M memory unit := store32 (u32 (node + 4)) v.
Definition set_node_next (node v : Z) : M memory unit := store32 (u32 (node + 8)) v.

Definition kobject_node_create (id value : Z) : M (kheap_machine F) Z :=
  node ← kmalloc KOBJECT_NODE_SIZE;
  if node =? 0 then mret 0 else
  zoom mem_lens (set_node_id node id) ;;
  zoom mem_lens (set_node_value node value) ;;
  zoom mem_lens (set_node_next node 0) ;;
  mret node.

Definition kobject_node_destroy (node : Z) : M (kheap_machine F) bool :=
  if node =? 0 then mret false else kfree node.

Definition kobject_list_init (list : option kobject_list) : option kobject_list :=
  match list with
  | None => None
  | Some _ => Some (mk_list 0 0 0)
  end.

Definition kobject_list_append (list : option kobject_list) (node : Z)
    : M memory (bool * option kobject_list) :=
  match list with
  | None => mret (false, list)
  | Some l =>
      if node =? 0 then mret (false, list) else
      next ← node_next node;
      if negb (next =? 0) then mret (false, list) else
      if list_head l =? 0 then mret (true, Some (mk_list node node 1)) else
      if list_tail l =? 0 then mret (false, list) else
      set_node_next (list_tail l) node ;;
      mret (true, Some (mk_list (list_head l) node (u32 (list_count l + 1))))
  end.

Definition kobject_list_find_by_id (fuel : nat) (list : option kobject_list) (id : Z)
    : M memory Z :=
  match list with
  | None => mret 0
  | Some l =>
      loop fuel (λ cursor,
        if negb (cursor =? 0) then
          i ← node_id cursor;
          if i =? id then break cursor else
          next ← node_next cursor;
          continue next
        else break 0) (list_head l)
  end.

Definition kobject_list_count (list : option kobject_list) : Z :=
  match list with None => 0 | Some l => list_count l end.

(** One iteration of the loop of [kobject_list_remove_by_id]. *)
Definition remove_step (l : kobject_list) (id : Z) (cursors : Z * Z)
    : M memory (Z * Z + bool * option kobject_list) :=
  let '(prev, cursor) := cursors in
  if negb (cursor =? 0) then
    i ← node_id cursor;
    if i =? id then
      next ← node_next cursor;
      (if prev =? 0 then mret tt else set_node_next prev next) ;;
      let l := if prev =? 0 then mk_list next (list_tail l) (list_count l) else l in
      let l := if list_tail l =? cursor
               then mk_list (list_head l) prev (list_count l) else l in
      set_node_next cursor 0 ;;
      let l := if list_count l >? 0
               then mk_list (list_head l) (list_tail l) (u32 (list_count l - 1)) else l in
      let l := if list_count l =? 0 then mk_list 0 0 (list_count l) else l in
      break (true, Some l)
    else
      next ← node_next cursor;
      continue (cursor, next)
  else break (false, Some l).

Definition kobject_list_remove_by_id (fuel : nat) (list : option kobject_list) (id : Z)
    : M memory (bool * option kobject_list) :=
  match list with
  | None => mret (false, list)
  | Some l => loop fuel (remove_step l id) (0, list_head l)
  end.
End kobject.

(** ** Lists of nodes *)
Record node := mk_node {
  n_addr : Z;
  n_id : Z;
  n_value : Z;
}.

(** First node with an id, and the nodes without it. *)
Fixpoint find_node (ns : list node) (id : Z) : option node :=
  match ns with
  | [] => None
  | nd :: ns => if n_id nd =? id then Some nd else find_node ns id
  end.
Fixpoint remove_node (ns : list node) (id : Z) : option (node * list node) :=
  match ns with
  | [] => None
  | nd :: ns =>
      if n_id nd =? id then Some (nd, ns) else
      '(x, ns') ← remove_node ns id; Some (x, nd :: ns')
  end.

(** Address of the first node, [e] if there is none; of the last, 0 if none. *)
Definition head_addr (ns : list node) (e : Z) : Z :=
  match ns with [] => e | nd :: _ => n_addr nd end.
Definition last_addr (ns : list node) : Z := default 0 (n_addr <$> last ns).

Section lists.
Context `{KL : KernelLayout, KI : KernelImage}.
Implicit Types m : memory.

Record node_at (m : memory) (nd : node) (next : Z) : Prop := {
  node_at_id : vword m (n_addr nd) = n_id nd;
  node_at_value : vword m (n_addr nd + 4) = n_value nd;
  node_at_next : vword m (n_addr nd + 8) = next;
}.

Fixpoint links (m : memory) (ns : list node) (e : Z) : Prop :=
  match ns with
  | [] => True
  | nd :: ns => node_at m nd (head_addr ns e) ∧ links m ns e
  end.

Record list_repr (m : memory) (l : kobject_list) (ns : list node) : Prop := {
  repr_head : list_head l = head_addr ns 0;
  repr_tail : list_tail l = last_addr ns;
  repr_count : list_count l = Z.of_nat (length ns);
  repr_links : links m ns 0;
}.

(** A node in a window of usable memory; two nodes apart. *)
Definition node_ok (D : Z → Prop) (nd : node) : Prop :=
  0 < n_addr nd ∧ n_addr nd + 12 < 0x100000000 ∧ ∀ a, n_addr nd ≤ a < n_addr nd + 12 → D a.
Definition apart (x y : node) : Prop := n_addr x + 12 ≤ n_addr y ∨ n_addr y + 12 ≤ n_addr x.
Record placed (D : Z → Prop) (ns : list node) : Prop := {
  placed_ok : Forall (node_ok D) ns;
  placed_apart : StronglySorted apart ns;
}.

Lemma placed_app D ns ns' :
  placed D (ns ++ ns') ↔
    placed D ns ∧ placed D ns' ∧ ∀ x y, x ∈ ns → y ∈ ns' → apart x y.
Proof.
  split.
  - intros [Hok Hap]. apply Forall_app in Hok as [Hok Hok'].
    induction ns as [|z ns IH]; simpl in *.
    + split_and!; [repeat constructor|done|]. by intros x y ?%not_elem_of_nil.
    + apply StronglySorted_inv in Hap as [Hap Hz]. apply Forall_cons in Hok as [Hzok Hok].
      apply Forall_app in Hz as [Hz Hz']. destruct (IH Hok Hap) as ([? ?] & ? & Hxy).
      split_and!; [split; constructor; done|done|]. rewrite Forall_forall in Hz'.
      intros x y [->|Hx]%elem_of_cons Hy; eauto.
  - intros ([Hok Hap] & [Hok' Hap'] & Hxy). split; [by apply Forall_app|].
    clear Hok Hok'. induction Hap as [|z ns Hns IH Hz]; simpl; [done|]. constructor.
    + apply IH. intros x y Hx Hy. apply Hxy; [by right|done].
    + apply Forall_app. split; [done|]. apply Forall_forall. intros y Hy. apply Hxy; [by left|done].
Qed.

Lemma links_app m ns ns' e : links m (ns ++ ns') e ↔ links m ns (head_addr ns' e) ∧ links m ns' e.
Proof.
  induction ns as [|nd ns IH]; simpl; [tauto|]. rewrite IH.
  replace (head_addr (ns ++ ns') e) with (head_addr ns (head_addr ns' e)) by by destruct ns. tauto.
Qed.

Lemma last_addr_snoc ns nd : last_addr (ns ++ [nd]) = n_addr nd.
Proof. unfold last_addr. by rewrite last_snoc. Qed.

Lemma node_at_frame m m' nd next :
  node_at m nd next → (∀ a, n_addr nd ≤ a < n_addr nd + 12 → vbyte m' a = vbyte m a) →
  node_at m' nd next.
Proof.
  intros [H1 H2 H3] E. constructor; rewrite <- ?H1, <- ?H2, <- ?H3;
    apply vword_bytes_eq; intros b Hb; apply E; lia.
Qed.

Lemma links_frame m m' ns e :
  links m ns e →
  (∀ nd a, nd ∈ ns → n_addr nd ≤ a < n_addr nd + 12 → vbyte m' a = vbyte m a) →
  links m' ns e.
Proof.
  induction ns as [|nd ns IH]; simpl; [done|]. intros [Hnd Hns] E. split.
  - eapply node_at_frame; [exact Hnd|]. intros a Ha. apply (E nd); [by left|done].
  - apply IH; [done|]. intros x a Hx. apply E. by right.
Qed.

(** ** Field accesses *)
Lemma node_id_ok m D nd next :
  usable m D → node_ok D nd → node_at m nd next → node_id (n_addr nd) m = Ret (n_id nd) m.
Proof.
  intros Hu (H0 & H1 & HD) [Hid _ _]. unfold node_id. rewrite (load32_ok m D); [by rewrite Hid|done|lia|lia|].
  intros a Ha. apply HD. lia.
Qed.

Lemma node_next_ok m D nd next :
  usable m D → node_ok D nd → node_at m nd next → node_next (n_addr nd) m = Ret next m.
Proof.
  intros Hu (H0 & H1 & HD) [_ _ Hn]. unfold node_next. rewrite u32_id by lia.
  rewrite (load32_ok m D); [by rewrite Hn|done|lia|lia|]. intros a Ha. apply HD. lia.
Qed.

(** Setting the link of one node: that node is re-linked, every byte outside
    its link field is the same. *)
Lemma set_next_ok m D nd next v :
  usable m D → node_ok D nd → node_at m nd next → is_u32 v →
  ∃ m', set_node_next (n_addr nd) v m = Ret tt m' ∧ same_paging m m' ∧ node_at m' nd v ∧
    ∀ a, D a → ¬ n_addr nd + 8 ≤ a < n_addr nd + 12 → vbyte m' a = vbyte m a.
Proof.
  intros Hu (H0 & H1 & HD) Hat Hv. unfold set_node_next. rewrite u32_id by lia.
  destruct (store32_written m D (n_addr nd + 8) v Hu) as (m' & E & Hw);
    [lia|lia|intros a Ha; apply HD; lia|].
  exists m'. split; [done|]. pose proof Hw as (Hp & Hin & Hout).
  split; [exact Hp|].
  assert (∀ a, D a → ¬ n_addr nd + 8 ≤ a < n_addr nd + 12 → vbyte m' a = vbyte m a) as Hrest.
  { intros a Ha Hno. apply Hout; [done|]. unfold within. lia. }
  split; [|done]. destruct Hat as [Hi Hva _]. constructor.
  - rewrite <- Hi. apply vword_bytes_eq. intros b Hb. apply Hrest; [apply HD; lia|lia].
  - rewrite <- Hva. apply vword_bytes_eq. intros b Hb. apply Hrest; [apply HD; lia|lia].
  - eapply written_word; [exact Hw|done|]. intros a Ha. apply HD. lia.
Qed.
End lists.

(** ** The list operations *)
Section operations.
Context `{KL : KernelLayout, KI : KernelImage}.
Implicit Types m : memory.

(** [m'] is [m] with only link fields of the nodes [ns] written. *)
Record relinked (D : Z → Prop) (ns : list node) (m m' : memory) : Prop := {
  relinked_paging : same_paging m m';
  relinked_bytes a : D a → (∀ x, x ∈ ns → ¬ n_addr x + 8 ≤ a < n_addr x + 12) →
    vbyte m' a = vbyte m a;
}.

Lemma relinked_refl D ns m : relinked D ns m m.
Proof. by constructor. Qed.

Lemma apart_bytes x y a :
  apart x y → n_addr x + 8 ≤ a < n_addr x + 12 → ¬ n_addr y ≤ a < n_addr y + 12.
Proof. unfold apart. lia. Qed.

Lemma node_addr_u32 D nd : node_ok D nd → is_u32 (n_addr nd).
Proof. intros (? & ? & _). lia. Qed.

Lemma placed_in D ns nd : placed D ns → nd ∈ ns → node_ok D nd.
Proof. intros [Hok _]. rewrite Forall_forall in Hok. apply Hok. Qed.

Lemma head_addr_u32 D ns : placed D ns → is_u32 (head_addr ns 0).
Proof.
  intros Hp. destruct ns as [|nd ns]; simpl; [lia|]. eapply node_addr_u32, placed_in; [done|by left].
Qed.

(** Relinking the last node of a chain leaves the rest of it. *)
Lemma relink_last m D ns1 x e v m' :
  links m (ns1 ++ [x]) e → placed D (ns1 ++ [x]) → node_at m' x v →
  (∀ a, D a → ¬ n_addr x + 8 ≤ a < n_addr x + 12 → vbyte m' a = vbyte m a) →
  links m' (ns1 ++ [x]) v.
Proof.
  intros Hl Hp Hx Hout. apply links_app in Hl as [Hl1 _]. apply placed_app in Hp as (Hp1 & Hpx & Hap).
  apply links_app. split; [|by split]. eapply links_frame; [exact Hl1|].
  intros nd a Hnd Ha. apply Hout.
  - destruct (placed_in _ _ _ Hp1 Hnd) as (_ & _ & HD). by apply HD.
  - intros Hr. apply (apart_bytes x nd a); [|done..].
    specialize (Hap nd x Hnd ltac:(by left)). unfold apart in *. lia.
Qed.

(** Appending an unlinked node puts it at the end; only the link field of the
    former last node is written. *)
Lemma list_append_spec m D l ns nd :
  usable m D → placed D (ns ++ [nd]) → list_repr m l ns → node_at m nd 0 →
  Z.of_nat (length ns) < UINT32_MAX →
  ∃ m' l', kobject_list_append (Some l) (n_addr nd) m = Ret (true, Some l') m' ∧
    list_repr m' l' (ns ++ [nd]) ∧ relinked D ns m m'.
Proof.
  intros Hu Hp [Hh Ht Hc Hl] Hnd Hlen. pose proof Hp as Hp'. apply placed_app in Hp' as (Hpn & Hpx & Hap).
  assert (node_ok D nd) as Hok by (eapply placed_in; [exact Hpx|by left]).
  pose proof (node_addr_u32 _ _ Hok) as Hu32. pose proof Hok as (H0 & _).
  unfold kobject_list_append. rewrite (proj2 (Z.eqb_neq _ _)) by lia.
  mrun (node_next_ok m D nd 0 Hu Hok Hnd). cbn [Z.eqb negb].
  destruct ns as [|lst ns1 _] using rev_ind.
  - rewrite Hh. simpl. exists m, (mk_list (n_addr nd) (n_addr nd) 1). split; [done|].
    split; [by constructor|apply relinked_refl].
  - apply placed_app in Hpn as (Hp1 & Hpl & Hapl).
    assert (node_ok D lst) as Hokl by (eapply placed_in; [exact Hpl|by left]).
    pose proof Hokl as (H0l & _). rewrite Hh, Ht, last_addr_snoc.
    assert (head_addr (ns1 ++ [lst]) 0 ≠ 0) as Hh0.
    { destruct ns1 as [|x ns1]; simpl; [lia|].
      destruct (placed_in D (x :: ns1) x Hp1 ltac:(by left)). lia. }
    rewrite (proj2 (Z.eqb_neq _ _) Hh0), (proj2 (Z.eqb_neq _ _)) by lia.
    pose proof Hl as Hl'. apply links_app in Hl' as [_ [Hlst _]].
    destruct (set_next_ok m D lst _ (n_addr nd) Hu Hokl Hlst Hu32) as (m' & E & Hsp & Hlst' & Hout).
    mrun E. eexists m', _. split; [reflexivity|]. split.
    + constructor; simpl.
      * by destruct ns1.
      * by rewrite last_addr_snoc.
      * rewrite Hc, u32_id by zlia. rewrite !length_app. simpl. lia.
      * apply links_app. split.
        -- eapply relink_last; [exact Hl|by apply placed_app|exact Hlst'|exact Hout].
        -- split; [|done]. eapply node_at_frame; [exact Hnd|]. intros a Ha. apply Hout.
           ++ destruct Hok as (_ & _ & HD). by apply HD.
           ++ intros Hr. apply (apart_bytes lst nd a); [|done..].
              apply Hap; [apply elem_of_app; right; by left|by left].
    + constructor; [exact Hsp|]. intros a Ha Hno. apply Hout; [done|].
      apply Hno. apply elem_of_app. right. by left.
Qed.

(** A search visits the nodes in order, ends at the first with the id or at
    the end of the list, and changes nothing. *)
Lemma list_find_spec m D l ns id fuel :
  usable m D → placed D ns → list_repr m l ns → (length ns < fuel)%nat →
  kobject_list_find_by_id fuel (Some l) id m =
    Ret (match find_node ns id with Some nd => n_addr nd | None => 0 end) m.
Proof.
  intros Hu Hp [Hh _ _ Hl] Hfuel. unfold kobject_list_find_by_id. rewrite Hh. clear Hh.
  revert fuel Hfuel. induction ns as [|nd ns IH]; intros [|fuel] Hfuel; cbn [length] in Hfuel;
    try lia; cbn [head_addr find_node]; [done|].
  assert (node_ok D nd) as Hok by (eapply placed_in; [exact Hp|by left]).
  pose proof Hok as (H0 & _). destruct Hl as [Hnd Hl].
  assert (placed D ns) as Hp' by (apply (placed_app D [nd] ns) in Hp; tauto).
  specialize (IH Hp' Hl fuel ltac:(lia)).
  destruct (n_id nd =? id) eqn:Eid.
  - erewrite loop_step; cycle 1.
    { rewrite (proj2 (Z.eqb_neq (n_addr nd) 0)) by lia. cbn [negb].
      mrun (node_id_ok m D nd _ Hu Hok Hnd). rewrite Eid. reflexivity. }
    done.
  - erewrite loop_step; cycle 1.
    { rewrite (proj2 (Z.eqb_neq (n_addr nd) 0)) by lia. cbn [negb].
      mrun (node_id_ok m D nd _ Hu Hok Hnd). rewrite Eid.
      mrun (node_next_ok m D nd _ Hu Hok Hnd). reflexivity. }
    exact IH.
Qed.

(** ** Removal *)
(** What taking [nd] out from between [ns1] and [ns2] makes of the record. *)
Definition unlinked (l : kobject_list) (prev cursor next : Z) : kobject_list :=
  let l := if prev =? 0 then mk_list next (list_tail l) (list_count l) else l in
  let l := if list_tail l =? cursor then mk_list (list_head l) prev (list_count l) else l in
  let l := if list_count l >? 0
           then mk_list (list_head l) (list_tail l) (u32 (list_count l - 1)) else l in
  if list_count l =? 0 then mk_list 0 0 (list_count l) else l.

Lemma last_addr_app ns ns' : ns' ≠ [] → last_addr (ns ++ ns') = last_addr ns'.
Proof.
  destruct ns' as [|x ns' _] using rev_ind; [done|]. intros _.
  by rewrite app_assoc, !last_addr_snoc.
Qed.

Lemma last_addr_nonzero D ns : placed D ns → ns ≠ [] → last_addr ns ≠ 0.
Proof.
  destruct ns as [|x ns _] using rev_ind; [done|]. intros Hp _. rewrite last_addr_snoc.
  destruct (placed_in D (ns ++ [x]) x Hp) as (? & _); [|lia]. apply elem_of_app. right. by left.
Qed.

Lemma head_addr_nonzero D ns : placed D ns → ns ≠ [] → head_addr ns 0 ≠ 0.
Proof.
  destruct ns as [|x ns]; [done|]. intros Hp _. simpl.
  destruct (placed_in D (x :: ns) x Hp) as (? & _); [by left|lia].
Qed.

Lemma unlinked_repr D l ns1 nd ns2 :
  placed D (ns1 ++ nd :: ns2) → Z.of_nat (length (ns1 ++ nd :: ns2)) ≤ UINT32_MAX →
  list_head l = head_addr (ns1 ++ nd :: ns2) 0 → list_tail l = last_addr (ns1 ++ nd :: ns2) →
  list_count l = Z.of_nat (length (ns1 ++ nd :: ns2)) →
  let l' := unlinked l (last_addr ns1) (n_addr nd) (head_addr ns2 0) in
  list_head l' = head_addr (ns1 ++ ns2) 0 ∧ list_tail l' = last_addr (ns1 ++ ns2) ∧
  list_count l' = Z.of_nat (length (ns1 ++ ns2)).
Proof.
  intros Hp Hlen Hh Ht Hc. destruct l as [lh lt lc]. simpl in Hh, Ht, Hc. subst.
  apply placed_app in Hp as (Hp1 & Hp2 & Hap).
  assert (node_ok D nd) as Hok by (eapply placed_in; [exact Hp2|by left]).
  pose proof Hok as (H0 & _). apply (placed_app D [nd] ns2) in Hp2 as (_ & Hp2 & Hap2).
  rewrite length_app in *. cbn [length] in *. cbv zeta. unfold unlinked.
  assert ((last_addr ns1 =? 0) = bool_decide (ns1 = [])) as ->.
  { case_bool_decide as E1; [by subst|]. apply Z.eqb_neq. by eapply last_addr_nonzero. }
  rewrite last_addr_app by done.
  assert ((last_addr (nd :: ns2) =? n_addr nd) = bool_decide (ns2 = [])) as Etail.
  { case_bool_decide as E2; [subst; unfold last_addr; simpl; by rewrite Z.eqb_refl|].
    apply Z.eqb_neq. destruct ns2 as [|x ns2 _] using rev_ind; [done|].
    change (nd :: ns2 ++ [x]) with ((nd :: ns2) ++ [x]). rewrite last_addr_snoc.
    specialize (Hap2 nd x ltac:(by left) ltac:(apply elem_of_app; right; by left)).
    unfold apart in Hap2. lia. }
  repeat case_bool_decide; subst; cbn [list_head list_tail list_count app length];
    rewrite ?Etail; cbn [list_head list_tail list_count];
    rewrite ?(proj2 (Z.gtb_gt _ _)) by lia;
    cbn [list_head list_tail list_count]; rewrite ?u32_id by zlia.
  all: match goal with |- context [?c =? 0] => destruct (Z.eqb_spec c 0) as [Ez|Ez] end.
  all: try (destruct ns1; [done|simpl in Ez; lia]); try (destruct ns2; [done|simpl in Ez; lia]).
  all: simpl in Ez; try lia.
  all: cbn [list_head list_tail list_count];
    rewrite ?app_nil_r, ?app_nil_l, ?last_addr_app, ?length_app by done.
  all: split_and!; try reflexivity; try (by destruct ns1); simpl; try lia.
  all: try by apply (last_addr_app [nd]).
Qed.

(** The two writes of a removal: the predecessor is linked past the node and
    the node's own link is cleared. *)
Lemma unlink_writes m D ns1 nd ns2 :
  usable m D → placed D (ns1 ++ nd :: ns2) → links m (ns1 ++ nd :: ns2) 0 →
  ∃ m1 m2,
    (if last_addr ns1 =? 0 then mret tt else set_node_next (last_addr ns1) (head_addr ns2 0)) m =
      Ret tt m1 ∧
    set_node_next (n_addr nd) 0 m1 = Ret tt m2 ∧
    links m2 (ns1 ++ ns2) 0 ∧ node_at m2 nd 0 ∧ relinked D (ns1 ++ nd :: ns2) m m2.
Proof.
  intros Hu Hp Hl. pose proof Hp as Hpall. apply placed_app in Hp as (Hp1 & Hp2 & Hap).
  assert (node_ok D nd) as Hok by (eapply placed_in; [exact Hp2|by left]).
  pose proof Hp2 as Hp2'. apply (placed_app D [nd] ns2) in Hp2' as (_ & Hp2' & Hap2).
  pose proof (head_addr_u32 _ _ Hp2') as Hu32.
  apply links_app in Hl as [Hl1 [Hnd Hl2]]. cbn [head_addr] in Hl1.
  assert (∃ m1, (if last_addr ns1 =? 0 then mret tt
      else set_node_next (last_addr ns1) (head_addr ns2 0)) m = Ret tt m1 ∧ same_paging m m1 ∧
    links m1 ns1 (head_addr ns2 0) ∧
    ∀ a, D a → (∀ x, x ∈ ns1 → ¬ n_addr x + 8 ≤ a < n_addr x + 12) → vbyte m1 a = vbyte m a)
    as (m1 & E1 & Hsp1 & Hl1' & Hout1).
  { destruct ns1 as [|pv ns0 _] using rev_ind; [exists m; done|].
    rewrite last_addr_snoc. assert (node_ok D pv) as Hokp
      by (eapply placed_in; [exact Hp1|apply elem_of_app; right; by left]).
    pose proof Hokp as (H0p & _). rewrite (proj2 (Z.eqb_neq _ _)) by lia.
    pose proof Hl1 as Hl1'. apply links_app in Hl1' as [_ [Hpv _]].
    destruct (set_next_ok m D pv _ (head_addr ns2 0) Hu Hokp Hpv Hu32) as (m1 & E & Hsp1 & Hpv' & Hout).
    exists m1. split_and!; [done|done|by eapply relink_last|].
    intros a Ha Hno. apply Hout; [done|]. apply Hno, elem_of_app. right. by left. }
  assert (∀ x b, x ∈ nd :: ns2 → n_addr x ≤ b < n_addr x + 12 → vbyte m1 b = vbyte m b) as Hkeep.
  { intros x b Hx Hb. apply Hout1.
    - destruct (placed_in _ _ _ Hp2 Hx) as (_ & _ & HD). by apply HD.
    - intros y Hy Hr. eapply (apart_bytes y x b); [by apply Hap|done..]. }
  assert (node_at m1 nd (head_addr ns2 0)) as Hnd1.
  { eapply node_at_frame; [exact Hnd|]. intros b. apply Hkeep. by left. }
  destruct (set_next_ok m1 D nd _ 0 (usable_same m m1 D Hsp1 Hu) Hok Hnd1 ltac:(lia))
    as (m2 & E2 & Hsp2 & Hnd2 & Hout2).
  exists m1, m2. split_and!; [done|done| |done|].
  - apply links_app. split; (eapply links_frame; [|intros x b Hx Hb; apply Hout2]).
    + exact Hl1'.
    + destruct (placed_in _ _ _ Hp1 Hx) as (_ & _ & HD). by apply HD.
    + intros Hr. apply (apart_bytes nd x b); [|done..].
      specialize (Hap x nd Hx ltac:(by left)). unfold apart in *. lia.
    + eapply links_frame; [exact Hl2|]. intros x b Hx. apply Hkeep. by right.
    + destruct (placed_in _ _ _ Hp2' Hx) as (_ & _ & HD). by apply HD.
    + intros Hr. apply (apart_bytes nd x b); [|done..]. apply Hap2; [by left|done].
  - constructor; [unfold same_paging in *; congruence|].
    intros a Ha Hno. rewrite Hout2; [apply Hout1; [done|]|done|].
    + intros x Hx. apply Hno, elem_of_app. by left.
    + apply Hno, elem_of_app. right. by left.
Qed.

Lemma remove_node_app ns1 ns2 id :
  Forall (λ nd, n_id nd ≠ id) ns1 →
  remove_node (ns1 ++ ns2) id = '(x, ns') ← remove_node ns2 id; Some (x, ns1 ++ ns').
Proof.
  induction 1 as [|nd ns1 Hnd Hns IH]; simpl; [by destruct (remove_node ns2 id) as [[??]|]|].
  rewrite (proj2 (Z.eqb_neq _ _) Hnd), IH. by destruct (remove_node ns2 id) as [[??]|].
Qed.

(** A removal takes the first node with the id out of the list, wherever it
    stands, and clears its link; the list record is that of the remaining
    nodes and only link fields of the list were written.  Without such a node
    nothing changes. *)
Lemma list_remove_spec m D l ns id fuel :
  usable m D → placed D ns → list_repr m l ns → (length ns < fuel)%nat →
  Z.of_nat (length ns) ≤ UINT32_MAX →
  match remove_node ns id with
  | None => kobject_list_remove_by_id fuel (Some l) id m = Ret (false, Some l) m
  | Some (nd, ns') => ∃ m' l',
      kobject_list_remove_by_id fuel (Some l) id m = Ret (true, Some l') m' ∧
      list_repr m' l' ns' ∧ node_at m' nd 0 ∧ relinked D ns m m'
  end.
Proof.
  intros Hu Hp [Hh Ht Hc Hl] Hfuel Hlen. unfold kobject_list_remove_by_id. rewrite Hh.
  assert (∀ ns2 ns1 fuel, ns = ns1 ++ ns2 → (length ns2 < fuel)%nat →
    Forall (λ nd, n_id nd ≠ id) ns1 →
    match remove_node ns id with
    | None => loop fuel (remove_step l id) (last_addr ns1, head_addr ns2 0) m = Ret (false, Some l) m
    | Some (nd, ns') => ∃ m' l',
        loop fuel (remove_step l id) (last_addr ns1, head_addr ns2 0) m = Ret (true, Some l') m' ∧
        list_repr m' l' ns' ∧ node_at m' nd 0 ∧ relinked D ns m m'
    end) as Hwalk; [|by apply (Hwalk ns [])].
  clear fuel Hfuel. induction ns2 as [|nd ns2 IH]; intros ns1 fuel Ens Hfuel Hno;
    (destruct fuel as [|fuel]; [lia|]).
  { subst ns. rewrite (remove_node_app ns1 [] id Hno). reflexivity. }
  assert (node_ok D nd) as Hok by (eapply placed_in; [exact Hp|]; subst; apply elem_of_app; right; by left).
  pose proof Hok as (H0 & _). pose proof Hl as Hl'. rewrite Ens in Hl'. apply links_app in Hl' as [_ [Hnd _]].
  destruct (n_id nd =? id) eqn:Eid.
  - subst ns. rewrite (remove_node_app ns1 (nd :: ns2) id Hno). cbn [remove_node].
    rewrite Eid. cbn [mbind option_bind].
    destruct (unlink_writes m D ns1 nd ns2 Hu Hp Hl) as (m1 & m2 & E1 & E2 & Hl2 & Hnd2 & Hout).
    destruct (unlinked_repr D l ns1 nd ns2 Hp Hlen Hh Ht Hc) as (Hh' & Ht' & Hc').
    exists m2. eexists. split.
    { erewrite loop_step; cycle 1.
      { unfold remove_step. cbn [head_addr]. rewrite (proj2 (Z.eqb_neq (n_addr nd) 0)) by lia. cbn [negb].
        mrun (node_id_ok m D nd _ Hu Hok Hnd). rewrite Eid.
        mrun (node_next_ok m D nd _ Hu Hok Hnd). mrun E1. cbv zeta. mrun E2. reflexivity. }
      reflexivity. }
    split; [constructor; assumption|]. split; [exact Hnd2|exact Hout].
  - erewrite loop_step; cycle 1.
    { unfold remove_step. cbn [head_addr]. rewrite (proj2 (Z.eqb_neq (n_addr nd) 0)) by lia. cbn [negb].
      mrun (node_id_ok m D nd _ Hu Hok Hnd). rewrite Eid.
      mrun (node_next_ok m D nd _ Hu Hok Hnd). reflexivity. }
    rewrite <- (last_addr_snoc ns1 nd). apply IH.
    + by rewrite <- app_assoc.
    + simpl in Hfuel. lia.
    + apply Forall_app. split; [done|]. repeat constructor. lia.
Qed.

(** ** Cycles

    The guard of the append reads the link of the node that is appended, which
    is also null for the last node of a list. *)

(** A search among nodes that lead only to each other. *)
Lemma find_in_cycle m D l ns id fuel :
  usable m D → placed D ns →
  (∀ x, x ∈ ns → n_id x ≠ id ∧ ∃ y, y ∈ ns ∧ node_at m x (n_addr y)) →
  (∃ x, x ∈ ns ∧ list_head l = n_addr x) →
  kobject_list_find_by_id fuel (Some l) id m = OutOfFuel.
Proof.
  intros Hu Hp Hcycle (x & Hx & Hh). unfold kobject_list_find_by_id. rewrite Hh. clear Hh.
  revert x Hx. induction fuel as [|fuel IH]; intros x Hx; [done|].
  destruct (Hcycle x Hx) as (Hid & y & Hy & Hat).
  pose proof (placed_in D ns x Hp Hx) as Hok. pose proof Hok as (H0 & _).
  erewrite loop_step; cycle 1.
  { rewrite (proj2 (Z.eqb_neq (n_addr x) 0)) by lia. cbn [negb].
    mrun (node_id_ok m D x _ Hu Hok Hat). rewrite (proj2 (Z.eqb_neq _ _) Hid).
    mrun (node_next_ok m D x _ Hu Hok Hat). reflexivity. }
  by apply IH.
Qed.

Lemma links_successor m ns e x :
  links m ns e → x ∈ ns → node_at m x e ∨ ∃ y, y ∈ ns ∧ node_at m x (n_addr y).
Proof.
  induction ns as [|nd ns IH]; [by intros _ ?%not_elem_of_nil|].
  intros [Hnd Hl] [->|Hx]%elem_of_cons.
  - destruct ns as [|y ns]; simpl in Hnd; [by left|]. right. exists y. split; [|done].
    right. by left.
  - destruct (IH Hl Hx) as [?|(y & ? & ?)]; [by left|]. right. exists y. split; [by right|done].
Qed.

(** C20. Appending the last node of a list again is accepted: the node is linked to
    itself, and no search for an id that is not in the list ends any more. *)
Theorem appending_the_tail_again_hangs m D l ns nd :
  usable m D → placed D (ns ++ [nd]) → list_repr m l (ns ++ [nd]) →
  ∃ m' l', kobject_list_append (Some l) (n_addr nd) m = Ret (true, Some l') m' ∧
    ∀ id fuel, Forall (λ x, n_id x ≠ id) (ns ++ [nd]) →
      kobject_list_find_by_id fuel (Some l') id m' = OutOfFuel.
Proof.
  intros Hu Hp [Hh Ht Hc Hl].
  assert (nd ∈ ns ++ [nd]) as Hin by (apply elem_of_app; right; by left).
  pose proof (placed_in D _ nd Hp Hin) as Hok. pose proof Hok as (H0 & _).
  pose proof Hl as Hl'. apply links_app in Hl' as [_ [Hnd _]].
  destruct (set_next_ok m D nd 0 (n_addr nd) Hu Hok Hnd (node_addr_u32 D nd Hok))
    as (m' & E & Hsp & Hnd' & Hout).
  exists m'. eexists. split.
  - unfold kobject_list_append. rewrite (proj2 (Z.eqb_neq (n_addr nd) 0)) by lia.
    mrun (node_next_ok m D nd 0 Hu Hok Hnd). cbn [Z.eqb negb]. rewrite Hh, Ht, last_addr_snoc.
    rewrite (proj2 (Z.eqb_neq (head_addr _ 0) 0)) by (eapply head_addr_nonzero; [exact Hp|by destruct ns]).
    rewrite (proj2 (Z.eqb_neq (n_addr nd) 0)) by lia. mrun E. reflexivity.
  - intros id fuel Hids. apply (find_in_cycle m' D _ (ns ++ [nd])); [by eapply usable_same|done| |].
    + pose proof (relink_last m D ns nd 0 (n_addr nd) m' Hl Hp Hnd' Hout) as Hl'.
      intros x Hx. rewrite Forall_forall in Hids. split; [by apply Hids|].
      destruct (links_successor _ _ _ _ Hl' Hx) as [?|?]; [by exists nd|done].
    + simpl. destruct ns as [|y ns]; simpl; [by exists nd|].
      exists y. split; [by left|done].
Qed.

(** ** The contracts *)
(** C19. Appending an unlinked node to a well-formed list succeeds and puts the
    node at the end; the record keeps its head, has the node as its tail and
    counts one more, and only link fields of the list were written. *)
Theorem list_append_correct m D l ns nd :
  usable m D → placed D (ns ++ [nd]) → list_repr m l ns → node_at m nd 0 →
  Z.of_nat (length ns) < UINT32_MAX →
  ∃ m' l', kobject_list_append (Some l) (n_addr nd) m = Ret (true, Some l') m' ∧
    list_repr m' l' (ns ++ [nd]) ∧ relinked D ns m m'.
Proof. apply list_append_spec. Qed.

(** A search visits the nodes in order and ends, at the first node with the
    id or with the null pointer; it changes nothing. *)
Theorem list_find_correct m D l ns id fuel :
  usable m D → placed D ns → list_repr m l ns → (length ns < fuel)%nat →
  kobject_list_find_by_id fuel (Some l) id m =
    Ret (match find_node ns id with Some nd => n_addr nd | None => 0 end) m.
Proof. apply list_find_spec. Qed.

(** C18. A removal takes the first node with the id out of the list, wherever it
    stands, and clears its link; without such a node nothing changes. *)
Theorem list_remove_correct m D l ns id fuel :
  usable m D → placed D ns → list_repr m l ns → (length ns < fuel)%nat →
  Z.of_nat (length ns) ≤ UINT32_MAX →
  match remove_node ns id with
  | None => kobject_list_remove_by_id fuel (Some l) id m = Ret (false, Some l) m
  | Some (nd, ns') => ∃ m' l',
      kobject_list_remove_by_id fuel (Some l) id m = Ret (true, Some l') m' ∧
      list_repr m' l' ns' ∧ node_at m' nd 0 ∧ relinked D ns m m'
  end.
Proof. apply list_remove_spec. Qed.
End operations.

(** ** A concrete list: three nodes at 2 MiB, paging off *)
Section witnesses.
#[local] Existing Instances qemu_layout qemu_image.

Definition demo_node (i : Z) : node := mk_node (0x200000 + 16 * i) i (10 * i).
Definition write_node (nd : node) : M memory unit :=
  set_node_id (n_addr nd) (n_id nd) ;; set_node_value (n_addr nd) (n_value nd) ;;
  set_node_next (n_addr nd) 0.
Definition demo_nodes : list node := [demo_node 0; demo_node 1; demo_node 2].
Definition demo_list : outcome memory (option kobject_list) :=
  (write_node (demo_node 0) ;; write_node (demo_node 1) ;; write_node (demo_node 2) ;;
   r ← kobject_list_append (kobject_list_init (Some (mk_list 0 0 0))) (n_addr (demo_node 0));
   r ← kobject_list_append r.2 (n_addr (demo_node 1));
   mret r.2) flat_memory.
Definition demo_memory : memory := match demo_list with Ret _ m => m | _ => flat_memory end.
Definition demo_pair : kobject_list := mk_list 0x200000 0x200010 2.

Lemma demo_list_run : demo_list = Ret (Some demo_pair) demo_memory.
Proof. vm_compute. reflexivity. Qed.

Definition demo_window : Z → Prop := within 0x200000 0x201000.

Lemma demo_usable : usable demo_memory demo_window.
Proof. apply (usable_same flat_memory); [vm_compute; reflexivity|]. by apply flat_memory_usable. Qed.

Lemma demo_placed : placed demo_window demo_nodes.
Proof.
  unfold demo_nodes, demo_node. split.
  - repeat (apply Forall_cons_2; [unfold node_ok, demo_window, within; simpl; split_and!; lia|]).
    apply Forall_nil_2.
  - repeat constructor; unfold apart; simpl; lia.
Qed.

Lemma demo_repr : list_repr demo_memory demo_pair [demo_node 0; demo_node 1].
Proof. constructor; [reflexivity..|]. repeat constructor; vm_compute; reflexivity. Qed.

Lemma demo_placed_pair : placed demo_window [demo_node 0; demo_node 1].
Proof. pose proof demo_placed as Hp. by apply (placed_app _ [demo_node 0; demo_node 1]) in Hp as (? & _). Qed.

Lemma list_append_correct_witness :
  ∃ m' l', kobject_list_append (Some demo_pair) 0x200020 demo_memory = Ret (true, Some l') m' ∧
    list_repr m' l' demo_nodes.
Proof.
  destruct (list_append_correct demo_memory demo_window demo_pair [demo_node 0; demo_node 1]
    (demo_node 2) demo_usable demo_placed demo_repr) as (m' & l' & E & Hl & _).
  - constructor; vm_compute; reflexivity.
  - simpl. zlia.
  - exists m', l'. split; [exact E|exact Hl].
Defined.

Lemma list_find_correct_witness :
  kobject_list_find_by_id 3 (Some demo_pair) 1 demo_memory = Ret 0x200010 demo_memory.
Proof.
  apply (list_find_correct demo_memory demo_window demo_pair _ 1 3 demo_usable demo_placed_pair
    demo_repr). simpl. lia.
Defined.

Lemma list_remove_correct_witness :
  ∃ m' l', kobject_list_remove_by_id 3 (Some demo_pair) 1 demo_memory = Ret (true, Some l') m' ∧
    list_repr m' l' [demo_node 0].
Proof.
  destruct (list_remove_correct demo_memory demo_window demo_pair [demo_node 0; demo_node 1] 1 3
    demo_usable demo_placed_pair demo_repr ltac:(simpl; lia) ltac:(simpl; zlia))
    as (m' & l' & E & Hl & _).
  exists m', l'. split; [exact E|exact Hl].
Defined.

Lemma appending_the_tail_again_hangs_witness :
  ∃ m' l', kobject_list_append (Some demo_pair) 0x200010 demo_memory = Ret (true, Some l') m' ∧
    ∀ fuel, kobject_list_find_by_id fuel (Some l') 5 m' = OutOfFuel.
Proof.
  destruct (appending_the_tail_again_hangs demo_memory demo_window demo_pair [demo_node 0]
    (demo_node 1) demo_usable demo_placed_pair demo_repr) as (m' & l' & E & Hno).
  exists m', l'. split; [exact E|]. intros fuel. apply Hno. repeat constructor; discriminate.
Defined.
End witnesses.
