(* ===== verification/KobjectHeap.v ===== *)
(** * Kernel objects on the kernel heap

    [kobject_node_create] takes its nodes from [Kmalloc]; this file puts the
    lists of [Kobject] and the heap of [KheapSafety] together.  A [store] is
    a machine with one list and its owner's nodes, which are live heap payloads,
    in the list or outside it; [store_step] is what may happen: the owner
    creates, appends, removes and destroys nodes one call at a time, and other
    clients allocate, free and write in between. *)
From S2P Require Import Prelude KernelMonad Paging Vmm Memory FrameAllocator Kheap Kmalloc.
From S2P Require Import VmmLayout Pmm KheapSpec KheapSafety Kobject.
#[local] Open Scope Z_scope.

(** A duplicate-free list of integers of an interval is no longer than it. *)
Lemma nodup_interval_length (l : list Z) lo hi :
  NoDup l → (∀ x, x ∈ l → lo ≤ x < hi) → Z.of_nat (length l) ≤ Z.max 0 (hi - lo).
Proof.
  intros Hnd Hin. assert (l ⊆+ seqZ lo (hi - lo)) as Hsub.
  { apply NoDup_submseteq; [done|]. intros x Hx. apply elem_of_seqZ. specialize (Hin x Hx). lia. }
  apply submseteq_length in Hsub. rewrite length_seqZ in Hsub. lia.
Qed.

Section ownership.
Context `{KL : KernelLayout, KLO : !KernelLayoutOk, KI : KernelImage}.
Context {F : Type} `{FA : FrameAllocator F, FAO : !FrameAllocatorOk F}.
#[local] Abbreviation machine := (kheap_machine F).
Implicit Types s : machine.

(** The nodes are distinct live payloads of the heap. *)
Record owned (bs : list block) (ns : list node) : Prop := {
  owned_payload nd : nd ∈ ns → ∃ sz, 12 ≤ sz ∧ (n_addr nd, sz) ∈ payloads HEAP_START bs;
  owned_nodup : NoDup (n_addr <$> ns);
}.

Lemma owned_node_ok bs s ns nd :
  heap_inv bs s → owned bs ns → nd ∈ ns → node_ok (mapped_heap s) nd.
Proof.
  intros Hi [Hpay _] Hnd. destruct (Hpay nd Hnd) as (sz & Hsz & Hin).
  pose proof Hin as Hb. apply payload_in_bounds in Hb; [|apply (hi_blocks _ _ Hi)].
  destruct (heap_inv_bounds _ _ Hi) as (_ & _ & Hend). split; [zlia|]. split; [zlia|].
  intros a Ha. eapply payload_mapped; [done|exact Hin|lia].
Qed.

Lemma owned_placed bs s ns : heap_inv bs s → owned bs ns → placed (mapped_heap s) ns.
Proof.
  intros Hi Hown. split; [apply Forall_forall; intros nd; by eapply owned_node_ok|].
  destruct Hown as [Hpay Hnd]. clear -Hi Hpay Hnd. induction ns as [|x ns IH]; [constructor|].
  apply NoDup_cons in Hnd as [Hx Hnd]. constructor; [apply IH; [|done]; intros; apply Hpay; by right|].
  apply Forall_forall. intros y Hy.
  destruct (Hpay x ltac:(by left)) as (sz & Hsz & Hinx).
  destruct (Hpay y ltac:(by right)) as (tz & Htz & Hiny).
  destruct (payloads_disjoint _ _ _ _ _ _ (hi_blocks _ _ Hi) Hinx Hiny) as [[Heq _]|?].
  - destruct Hx. rewrite Heq. by apply list_elem_of_fmap_2.
  - unfold apart. lia.
Qed.

(** The window bounds the length of a list. *)
Lemma owned_length bs s ns : heap_inv bs s → owned bs ns → Z.of_nat (length ns) < UINT32_MAX.
Proof.
  intros Hi Hown. rewrite <- (length_fmap n_addr).
  pose proof (nodup_interval_length (n_addr <$> ns) HEAP_START HEAP_END (owned_nodup _ _ Hown)) as Hlen.
  enough (Z.of_nat (length (n_addr <$> ns)) ≤ Z.max 0 (HEAP_END - HEAP_START)) by zlia.
  apply Hlen. intros a (nd & -> & Hnd)%list_elem_of_fmap.
  destruct (owned_payload _ _ Hown nd Hnd) as (sz & Hsz & Hin).
  apply payload_in_bounds in Hin; [|apply (hi_blocks _ _ Hi)].
  destruct (heap_inv_bounds _ _ Hi) as (_ & _ & Hend). lia.
Qed.

Lemma owned_subset bs ns ns' : owned bs ns → ns' `sublist_of` ns → owned bs ns'.
Proof.
  intros [Hpay Hnd] Hsub. split.
  - intros nd Hin. apply Hpay. eapply elem_of_submseteq; [exact Hin|by apply sublist_submseteq].
  - eapply sublist_NoDup; [exact Hnd|by apply fmap_sublist].
Qed.

(** What keeps live payloads keeps lists of owned nodes. *)
Lemma list_repr_frame m m' l ns :
  list_repr m l ns →
  (∀ nd a, nd ∈ ns → n_addr nd ≤ a < n_addr nd + 12 → vbyte m' a = vbyte m a) →
  list_repr m' l ns.
Proof. intros [] E. constructor; try done. by eapply links_frame. Qed.

Lemma list_repr_preserves bs s s' l ns :
  owned bs ns → preserves bs s s' → list_repr (mem s) l ns → list_repr (mem s') l ns.
Proof.
  intros Hown Hpres Hl. eapply list_repr_frame; [exact Hl|]. intros nd a Hnd Ha.
  destruct (owned_payload _ _ Hown nd Hnd) as (sz & Hsz & Hin). eapply pv_payloads; [exact Hpres|exact Hin|lia].
Qed.

(** Link updates keep the heap. *)
Lemma heap_inv_relinked bs s ns m :
  heap_inv bs s → owned bs ns → relinked (mapped_heap s) ns (mem s) m → heap_inv bs (set_mem m s).
Proof.
  intros Hi Hown [Hp Hout]. apply heap_inv_payload_writes; [done|done|].
  intros a Ha Hno. apply Hout; [done|]. intros x Hx Hr.
  destruct (owned_payload _ _ Hown x Hx) as (sz & Hsz & Hin). eapply Hno; [exact Hin|lia].
Qed.

(** ** Creation *)
(** Storing one field of a fresh node, after the stores [ws]. *)
Ltac node_store p s1 HD Hu Hst ws m :=
  wp_step; eapply (wp_store32 _ (mapped_heap s1) ws _ _ (mem s1));
    [eassumption|eassumption|lia|lia|lia|intros; apply HD; lia|
     let Hin := fresh in intros ? ? Hin; repeat (apply elem_of_cons in Hin as [[= -> ->]|Hin];
       [split; [lia|intros; apply HD; lia]|]); by apply not_elem_of_nil in Hin|];
  clear Hu Hst; intros m Hu Hst.

Lemma node_create_spec bs s id value :
  heap_inv bs s → is_u32 id → is_u32 value →
  wp (kobject_node_create id value) (λ p s', ∃ bs', heap_inv bs' s' ∧ preserves bs s s' ∧ supplied_outcome bs 12 p bs' s s' ∧
    ((p = 0 ∧ bs' = bs) ∨
     ((∀ x, x ∈ payloads HEAP_START bs → x ∈ payloads HEAP_START bs') ∧
      (∀ sz, (p, sz) ∉ payloads HEAP_START bs) ∧
      (∃ sz, 12 ≤ sz ∧ (p, sz) ∈ payloads HEAP_START bs') ∧
      node_at (mem s') (mk_node p id value) 0))) s.
Proof.
  intros Hi Hid Hval. unfold kobject_node_create, KOBJECT_NODE_SIZE. wp_step.
  destruct (proj1 (wp_run _ _ _) (alloc_spec bs s 12 Hi ltac:(lia)))
    as (p & s1 & E & _).
  eapply wp_Ret; [by rewrite kmalloc_eq|].
  destruct (alloc_call bs s 12 p s1 Hi ltac:(lia) E)
    as (bs' & Hi' & Hpres & Hsup & [[-> ->]|(Hp0 & _ & Hno & sz & Hsz & Hiff)]).
  { wp_steps. exists bs. do 3 (split; [done|]). by left. }
  assert ((p, sz) ∈ payloads HEAP_START bs') as Hin by (apply Hiff; by left).
  assert (∀ b, p ≤ b < p + 12 → mapped_heap s1 b) as HD.
  { intros b Hb. eapply payload_mapped; [done|exact Hin|lia]. }
  pose proof Hin as Hb. apply payload_in_bounds in Hb; [|apply (hi_blocks _ _ Hi')].
  destruct (heap_inv_bounds _ _ Hi') as (_ & _ & Hend). unfold HEAP_START, HEAP_END in Hb, Hend.
  rewrite (proj2 (Z.eqb_neq p 0)) by done.
  unfold set_node_id, set_node_value, set_node_next. rewrite !(u32_id (p + _)) by lia.
  pose proof (hi_usable _ _ Hi') as Hu. pose proof (stored_nil (mem s1) (mapped_heap s1)) as Hst.
  node_store p s1 HD Hu Hst (@nil (Z * Z)) m1. node_store p s1 HD Hu Hst [(p, id)] m2.
  node_store p s1 HD Hu Hst [(p + 4, value); (p, id)] m. wp_steps.
  change (set_mem m _) with (set_mem m s1). exists bs'.
  assert (∀ a, mapped_heap s1 a → ¬ p ≤ a < p + sz → vbyte m a = vbyte (mem s1) a) as Hout.
  { intros a Ha Hno'. apply (stored_other _ _ _ _ Hst); [done|].
    intros b w Hw. rewrite !elem_of_cons, elem_of_nil in Hw.
    destruct Hw as [[= -> ->]|[[= -> ->]|[[= -> ->]|[]]]]; lia. }
  split_and!.
  - apply heap_inv_payload_writes; [done|apply (stored_paging _ _ _ _ Hst)|].
    intros a Ha Hno'. apply Hout; [done|]. by apply Hno'.
  - pose proof (stored_paging _ _ _ _ Hst) as Hp. unfold same_paging in Hp.
    split; [|intros va Hva Hno'; cbn; rewrite Hp; by apply (pv_outside _ _ _ Hpres)].
    intros q tz va Hq Hva. cbn [mem set_mem]. rewrite <- (pv_payloads _ _ _ Hpres q tz va Hq Hva).
    assert ((q, tz) ∈ payloads HEAP_START bs') as Hq' by (apply Hiff; by right).
    apply Hout; [by eapply payload_mapped|].
    destruct (payloads_disjoint _ _ _ _ _ _ (hi_blocks _ _ Hi') Hin Hq') as [[<- _]|?]; [|lia].
    by apply Hno in Hq.
  - by destruct Hsup.
  - right. split_and!; [intros x ?; apply Hiff; by right|done|by exists sz|].
    constructor; apply (stored_words _ _ _ _ Hst); simpl; set_solver.
Qed.

Lemma owned_permutation bs ns ns' : ns ≡ₚ ns' → owned bs ns → owned bs ns'.
Proof.
  intros Hp [Hpay Hnd]. split; [intros nd; rewrite <- Hp; apply Hpay|]. by rewrite <- (fmap_Permutation _ _ _ Hp).
Qed.

(** ** Stores *)
Record store := mk_store {
  st_machine : machine;
  st_list : kobject_list;
  st_nodes : list node;     (* the nodes its owner believes to be in the list *)
  st_loose : list node;     (* the owner's nodes outside it *)
  st_others : gmap Z Z;     (* the payloads of other clients, with their sizes *)
}.
Definition all_nodes (st : store) : list node := st_nodes st ++ st_loose st.

(** An append is given a node that is not in the list; a destruction too. *)
Inductive store_step : store → store → Prop :=
| step_create st id value p s' :
    is_u32 id → is_u32 value → kobject_node_create id value (st_machine st) = Ret p s' → p ≠ 0 →
    store_step st (mk_store s' (st_list st) (st_nodes st) (st_loose st ++ [mk_node p id value]) (st_others st))
| step_create_none st id value s' :
    is_u32 id → is_u32 value → kobject_node_create id value (st_machine st) = Ret 0 s' →
    store_step st (mk_store s' (st_list st) (st_nodes st) (st_loose st) (st_others st))
| step_append st nd l1 l2 l' m :
    st_loose st = l1 ++ nd :: l2 →
    kobject_list_append (Some (st_list st)) (n_addr nd) (mem (st_machine st)) = Ret (true, Some l') m →
    store_step st (mk_store (set_mem m (st_machine st)) l' (st_nodes st ++ [nd]) (l1 ++ l2) (st_others st))
| step_remove st id fuel nd ns l' m :
    (length (st_nodes st) < fuel)%nat → remove_node (st_nodes st) id = Some (nd, ns) →
    kobject_list_remove_by_id fuel (Some (st_list st)) id (mem (st_machine st)) = Ret (true, Some l') m →
    store_step st (mk_store (set_mem m (st_machine st)) l' ns (st_loose st ++ [nd]) (st_others st))
| step_destroy st nd l1 l2 s' :
    st_loose st = l1 ++ nd :: l2 → kobject_node_destroy (n_addr nd) (st_machine st) = Ret true s' →
    store_step st (mk_store s' (st_list st) (st_nodes st) (l1 ++ l2) (st_others st))
| step_other_alloc st n p s' :
    is_u32 n → kmalloc n (st_machine st) = Ret p s' →
    store_step st (mk_store s' (st_list st) (st_nodes st) (st_loose st)
      (if decide (p = 0) then st_others st else <[p := n]> (st_others st)))
| step_other_free st p ok s' :
    is_u32 p → p ∉ n_addr <$> all_nodes st → kfree p (st_machine st) = Ret ok s' →
    store_step st (mk_store s' (st_list st) (st_nodes st) (st_loose st) (delete p (st_others st)))
| step_other_write st p n va v s' :
    st_others st !! p = Some n → p ≤ va < p + n → zoom mem_lens (store8 va v) (st_machine st) = Ret tt s' →
    store_step st (mk_store s' (st_list st) (st_nodes st) (st_loose st) (st_others st)).

(** The payloads of the other clients are live and none of the owner's. *)
Definition others_ok (bs : list block) (ns : list node) (others : gmap Z Z) : Prop :=
  ∀ p n, others !! p = Some n →
    p ∉ n_addr <$> ns ∧ ∃ sz, n ≤ sz ∧ (p, sz) ∈ payloads HEAP_START bs.

Record store_inv (bs : list block) (st : store) : Prop := {
  si_heap : heap_inv bs (st_machine st);
  si_list : list_repr (mem (st_machine st)) (st_list st) (st_nodes st);
  si_owned : owned bs (all_nodes st);
  si_loose nd : nd ∈ st_loose st → node_at (mem (st_machine st)) nd 0;
  si_others : others_ok bs (all_nodes st) (st_others st);
}.

(** What keeps the bytes and the payloads of the nodes keeps the store. *)
Lemma store_inv_frame bs bs' st s' others :
  store_inv bs st → heap_inv bs' s' →
  (∀ nd a, nd ∈ all_nodes st → n_addr nd ≤ a < n_addr nd + 12 →
    vbyte (mem s') a = vbyte (mem (st_machine st)) a) →
  (∀ nd sz, nd ∈ all_nodes st → (n_addr nd, sz) ∈ payloads HEAP_START bs →
    (n_addr nd, sz) ∈ payloads HEAP_START bs') →
  others_ok bs' (all_nodes st) others →
  store_inv bs' (mk_store s' (st_list st) (st_nodes st) (st_loose st) others).
Proof.
  intros [Hi Hl [Hpay Hnd] Hloose _] Hi' Hbytes Hkeep Hoth. split; cbn; [done| | | |done].
  - eapply list_repr_frame; [exact Hl|]. intros nd a Hin. apply Hbytes, elem_of_app. by left.
  - split; [|done]. intros nd Hin. destruct (Hpay nd Hin) as (sz & ? & ?). exists sz. auto.
  - intros nd Hin. eapply node_at_frame; [by apply Hloose|]. intros a Ha.
    apply (Hbytes nd); [apply elem_of_app; by right|done].
Qed.

Lemma preserves_nodes bs s s' ns nd a :
  owned bs ns → preserves bs s s' → nd ∈ ns → n_addr nd ≤ a < n_addr nd + 12 → vbyte (mem s') a = vbyte (mem s) a.
Proof.
  intros Hown Hpres Hnd Ha. destruct (owned_payload _ _ Hown nd Hnd) as (sz & Hsz & Hin).
  eapply pv_payloads; [exact Hpres|exact Hin|lia].
Qed.

(** ** The owner's calls *)
Lemma create_spec bs st id value :
  store_inv bs st → is_u32 id → is_u32 value →
  ∃ p s' bs', kobject_node_create id value (st_machine st) = Ret p s' ∧
    store_inv bs' (mk_store s' (st_list st) (st_nodes st)
      (if decide (p = 0) then st_loose st else st_loose st ++ [mk_node p id value]) (st_others st)).
Proof.
  intros Hst Hid Hval. pose proof Hst as [Hi _ Hown Hloose Hoth].
  destruct (proj1 (wp_run _ _ _) (node_create_spec bs _ id value Hi Hid Hval))
    as (p & s1 & E & bs' & Hi' & Hpres & _ & Hcase). exists p, s1, bs'. split; [done|].
  assert (∀ nd a, nd ∈ all_nodes st → n_addr nd ≤ a < n_addr nd + 12 →
    vbyte (mem s1) a = vbyte (mem (st_machine st)) a) as Hbytes by (intros; by eapply preserves_nodes).
  destruct Hcase as [[-> ->]|(Hsub & Hno & (sz & Hsz & Hin) & Hat)].
  { rewrite decide_True by done. by eapply store_inv_frame. }
  assert (p ≠ 0) as Hp0.
  { apply payload_in_bounds in Hin; [|apply (hi_blocks _ _ Hi')]. unfold HEAP_START in Hin. lia. }
  assert (store_inv bs' (mk_store s1 (st_list st) (st_nodes st) (st_loose st) (st_others st))) as Hst1.
  { eapply store_inv_frame; [done|done|done|intros; by apply Hsub|].
    intros q n Hq. destruct (Hoth q n Hq) as (Hnot & tz & Htz & Hqin). split; [done|]. exists tz. auto. }
  rewrite decide_False by done. destruct Hst1 as [H1 H2 [Hpay Hnd] H4 H5].
  assert (p ∉ n_addr <$> all_nodes st) as Hfresh.
  { intros (x & -> & Hx)%list_elem_of_fmap. destruct (owned_payload _ _ Hown x Hx) as (tz & _ & Hxin).
    by apply Hno in Hxin. }
  split; cbn; [done|done| | |]; unfold all_nodes in *; cbn [st_nodes st_loose] in *; rewrite ?app_assoc.
  - split.
    + intros nd [Hx| ->%list_elem_of_singleton]%elem_of_app; [by apply Hpay|by exists sz].
    + rewrite fmap_app. apply NoDup_app. split_and!; [done| |apply NoDup_singleton].
      by intros a Ha ->%list_elem_of_singleton.
  - intros nd [Hx| ->%list_elem_of_singleton]%elem_of_app; [by apply H4|done].
  - intros q n Hq. destruct (H5 q n Hq) as (Hnot & Hq'). split; [|done].
    rewrite fmap_app. intros [?| ->%list_elem_of_singleton]%elem_of_app; [done|].
    destruct (Hoth _ _ Hq) as (_ & tz & _ & Hqin). by apply Hno in Hqin.
Qed.

Lemma all_placed bs st : store_inv bs st → placed (mapped_heap (st_machine st)) (all_nodes st).
Proof. intros [Hi _ Hown _ _]. by eapply owned_placed. Qed.

(** Relinking the nodes of the list keeps the others. *)
Lemma relinked_loose D ns ns' m m' x v :
  placed D (ns ++ ns') → relinked D ns m m' → x ∈ ns' → node_at m x v → node_at m' x v.
Proof.
  intros Hp [_ Hout] Hx Hat. apply placed_app in Hp as (_ & Hp' & Hap).
  destruct (placed_in _ _ _ Hp' Hx) as (_ & _ & HD).
  eapply node_at_frame; [exact Hat|]. intros a Ha. apply Hout; [by apply HD|].
  intros y Hy. specialize (Hap y x Hy Hx). unfold apart in Hap. lia.
Qed.

(** The nodes change places between the list and its surroundings. *)
Lemma store_inv_relinked bs st m l' ns' loose' :
  store_inv bs st → relinked (mapped_heap (st_machine st)) (st_nodes st) (mem (st_machine st)) m →
  list_repr m l' ns' → all_nodes st ≡ₚ ns' ++ loose' → (∀ nd, nd ∈ loose' → node_at m nd 0) →
  store_inv bs (mk_store (set_mem m (st_machine st)) l' ns' loose' (st_others st)).
Proof.
  intros [Hi Hl Hown Hloose Hoth] Hre Hl' Hperm Hat.
  split; cbn; [|done|by eapply owned_permutation|done|].
  - eapply heap_inv_relinked; [done| |exact Hre]. eapply owned_subset; [exact Hown|]. by apply sublist_inserts_r.
  - intros p n Hp. destruct (Hoth p n Hp) as [Hno H]. split; [|done]. unfold all_nodes. cbn [st_nodes st_loose].
    by rewrite <- (fmap_Permutation n_addr _ _ Hperm).
Qed.

Lemma store_append_spec bs st nd l1 l2 :
  store_inv bs st → st_loose st = l1 ++ nd :: l2 →
  ∃ m l', kobject_list_append (Some (st_list st)) (n_addr nd) (mem (st_machine st)) = Ret (true, Some l') m ∧
    store_inv bs (mk_store (set_mem m (st_machine st)) l' (st_nodes st ++ [nd]) (l1 ++ l2) (st_others st)).
Proof.
  intros Hst El. pose proof Hst as [Hi Hl Hown Hloose _]. pose proof (all_placed _ _ Hst) as Hp.
  assert (nd ∈ st_loose st) as Hnd by (rewrite El; apply elem_of_app; right; by left).
  assert (all_nodes st ≡ₚ (st_nodes st ++ [nd]) ++ l1 ++ l2) as Hperm.
  { unfold all_nodes. rewrite El, <- app_assoc. f_equiv. cbn. by rewrite Permutation_middle. }
  assert (owned bs (st_nodes st ++ [nd])) as Hown1.
  { eapply owned_subset; [by eapply owned_permutation|]. by apply sublist_inserts_r. }
  assert (owned bs (st_nodes st)) as Hown2 by (eapply owned_subset; [exact Hown1|]; by apply sublist_inserts_r).
  destruct (list_append_spec (mem (st_machine st)) (mapped_heap (st_machine st)) (st_list st)
    (st_nodes st) nd (hi_usable _ _ Hi) (owned_placed _ _ _ Hi Hown1) Hl (Hloose nd Hnd)
    (owned_length _ _ _ Hi Hown2)) as (m & l' & E & Hl' & Hre).
  exists m, l'. split; [done|]. eapply store_inv_relinked; [done|done|done|done|].
  intros x Hx. eapply relinked_loose; [exact Hp|exact Hre| |apply Hloose]; rewrite El;
    apply elem_of_app; apply elem_of_app in Hx as [Hx|Hx]; [by left|right; by right|by left|right; by right].
Qed.

Lemma find_spec bs st id fuel :
  store_inv bs st → (length (st_nodes st) < fuel)%nat →
  kobject_list_find_by_id fuel (Some (st_list st)) id (mem (st_machine st)) =
    Ret (match find_node (st_nodes st) id with Some nd => n_addr nd | None => 0 end)
      (mem (st_machine st)).
Proof.
  intros Hst Hfuel. pose proof (all_placed _ _ Hst) as Hp. apply placed_app in Hp as (Hp & _).
  by apply (list_find_spec _ _ _ _ _ _ (hi_usable _ _ (si_heap _ _ Hst)) Hp (si_list _ _ Hst)).
Qed.

Lemma remove_node_middle ns id nd ns' :
  remove_node ns id = Some (nd, ns') → ∃ ns1 ns2, ns = ns1 ++ nd :: ns2 ∧ ns' = ns1 ++ ns2.
Proof.
  revert ns'. induction ns as [|x ns IH]; intros ns'; [done|]. cbn [remove_node].
  destruct (n_id x =? id); [intros [= -> ->]; by exists [], ns'|].
  destruct (remove_node ns id) as [[y ns2]|]; [|done]. intros [= -> <-].
  destruct (IH _ eq_refl) as (l1 & l2 & -> & ->). by exists (x :: l1), l2.
Qed.

Lemma remove_spec bs st id fuel :
  store_inv bs st → (length (st_nodes st) < fuel)%nat →
  match remove_node (st_nodes st) id with
  | None => kobject_list_remove_by_id fuel (Some (st_list st)) id (mem (st_machine st)) =
      Ret (false, Some (st_list st)) (mem (st_machine st))
  | Some (nd, ns) => ∃ m l',
      kobject_list_remove_by_id fuel (Some (st_list st)) id (mem (st_machine st)) = Ret (true, Some l') m ∧
      store_inv bs (mk_store (set_mem m (st_machine st)) l' ns (st_loose st ++ [nd]) (st_others st))
  end.
Proof.
  intros Hst Hfuel. pose proof Hst as [Hi Hl Hown Hloose _]. pose proof (all_placed _ _ Hst) as Hp.
  pose proof Hp as Hp1. apply placed_app in Hp1 as (Hpn & _).
  assert (owned bs (st_nodes st)) as Hown1 by (eapply owned_subset; [exact Hown|]; by apply sublist_inserts_r).
  pose proof (owned_length _ _ _ Hi Hown1) as Hlen.
  pose proof (list_remove_spec (mem (st_machine st)) (mapped_heap (st_machine st)) (st_list st) (st_nodes st) id fuel
    (hi_usable _ _ Hi) Hpn Hl Hfuel ltac:(lia)) as Hrem.
  destruct (remove_node (st_nodes st) id) as [[nd ns]|] eqn:Er; [|done].
  destruct Hrem as (m & l' & E & Hl' & Hat & Hre). exists m, l'. split; [done|].
  eapply store_inv_relinked; [done|done|done| |].
  - apply remove_node_middle in Er as (ns1 & ns2 & En & ->). unfold all_nodes. rewrite En.
    rewrite (app_assoc (ns1 ++ ns2)), <- (Permutation_cons_append _ nd), <- app_assoc. cbn [app].
    by rewrite <- Permutation_middle, app_assoc.
  - intros x [Hx| ->%list_elem_of_singleton]%elem_of_app; [|done].
    eapply relinked_loose; [exact Hp|exact Hre|exact Hx|by apply Hloose].
Qed.

Lemma destroy_spec bs st nd l1 l2 :
  store_inv bs st → st_loose st = l1 ++ nd :: l2 →
  ∃ s' bs', kobject_node_destroy (n_addr nd) (st_machine st) = Ret true s' ∧
    store_inv bs' (mk_store s' (st_list st) (st_nodes st) (l1 ++ l2) (st_others st)).
Proof.
  intros Hst El. pose proof Hst as [Hi Hl Hown Hloose Hoth].
  assert (all_nodes st ≡ₚ nd :: (st_nodes st ++ l1 ++ l2)) as Hperm.
  { unfold all_nodes. rewrite El. by rewrite <- !Permutation_middle. }
  pose proof (owned_permutation _ _ _ Hperm Hown) as Hown1. pose proof (owned_nodup _ _ Hown1) as Hnd.
  cbn in Hnd. apply NoDup_cons in Hnd as [Hnot Hnd].
  destruct (owned_payload _ _ Hown1 nd ltac:(by left)) as (sz & Hsz & Hin).
  pose proof Hin as Hb. apply payload_in_bounds in Hb; [|apply (hi_blocks _ _ Hi)].
  destruct (heap_inv_bounds _ _ Hi) as (_ & _ & Hend). unfold HEAP_START, HEAP_END in Hb, Hend.
  destruct (proj1 (wp_run _ _ _) (free_spec bs _ (n_addr nd) Hi ltac:(lia))) as (ok & s' & Ef & _).
  pose proof (free_call bs _ (n_addr nd) ok s' Hi ltac:(lia) Ef) as Hcall.
  destruct ok; [|by destruct Hcall as [_ Hno]; apply Hno in Hin].
  destruct Hcall as (bs' & Hi' & Hpres & _ & Hiff). exists s', bs'. split.
  { unfold kobject_node_destroy. rewrite (proj2 (Z.eqb_neq _ _)) by lia. by rewrite kfree_eq. }
  assert (∀ x, x ∈ st_nodes st ++ l1 ++ l2 → n_addr x ≠ n_addr nd) as Hother.
  { intros x Hx Heq. apply Hnot. rewrite <- Heq. by apply list_elem_of_fmap_2. }
  assert (∀ x, x ∈ st_nodes st ++ l1 ++ l2 → x ∈ all_nodes st) as Hsub
    by (intros x Hx; rewrite Hperm; by right).
  split; cbn; [done| | | |].
  - eapply (list_repr_preserves bs (st_machine st)); [|done|done].
    eapply owned_subset; [exact Hown|]. by apply sublist_inserts_r.
  - split; [|done]. intros x Hx. destruct (owned_payload _ _ Hown x (Hsub x Hx)) as (tz & ? & ?). exists tz.
    split; [done|]. apply Hiff. split; [done|]. by apply Hother.
  - intros x Hx. assert (x ∈ st_loose st) as Hx'.
    { rewrite El. apply elem_of_app in Hx as [?|?]; apply elem_of_app; [by left|right; by right]. }
    eapply node_at_frame; [by apply Hloose|]. intros a Ha.
    eapply preserves_nodes; [exact Hown|done| |exact Ha]. apply elem_of_app. by right.
  - intros p n Hq. destruct (Hoth p n Hq) as (Hno & tz & Htz & Hpin).
    rewrite (fmap_Permutation n_addr _ _ Hperm), fmap_cons, not_elem_of_cons in Hno. destruct Hno as [Hne Hno].
    split; [done|]. exists tz. split; [done|]. by apply Hiff.
Qed.

(** ** The other clients *)
Lemma other_alloc_spec bs st n p s' :
  store_inv bs st → is_u32 n → kmalloc n (st_machine st) = Ret p s' →
  ∃ bs', store_inv bs' (mk_store s' (st_list st) (st_nodes st) (st_loose st)
    (if decide (p = 0) then st_others st else <[p := n]> (st_others st))).
Proof.
  intros Hst Hn E. pose proof Hst as [Hi _ Hown _ Hoth]. rewrite kmalloc_eq in E.
  destruct (alloc_call bs _ n p s' Hi Hn E) as (bs' & Hi' & Hpres & _ & Hcase). exists bs'.
  assert (∀ nd a, nd ∈ all_nodes st → n_addr nd ≤ a < n_addr nd + 12 →
    vbyte (mem s') a = vbyte (mem (st_machine st)) a) as Hbytes by (intros; by eapply preserves_nodes).
  destruct Hcase as [[-> ->]|(Hp0 & _ & Hno & sz & Hsz & Hiff)].
  { rewrite decide_True by done. by eapply store_inv_frame. }
  rewrite decide_False by done. eapply store_inv_frame; [done..|intros; apply Hiff; by right|].
  intros q k [[<- <-]|[Hne Hq]]%lookup_insert_Some.
  - split; [|exists sz; split; [done|apply Hiff; by left]].
    intros (nd & -> & Hnd)%list_elem_of_fmap. destruct (owned_payload _ _ Hown nd Hnd) as (tz & _ & Hin).
    by apply Hno in Hin.
  - destruct (Hoth q k Hq) as (? & tz & ? & ?). split; [done|]. exists tz. split; [done|]. apply Hiff. by right.
Qed.

Lemma other_free_spec bs st p ok s' :
  store_inv bs st → is_u32 p → p ∉ n_addr <$> all_nodes st → kfree p (st_machine st) = Ret ok s' →
  ∃ bs', store_inv bs' (mk_store s' (st_list st) (st_nodes st) (st_loose st) (delete p (st_others st))).
Proof.
  intros Hst Hp Hno E. pose proof Hst as [Hi _ Hown _ Hoth]. rewrite kfree_eq in E.
  pose proof (free_call bs _ p ok s' Hi Hp E) as Hcall. destruct ok.
  - destruct Hcall as (bs' & Hi' & Hpres & _ & Hiff). exists bs'.
    eapply store_inv_frame; [done|done|intros; by eapply preserves_nodes| |].
    + intros nd sz Hnd Hin. apply Hiff. split; [done|]. cbn. intros <-. apply Hno. by apply list_elem_of_fmap_2.
    + intros q k [Hne Hq]%lookup_delete_Some. destruct (Hoth q k Hq) as (? & tz & ? & ?).
      split; [done|]. exists tz. split; [done|]. by apply Hiff.
  - destruct Hcall as [-> _]. exists bs. eapply store_inv_frame; [done..|].
    intros q k [_ Hq]%lookup_delete_Some. by apply Hoth.
Qed.

(** Payloads of others and nodes lie apart. *)
Lemma other_apart bs st p n nd :
  store_inv bs st → st_others st !! p = Some n → nd ∈ all_nodes st → p + n ≤ n_addr nd ∨ n_addr nd + 12 ≤ p.
Proof.
  intros [Hi _ Hown _ Hoth] Hp Hnd. destruct (Hoth p n Hp) as (Hno & sz & Hsz & Hin).
  destruct (owned_payload _ _ Hown nd Hnd) as (tz & Htz & Hndin).
  destruct (payloads_disjoint _ _ _ _ _ _ (hi_blocks _ _ Hi) Hin Hndin) as [[Heq _]|?]; [|lia].
  exfalso. apply Hno. rewrite Heq. by apply list_elem_of_fmap_2.
Qed.

Lemma other_write_spec bs st p n va v :
  store_inv bs st → st_others st !! p = Some n → p ≤ va < p + n →
  ∃ s', zoom mem_lens (store8 va v) (st_machine st) = Ret tt s' ∧
    store_inv bs (mk_store s' (st_list st) (st_nodes st) (st_loose st) (st_others st)).
Proof.
  intros Hst Hp Hva. pose proof Hst as [Hi _ Hown _ Hoth]. destruct (Hoth p n Hp) as (_ & sz & Hsz & Hin).
  destruct (write_payload_spec bs _ p sz va v Hi Hin ltac:(lia)) as (m & E & Hi' & Hbytes).
  eexists. split; [exact E|]. eapply store_inv_frame; [done|done| |done|done].
  intros nd a Hnd Ha. pose proof (other_apart _ _ _ _ _ Hst Hp Hnd).
  assert (mapped_heap (st_machine st) a) as HD.
  { destruct (owned_payload _ _ Hown nd Hnd) as (tz & Htz & Hndin). eapply payload_mapped; [exact Hi|exact Hndin|lia]. }
  cbn [mem set_mem]. rewrite Hbytes by done. by rewrite decide_False by lia.
Qed.

Lemma store_step_inv bs st st' : store_inv bs st → store_step st st' → ∃ bs', store_inv bs' st'.
Proof.
  intros Hst Hstep. destruct Hstep as [st id value p s' Hid Hval E Hp0|st id value s' Hid Hval E|
    st nd l1 l2 l' m El E|st id fuel nd ns l' m Hfuel Er E|st nd l1 l2 s' El E|st n p s' Hn E|
    st p ok s' Hp Hno E|st p n va v s' Hp Hva E].
  - destruct (create_spec bs st id value Hst Hid Hval) as (q & t & bs' & E' & Hinv).
    rewrite E in E'. injection E' as <- <-. rewrite decide_False in Hinv by done. by exists bs'.
  - destruct (create_spec bs st id value Hst Hid Hval) as (q & t & bs' & E' & Hinv).
    rewrite E in E'. injection E' as <- <-. by exists bs'.
  - destruct (store_append_spec bs st nd l1 l2 Hst El) as (m' & k & E' & Hinv).
    rewrite E in E'. injection E' as <- <-. by exists bs.
  - pose proof (remove_spec bs st id fuel Hst Hfuel) as Hrem. rewrite Er in Hrem.
    destruct Hrem as (m' & k & E' & Hinv). rewrite E in E'. injection E' as <- <-. by exists bs.
  - destruct (destroy_spec bs st nd l1 l2 Hst El) as (t & bs' & E' & Hinv).
    rewrite E in E'. injection E' as <-. by exists bs'.
  - by eapply other_alloc_spec.
  - by eapply other_free_spec.
  - destruct (other_write_spec bs st p n va v Hst Hp Hva) as (t & E' & Hinv).
    rewrite E in E'. injection E' as <-. by exists bs.
Qed.

(** ** What the owner may rely on *)
Record store_safe (st : store) : Prop := {
  safe_count : kobject_list_count (Some (st_list st)) = Z.of_nat (length (st_nodes st));
  safe_apart : placed (mapped_heap (st_machine st)) (all_nodes st);
  safe_others p n nd : st_others st !! p = Some n → nd ∈ all_nodes st →
    p + n ≤ n_addr nd ∨ n_addr nd + 12 ≤ p;
  safe_fields nd : nd ∈ all_nodes st →
    node_id (n_addr nd) (mem (st_machine st)) = Ret (n_id nd) (mem (st_machine st)) ∧
    load32 (u32 (n_addr nd + 4)) (mem (st_machine st)) = Ret (n_value nd) (mem (st_machine st));
  safe_find id fuel : (length (st_nodes st) < fuel)%nat →
    kobject_list_find_by_id fuel (Some (st_list st)) id (mem (st_machine st)) =
      Ret (match find_node (st_nodes st) id with Some nd => n_addr nd | None => 0 end)
        (mem (st_machine st));
  safe_create id value : is_u32 id → is_u32 value →
    ∃ p s', kobject_node_create id value (st_machine st) = Ret p s';
  safe_append nd : nd ∈ st_loose st →
    ∃ m l', kobject_list_append (Some (st_list st)) (n_addr nd) (mem (st_machine st)) = Ret (true, Some l') m;
  safe_remove id fuel : (length (st_nodes st) < fuel)%nat →
    match find_node (st_nodes st) id with
    | None => kobject_list_remove_by_id fuel (Some (st_list st)) id (mem (st_machine st)) =
        Ret (false, Some (st_list st)) (mem (st_machine st))
    | Some _ => ∃ m l',
        kobject_list_remove_by_id fuel (Some (st_list st)) id (mem (st_machine st)) = Ret (true, Some l') m
    end;
  safe_destroy nd : nd ∈ st_loose st →
    ∃ s', kobject_node_destroy (n_addr nd) (st_machine st) = Ret true s';
}.

Lemma links_in m ns e nd : links m ns e → nd ∈ ns → ∃ next, node_at m nd next.
Proof.
  induction ns as [|x ns IH]; [by intros _ ?%not_elem_of_nil|].
  intros [Hx Hl] [->|Hin]%elem_of_cons; eauto.
Qed.

Lemma find_remove ns id :
  match find_node ns id with
  | Some nd => ∃ ns1 ns2, ns = ns1 ++ nd :: ns2 ∧ remove_node ns id = Some (nd, ns1 ++ ns2)
  | None => remove_node ns id = None
  end.
Proof.
  induction ns as [|x ns IH]; [done|]. cbn [find_node remove_node].
  destruct (n_id x =? id); [by exists [], ns|]. destruct (find_node ns id) as [nd|]; [|by rewrite IH].
  destruct IH as (ns1 & ns2 & -> & ->). by exists (x :: ns1), ns2.
Qed.

Lemma store_inv_safe bs st : store_inv bs st → store_safe st.
Proof.
  intros Hst. pose proof Hst as [Hi Hl Hown Hloose Hoth]. pose proof (all_placed _ _ Hst) as Hp. constructor.
  - apply (repr_count _ _ _ Hl).
  - exact Hp.
  - intros p n nd Hq Hnd. by eapply other_apart.
  - intros nd Hnd. assert (∃ next, node_at (mem (st_machine st)) nd next) as [next Hat].
    { apply elem_of_app in Hnd as [Hnd|Hnd]; [by eapply links_in; [apply (repr_links _ _ _ Hl)|]|eauto]. }
    pose proof (placed_in _ _ _ Hp Hnd) as Hok. split.
    { by eapply node_id_ok; [apply (hi_usable _ _ Hi)|exact Hok|]. }
    destruct Hok as (H0 & H1 & HD). rewrite u32_id by lia.
    rewrite (load32_ok _ (mapped_heap (st_machine st))); [by rewrite (node_at_value _ _ _ Hat)|..];
      [apply (hi_usable _ _ Hi)|lia|lia|]. intros a Ha. apply HD. lia.
  - intros id fuel Hfuel. by eapply find_spec.
  - intros id value Hid Hval. destruct (create_spec bs st id value Hst Hid Hval) as (p & s' & _ & E & _). eauto.
  - intros nd (l1 & l2 & El)%list_elem_of_split. destruct (store_append_spec bs st nd l1 l2 Hst El) as (m & l' & E & _). eauto.
  - intros id fuel Hfuel. pose proof (remove_spec bs st id fuel Hst Hfuel) as Hrem.
    pose proof (find_remove (st_nodes st) id) as Hfr. destruct (find_node (st_nodes st) id) as [nd|].
    + destruct Hfr as (ns1 & ns2 & _ & Er). rewrite Er in Hrem. destruct Hrem as (m & l' & E & _). eauto.
    + by rewrite Hfr in Hrem.
  - intros nd (l1 & l2 & El)%list_elem_of_split. destruct (destroy_spec bs st nd l1 l2 Hst El) as (s' & bs' & E & _). eauto.
Qed.

Definition empty_store (s : machine) (l : kobject_list) : store := mk_store s l [] [] ∅.

(** C17. The owner of a list creates nodes, appends nodes that are in no list,
    removes nodes from the list and destroys nodes that are not in it, one
    call at a time and in any order, while other clients of the heap allocate,
    free and write their own payloads.  Then the count is the number of nodes in the
    list; all nodes lie apart from each other and from the other clients'
    payloads and have the ids and values they were created with; a search
    finds the first node with the id; creating returns; appending and destroying a
    node outside the list succeed; and a removal succeeds exactly for an id
    that is in the list. *)
Theorem object_stores_are_safe s l l0 st :
  heap_inv [] s → kobject_list_init (Some l0) = Some l →
  rtc store_step (empty_store s l) st → store_safe st.
Proof.
  intros Hi [= <-] Hsteps. set (c1 := empty_store s _) in *.
  assert (∃ bs, store_inv bs c1) as Hc.
  { exists []. split; [done|by constructor| |by intros nd ?%not_elem_of_nil|].
    - split; [by intros ? ?%not_elem_of_nil|constructor].
    - intros p n Hq. change ((∅ : gmap Z Z) !! p = Some n) in Hq. by rewrite lookup_empty in Hq. }
  clearbody c1. enough (∃ bs, store_inv bs st) as [bs Hst] by by eapply store_inv_safe.
  clear Hi. induction Hsteps as [|c1 c2 c3 Hstep Hr IH]; [done|].
  destruct Hc as [bs Hc]. apply IH. by eapply store_step_inv.
Qed.
End ownership.

Section witnesses.
#[local] Existing Instances qemu_layout qemu_layout_ok qemu_image.

(** The bootstrapped machine of [KheapSafety]: a node is created, another client
    allocates and writes a byte, and the node is appended. *)
Definition demo_created : kheap_machine pmm :=
  match kobject_node_create 7 9 demo_heap with Ret _ s => s | _ => demo_heap end.
Definition demo_shared : kheap_machine pmm := end_state (kmalloc 5 demo_created) demo_created.
Definition demo_written : kheap_machine pmm :=
  end_state (zoom mem_lens (store8 0x400034 0xFF) demo_shared) demo_shared.
Lemma demo_create : kobject_node_create 7 9 demo_heap = Ret 0x400010 demo_created.
Proof. vm_compute. reflexivity. Qed.
Lemma demo_other : kmalloc 5 demo_created = Ret 0x400030 demo_shared.
Proof. vm_compute. reflexivity. Qed.
Lemma demo_write : zoom mem_lens (store8 0x400034 0xFF) demo_shared = Ret tt demo_written.
Proof. vm_compute. reflexivity. Qed.
Lemma demo_append :
  kobject_list_append (Some (mk_list 0 0 0)) 0x400010 (mem demo_written) =
    Ret (true, Some (mk_list 0x400010 0x400010 1)) (mem demo_written).
Proof. vm_compute. reflexivity. Qed.

#[local] Opaque demo_created demo_shared demo_written.
Definition demo_store1 : store :=
  mk_store demo_created (mk_list 0 0 0) [] [mk_node 0x400010 7 9] ∅.
Definition demo_store2 : store :=
  mk_store demo_shared (mk_list 0 0 0) [] [mk_node 0x400010 7 9] (<[0x400030 := 5]> ∅).
Definition demo_store3 : store :=
  mk_store demo_written (mk_list 0 0 0) [] [mk_node 0x400010 7 9] (<[0x400030 := 5]> ∅).
Lemma demo_step1 : store_step (empty_store demo_heap (mk_list 0 0 0)) demo_store1.
Proof.
  exact (step_create (empty_store demo_heap (mk_list 0 0 0)) 7 9 0x400010 demo_created
    ltac:(lia) ltac:(lia) demo_create ltac:(lia)).
Qed.
Lemma demo_step2 : store_step demo_store1 demo_store2.
Proof. exact (step_other_alloc demo_store1 5 0x400030 demo_shared ltac:(lia) demo_other). Qed.
Lemma demo_step3 : store_step demo_store2 demo_store3.
Proof.
  exact (step_other_write demo_store2 0x400030 5 0x400034 0xFF demo_written
    (lookup_insert_eq _ _ _) ltac:(lia) demo_write).
Qed.

Lemma object_stores_are_safe_witness :
  heap_inv [] demo_heap ∧
  store_safe (mk_store (set_mem (mem demo_written) demo_written)
    (mk_list 0x400010 0x400010 1) [mk_node 0x400010 7 9] [] (<[0x400030 := 5]> ∅)).
Proof.
  split; [exact demo_heap_inv|].
  apply (object_stores_are_safe demo_heap (mk_list 0 0 0) (mk_list 0 0 0) _ demo_heap_inv eq_refl).
  apply (rtc_l _ _ _ _ demo_step1), (rtc_l _ _ _ _ demo_step2), (rtc_l _ _ _ _ demo_step3), rtc_once.
  exact (step_append demo_store3 (mk_node 0x400010 7 9) [] [] (mk_list 0x400010 0x400010 1)
    (mem demo_written) eq_refl demo_append).
Defined.
End witnesses.
