(* ===== verification/Console.v ===== *)
(** * Screen and serial line ([init/stage0_main.c], lines 224-369)

    Port accesses go to the devices behind the ports, which are a parameter
    ([Ports]): a state and what a read and a write of a port do to it.  Every
    access is logged, newest first.  The text screen is memory at 0xB8000 and
    is written through pointers.  Texts are C strings, here [string]s. *)
From Stdlib Require Import Ascii.
From S2P Require Import Prelude KernelMonad Paging Memory.
#[local] Open Scope Z_scope.

(** The devices behind the I/O ports; [port_polls] bounds the polling of the
    line status register. *)
Class Ports := {
  ports : Type;
  port_read : Z → ports → Z * ports;
  port_write : Z → Z → ports → ports;
  port_polls : nat;
}.

Inductive port_event :=
| PortOut (port value : Z)
| PortIn (port value : Z).

Record console `{Ports} := mk_console {
  con_memory : memory;
  con_ports : ports;
  con_log : list port_event;    (* newest first *)
}.

Definition VGA_TEXT_BUFFER : Z := 0xB8000.
Definition VGA_ATTR : Z := 0x0F.
Definition VGA_WIDTH : Z := 80.
Definition VGA_HEIGHT : Z := 25.
Definition COM1_PORT : Z := 0x3F8.

(** Characters as the bytes they are; buffers of characters as C strings. *)
Definition char_code (c : ascii) : Z := Z.of_N (N_of_ascii c).
Definition NUL : ascii := ascii_of_N 0.
Definition CR : ascii := ascii_of_N 13.
Definition LF : ascii := ascii_of_N 10.
Fixpoint c_string (l : list ascii) : string :=
  match l with
  | [] => EmptyString
  | c :: l => if decide (c = NUL) then EmptyString else String c (c_string l)
  end.
Definition text_get (text : string) (i : Z) : ascii := default NUL (String.get (Z.to_nat i) text).

(** A function that fills a local buffer. *)
Definition with_buffer {S T A} (t : T) (m : M T A) : M S T := λ s,
  match m t with
  | Ret _ t' => Ret t' s
  | Panic r d _ => Panic r d s
  | PageFault a _ => PageFault a s
  | Undefined _ => Undefined s
  | OutOfFuel => OutOfFuel
  end.

Definition set_char (i : Z) (c : ascii) : M (list ascii) unit :=
  l ← get;
  l' ← from_option (array_set l i c);
  modify (λ _, l').

Definition hex : list ascii := String.list_ascii_of_string "0123456789ABCDEF".

Definition format_hex32 (value : Z) : M (list ascii) unit :=
  set_char 0 "0"%char ;;
  set_char 1 "x"%char ;;
  for_u32 8 (λ i,
    let shift := u32 (u32 (7 - i) * 4) in
    digit ← from_option (array_get hex (Z.land (Z.shiftr value shift) 0xF));
    set_char (u32 (2 + i)) digit) ;;
  set_char 10 NUL.

Definition format_hex64 (value : Z) : M (list ascii) unit :=
  set_char 0 "0"%char ;;
  set_char 1 "x"%char ;;
  for_u32 16 (λ i,
    let shift := u32 (u32 (15 - i) * 4) in
    digit ← from_option (array_get hex (Z.land (Z.shiftr value shift) 0xF));
    set_char (u32 (2 + i)) digit) ;;
  set_char 18 NUL.

(** Local arrays [char value_hex[11]] and [[19]]: their contents before the
    call do not matter. *)
Definition hex32_text {S} (value : Z) : M S string :=
  value_hex ← with_buffer (replicate 11 NUL) (format_hex32 value);
  mret (c_string value_hex).
Definition hex64_text {S} (value : Z) : M S string :=
  value_hex ← with_buffer (replicate 19 NUL) (format_hex64 value);
  mret (c_string value_hex).

Section console.
Context `{KL : KernelLayout, KI : KernelImage, PO : Ports}.
#[local] Abbreviation C := (M console).

Definition set_con_memory m (s : console) := mk_console _ m (con_ports s) (con_log s).
Definition con_memory_lens : lens console memory := Lens con_memory set_con_memory.

Definition outb (port value : Z) : C unit :=
  modify (λ s, mk_console _ (con_memory s) (port_write port value (con_ports s))
    (PortOut port value :: con_log s)).
Definition inb (port : Z) : C Z :=
  s ← get;
  let '(value, p) := port_read port (con_ports s) in
  modify (λ s, mk_console _ (con_memory s) p (PortIn port (u8 value) :: con_log s)) ;;
  mret (u8 value).
Definition io_wait : C unit := outb 0x80 0.

Definition serial_init : C unit :=
  outb (COM1_PORT + 1) 0x00 ;;
  outb (COM1_PORT + 3) 0x80 ;;
  outb (COM1_PORT + 0) 0x03 ;;
  outb (COM1_PORT + 1) 0x00 ;;
  outb (COM1_PORT + 3) 0x03 ;;
  outb (COM1_PORT + 2) 0xC7 ;;
  outb (COM1_PORT + 4) 0x0B.

Definition serial_tx_ready : C bool :=
  status ← inb (COM1_PORT + 5);
  mret (negb (Z.land status 0x20 =? 0)).

Definition serial_write_char (c : ascii) : C unit :=
  loop (S port_polls) (λ _,
    ready ← serial_tx_ready;
    if ready : bool then break tt else continue tt) tt ;;
  outb COM1_PORT (char_code c).

(** [i] is a [uint16_t]. *)
Definition serial_write_text (text : string) : C unit :=
  loop (S (String.length text)) (λ i,
    let c := text_get text i in
    if decide (c = NUL) then break tt else
    (if decide (c = LF) then serial_write_char CR else mret tt) ;;
    serial_write_char c ;;
    continue (u16 (i + 1))) 0.

(** A cell of the text screen is two bytes. *)
Definition store16 (va v : Z) : M memory unit :=
  store8 va (Z.land v 0xFF) ;;
  store8 (u32 (va + 1)) (Z.shiftr v 8).
Definition vga_cell (c : ascii) : Z := Z.lor (u16 (Z.shiftl VGA_ATTR 8)) (char_code c).

Definition clear_screen : C unit :=
  let blank := vga_cell " " in
  zoom con_memory_lens (loop (S (Z.to_nat (VGA_WIDTH * VGA_HEIGHT))) (λ i,
    if i <? VGA_WIDTH * VGA_HEIGHT then
      store16 (VGA_TEXT_BUFFER + 2 * i) blank ;;
      continue (u16 (i + 1))
    else break tt) 0).

Definition write_text_at (text : string) (row col_start : Z) : C unit :=
  let vga := VGA_TEXT_BUFFER + 2 * (row * VGA_WIDTH) in
  zoom con_memory_lens (loop (S (String.length text)) (λ '(text, col),
    match text with
    | String c rest =>
        if negb (bool_decide (c = NUL)) && (col <? VGA_WIDTH) then
          store16 (vga + 2 * col) (vga_cell c) ;;
          continue (rest, u16 (col + 1))
        else break tt
    | EmptyString => break tt
    end) (text, col_start)).

Definition write_text (text : string) (row : Z) : C unit := write_text_at text row 0.

Definition write_hex_at_row (label : string) (row value_col value : Z) : C unit :=
  value_hex ← hex32_text value;
  write_text label row ;;
  write_text_at value_hex row value_col.

Definition newline : string := String LF EmptyString.

Definition serial_write_label_hex (label : string) (value : Z) : C unit :=
  value_hex ← hex32_text value;
  serial_write_text label ;;
  serial_write_text value_hex ;;
  serial_write_text newline.

Definition serial_write_label_hex64 (label : string) (value : Z) : C unit :=
  value_hex ← hex64_text value;
  serial_write_text label ;;
  serial_write_text value_hex ;;
  serial_write_text newline.
End console.

(** ** Hexadecimal numbers *)
Definition hex_digit (d : Z) : ascii := default NUL (array_get hex d).
Definition hex_digits (n v : Z) : list ascii :=
  (λ i, hex_digit (v / 16 ^ (n - 1 - i) mod 16)) <$> seqZ 0 n.

(** The value of a hexadecimal numeral, [None] for anything else. *)
Definition hex_digit_value (c : ascii) : option Z :=
  let k := char_code c in
  if decide (48 ≤ k ≤ 57) then Some (k - 48) else
  if decide (65 ≤ k ≤ 70) then Some (k - 55) else None.
Fixpoint read_digits (acc : Z) (l : list ascii) : option Z :=
  match l with
  | [] => Some acc
  | c :: l => d ← hex_digit_value c; read_digits (16 * acc + d) l
  end.
Definition read_hex (t : string) : option Z :=
  match String.list_ascii_of_string t with
  | "0"%char :: "x"%char :: l => read_digits 0 l
  | _ => None
  end.

Lemma hex_digit_read d :
  0 ≤ d < 16 → hex_digit_value (hex_digit d) = Some d ∧ hex_digit d ≠ NUL ∧
    array_get hex d = Some (hex_digit d).
Proof.
  intros Hd. assert (d ∈ seqZ 0 16) as Hin by (apply elem_of_seqZ; lia). revert Hin.
  change (seqZ 0 16) with [0;1;2;3;4;5;6;7;8;9;10;11;12;13;14;15].
  rewrite !elem_of_cons, elem_of_nil.
  intros H. repeat destruct H as [->|H]; try done; by split_and!; vm_compute.
Qed.

Lemma hex_nibble v k : 0 ≤ k → Z.land (Z.shiftr v (4 * k)) 0xF = v / 16 ^ k mod 16.
Proof.
  intros Hk. change 0xF with (2 ^ 4 - 1). rewrite land_mask by lia.
  rewrite Z.shiftr_div_pow2 by lia. by rewrite Z.pow_mul_r by lia.
Qed.

Lemma set_char_at i c l :
  0 ≤ i < Z.of_nat (length l) → set_char i c l = Ret tt (<[Z.to_nat i := c]> l).
Proof. intros Hi. unfold set_char. rewrite bind_get. by rewrite array_set_lt. Qed.

(** The digit loop of [format_hex32] ([n] = 8) and [format_hex64] (16). *)
Lemma hex_loop n v a b c l :
  0 ≤ n ≤ 16 → 0 ≤ v → Z.of_nat (length l) = n →
  for_u32 n (λ i,
    let shift := u32 (u32 (n - 1 - i) * 4) in
    digit ← from_option (array_get hex (Z.land (Z.shiftr v shift) 0xF));
    set_char (u32 (2 + i)) digit) (a :: b :: l ++ [c]) =
  Ret tt (a :: b :: hex_digits n v ++ [c]).
Proof.
  intros Hn Hv Hlen.
  apply (for_u32_fill (λ d _, a :: b :: d ++ [c]) _
    (λ i, hex_digit (v / 16 ^ (n - 1 - i) mod 16)) n l []); [lia|done|].
  intros d i Hi Hd. cbv zeta. rewrite (u32_id (n - 1 - i)), (u32_id (_ * 4)) by lia.
  rewrite (Z.mul_comm _ 4), hex_nibble by lia.
  destruct (hex_digit_read (v / 16 ^ (n - 1 - i) mod 16)) as (_ & _ & E); [lia|].
  rewrite (bind_from_option _ _ _ _ E), u32_id by lia.
  rewrite set_char_at by (simpl; rewrite length_app; lia). f_equal.
  replace (Z.to_nat (2 + i)) with (S (S (Z.to_nat i))) by lia. simpl.
  by rewrite insert_app_l by lia.
Qed.

Lemma c_string_app l c l' :
  Forall (λ c, c ≠ NUL) l → c = NUL →
  String.list_ascii_of_string (c_string (l ++ c :: l')) = l.
Proof.
  intros Hl ->. induction Hl as [|x l Hx Hl IH]; cbn [app c_string]; [by rewrite decide_True|].
  rewrite decide_False by done. simpl. by rewrite IH.
Qed.

Lemma hex_digits_ok n v : Forall (λ c, c ≠ NUL) (hex_digits n v).
Proof.
  apply Forall_forall. intros c (i & -> & _)%list_elem_of_fmap.
  by destruct (hex_digit_read (v / 16 ^ (n - 1 - i) mod 16)) as (_ & ? & _); [lia|].
Qed.

(** Reading the digits back, most significant first. *)
Lemma read_hex_digits n v :
  0 ≤ n → 0 ≤ v < 16 ^ n → read_digits 0 (hex_digits n v) = Some v.
Proof.
  intros Hn Hv.
  assert (∀ k, 0 ≤ k → k ≤ n →
    read_digits (v / 16 ^ k) ((λ i, hex_digit (v / 16 ^ (n - 1 - i) mod 16)) <$> seqZ (n - k) k) =
      Some v) as Hk.
  { apply (natlike_ind (λ k, k ≤ n → _)); [intros _; by rewrite Z.div_1_r|]. intros k Hk IH Hle.
    rewrite seqZ_cons by lia. cbn [fmap list_fmap read_digits].
    replace (n - 1 - (n - Z.succ k)) with k by lia.
    destruct (hex_digit_read (v / 16 ^ k mod 16)) as (-> & _); [lia|]. cbn [mbind option_bind].
    replace (Z.succ (n - Z.succ k)) with (n - k) by lia. rewrite Z.pred_succ.
    assert (v / 16 ^ Z.succ k = v / 16 ^ k / 16) as ->
      by (rewrite Z.pow_succ_r, Z.mul_comm, Z.div_div by lia; done).
    generalize dependent (v / 16 ^ k). intros q IH.
    replace (16 * (q / 16) + q mod 16) with q by lia. apply IH. lia. }
  specialize (Hk n Hn ltac:(lia)). rewrite Z.div_small in Hk by lia.
  by rewrite Z.sub_diag in Hk.
Qed.

(** The whole of a conversion: both functions run this on their buffer. *)
Lemma format_hex_run n v :
  0 ≤ n ≤ 16 → is_u64 v →
  (set_char 0 "0"%char ;; set_char 1 "x"%char ;;
   for_u32 n (λ i,
     let shift := u32 (u32 (n - 1 - i) * 4) in
     digit ← from_option (array_get hex (Z.land (Z.shiftr v shift) 0xF));
     set_char (u32 (2 + i)) digit) ;;
   set_char (n + 2) NUL) (replicate (Z.to_nat n + 3) NUL) =
  Ret tt ("0"%char :: "x"%char :: hex_digits n v ++ [NUL]).
Proof.
  intros Hn Hv. rewrite Nat.add_comm.
  change (replicate (3 + Z.to_nat n) NUL) with (NUL :: NUL :: replicate (S (Z.to_nat n)) NUL).
  rewrite <- replicate_snoc.
  assert (∀ r, set_char 0 "0"%char (NUL :: NUL :: r) = Ret tt ("0"%char :: NUL :: r)) as E0
    by (intros r; by rewrite set_char_at by (simpl; lia)).
  assert (∀ r, set_char 1 "x"%char ("0"%char :: NUL :: r) = Ret tt ("0"%char :: "x"%char :: r)) as E1
    by (intros r; by rewrite set_char_at by (simpl; lia)).
  mrun (E0 (replicate (Z.to_nat n) NUL ++ [NUL])). mrun (E1 (replicate (Z.to_nat n) NUL ++ [NUL])).
  mrun (hex_loop n v "0" "x" NUL (replicate (Z.to_nat n) NUL) Hn ltac:(lia)
    ltac:(rewrite length_replicate; lia)).
  assert (length (hex_digits n v) = Z.to_nat n) as Hlen
    by (unfold hex_digits; by rewrite length_fmap, length_seqZ).
  rewrite set_char_at by (simpl; rewrite length_app; simpl; lia). f_equal.
  replace (Z.to_nat (n + 2)) with (S (S (length (hex_digits n v) + 0))) by lia.
  cbn [insert list_insert app]. do 2 f_equal. exact (insert_app_r (hex_digits n v) [NUL] 0 NUL).
Qed.

Definition hex_text (n v : Z) : string :=
  c_string ("0"%char :: "x"%char :: hex_digits n v ++ [NUL]).

Lemma with_buffer_run {S T A} (t : T) (m : M T A) a t' (s : S) :
  m t = Ret a t' → with_buffer t m s = Ret t' s.
Proof. unfold with_buffer. by intros ->. Qed.

Lemma hex32_text_run {S} v (s : S) : is_u32 v → hex32_text v s = Ret (hex_text 8 v) s.
Proof.
  intros Hv. unfold hex32_text.
  by mrun (with_buffer_run _ (format_hex32 v) _ _ s (format_hex_run 8 v ltac:(lia) ltac:(lia))).
Qed.

Lemma hex64_text_run {S} v (s : S) : is_u64 v → hex64_text v s = Ret (hex_text 16 v) s.
Proof.
  intros Hv. unfold hex64_text.
  by mrun (with_buffer_run _ (format_hex64 v) _ _ s (format_hex_run 16 v ltac:(lia) Hv)).
Qed.

Lemma hex_text_chars n v :
  String.list_ascii_of_string (hex_text n v) = "0"%char :: "x"%char :: hex_digits n v.
Proof.
  unfold hex_text. apply (c_string_app ("0"%char :: "x"%char :: hex_digits n v) NUL []); [|done].
  repeat (constructor; [done|]). apply hex_digits_ok.
Qed.

Lemma hex_text_spec n v :
  0 ≤ n → 0 ≤ v < 16 ^ n →
  Z.of_nat (String.length (hex_text n v)) = n + 2 ∧ read_hex (hex_text n v) = Some v.
Proof.
  intros Hn Hv. unfold read_hex. rewrite hex_text_chars. split; [|by apply read_hex_digits].
  rewrite <- (String.string_of_list_ascii_of_string (hex_text n v)), hex_text_chars.
  assert (∀ l, String.length (String.string_of_list_ascii l) = length l) as ->
    by (induction l; simpl; congruence).
  simpl. unfold hex_digits. rewrite length_fmap, length_seqZ. lia.
Qed.

(** C37. The texts printed for 32- and 64-bit values read back as those values:
    "0x" and 8 or 16 upper-case digits, most significant first. *)
Theorem hex_texts_roundtrip {S} (s : S) :
  (∀ v, is_u32 v → ∃ t, hex32_text v s = Ret t s ∧ String.length t = 10%nat ∧ read_hex t = Some v) ∧
  (∀ v, is_u64 v → ∃ t, hex64_text v s = Ret t s ∧ String.length t = 18%nat ∧ read_hex t = Some v).
Proof.
  split; intros v Hv; eexists; (split; [by rewrite ?hex32_text_run, ?hex64_text_run|]).
  - destruct (hex_text_spec 8 v); [lia|done|]. split; [lia|done].
  - destruct (hex_text_spec 16 v); [lia|done|]. split; [lia|done].
Qed.

(** ** The serial line *)
Section serial.
Context `{KL : KernelLayout, KI : KernelImage, PO : Ports}.
Implicit Types s : console.

(** Bit 5 of the line status register is set within [n] reads of it. *)
Fixpoint uart_ready_within (n : nat) (p : ports) : Prop :=
  match n with
  | O => False
  | S n =>
      let '(status, p') := port_read (COM1_PORT + 5) p in
      Z.land (u8 status) 0x20 ≠ 0 ∨ uart_ready_within n p'
  end.

(** The transmitter of the UART becomes ready, whatever was done to it. *)
Class UartReady : Prop := { uart_ready p : uart_ready_within port_polls p }.

(** What went out on the data port, oldest first. *)
Definition data_byte (e : port_event) : option Z :=
  match e with
  | PortOut port value => if port =? COM1_PORT then Some value else None
  | PortIn _ _ => None
  end.
Definition transmitted (log : list port_event) : list Z := rev (omap data_byte log).

(** Status reads and data writes. *)
Definition serial_event (e : port_event) : Prop :=
  (∃ v, e = PortIn (COM1_PORT + 5) v) ∨ ∃ v, e = PortOut COM1_PORT v.

(** From [s] to [s'] the bytes went out and nothing else happened. *)
Record sends (bytes : list Z) (s s' : console) : Prop := {
  sends_memory : con_memory s' = con_memory s;
  sends_log : ∃ evs, con_log s' = evs ++ con_log s ∧ transmitted evs = bytes ∧
    Forall serial_event evs;
}.

Lemma sends_nil s : sends [] s s.
Proof. split; [done|]. by exists []. Qed.

Lemma sends_trans b1 b2 s1 s2 s3 : sends b1 s1 s2 → sends b2 s2 s3 → sends (b1 ++ b2) s1 s3.
Proof.
  intros [Hm1 (e1 & E1 & H1 & F1)] [Hm2 (e2 & E2 & H2 & F2)]. split; [congruence|].
  exists (e2 ++ e1). split; [by rewrite E2, E1, app_assoc|]. split; [|by apply Forall_app].
  unfold transmitted in *. by rewrite omap_app, rev_app_distr, H1, H2.
Qed.

Lemma wait_ready (UR : UartReady) s :
  ∃ s', loop (S port_polls) (λ _ : unit,
      ready ← serial_tx_ready;
      if ready : bool then break tt else continue tt) tt s = Ret tt s' ∧ sends [] s s'.
Proof.
  generalize (uart_ready (con_ports s)). generalize port_polls. intros n.
  revert s. induction n as [|n IH]; intros s; [done|]. cbn [uart_ready_within].
  destruct (port_read (COM1_PORT + 5) (con_ports s)) as [v p'] eqn:E. cbv beta iota. intros H.
  set (s1 := mk_console _ (con_memory s) p' (PortIn (COM1_PORT + 5) (u8 v) :: con_log s)).
  assert (serial_tx_ready s = Ret (negb (Z.land (u8 v) 0x20 =? 0)) s1) as Er.
  { unfold serial_tx_ready, inb. unfold mbind, M_bind, get. by rewrite E. }
  assert (sends [] s s1) as Hs1.
  { split; [done|]. exists [PortIn (COM1_PORT + 5) (u8 v)]. split; [done|]. split; [done|].
    apply Forall_singleton. left. by exists (u8 v). }
  destruct (Z.land (u8 v) 0x20 =? 0) eqn:Ev.
  - destruct H as [H|H]; [lia|]. destruct (IH s1 H) as (s' & Es' & Hs').
    exists s'. split; [|exact (sends_trans [] [] _ _ _ Hs1 Hs')].
    erewrite loop_step; cycle 1; [mrun Er; reflexivity|exact Es'].
  - exists s1. split; [|done]. erewrite loop_step; cycle 1; [mrun Er; reflexivity|done].
Qed.

Lemma serial_write_char_sends (UR : UartReady) c s :
  ∃ s', serial_write_char c s = Ret tt s' ∧ sends [char_code c] s s'.
Proof.
  destruct (wait_ready UR s) as (s1 & E & H1).
  set (s2 := mk_console _ (con_memory s1) (port_write COM1_PORT (char_code c) (con_ports s1))
    (PortOut COM1_PORT (char_code c) :: con_log s1)).
  exists s2. split; [unfold serial_write_char; by mrun E|].
  eapply (sends_trans []); [exact H1|]. split; [done|].
  exists [PortOut COM1_PORT (char_code c)]. split; [done|]. split; [done|].
  apply Forall_singleton. right. by exists (char_code c).
Qed.

(** The bytes of a text on the line: a carriage return before every newline. *)
Fixpoint crlf (text : string) : list Z :=
  match text with
  | EmptyString => []
  | String c text => (if decide (c = LF) then [char_code CR] else []) ++ char_code c :: crlf text
  end.

Fixpoint c_text (text : string) : Prop :=
  match text with EmptyString => True | String c text => c ≠ NUL ∧ c_text text end.

Lemma text_length_app t1 t2 : String.length (t1 ++ t2) = (String.length t1 + String.length t2)%nat.
Proof. induction t1 as [|c t1 IH]; [done|]. exact (f_equal S IH). Qed.
Lemma text_app_cons t1 c t2 : (t1 ++ String c t2 = (t1 ++ String c EmptyString) ++ t2)%string.
Proof. induction t1 as [|d t1 IH]; [done|]. exact (f_equal (String d) IH). Qed.

Lemma text_get_app t1 t2 :
  text_get (t1 ++ t2) (Z.of_nat (String.length t1)) =
    match t2 with EmptyString => NUL | String c _ => c end.
Proof.
  unfold text_get. rewrite Nat2Z.id, <- (Nat.add_0_l (String.length t1)).
  rewrite <- String.append_correct2. by destruct t2.
Qed.

Lemma serial_write_text_sends (UR : UartReady) text s :
  c_text text → Z.of_nat (String.length text) < 0x10000 →
  ∃ s', serial_write_text text s = Ret tt s' ∧ sends (crlf text) s s'.
Proof.
  intros Hc Hlen. unfold serial_write_text.
  assert (∀ t2 t1 s n, text = (t1 ++ t2)%string → n = String.length t2 → c_text t2 →
    ∃ s', loop (S n) (λ i,
      let c := text_get text i in
      if decide (c = NUL) then break tt else
      (if decide (c = LF) then serial_write_char CR else mret tt) ;;
      serial_write_char c ;;
      continue (u16 (i + 1))) (Z.of_nat (String.length t1)) s = Ret tt s' ∧ sends (crlf t2) s s')
    as Hloop; [|by apply (Hloop text EmptyString)].
  clear s Hc. induction t2 as [|c t2 IH]; intros t1 s n Et -> Hc.
  { exists s. split; [|apply sends_nil]. erewrite loop_step; cycle 1.
    { cbv zeta. rewrite Et, text_get_app. by rewrite decide_True. }
    done. }
  destruct Hc as [Hn Hc].
  assert (∃ s1, (if decide (c = LF) then serial_write_char CR else mret tt) s = Ret tt s1 ∧
    sends (if decide (c = LF) then [char_code CR] else []) s s1) as (s1 & E1 & H1).
  { case_decide; [by apply serial_write_char_sends|]. exists s. split; [done|apply sends_nil]. }
  destruct (serial_write_char_sends UR c s1) as (s2 & E2 & H2).
  assert (String.length text = String.length t1 + S (String.length t2))%nat as Elen
    by (by rewrite Et, text_length_app).
  destruct (IH (t1 ++ String c EmptyString)%string s2 (String.length t2)) as (s3 & E3 & H3);
    [by rewrite Et, text_app_cons|done|done|].
  exists s3. split.
  - erewrite loop_step; cycle 1.
    { cbv zeta. rewrite Et, text_get_app. rewrite decide_False by done.
      mrun E1. mrun E2. reflexivity. }
    cbn beta iota. rewrite u16_id by lia. rewrite text_length_app in E3. simpl in E3.
    by replace (Z.of_nat (String.length t1) + 1) with (Z.of_nat (String.length t1 + 1)) by lia.
  - cbn [crlf]. eapply sends_trans; [exact H1|]. eapply (sends_trans [_]); [exact H2|exact H3].
Qed.
End serial.

(** ** The screen *)
Section screen.
Context `{KL : KernelLayout, KI : KernelImage, PO : Ports}.
Implicit Types m : memory.

Definition cell_addr (row col : Z) : Z := VGA_TEXT_BUFFER + 2 * (row * VGA_WIDTH + col).
Definition screen_cell m (row col : Z) : Z :=
  vbyte m (cell_addr row col) + 0x100 * vbyte m (cell_addr row col + 1).
Definition on_screen (row col : Z) : Prop := 0 ≤ row < VGA_HEIGHT ∧ 0 ≤ col < VGA_WIDTH.
(** The bytes of the 2000 cells. *)
Definition screen : Z → Prop := within VGA_TEXT_BUFFER (VGA_TEXT_BUFFER + 4000).
#[local] Hint Unfold VGA_TEXT_BUFFER VGA_WIDTH VGA_HEIGHT VGA_ATTR : consts.

Lemma char_code_u8 c : is_u8 (char_code c).
Proof. unfold char_code. pose proof (N_ascii_bounded c). lia. Qed.

Lemma vga_cell_eq c : vga_cell c = 0xF00 + char_code c.
Proof.
  pose proof (char_code_u8 c). unfold vga_cell. apply (lor_add _ _ 8); [lia|reflexivity|].
  change (2 ^ 8) with 0x100. lia.
Qed.

(** Storing one cell. *)
Lemma store_cell m (D : Z → Prop) row col v :
  usable m D → (∀ a, screen a → D a) → on_screen row col → is_u16 v →
  ∃ m', store16 (cell_addr row col) v m = Ret tt m' ∧ same_paging m m' ∧
    (∀ r c, on_screen r c →
      screen_cell m' r c = if decide (r = row ∧ c = col) then v else screen_cell m r c) ∧
    ∀ a, D a → ¬ screen a → vbyte m' a = vbyte m a.
Proof.
  intros Hu HD [Hr Hc] Hv. unfold store16. set (a := cell_addr row col).
  assert (screen a ∧ screen (a + 1) ∧ is_u32 (a + 1)) as (Ha & Ha1 & H32)
    by (unfold a, cell_addr, screen, within; zlia).
  destruct (store8_written m D a (Z.land v 0xFF) Hu (HD a Ha)) as (m1 & E1 & Hp1 & Hw1 & Ho1).
  destruct (store8_written m1 D (a + 1) (Z.shiftr v 8) (usable_same m m1 D Hp1 Hu) (HD _ Ha1))
    as (m2 & E2 & Hp2 & Hw2 & Ho2).
  exists m2. split; [mrun E1; by rewrite u32_id|]. split; [unfold same_paging in *; congruence|].
  assert (u8 (Z.land v 0xFF) + 0x100 * u8 (Z.shiftr v 8) = v) as Hval.
  { change 0xFF with (2 ^ 8 - 1). rewrite land_mask, Z.shiftr_div_pow2 by lia.
    change (2 ^ 8) with 0x100. unfold u8. lia. }
  split.
  - intros r c [Hr' Hc']. unfold screen_cell.
    assert (screen (cell_addr r c) ∧ screen (cell_addr r c + 1)) as [Hs Hs1]
      by (unfold cell_addr, screen, within; zlia).
    case_decide as Heq.
    + destruct Heq as [-> ->]. fold a. rewrite (Ho2 a), Hw1, Hw2 by (auto; lia). exact Hval.
    + assert (cell_addr r c ≠ a ∧ cell_addr r c ≠ a + 1 ∧ cell_addr r c + 1 ≠ a)
        as (? & ? & ?) by (unfold a, cell_addr; zlia).
      rewrite !Ho2, !Ho1 by (auto; lia). done.
  - intros b Hb Hno. rewrite Ho2, Ho1; [done|done| |done|]; by intros ->.
Qed.

(** What a write to the screen may do: set cells, nothing else. *)
Record draws (cell : Z → Z → Z) (D : Z → Prop) m m' : Prop := {
  draws_paging : same_paging m m';
  draws_cells r c : on_screen r c → screen_cell m' r c = cell r c;
  draws_other a : D a → ¬ screen a → vbyte m' a = vbyte m a;
}.

Definition text_cell (text : string) (row col : Z) m (r c : Z) : Z :=
  if decide (r = row ∧ col ≤ c < col + Z.of_nat (String.length text))
  then vga_cell (text_get text (c - col)) else screen_cell m r c.

Lemma text_get_cons c text i : 1 ≤ i → text_get (String c text) i = text_get text (i - 1).
Proof.
  intros Hi. unfold text_get. replace (Z.to_nat i) with (S (Z.to_nat (i - 1))) by lia. done.
Qed.

Lemma write_text_at_draws D text row col s :
  usable (con_memory s) D → (∀ a, screen a → D a) → 0 ≤ row < VGA_HEIGHT → 0 ≤ col →
  col ≤ VGA_WIDTH → c_text text →
  ∃ m', write_text_at text row col s = Ret tt (set_con_memory m' s) ∧
    draws (text_cell text row col (con_memory s)) D (con_memory s) m'.
Proof.
  intros Hu HD Hrow Hcol Hcol' Hc. unfold write_text_at, zoom. cbn [view over con_memory_lens].
  revert Hu. generalize (con_memory s). intros m Hu.
  enough (∃ m', loop (S (String.length text)) (λ '(text, col),
    match text with
    | String c rest =>
        if negb (bool_decide (c = NUL)) && (col <? VGA_WIDTH) then
          store16 (VGA_TEXT_BUFFER + 2 * (row * VGA_WIDTH) + 2 * col) (vga_cell c) ;;
          continue (rest, u16 (col + 1))
        else break tt
    | EmptyString => break tt
    end) (text, col) m = Ret tt m' ∧ draws (text_cell text row col m) D m m') as (m' & E & ?).
  { exists m'. by rewrite E. }
  revert col Hcol Hcol' Hc m Hu. induction text as [|c text IH]; intros col Hcol Hcol' Hc m Hu.
  { exists m. split; [done|]. constructor; try done. intros r k _. unfold text_cell. simpl.
    rewrite decide_False by lia. done. }
  destruct Hc as [Hn Hc]. destruct (Z.ltb_spec col VGA_WIDTH) as [Hlt|Hge]; cycle 1.
  { exists m. split.
    { erewrite loop_step; cycle 1.
      { rewrite (proj2 (Z.ltb_ge _ _)) by done. rewrite andb_false_r. reflexivity. }
      done. }
    constructor; try done. intros r k [_ Hk]. unfold text_cell.
    rewrite decide_False by lia. done. }
  destruct (store_cell m D row col (vga_cell c) Hu HD) as (m1 & E1 & Hp1 & Hc1 & Ho1); [done| |].
  { rewrite vga_cell_eq. pose proof (char_code_u8 c). lia. }
  destruct (IH (col + 1) ltac:(lia) ltac:(lia) Hc m1 (usable_same m m1 D Hp1 Hu)) as (m' & E & [Hp' Hc' Ho']).
  exists m'. split.
  - erewrite loop_step; cycle 1.
    { rewrite bool_decide_false by done. rewrite (proj2 (Z.ltb_lt _ _)) by done. cbn [negb andb].
      replace (VGA_TEXT_BUFFER + 2 * (row * VGA_WIDTH) + 2 * col) with (cell_addr row col)
        by (unfold cell_addr; lia).
      mrun E1. reflexivity. }
    cbn beta iota. rewrite u16_id by zlia. exact E.
  - constructor.
    + unfold same_paging in *. congruence.
    + intros r k Hrk. rewrite Hc' by done. unfold text_cell. rewrite Hc1 by done.
      cbn [String.length]. rewrite Nat2Z.inj_succ.
      destruct (decide (r = row ∧ k = col)) as [[-> ->]|Hne].
      * rewrite decide_False by lia. rewrite decide_True by lia. by rewrite Z.sub_diag.
      * destruct (decide (r = row ∧ col + 1 ≤ k < _)) as [[-> Hk]|Hno].
        -- rewrite decide_True by lia. rewrite text_get_cons by lia. do 2 f_equal. lia.
        -- by rewrite decide_False by lia.
    + intros a Ha Hno. rewrite Ho', Ho1; done.
Qed.

Definition blank_below (i : Z) m (r c : Z) : Z :=
  if decide (r * VGA_WIDTH + c < i) then vga_cell " " else screen_cell m r c.

Lemma clear_screen_draws D s :
  usable (con_memory s) D → (∀ a, screen a → D a) →
  ∃ m', clear_screen s = Ret tt (set_con_memory m' s) ∧
    draws (λ _ _, vga_cell " ") D (con_memory s) m'.
Proof.
  intros Hu HD. unfold clear_screen, zoom. cbn [view over con_memory_lens].
  revert Hu. generalize (con_memory s). intros m Hu.
  enough (wp (loop (S (Z.to_nat (VGA_WIDTH * VGA_HEIGHT))) (λ i,
    if i <? VGA_WIDTH * VGA_HEIGHT then
      store16 (VGA_TEXT_BUFFER + 2 * i) (vga_cell " ") ;;
      continue (u16 (i + 1))
    else break tt) 0) (λ _ m', draws (λ _ _, vga_cell " ") D m m') m) as Hwp.
  { apply wp_run in Hwp as ([] & m' & E & Hd). exists m'. by rewrite E. }
  apply (wp_loop (λ i m', 0 ≤ i ≤ VGA_WIDTH * VGA_HEIGHT ∧ draws (blank_below i m) D m m')
    (λ i _, VGA_WIDTH * VGA_HEIGHT - i)); [|clear s|zlia|zlia].
  { split; [zlia|]. constructor; [done| |done]. intros r c [Hr Hc]. unfold blank_below.
    rewrite decide_False by zlia. done. }
  intros i m1 [Hi [Hp Hc Ho]]. destruct (Z.ltb_spec i (VGA_WIDTH * VGA_HEIGHT)) as [Hlt|Hge].
  - destruct (store_cell m1 D (i / VGA_WIDTH) (i mod VGA_WIDTH) (vga_cell " ")
      (usable_same m m1 D Hp Hu) HD) as (m2 & E & Hp2 & Hc2 & Ho2);
      [split; zlia|rewrite vga_cell_eq; pose proof (char_code_u8 " "); lia|].
    wp_step. eapply wp_Ret.
    { replace (VGA_TEXT_BUFFER + 2 * i) with (cell_addr (i / VGA_WIDTH) (i mod VGA_WIDTH))
        by (unfold cell_addr; zlia). exact E. }
    wp_steps. rewrite u16_id by zlia. split; [|lia]. split; [lia|].
    constructor; [unfold same_paging in *; congruence| |intros a Ha Hno; rewrite Ho2, Ho; done].
    intros r c Hrc. rewrite Hc2, Hc by done. unfold blank_below. destruct Hrc as [Hr Hcol].
    repeat case_decide; try done; zlia.
  - wp_steps. constructor; [done| |done]. intros r c Hrc. rewrite Hc by done.
    unfold blank_below. destruct Hrc as [Hr Hcol]. by rewrite decide_True by zlia.
Qed.

(** C36. Writing a text puts its characters, white on black, into the cells from
    [col] on, clips it at the right edge and changes no other cell and no
    memory off the screen; the ports are not touched. *)
Theorem write_text_at_correct D text row col s :
  usable (con_memory s) D → (∀ a, screen a → D a) → 0 ≤ row < VGA_HEIGHT →
  0 ≤ col ≤ VGA_WIDTH → c_text text →
  ∃ m', write_text_at text row col s = Ret tt (set_con_memory m' s) ∧
    draws (text_cell text row col (con_memory s)) D (con_memory s) m'.
Proof. intros Hu HD Hr [H0 H1] Hc. by apply write_text_at_draws. Qed.

(** Clearing the screen blanks all 25 rows of 80 cells and nothing else. *)
Theorem clear_screen_correct D s :
  usable (con_memory s) D → (∀ a, screen a → D a) →
  ∃ m', clear_screen s = Ret tt (set_con_memory m' s) ∧
    draws (λ _ _, vga_cell " ") D (con_memory s) m'.
Proof. apply clear_screen_draws. Qed.
End screen.

Section printing.
Context `{KL : KernelLayout, KI : KernelImage, PO : Ports, UR : !UartReady}.
Implicit Types s : console.

(** C38. A text goes out on the serial line byte by byte with a carriage return
    before every newline; memory is not touched, and the polling ends. *)
Theorem serial_write_text_correct text s :
  c_text text → Z.of_nat (String.length text) < 0x10000 →
  ∃ s', serial_write_text text s = Ret tt s' ∧ sends (crlf text) s s'.
Proof. by apply serial_write_text_sends. Qed.

Lemma c_text_chars t : c_text t ↔ Forall (λ c, c ≠ NUL) (String.list_ascii_of_string t).
Proof.
  induction t as [|c t IH]; simpl; [split; [constructor|done]|].
  by rewrite Forall_cons, IH.
Qed.

Lemma hex_text_c n v : c_text (hex_text n v).
Proof. apply c_text_chars. rewrite hex_text_chars. repeat (constructor; [done|]). apply hex_digits_ok. Qed.

Lemma serial_hex_sends n label v s :
  0 ≤ n ≤ 16 → 0 ≤ v < 16 ^ n → c_text label → Z.of_nat (String.length label) < 0x10000 →
  ∃ s', (serial_write_text label ;; serial_write_text (hex_text n v) ;; serial_write_text newline) s =
      Ret tt s' ∧ sends (crlf label ++ crlf (hex_text n v) ++ [13; 10]) s s'.
Proof.
  intros Hn Hv Hl Hlen. destruct (serial_write_text_sends UR label s Hl Hlen) as (s1 & E1 & H1).
  destruct (hex_text_spec n v ltac:(lia) Hv) as [Hhex _].
  destruct (serial_write_text_sends UR (hex_text n v) s1 (hex_text_c n v) ltac:(lia)) as (s2 & E2 & H2).
  destruct (serial_write_text_sends UR newline s2 ltac:(done) ltac:(simpl; lia)) as (s3 & E3 & H3).
  exists s3. split; [by mrun E1; mrun E2|].
  eapply sends_trans; [exact H1|]. eapply sends_trans; [exact H2|exact H3].
Qed.

(** A labelled value is printed as the label, the hexadecimal text of the
    value and an end of line. *)
Theorem serial_write_label_hex_correct label v s :
  c_text label → Z.of_nat (String.length label) < 0x10000 →
  (is_u32 v → ∃ s', serial_write_label_hex label v s = Ret tt s' ∧
     sends (crlf label ++ crlf (hex_text 8 v) ++ [13; 10]) s s') ∧
  (is_u64 v → ∃ s', serial_write_label_hex64 label v s = Ret tt s' ∧
     sends (crlf label ++ crlf (hex_text 16 v) ++ [13; 10]) s s').
Proof.
  intros Hl Hlen. split; intros Hv.
  - unfold serial_write_label_hex. mrun (hex32_text_run v s Hv). by apply serial_hex_sends.
  - unfold serial_write_label_hex64. mrun (hex64_text_run v s Hv). by apply serial_hex_sends.
Qed.
End printing.

(** ** A UART that is always ready *)
Section witnesses.
#[local] Existing Instance qemu_layout.
#[local] Existing Instance qemu_image.

(** Every port reads as all ones, writes vanish. *)
Definition idle_ports : Ports :=
  {| ports := unit; port_read _ p := (0xFF, p); port_write _ _ p := p; port_polls := 1 |}.
#[local] Existing Instance idle_ports.

Lemma idle_ready : UartReady.
Proof. constructor. intros p. simpl. left. discriminate. Qed.

Definition demo_console : console := mk_console _ flat_memory tt [].

Lemma demo_screen : usable flat_memory screen.
Proof.
  apply usable_flat; [reflexivity|]. unfold screen, within, in_kernel_image. simpl.
  unfold VGA_TEXT_BUFFER. intros va Hva. lia.
Qed.

Lemma hex_texts_roundtrip_witness :
  ∃ t, hex32_text 0xDEADBEEF tt = Ret t tt ∧ read_hex t = Some 0xDEADBEEF.
Proof.
  destruct (proj1 (hex_texts_roundtrip tt) 0xDEADBEEF ltac:(lia)) as (t & E & _ & Hr).
  exists t. split; [exact E|exact Hr].
Defined.

Lemma write_text_at_correct_witness :
  ∃ m', write_text_at "PANIC" 2 77 demo_console = Ret tt (set_con_memory m' demo_console) ∧
    screen_cell m' 2 79 = vga_cell "N" ∧ screen_cell m' 3 0 = screen_cell flat_memory 3 0.
Proof.
  destruct (write_text_at_correct screen "PANIC" 2 77 demo_console demo_screen (λ _ H, H))
    as (m' & E & [_ Hc _]); [unfold VGA_HEIGHT; lia|unfold VGA_WIDTH; lia|done|].
  exists m'. split; [exact E|].
  split; rewrite Hc by (unfold on_screen, VGA_HEIGHT, VGA_WIDTH; lia); reflexivity.
Defined.

Lemma clear_screen_correct_witness :
  ∃ m', clear_screen demo_console = Ret tt (set_con_memory m' demo_console) ∧
    screen_cell m' 24 79 = vga_cell " ".
Proof.
  destruct (clear_screen_correct screen demo_console demo_screen (λ _ H, H)) as (m' & E & [_ Hc _]).
  exists m'. split; [exact E|]. apply Hc. unfold on_screen, VGA_HEIGHT, VGA_WIDTH. lia.
Defined.

Lemma serial_write_text_correct_witness :
  ∃ s', serial_write_text newline demo_console = Ret tt s' ∧ sends [13; 10] demo_console s'.
Proof.
  exact (serial_write_text_correct (UR := idle_ready) newline demo_console ltac:(done)
    ltac:(simpl; lia)).
Defined.

Lemma serial_write_label_hex_correct_witness :
  ∃ s', serial_write_label_hex "eip: " 0x10000C demo_console = Ret tt s' ∧
    sends (crlf "eip: 0x0010000C" ++ [13; 10]) demo_console s'.
Proof.
  destruct (proj1 (serial_write_label_hex_correct (UR := idle_ready) "eip: " 0x10000C demo_console
    ltac:(done) ltac:(simpl; lia)) ltac:(lia)) as (s' & E & H).
  exists s'. split; [exact E|exact H].
Defined.
End witnesses.
