(* ===== verification/Interrupts.v ===== *)
(** * Interrupts ([init/stage0_main.c], lines 3126-3177 and 3277-3419)

    The interrupt controllers, the timer, the descriptor table, the two
    interrupt handlers and the ways the kernel stops: [panic] and
    [stage2_exception_dispatch].  A stop (the endless [cli; hlt] loop) is the
    outcome [Panic] of the monad.  The assembly stubs the gates point to and
    the code selector are parameters ([InterruptStubs]). *)
From Stdlib Require Import Ascii.
From S2P Require Import Prelude KernelMonad Paging Memory Console.
#[local] Open Scope Z_scope.

Definition IDT_ENTRIES : Z := 256.
Definition IDT_INT_GATE_PRESENT_RING0 : Z := 0x8E.
Definition IRQ_BASE_VECTOR : Z := 0x20.
Definition PIC1_COMMAND : Z := 0x20.
Definition PIC1_DATA : Z := 0x21.
Definition PIC2_COMMAND : Z := 0xA0.
Definition PIC2_DATA : Z := 0xA1.
Definition PIC_ICW1_INIT : Z := 0x10.
Definition PIC_ICW1_ICW4 : Z := 0x01.
Definition PIC_ICW4_8086 : Z := 0x01.
Definition PIC_EOI : Z := 0x20.
Definition PIT_CHANNEL0 : Z := 0x40.
Definition PIT_COMMAND : Z := 0x43.
Definition PIT_INPUT_HZ : Z := 1193182.
Definition PIT_TARGET_HZ : Z := 100.

(** Link-time addresses and the selector the boot code left in CS. *)
Class InterruptStubs := {
  isr_stub_divide_error : Z;
  isr_stub_breakpoint : Z;
  isr_stub_invalid_opcode : Z;
  isr_stub_general_protection : Z;
  isr_stub_page_fault : Z;
  irq_stub_timer : Z;
  irq_stub_keyboard : Z;
  addr_idt : Z;
  code_segment : Z;
}.

Record idt_entry := mk_idt_entry {
  offset_low : Z;
  idt_selector : Z;
  idt_zero : Z;
  type_attr : Z;
  offset_high : Z;
}.

Record idtr := mk_idtr { idtr_limit : Z; idtr_base : Z }.

(** The console and what the interrupt code keeps. *)
Record platform `{Ports} := mk_platform {
  plat_console : console;
  g_idt : list idt_entry;
  g_idtr : idtr;
  cpu_idtr : option idtr;      (* what [lidt] loaded *)
  g_timer_ticks : Z;
}.

Section interrupts.
Context `{KL : KernelLayout, KI : KernelImage, PO : Ports, IS : InterruptStubs}.
#[local] Abbreviation P := (M platform).

Definition set_plat_console c (s : platform) :=
  mk_platform _ c (g_idt s) (g_idtr s) (cpu_idtr s) (g_timer_ticks s).
Definition set_idt l (s : platform) :=
  mk_platform _ (plat_console s) l (g_idtr s) (cpu_idtr s) (g_timer_ticks s).
Definition set_ticks t (s : platform) :=
  mk_platform _ (plat_console s) (g_idt s) (g_idtr s) (cpu_idtr s) t.
Definition console_lens : lens platform console := Lens plat_console set_plat_console.

(** ** Interrupt controllers and timer *)
Definition pic_send_eoi (irq : Z) : M console unit :=
  (if irq >=? 8 then outb PIC2_COMMAND PIC_EOI else mret tt) ;;
  outb PIC1_COMMAND PIC_EOI.

Definition pic_set_masks (master_mask slave_mask : Z) : M console unit :=
  outb PIC1_DATA master_mask ;;
  outb PIC2_DATA slave_mask.

Definition pic_remap (master_offset slave_offset : Z) : M console unit :=
  master_mask ← inb PIC1_DATA;
  slave_mask ← inb PIC2_DATA;
  outb PIC1_COMMAND (u8 (Z.lor PIC_ICW1_INIT PIC_ICW1_ICW4)) ;;
  io_wait ;;
  outb PIC2_COMMAND (u8 (Z.lor PIC_ICW1_INIT PIC_ICW1_ICW4)) ;;
  io_wait ;;
  outb PIC1_DATA master_offset ;;
  io_wait ;;
  outb PIC2_DATA slave_offset ;;
  io_wait ;;
  outb PIC1_DATA 0x04 ;;
  io_wait ;;
  outb PIC2_DATA 0x02 ;;
  io_wait ;;
  outb PIC1_DATA PIC_ICW4_8086 ;;
  io_wait ;;
  outb PIC2_DATA PIC_ICW4_8086 ;;
  io_wait ;;
  outb PIC1_DATA master_mask ;;
  outb PIC2_DATA slave_mask.

Definition pit_init (target_hz : Z) : M console unit :=
  if target_hz =? 0 then undefined else
  let divisor := PIT_INPUT_HZ / target_hz in
  outb PIT_COMMAND 0x36 ;;
  outb PIT_CHANNEL0 (u8 (Z.land divisor 0xFF)) ;;
  outb PIT_CHANNEL0 (u8 (Z.land (Z.shiftr divisor 8) 0xFF)).

(** ** Descriptor table *)
Definition exception_name (vector : Z) : string :=
  match vector with
  | 0 => "#DE divide error"
  | 3 => "#BP breakpoint"
  | 6 => "#UD invalid opcode"
  | 13 => "#GP general protection"
  | 14 => "#PF page fault"
  | _ => "unknown exception"
  end.

Definition read_cs_selector : P Z := mret code_segment.

Definition idt_set_gate (vector handler selector : Z) : P unit :=
  let addr := handler in
  s ← get;
  l ← from_option (array_set (g_idt s) vector (mk_idt_entry
    (u16 (Z.land addr 0xFFFF)) selector 0 IDT_INT_GATE_PRESENT_RING0
    (u16 (Z.land (Z.shiftr addr 16) 0xFFFF))));
  modify (set_idt l).

Definition idt_clear : P unit :=
  for_u32 IDT_ENTRIES (λ i,
    s ← get;
    l ← from_option (array_set (g_idt s) i (mk_idt_entry 0 0 0 0 0));
    modify (set_idt l)).

Definition idt_install : P unit :=
  code_selector ← read_cs_selector;
  idt_clear ;;
  idt_set_gate 0 isr_stub_divide_error code_selector ;;
  idt_set_gate 3 isr_stub_breakpoint code_selector ;;
  idt_set_gate 6 isr_stub_invalid_opcode code_selector ;;
  idt_set_gate 13 isr_stub_general_protection code_selector ;;
  idt_set_gate 14 isr_stub_page_fault code_selector ;;
  idt_set_gate (u8 (IRQ_BASE_VECTOR + 0)) irq_stub_timer code_selector ;;
  idt_set_gate (u8 (IRQ_BASE_VECTOR + 1)) irq_stub_keyboard code_selector ;;
  modify (λ s, mk_platform _ (plat_console s) (g_idt s)
    (mk_idtr (u16 (8 * IDT_ENTRIES - 1)) addr_idt) (cpu_idtr s) (g_timer_ticks s)) ;;
  modify (λ s, mk_platform _ (plat_console s) (g_idt s) (g_idtr s)
    (Some (g_idtr s)) (g_timer_ticks s)).

(** ** Handlers *)
Definition stage3_irq0_handler : P unit :=
  modify (λ s, set_ticks (u32 (g_timer_ticks s + 1)) s) ;;
  s ← get;
  (if g_timer_ticks s mod PIT_TARGET_HZ =? 0 then
     zoom console_lens (serial_write_label_hex "custom-os Stage 6 tick: " (g_timer_ticks s))
   else mret tt) ;;
  zoom console_lens (pic_send_eoi 0).

Definition stage4_irq1_handler : P unit :=
  zoom console_lens (
    scancode ← inb 0x60;
    serial_write_label_hex "custom-os Stage 6 scancode: " scancode ;;
    pic_send_eoi 1).

(** ** Stopping *)
Definition panic {A} (reason : string) (detail : Z) : M console A :=
  detail_hex ← hex32_text detail;
  clear_screen ;;
  write_text "custom-os Stage 6 PANIC" 0 ;;
  write_text reason 1 ;;
  write_text "detail:" 2 ;;
  write_text_at detail_hex 2 8 ;;
  serial_write_text ("custom-os Stage 6 PANIC" +:+ newline) ;;
  serial_write_text reason ;;
  serial_write_text newline ;;
  serial_write_text "detail: " ;;
  serial_write_text detail_hex ;;
  serial_write_text newline ;;
  panic_with reason detail.

Definition stage2_exception_dispatch (vector error_code eip cs eflags : Z) : M console unit :=
  clear_screen ;;
  write_text "custom-os Stage 2 EXCEPTION" 0 ;;
  write_text (exception_name vector) 1 ;;
  write_hex_at_row "vector:" 3 8 vector ;;
  write_hex_at_row "error :" 4 8 error_code ;;
  write_hex_at_row "eip   :" 5 8 eip ;;
  write_hex_at_row "cs    :" 6 8 cs ;;
  write_hex_at_row "eflags:" 7 8 eflags ;;
  serial_write_text ("custom-os Stage 2 EXCEPTION" +:+ newline) ;;
  serial_write_text (exception_name vector) ;;
  serial_write_text newline ;;
  serial_write_label_hex "vector: " vector ;;
  serial_write_label_hex "error : " error_code ;;
  serial_write_label_hex "eip   : " eip ;;
  serial_write_label_hex "cs    : " cs ;;
  serial_write_label_hex "eflags: " eflags ;;
  panic_with (exception_name vector) error_code.
End interrupts.

(** ** The descriptor table *)
Section idt.
Context `{KL : KernelLayout, KI : KernelImage, PO : Ports, IS : InterruptStubs}.
Implicit Types s : platform.

(** What the processor finds for a vector: the selector and the handler of a
    present gate. *)
Definition gate_of (l : list idt_entry) (vector : Z) : option (Z * Z) :=
  e ← array_get l vector;
  if Z.testbit (type_attr e) 7 then Some (idt_selector e, offset_low e + 0x10000 * offset_high e)
  else None.

Definition handlers : list (Z * Z) :=
  [(0, isr_stub_divide_error); (3, isr_stub_breakpoint); (6, isr_stub_invalid_opcode);
   (13, isr_stub_general_protection); (14, isr_stub_page_fault);
   (0x20, irq_stub_timer); (0x21, irq_stub_keyboard)].

Class InterruptStubsOk : Prop := {
  stub_addr vector handler : (vector, handler) ∈ handlers → is_u32 handler;
}.

Definition same_but_idt s s' : Prop := s' = set_idt (g_idt s') s.

Lemma idt_set_gate_run vector handler selector s :
  length (g_idt s) = 256%nat → 0 ≤ vector < 256 → is_u32 handler →
  ∃ l, idt_set_gate vector handler selector s = Ret tt (set_idt l s) ∧ length l = 256%nat ∧
    ∀ v, 0 ≤ v < 256 →
      gate_of l v = if decide (v = vector) then Some (selector, handler) else gate_of (g_idt s) v.
Proof.
  intros Hlen Hv Hh. unfold idt_set_gate. cbv zeta. rewrite bind_get.
  set (e := mk_idt_entry _ selector 0 _ _). rewrite array_set_lt by lia.
  exists (<[Z.to_nat vector := e]> (g_idt s)). split; [done|]. split; [by rewrite length_insert|].
  intros v Hv'. unfold gate_of. rewrite array_get_insert by lia.
  repeat case_decide; try lia; [|done]. cbn [mbind option_bind type_attr].
  unfold e. cbn [type_attr idt_selector offset_low offset_high].
  change (Z.testbit IDT_INT_GATE_PRESENT_RING0 7) with true. cbn iota. do 2 f_equal.
  change 0xFFFF with (2 ^ 16 - 1). rewrite !land_mask, Z.shiftr_div_pow2 by lia.
  change (2 ^ 16) with 0x10000. unfold u16. lia.
Qed.

Lemma idt_clear_run s :
  length (g_idt s) = 256%nat →
  ∃ l, idt_clear s = Ret tt (set_idt l s) ∧ length l = 256%nat ∧
    ∀ v, 0 ≤ v < 256 → gate_of l v = None.
Proof.
  intros Hlen. exists ((λ _, mk_idt_entry 0 0 0 0 0) <$> seqZ 0 256).
  split; [|split; [by rewrite length_fmap, length_seqZ|]].
  - transitivity (idt_clear (set_idt (g_idt s) s)); [by destruct s|].
    unfold idt_clear. apply (for_u32_fill (λ l s, set_idt l s) _ (λ _, mk_idt_entry 0 0 0 0 0));
      [unfold IDT_ENTRIES; lia|by rewrite Hlen|].
    intros l i Hi Hl. rewrite bind_get. cbn [g_idt set_idt].
    rewrite array_set_lt by (unfold IDT_ENTRIES in Hi; lia). done.
  - intros v Hv. unfold gate_of, array_get. rewrite decide_True by lia.
    rewrite list_lookup_fmap, lookup_seqZ_lt by lia. done.
Qed.

Fixpoint assoc (gates : list (Z * Z)) (vector : Z) : option Z :=
  match gates with
  | [] => None
  | (v, h) :: gates => if decide (vector = v) then Some h else assoc gates vector
  end.

(** [s1] is [s] with exactly [gates] in the table. *)
Definition installed (gates : list (Z * Z)) s s1 : Prop :=
  ∃ l, s1 = set_idt l s ∧ length l = 256%nat ∧
    ∀ v, 0 ≤ v < 256 → gate_of l v = (λ h, (code_segment, h)) <$> assoc gates v.

Lemma installed_set_gate gates v h s s1 :
  installed gates s s1 → 0 ≤ v < 256 → is_u32 h →
  ∃ s2, idt_set_gate v h code_segment s1 = Ret tt s2 ∧ installed ((v, h) :: gates) s s2.
Proof.
  intros (l & -> & Hl & Hg) Hv Hh.
  destruct (idt_set_gate_run v h code_segment (set_idt l s) Hl Hv Hh) as (l2 & E & Hl2 & Hg2).
  exists (set_idt l2 s). split; [exact E|]. exists l2. split; [done|]. split; [done|].
  intros w Hw. rewrite Hg2 by done. cbn [assoc]. case_decide; [done|by apply Hg].
Qed.

Ltac set_gate H s1 :=
  let E := fresh in let H' := fresh in
  match goal with |- context [idt_set_gate ?v ?h _] =>
    destruct (installed_set_gate _ v h _ _ H) as (s1 & E & H');
      [change IRQ_BASE_VECTOR with 0x20; unfold u8; lia
      |apply (stub_addr v); unfold handlers; set_solver
      |clear H; rename H' into H; mrun E; clear E]
  end.

Lemma idt_install_run (OK : InterruptStubsOk) s :
  length (g_idt s) = 256%nat →
  ∃ s', idt_install s = Ret tt s' ∧ length (g_idt s') = 256%nat ∧
    (∀ v, 0 ≤ v < 256 → gate_of (g_idt s') v = (λ h, (code_segment, h)) <$> assoc handlers v) ∧
    cpu_idtr s' = Some (mk_idtr 2047 addr_idt) ∧
    plat_console s' = plat_console s ∧ g_timer_ticks s' = g_timer_ticks s.
Proof.
  intros Hlen. destruct (idt_clear_run s Hlen) as (l & E & Hl & Hg).
  assert (installed [] s (set_idt l s)) as H by (exists l; auto).
  unfold idt_install, read_cs_selector. rewrite bind_mret. mrun E. clear E.
  set_gate H s1. set_gate H s2. set_gate H s3. set_gate H s4. set_gate H s5. set_gate H s6.
  set_gate H s7. destruct H as (l7 & -> & Hl7 & Hg7). rewrite bind_modify.
  eexists. split; [reflexivity|]. split_and!; try done. cbn [g_idt set_idt].
  intros v Hv. rewrite Hg7 by done. f_equal. unfold handlers. cbn [assoc].
  change (u8 (IRQ_BASE_VECTOR + 0)) with 0x20. change (u8 (IRQ_BASE_VECTOR + 1)) with 0x21.
  repeat case_decide; try done; lia.
Qed.

(** C23. After installation the table has a present gate for exactly the five
    exceptions and the two interrupt lines the kernel handles, each with the
    address of its stub and the code selector, and the processor was told the
    whole table of 256 entries. *)
Theorem idt_install_correct (OK : InterruptStubsOk) s :
  length (g_idt s) = 256%nat →
  ∃ s', idt_install s = Ret tt s' ∧ length (g_idt s') = 256%nat ∧
    (∀ v, 0 ≤ v < 256 → gate_of (g_idt s') v = (λ h, (code_segment, h)) <$> assoc handlers v) ∧
    cpu_idtr s' = Some (mk_idtr 2047 addr_idt) ∧
    plat_console s' = plat_console s ∧ g_timer_ticks s' = g_timer_ticks s.
Proof. by apply idt_install_run. Qed.
End idt.

(** ** The 8259 controller, as its data sheet describes it *)
Inductive pic_phase := Operational | ExpectIcw2 | ExpectIcw3 | ExpectIcw4.
Record pic_chip := mk_pic {
  pic_state : pic_phase;
  pic_vector_base : Z;
  pic_cascade : Z;
  pic_8086_mode : bool;
  pic_mask : Z;
  pic_eois : nat;      (* non-specific ends of interrupt received *)
}.

Definition pic_command (v : Z) (p : pic_chip) : pic_chip :=
  if Z.testbit v 4 then mk_pic ExpectIcw2 (pic_vector_base p) (pic_cascade p) false 0 (pic_eois p)
  else if v =? 0x20 then mk_pic (pic_state p) (pic_vector_base p) (pic_cascade p) (pic_8086_mode p)
    (pic_mask p) (S (pic_eois p))
  else p.
Definition pic_data (v : Z) (p : pic_chip) : pic_chip :=
  match pic_state p with
  | Operational => mk_pic Operational (pic_vector_base p) (pic_cascade p) (pic_8086_mode p) v (pic_eois p)
  | ExpectIcw2 => mk_pic ExpectIcw3 (Z.land v 0xF8) (pic_cascade p) (pic_8086_mode p) (pic_mask p) (pic_eois p)
  | ExpectIcw3 => mk_pic ExpectIcw4 (pic_vector_base p) v (pic_8086_mode p) (pic_mask p) (pic_eois p)
  | ExpectIcw4 => mk_pic Operational (pic_vector_base p) (pic_cascade p) (Z.testbit v 0) (pic_mask p) (pic_eois p)
  end.

(** The chip with these two ports, after a log (newest first). *)
Fixpoint pic_after (command data : Z) (log : list port_event) (p : pic_chip) : pic_chip :=
  match log with
  | [] => p
  | PortIn _ _ :: log => pic_after command data log p
  | PortOut port v :: log =>
      let p := pic_after command data log p in
      if port =? command then pic_command v p else
      if port =? data then pic_data v p else p
  end.
Definition master_after (log : list port_event) := pic_after PIC1_COMMAND PIC1_DATA log.
Definition slave_after (log : list port_event) := pic_after PIC2_COMMAND PIC2_DATA log.

Section pic.
Context `{KL : KernelLayout, KI : KernelImage, PO : Ports, IS : InterruptStubs}.
Implicit Types s : console.

Lemma inb_run port s v p :
  port_read port (con_ports s) = (v, p) →
  inb port s = Ret (u8 v) (mk_console _ (con_memory s) p (PortIn port (u8 v) :: con_log s)).
Proof. intros E. unfold inb. rewrite bind_get, E. done. Qed.

Lemma outb_run port v m p log :
  outb port v (mk_console _ m p log) =
    Ret tt (mk_console _ m (port_write port v p) (PortOut port v :: log)).
Proof. done. Qed.

(** The chips answer a read of the data port with their mask. *)
Definition reads_masks (s : console) (m1 m2 : pic_chip) : Prop :=
  ∃ p p', port_read PIC1_DATA (con_ports s) = (pic_mask m1, p) ∧
    port_read PIC2_DATA p = (pic_mask m2, p').

(** C24. Remapping initialises both controllers: vectors from the given offsets,
    the slave cascaded on line 2, 8086 mode, and the masks they had before. *)
Theorem pic_remap_correct m1 m2 o1 o2 s :
  pic_state m1 = Operational → pic_state m2 = Operational → is_u8 (pic_mask m1) →
  is_u8 (pic_mask m2) → reads_masks s m1 m2 → is_u8 o1 → is_u8 o2 → o1 mod 8 = 0 → o2 mod 8 = 0 →
  ∃ s' log, pic_remap o1 o2 s = Ret tt s' ∧ con_memory s' = con_memory s ∧
    con_log s' = log ++ con_log s ∧
    master_after log m1 = mk_pic Operational o1 4 true (pic_mask m1) (pic_eois m1) ∧
    slave_after log m2 = mk_pic Operational o2 2 true (pic_mask m2) (pic_eois m2).
Proof.
  intros Hs1 Hs2 Hm1 Hm2 (p & p' & E1 & E2) Ho1 Ho2 Ha1 Ha2.
  assert (Z.land o1 0xF8 = o1 ∧ Z.land o2 0xF8 = o2) as [Hl1 Hl2].
  { change 0xF8 with (2 ^ 8 - 2 ^ 3). rewrite !land_align by (change (2 ^ 8) with 0x100; lia).
    change (2 ^ 3) with 8. lia. }
  unfold pic_remap. mrun (inb_run _ s _ _ E1).
  mrun (inb_run PIC2_DATA (mk_console _ (con_memory s) p _) _ _ E2).
  rewrite !u8_id by done. unfold io_wait.
  repeat (erewrite bind_run; [|apply outb_run]; cbv beta). rewrite outb_run.
  eexists. eexists [_;_;_;_;_;_;_;_;_;_;_;_;_;_;_;_;_;_;_;_].
  split; [reflexivity|]. split; [reflexivity|]. split; [reflexivity|].
  destruct m1 as [? b1 c1 f1 k1 e1], m2 as [? b2 c2 f2 k2 e2]. simpl in Hs1, Hs2. subst.
  clear -Hl1 Hl2. cbn [pic_mask pic_eois]. split.
  - transitivity (mk_pic Operational (Z.land o1 0xF8) 4 true k1 e1); [reflexivity|by rewrite Hl1].
  - transitivity (mk_pic Operational (Z.land o2 0xF8) 2 true k2 e2); [reflexivity|by rewrite Hl2].
Qed.

(** An end of interrupt reaches the slave exactly for the lines it serves,
    and always the master; nothing else is written. *)
Lemma pic_send_eoi_run irq s :
  ∃ s', pic_send_eoi irq s = Ret tt s' ∧ con_memory s' = con_memory s ∧
    con_log s' = PortOut PIC1_COMMAND PIC_EOI ::
      (if irq >=? 8 then [PortOut PIC2_COMMAND PIC_EOI] else []) ++ con_log s.
Proof. unfold pic_send_eoi. destruct (irq >=? 8); eexists; split; reflexivity || done. Qed.

(** The divisor of the timer: its counter counts down [PIT_INPUT_HZ] ticks a
    second from the 16-bit value the two data writes make up. *)
Theorem pit_init_correct target_hz s :
  19 ≤ target_hz ≤ UINT32_MAX →
  ∃ s' lo hi, pit_init target_hz s = Ret tt s' ∧ con_memory s' = con_memory s ∧
    con_log s' = [PortOut PIT_CHANNEL0 hi; PortOut PIT_CHANNEL0 lo; PortOut PIT_COMMAND 0x36] ++
      con_log s ∧
    is_u8 lo ∧ is_u8 hi ∧ lo + 0x100 * hi = PIT_INPUT_HZ / target_hz.
Proof.
  intros Hhz. unfold pit_init. rewrite (proj2 (Z.eqb_neq _ _)) by lia. cbv zeta.
  set (d := PIT_INPUT_HZ / target_hz).
  assert (0 ≤ d < 0x10000) as Hd.
  { unfold d, PIT_INPUT_HZ. split; [apply Z.div_pos; lia|]. apply Z.div_lt_upper_bound; lia. }
  eexists _, (u8 (Z.land d 0xFF)), (u8 (Z.land (Z.shiftr d 8) 0xFF)).
  split; [reflexivity|]. split; [done|]. split; [done|].
  change 0xFF with (2 ^ 8 - 1). rewrite !land_mask, Z.shiftr_div_pow2 by lia.
  change (2 ^ 8) with 0x100. unfold u8. lia.
Qed.
End pic.

(** ** The handlers *)
Section handlers.
Context `{KL : KernelLayout, KI : KernelImage, PO : Ports, IS : InterruptStubs, UR : !UartReady}.
Implicit Types s : platform.

(** Serial traffic does not reach the interrupt controllers. *)
Lemma pic_after_serial command data log1 log2 p :
  Forall serial_event log1 → COM1_PORT ≠ command → COM1_PORT ≠ data →
  pic_after command data (log1 ++ log2) p = pic_after command data log2 p.
Proof.
  intros Hlog Hc Hd. induction Hlog as [|e log1 [[v ->]|[v ->]] Hlog IH]; [done|exact IH|].
  cbn [app pic_after]. by rewrite !(proj2 (Z.eqb_neq _ _)).
Qed.

Definition tick_line (t : Z) : list Z :=
  if t mod PIT_TARGET_HZ =? 0
  then crlf "custom-os Stage 6 tick: " ++ crlf (hex_text 8 t) ++ [13; 10] else [].

(** One timer interrupt. *)
Lemma irq0_run s :
  is_u32 (g_timer_ticks s) →
  ∃ s' evs, stage3_irq0_handler s = Ret tt s' ∧
    s' = set_plat_console (plat_console s') (set_ticks (u32 (g_timer_ticks s + 1)) s) ∧
    con_memory (plat_console s') = con_memory (plat_console s) ∧
    con_log (plat_console s') = PortOut PIC1_COMMAND PIC_EOI :: evs ++ con_log (plat_console s) ∧
    transmitted evs = tick_line (u32 (g_timer_ticks s + 1)) ∧ Forall serial_event evs.
Proof.
  intros Ht. unfold stage3_irq0_handler. rewrite bind_modify, bind_get.
  set (t := u32 (g_timer_ticks s + 1)). set (s1 := set_ticks t s). change (g_timer_ticks s1) with t.
  assert (is_u32 t) as Htr by apply u32_range.
  assert (∃ s2 evs, (if t mod PIT_TARGET_HZ =? 0 then
      zoom console_lens (serial_write_label_hex "custom-os Stage 6 tick: " t) else mret tt) s1 =
      Ret tt s2 ∧ s2 = set_plat_console (plat_console s2) s1 ∧
    con_memory (plat_console s2) = con_memory (plat_console s) ∧
    con_log (plat_console s2) = evs ++ con_log (plat_console s) ∧
    transmitted evs = tick_line t ∧ Forall serial_event evs) as (s2 & evs & E & Hs2 & Hm2 & Hl2 & Htr2 & Hev).
  { unfold tick_line. destruct (t mod PIT_TARGET_HZ =? 0); cycle 1.
    { exists s1, []. by destruct s. }
    assert (∃ c', serial_write_label_hex "custom-os Stage 6 tick: " t (plat_console s1) = Ret tt c' ∧
      sends (crlf "custom-os Stage 6 tick: " ++ crlf (hex_text 8 t) ++ [13; 10]) (plat_console s1) c')
      as (c' & E & [Hm (evs & Hl & Htr' & Hev)]).
    { unfold serial_write_label_hex. mrun (hex32_text_run t (plat_console s1) Htr).
      apply serial_hex_sends; [lia|exact Htr|by vm_compute|by vm_compute]. }
    exists (set_plat_console c' s1), evs. split; [unfold zoom; cbn [view over console_lens]; by rewrite E|].
    done. }
  mrun E. unfold zoom. cbn [view over console_lens].
  destruct (pic_send_eoi_run 0 (plat_console s2)) as (c3 & -> & Hm3 & Hl3).
  exists (set_plat_console c3 s2), evs. split; [done|]. cbn [plat_console set_plat_console g_timer_ticks g_idt].
  split_and!; try done; [by rewrite Hs2|by rewrite Hm3, Hm2|by rewrite Hl3, Hl2].
Qed.

(** One keyboard interrupt. *)
Definition key_line (scancode : Z) : list Z :=
  crlf "custom-os Stage 6 scancode: " ++ crlf (hex_text 8 scancode) ++ [13; 10].

Lemma irq1_run s :
  let code := u8 (fst (port_read 0x60 (con_ports (plat_console s)))) in
  ∃ s' evs, stage4_irq1_handler s = Ret tt s' ∧ s' = set_plat_console (plat_console s') s ∧
    con_memory (plat_console s') = con_memory (plat_console s) ∧
    con_log (plat_console s') = PortOut PIC1_COMMAND PIC_EOI :: evs ++
      PortIn 0x60 code :: con_log (plat_console s) ∧
    transmitted evs = key_line code ∧ Forall serial_event evs.
Proof.
  intros code. destruct (port_read 0x60 (con_ports (plat_console s))) as [v p] eqn:E0. cbn [fst] in code.
  set (c1 := mk_console _ (con_memory (plat_console s)) p (PortIn 0x60 code :: con_log (plat_console s))).
  assert (is_u32 code) as Hc by (pose proof (u8_range v); lia).
  assert (∃ c2, serial_write_label_hex "custom-os Stage 6 scancode: " code c1 = Ret tt c2 ∧
    sends (key_line code) c1 c2) as (c2 & E2 & [Hm2 (evs & Hl2 & Htr & Hev)]).
  { unfold serial_write_label_hex. mrun (hex32_text_run code c1 Hc).
    apply serial_hex_sends; [lia|exact Hc|by vm_compute|by vm_compute]. }
  destruct (pic_send_eoi_run 1 c2) as (c3 & E3 & Hm3 & Hl3).
  exists (set_plat_console c3 s), evs. split_and!; try done.
  - unfold stage4_irq1_handler, zoom. cbn [view over console_lens].
    mrun (inb_run _ (plat_console s) _ _ E0). fold code c1. mrun E2. by rewrite E3.
  - cbn. by rewrite Hm3, Hm2.
  - cbn. by rewrite Hl3, Hl2.
Qed.

(** [n] timer interrupts one after the other. *)
Fixpoint timer_interrupts (n : nat) : M platform unit :=
  match n with
  | O => mret tt
  | S n => timer_interrupts n ;; stage3_irq0_handler
  end.

(** After [n] timer interrupts the counter has moved on by [n] (modulo 2^32),
    the master controller has been told the end of each of them, the slave
    nothing, and the line of every hundredth tick, and no other, was printed. *)
Theorem timer_keeps_time n s m1 m2 :
  is_u32 (g_timer_ticks s) → pic_state m1 = Operational →
  ∃ s' log, timer_interrupts n s = Ret tt s' ∧
    g_timer_ticks s' = u32 (g_timer_ticks s + Z.of_nat n) ∧
    con_log (plat_console s') = log ++ con_log (plat_console s) ∧
    master_after log m1 = mk_pic Operational (pic_vector_base m1) (pic_cascade m1)
      (pic_8086_mode m1) (pic_mask m1) (n + pic_eois m1) ∧
    slave_after log m2 = m2 ∧
    transmitted log =
      flat_map (λ i, tick_line (u32 (g_timer_ticks s + Z.of_nat i))) (seq 1 n).
Proof.
  intros Ht Hm1. induction n as [|n (s1 & log & E & Ht1 & Hlog & Hma & Hsl & Htr)].
  { exists s, []. split; [done|]. rewrite Z.add_0_r, u32_id by done. split_and!; try done.
    destruct m1. simpl in *. by subst. }
  destruct (irq0_run s1) as (s2 & evs & E2 & Hs2 & _ & Hlog2 & Htr2 & Hev).
  { rewrite Ht1. apply u32_range. }
  exists s2, (PortOut PIC1_COMMAND PIC_EOI :: evs ++ log). cbn [timer_interrupts]. split_and!.
  - by mrun E.
  - rewrite Hs2. cbn. rewrite Ht1. unfold u32. lia.
  - rewrite Hlog2, Hlog. simpl. by rewrite app_assoc.
  - unfold master_after in *. cbn [pic_after]. rewrite pic_after_serial by done. by rewrite Hma.
  - unfold slave_after in *. cbn [pic_after]. by rewrite pic_after_serial by done.
  - rewrite seq_S, flat_map_app. cbn [flat_map]. rewrite <- Htr, app_nil_r.
    replace (u32 (g_timer_ticks s + Z.of_nat (1 + n))) with (u32 (g_timer_ticks s1 + 1))
      by (rewrite Ht1; unfold u32; lia).
    rewrite <- Htr2. change (transmitted (_ :: evs ++ log)) with (transmitted (evs ++ log)).
    unfold transmitted. by rewrite omap_app, rev_app_distr.
Qed.
End handlers.

(** ** Stopping *)
Section stopping.
Context `{KL : KernelLayout, KI : KernelImage, PO : Ports, IS : InterruptStubs, UR : !UartReady}.
Implicit Types s : console.

(** [text] over what was on the screen. *)
Definition overlay (text : string) (row col : Z) (cell : Z → Z → Z) (r c : Z) : Z :=
  if decide (r = row ∧ col ≤ c < col + Z.of_nat (String.length text))
  then vga_cell (text_get text (c - col)) else cell r c.

(** Only the screen was changed, and now shows [cell]; then [bytes] went out. *)
Record shown (cell : Z → Z → Z) (bytes : list Z) (D : Z → Prop) s s' : Prop := {
  shown_screen : draws cell D (con_memory s) (con_memory s');
  shown_log : ∃ evs, con_log s' = evs ++ con_log s ∧ transmitted evs = bytes ∧
    Forall serial_event evs;
}.

Lemma shown_usable cell b D s s' :
  usable (con_memory s) D → shown cell b D s s' → usable (con_memory s') D.
Proof. intros Hu [[Hp _ _] _]. by eapply usable_same. Qed.

Lemma shown_clear D s :
  usable (con_memory s) D → (∀ a, screen a → D a) →
  ∃ s', clear_screen s = Ret tt s' ∧ shown (λ _ _, vga_cell " "%char) [] D s s'.
Proof.
  intros Hu HD. destruct (clear_screen_draws D s Hu HD) as (m' & E & Hd).
  exists (set_con_memory m' s). split; [done|]. split; [done|]. by exists [].
Qed.

Lemma shown_text cell b D s s1 text row col :
  usable (con_memory s) D → (∀ a, screen a → D a) → shown cell b D s s1 →
  0 ≤ row < VGA_HEIGHT → 0 ≤ col → col ≤ VGA_WIDTH → c_text text →
  ∃ s2, write_text_at text row col s1 = Ret tt s2 ∧ shown (overlay text row col cell) b D s s2.
Proof.
  intros Hu HD Hs Hr H0 H1 Ht.
  destruct (write_text_at_draws D text row col s1 (shown_usable _ _ _ _ _ Hu Hs) HD Hr H0 H1 Ht)
    as (m' & E & [Hp Hc Ho]). exists (set_con_memory m' s1). split; [done|].
  destruct Hs as [[Hp1 Hc1 Ho1] Hl]. split; [|exact Hl]. constructor; cbn.
  - unfold same_paging in *. congruence.
  - intros r c Hrc. rewrite Hc by done. unfold text_cell, overlay. case_decide; [done|by apply Hc1].
  - intros a Ha Hno. by rewrite Ho, Ho1.
Qed.

Lemma shown_sends cell b1 b2 D s s1 s2 :
  shown cell b1 D s s1 → sends b2 s1 s2 → shown cell (b1 ++ b2) D s s2.
Proof.
  intros [Hd (e1 & E1 & H1 & F1)] [Hm (e2 & E2 & H2 & F2)]. split; [by rewrite Hm|].
  exists (e2 ++ e1). split; [by rewrite E2, E1, app_assoc|]. split; [|by apply Forall_app].
  unfold transmitted in *. by rewrite omap_app, rev_app_distr, H1, H2.
Qed.

Lemma shown_serial cell b D s s1 text :
  shown cell b D s s1 → c_text text → Z.of_nat (String.length text) < 0x10000 →
  ∃ s2, serial_write_text text s1 = Ret tt s2 ∧ shown cell (b ++ crlf text) D s s2.
Proof.
  intros Hs Ht Hlen. destruct (serial_write_text_sends UR text s1 Ht Hlen) as (s2 & E & H2).
  exists s2. split; [done|]. by eapply shown_sends.
Qed.

Lemma shown_label cell b D s s1 label v :
  shown cell b D s s1 → c_text label → Z.of_nat (String.length label) < 0x10000 → is_u32 v →
  ∃ s2, serial_write_label_hex label v s1 = Ret tt s2 ∧
    shown cell (b ++ crlf label ++ crlf (hex_text 8 v) ++ [13; 10]) D s s2.
Proof.
  intros Hs Ht Hlen Hv.
  assert (∃ s2, serial_write_label_hex label v s1 = Ret tt s2 ∧
    sends (crlf label ++ crlf (hex_text 8 v) ++ [13; 10]) s1 s2) as (s2 & E & H2).
  { unfold serial_write_label_hex. mrun (hex32_text_run v s1 Hv).
    apply serial_hex_sends; [lia|exact Hv|done|done]. }
  exists s2. split; [done|]. by eapply shown_sends.
Qed.

(** Running one step of a sequence that shows texts. *)
Ltac show_text H s1 :=
  let E := fresh in let H' := fresh in
  match goal with
  | Hu : usable (con_memory _) ?D |- context [(write_text_at ?t ?r ?c ≫= _) _] =>
      destruct (shown_text _ _ D _ _ t r c Hu ltac:(assumption) H) as (s1 & E & H');
        [done|done|done|try done..|mrun E; clear H E; rename H' into H]
  end.
Ltac show_serial H s1 :=
  let E := fresh in let H' := fresh in
  match goal with
  | |- context [(serial_write_text ?t ≫= _) _] =>
      destruct (shown_serial _ _ _ _ _ t H) as (s1 & E & H');
        [try done..|mrun E; clear H E; rename H' into H]
  | |- context [(serial_write_label_hex ?l ?v ≫= _) _] =>
      destruct (shown_label _ _ _ _ _ l v H) as (s1 & E & H');
        [done..|mrun E; clear H E; rename H' into H]
  end.

Definition blank_cell (r c : Z) : Z := vga_cell " "%char.

Definition panic_cells (reason : string) (detail : Z) : Z → Z → Z :=
  overlay (hex_text 8 detail) 2 8 (overlay "detail:" 2 0 (overlay reason 1 0
    (overlay "custom-os Stage 6 PANIC" 0 0 blank_cell))).
Definition panic_bytes (reason : string) (detail : Z) : list Z :=
  crlf ("custom-os Stage 6 PANIC" +:+ newline) ++ crlf reason ++ crlf newline ++
  crlf "detail: " ++ crlf (hex_text 8 detail) ++ crlf newline.

Lemma panic_run {A} D reason detail s :
  usable (con_memory s) D → (∀ a, screen a → D a) →
  c_text reason → Z.of_nat (String.length reason) < 0x10000 → is_u32 detail →
  ∃ s', panic (A := A) reason detail s = Panic reason detail s' ∧
    shown (panic_cells reason detail) (panic_bytes reason detail) D s s'.
Proof.
  intros Hu HD Hr Hlen Hd. unfold panic. mrun (hex32_text_run detail s Hd).
  destruct (shown_clear D s Hu HD) as (s0 & E & H). mrun E. clear E. unfold write_text.
  destruct (hex_text_spec 8 detail ltac:(lia) Hd) as [Hhex _].
  pose proof (hex_text_c 8 detail) as Hht.
  show_text H s1. show_text H s2. show_text H s3. show_text H s4.
  show_serial H s5. show_serial H s6. show_serial H s7. show_serial H s8.
  show_serial H s9; [lia|]. show_serial H s10.
  exists s10. split; [done|]. rewrite !app_nil_l, <- !app_assoc in H. exact H.
Qed.

(** C25. A panic never returns: it clears the screen, shows the reason and the
    detail on screen and serial line, and stops. *)
Theorem panic_stops {A} D reason detail s :
  usable (con_memory s) D → (∀ a, screen a → D a) →
  c_text reason → Z.of_nat (String.length reason) < 0x10000 → is_u32 detail →
  ∃ s', panic (A := A) reason detail s = Panic reason detail s' ∧
    shown (panic_cells reason detail) (panic_bytes reason detail) D s s'.
Proof. apply panic_run. Qed.

Lemma shown_hex_row cell b D s s1 label row value_col v :
  usable (con_memory s) D → (∀ a, screen a → D a) → shown cell b D s s1 →
  0 ≤ row < VGA_HEIGHT → 0 ≤ value_col ≤ VGA_WIDTH → c_text label → is_u32 v →
  ∃ s2, write_hex_at_row label row value_col v s1 = Ret tt s2 ∧
    shown (overlay (hex_text 8 v) row value_col (overlay label row 0 cell)) b D s s2.
Proof.
  intros Hu HD H Hr [Hc0 Hc] Hl Hv. unfold write_hex_at_row, write_text.
  mrun (hex32_text_run v s1 Hv).
  destruct (shown_text _ _ D _ _ label row 0 Hu HD H) as (s2 & E & H2); [done..|]. mrun E.
  destruct (shown_text _ _ D _ _ (hex_text 8 v) row value_col Hu HD H2) as (s3 & E3 & H3);
    [done..|apply hex_text_c|]. rewrite E3. by exists s3.
Qed.

Ltac show_row H s1 :=
  let E := fresh in let H' := fresh in
  match goal with
  | Hu : usable (con_memory _) ?D |- context [(write_hex_at_row ?l ?r ?c ?v ≫= _) _] =>
      destruct (shown_hex_row _ _ D _ _ l r c v Hu ltac:(assumption) H) as (s1 & E & H');
        [done..|mrun E; clear H E; rename H' into H]
  end.

(** The line of one register: its label and its value. *)
Definition register_row (label : string) (row v : Z) (cell : Z → Z → Z) : Z → Z → Z :=
  overlay (hex_text 8 v) row 8 (overlay label row 0 cell).
Definition register_line (label : string) (v : Z) : list Z :=
  crlf label ++ crlf (hex_text 8 v) ++ [13; 10].

Lemma exception_name_text v : c_text (exception_name v) ∧ (String.length (exception_name v) < 24)%nat.
Proof.
  unfold exception_name.
  repeat match goal with |- context [match ?x with _ => _ end] => is_var x; destruct x end;
    (split; [by vm_compute|vm_compute; lia]).
Qed.

(** The screen and the serial line of an exception. *)
Definition exception_cells (vector error_code eip cs eflags : Z) : Z → Z → Z :=
  register_row "eflags:" 7 eflags (register_row "cs    :" 6 cs
    (register_row "eip   :" 5 eip (register_row "error :" 4 error_code
    (register_row "vector:" 3 vector (overlay (exception_name vector) 1 0
    (overlay "custom-os Stage 2 EXCEPTION" 0 0 blank_cell)))))).
Definition exception_bytes (vector error_code eip cs eflags : Z) : list Z :=
  crlf ("custom-os Stage 2 EXCEPTION" +:+ newline) ++ crlf (exception_name vector) ++
  crlf newline ++ register_line "vector: " vector ++ register_line "error : " error_code ++
  register_line "eip   : " eip ++ register_line "cs    : " cs ++ register_line "eflags: " eflags.

Lemma exception_dispatch_run D vector error_code eip cs eflags s :
  usable (con_memory s) D → (∀ a, screen a → D a) →
  is_u32 vector → is_u32 error_code → is_u32 eip → is_u32 cs → is_u32 eflags →
  ∃ s', stage2_exception_dispatch vector error_code eip cs eflags s =
      Panic (exception_name vector) error_code s' ∧
    shown (exception_cells vector error_code eip cs eflags)
      (exception_bytes vector error_code eip cs eflags) D s s'.
Proof.
  intros Hu HD H1 H2 H3 H4 H5. unfold stage2_exception_dispatch, write_text.
  destruct (exception_name_text vector) as [Hn Hlen].
  destruct (shown_clear D s Hu HD) as (s0 & E & H). mrun E. clear E.
  show_text H s1. show_text H s2.
  show_row H s3. show_row H s4. show_row H s5. show_row H s6. show_row H s7.
  show_serial H s8. show_serial H s9; [lia|]. show_serial H s10. show_serial H s11.
  show_serial H s12. show_serial H s13. show_serial H s14. show_serial H s15.
  exists s15. split; [done|]. rewrite !app_nil_l, <- !app_assoc in H.
  unfold exception_bytes, register_line. rewrite <- !app_assoc. exact H.
Qed.

(** C26. An exception never returns: its name and the five values the processor
    and the stub pushed are shown on screen and serial line, then it stops. *)
Theorem exception_dispatch_stops D vector error_code eip cs eflags s :
  usable (con_memory s) D → (∀ a, screen a → D a) →
  is_u32 vector → is_u32 error_code → is_u32 eip → is_u32 cs → is_u32 eflags →
  ∃ s', stage2_exception_dispatch vector error_code eip cs eflags s =
      Panic (exception_name vector) error_code s' ∧
    shown (exception_cells vector error_code eip cs eflags)
      (exception_bytes vector error_code eip cs eflags) D s s'.
Proof. apply exception_dispatch_run. Qed.
End stopping.

(** ** On the idle ports of [Console] *)
Section witnesses.
#[local] Existing Instance qemu_layout.
#[local] Existing Instance qemu_image.
#[local] Existing Instance idle_ports.

(** Link addresses of one build. *)
Definition demo_stubs : InterruptStubs :=
  {| isr_stub_divide_error := 0x100100; isr_stub_breakpoint := 0x100110;
     isr_stub_invalid_opcode := 0x100120; isr_stub_general_protection := 0x100130;
     isr_stub_page_fault := 0x100140; irq_stub_timer := 0x100150; irq_stub_keyboard := 0x100160;
     addr_idt := 0x110000; code_segment := 0x08 |}.
#[local] Existing Instance demo_stubs.

Lemma demo_stubs_ok : InterruptStubsOk.
Proof.
  constructor. intros v h. unfold handlers. simpl. rewrite !elem_of_cons, elem_of_nil.
  intros H. repeat destruct H as [[= -> ->]|H]; lia || done.
Qed.

Definition demo_platform : platform :=
  mk_platform _ demo_console (replicate 256 (mk_idt_entry 1 2 3 4 5)) (mk_idtr 0 0) None 0xFFFFFFFF.
Definition demo_pic : pic_chip := mk_pic Operational 8 0 false 0xFF 0.

Lemma idt_install_correct_witness :
  ∃ s', idt_install demo_platform = Ret tt s' ∧
    gate_of (g_idt s') 14 = Some (0x08, 0x100140) ∧ gate_of (g_idt s') 15 = None.
Proof.
  destruct (idt_install_correct demo_stubs_ok demo_platform eq_refl)
    as (s' & E & _ & Hg & _).
  exists s'. split; [exact E|]. split; rewrite Hg by lia; reflexivity.
Defined.

Lemma pic_remap_correct_witness :
  ∃ s' log, pic_remap 0x20 0x28 demo_console = Ret tt s' ∧
    master_after log demo_pic = mk_pic Operational 0x20 4 true 0xFF 0.
Proof.
  destruct (pic_remap_correct demo_pic demo_pic 0x20 0x28 demo_console) as (s' & log & E & _ & _ & H & _);
    [reflexivity|reflexivity|simpl; lia|simpl; lia|by exists tt, tt|lia|lia|reflexivity|reflexivity|].
  exists s', log. split; [exact E|exact H].
Defined.

Lemma pit_init_correct_witness :
  ∃ s' lo hi, pit_init 100 demo_console = Ret tt s' ∧ lo + 0x100 * hi = 11931.
Proof.
  destruct (pit_init_correct 100 demo_console ltac:(unfold UINT32_MAX; lia))
    as (s' & lo & hi & E & _ & _ & _ & _ & H).
  exists s', lo, hi. split; [exact E|exact H].
Defined.

Lemma timer_keeps_time_witness :
  ∃ s' log, timer_interrupts 101 demo_platform = Ret tt s' ∧ g_timer_ticks s' = 100 ∧
    pic_eois (master_after log demo_pic) = 101%nat.
Proof.
  destruct (timer_keeps_time (UR := idle_ready) 101 demo_platform demo_pic demo_pic ltac:(simpl; lia) eq_refl)
    as (s' & log & E & Ht & _ & Hm & _).
  exists s', log. split; [exact E|]. split; [exact Ht|by rewrite Hm].
Defined.

Lemma panic_stops_witness :
  ∃ s', panic (A := unit) "no memory" 0xF001 demo_console = Panic "no memory" 0xF001 s' ∧
    screen_cell (con_memory s') 1 3 = vga_cell "m"%char.
Proof.
  destruct (panic_stops (UR := idle_ready) (A := unit) screen "no memory" 0xF001 demo_console demo_screen
    (λ _ H, H)) as (s' & E & [[_ Hc _] _]); [by vm_compute|by vm_compute|lia|].
  exists s'. split; [exact E|]. rewrite Hc by (unfold on_screen, VGA_HEIGHT, VGA_WIDTH; lia).
  reflexivity.
Defined.

Lemma exception_dispatch_stops_witness :
  ∃ s', stage2_exception_dispatch 14 2 0x100200 8 0x202 demo_console =
    Panic "#PF page fault" 2 s' ∧ screen_cell (con_memory s') 5 17 = vga_cell "0"%char.
Proof.
  destruct (exception_dispatch_stops (UR := idle_ready) screen 14 2 0x100200 8 0x202 demo_console demo_screen
    (λ _ H, H)) as (s' & E & [[_ Hc _] _]); [lia..|].
  exists s'. split; [exact E|]. rewrite Hc by (unfold on_screen, VGA_HEIGHT, VGA_WIDTH; lia).
  reflexivity.
Defined.
End witnesses.
