(* ===== verification/Kernel.v ===== *)
(** * The state of the kernel

    The components of the development side by side: the platform (console,
    memory, interrupts), the heap's bookkeeping, the page-frame allocator with
    its tables and the region table.  Each component runs in the whole state
    through its lens ([zoom]): memory is shared by the screen, the page tables
    and the heap, so it is stored once. *)
From S2P Require Import Prelude KernelMonad Paging Memory MemoryMap FrameAllocator Pmm.
From S2P Require Import Kheap Console Interrupts.
#[local] Open Scope Z_scope.

Record kernel `{Ports} := mk_kernel {
  k_platform : platform;
  k_heap : stage8c_kheap_state;                    (* g_stage8c_kheap *)
  k_pmm : pmm;
  k_memory_map : stage5b_memory_bookkeeping;       (* g_stage5b_memory *)
}.

Definition compose_lens {S T U} (l1 : lens S T) (l2 : lens T U) : lens S U :=
  Lens (λ s, view l2 (view l1 s)) (λ u s, over l1 (over l2 u (view l1 s)) s).
#[export] Instance compose_lens_laws {S T U} (l1 : lens S T) (l2 : lens T U) :
  LensLaws l1 → LensLaws l2 → LensLaws (compose_lens l1 l2).
Proof.
  intros [v1 o1 p1] [v2 o2 p2]. split; intros; cbn.
  - by rewrite v1, v2.
  - by rewrite o2, o1.
  - by rewrite p1, v1, p2.
Qed.

Section kernel.
Context `{PO : Ports}.

Definition platform_lens : lens kernel platform :=
  Lens k_platform (λ p s, mk_kernel _ p (k_heap s) (k_pmm s) (k_memory_map s)).
Definition pmm_lens : lens kernel pmm :=
  Lens k_pmm (λ p s, mk_kernel _ (k_platform s) (k_heap s) p (k_memory_map s)).
Definition memory_map_lens : lens kernel stage5b_memory_bookkeeping :=
  Lens k_memory_map (λ b s, mk_kernel _ (k_platform s) (k_heap s) (k_pmm s) b).
Definition frames_in_pmm : lens pmm stage5c_frame_bookkeeping := Lens frames set_frames.

#[export] Instance platform_lens_laws : LensLaws platform_lens.
Proof. split; intros; by destruct s. Qed.
#[export] Instance pmm_lens_laws : LensLaws pmm_lens.
Proof. split; intros; by destruct s. Qed.
#[export] Instance memory_map_lens_laws : LensLaws memory_map_lens.
Proof. split; intros; by destruct s. Qed.
#[export] Instance frames_in_pmm_laws : LensLaws frames_in_pmm.
Proof. split; intros; by destruct s. Qed.
#[export] Instance console_lens_laws : LensLaws console_lens.
Proof. split; intros; by destruct s. Qed.
#[export] Instance con_memory_lens_laws : LensLaws con_memory_lens.
Proof. split; intros; by destruct s. Qed.
#[export] Instance paging_lens_laws : LensLaws paging_lens.
Proof. split; intros; by destruct s. Qed.

Definition k_console_lens : lens kernel console := compose_lens platform_lens console_lens.
Definition k_memory_lens : lens kernel memory := compose_lens k_console_lens con_memory_lens.
Definition k_paging_lens : lens kernel paging_state := compose_lens k_memory_lens paging_lens.
Definition frames_lens : lens kernel stage5c_frame_bookkeeping := compose_lens pmm_lens frames_in_pmm.

(** What the heap works on: the shared memory, its bookkeeping, the allocator. *)
Definition machine_of (s : kernel) : kheap_machine pmm :=
  mk_machine (view k_memory_lens s) (k_heap s) (k_pmm s).
Definition set_machine (m : kheap_machine pmm) (s : kernel) : kernel :=
  mk_kernel _ (k_platform (over k_memory_lens (mem m) s)) (heap m) (allocator m) (k_memory_map s).
Definition machine_lens : lens kernel (kheap_machine pmm) := Lens machine_of set_machine.
#[export] Instance machine_lens_laws : LensLaws machine_lens.
Proof.
  split.
  - by intros [] [].
  - by intros [[[]]].
  - by intros [] [] [[[]]].
Qed.
End kernel.

(** The components, run in the kernel's state. *)
Abbreviation io m := (zoom k_console_lens m).
Abbreviation heap_call m := (zoom machine_lens m).
Abbreviation pmm_call m := (zoom pmm_lens m).
Abbreviation vmm_call m := (zoom k_paging_lens m).
Abbreviation memory_access m := (zoom k_memory_lens m).
