(* ===== verification/Multiboot.v ===== *)
(** * From the Multiboot2 information to page frames ([init/stage0_main.c])

    Stage 5A walks the tags the boot loader left in memory and feeds the
    memory-map entries to the accounting of [MemoryMap]; Stage 5C turns the
    result into frame ranges.  The information is read through pointers,
    before paging is enabled.  Cursors are 32-bit and wrap; both loops take
    fuel. *)
From S2P Require Import Prelude KernelMonad Paging Memory MemoryMap FrameAllocator Pmm.
From S2P Require Import Kheap Console Interrupts Kernel.
#[local] Open Scope Z_scope.

Definition MULTIBOOT2_BOOTLOADER_MAGIC : Z := 0x36D76289.
Definition MULTIBOOT2_TAG_END : Z := 0.
Definition MULTIBOOT2_TAG_MMAP : Z := 6.

(** Sizes of [multiboot2_info_header], [multiboot2_tag], [multiboot2_mmap_tag]
    and [multiboot2_mmap_entry], all packed. *)
Definition INFO_HEADER_SIZE : Z := 8.
Definition TAG_SIZE : Z := 8.
Definition MMAP_TAG_SIZE : Z := 16.
Definition MMAP_ENTRY_SIZE : Z := 24.
#[export] Hint Unfold INFO_HEADER_SIZE TAG_SIZE MMAP_TAG_SIZE MMAP_ENTRY_SIZE
  MULTIBOOT2_TAG_END MULTIBOOT2_TAG_MMAP : consts.

Record stage5_parse_totals := mk_totals {
  entry_count : Z;
  usable_regions : Z;
  reserved_regions : Z;
  totals_usable_bytes : Z;
  totals_reserved_bytes : Z;
}.

Definition stage5_parse_totals_reset : stage5_parse_totals := mk_totals 0 0 0 0 0.

(** The totals after an entry of this type and length. *)
Definition count_entry (t : stage5_parse_totals) (type length : Z) : stage5_parse_totals :=
  if type =? MULTIBOOT2_MEMORY_AVAILABLE then
    mk_totals (entry_count t) (u32 (usable_regions t + 1)) (reserved_regions t)
      (add_clamp_u64 (totals_usable_bytes t) length) (totals_reserved_bytes t)
  else
    mk_totals (entry_count t) (usable_regions t) (u32 (reserved_regions t + 1))
      (totals_usable_bytes t) (add_clamp_u64 (totals_reserved_bytes t) length).
Definition next_entry (t : stage5_parse_totals) : stage5_parse_totals :=
  mk_totals (u32 (entry_count t + 1)) (usable_regions t) (reserved_regions t)
    (totals_usable_bytes t) (totals_reserved_bytes t).

Section multiboot.
Context `{KL : KernelLayout, KI : KernelImage, PO : Ports, IS : InterruptStubs}.
#[local] Abbreviation K := (M kernel).

Definition stage5b_emit_summary (totals : stage5_parse_totals) : K unit :=
  b ← gets k_memory_map;
  let policy_unusable_bytes :=
    if raw_usable_bytes b >=? policy_usable_bytes b
    then raw_usable_bytes b - policy_usable_bytes b else 0 in
  io (serial_write_label_hex "custom-os Stage 5A mmap entries: " (entry_count totals)) ;;
  io (serial_write_label_hex "custom-os Stage 5A usable regions: " (usable_regions totals)) ;;
  io (serial_write_label_hex "custom-os Stage 5A reserved regions: " (reserved_regions totals)) ;;
  io (serial_write_label_hex64 "custom-os Stage 5A usable bytes: " (totals_usable_bytes totals)) ;;
  io (serial_write_label_hex "custom-os Stage 5B regions stored: " (region_count b)) ;;
  io (serial_write_label_hex "custom-os Stage 5B regions dropped: " (dropped_regions b)) ;;
  io (serial_write_label_hex64 "custom-os Stage 5B raw usable bytes: " (raw_usable_bytes b)) ;;
  io (serial_write_label_hex64 "custom-os Stage 5B raw reserved bytes: " (raw_reserved_bytes b)) ;;
  io (serial_write_label_hex64 "custom-os Stage 5B policy usable bytes: " (policy_usable_bytes b)) ;;
  io (serial_write_label_hex64 "custom-os Stage 5B policy unavailable bytes: " policy_unusable_bytes) ;;
  io (serial_write_label_hex64 "custom-os Stage 5B highest usable end: " (highest_usable_end b)).

(** One iteration of the loop over the entries of a memory-map tag. *)
Definition entry_step (entry_size entry_end : Z) (st : Z * stage5_parse_totals)
    : K (Z * stage5_parse_totals + stage5_parse_totals) :=
  let '(entry_cursor, totals) := st in
  if u32 (entry_cursor + entry_size) <=? entry_end then
    io (serial_write_label_hex "custom-os Stage 5A mmap index: " (entry_count totals)) ;;
    base_addr ← memory_access (load64 entry_cursor);
    io (serial_write_label_hex64 "  base: " base_addr) ;;
    len ← memory_access (load64 (u32 (entry_cursor + 8)));
    io (serial_write_label_hex64 "  len : " len) ;;
    type ← memory_access (load32 (u32 (entry_cursor + 16)));
    io (serial_write_label_hex "  type: " type) ;;
    let totals := count_entry totals type len in
    zoom memory_map_lens (stage5b_account_entry (mk_mmap_entry base_addr len type)) ;;
    continue (u32 (entry_cursor + entry_size), next_entry totals)
  else break totals.

(** A memory-map tag of this size. *)
Definition mmap_tag_step (fuel : nat) (cursor size : Z) (totals : stage5_parse_totals)
    : K stage5_parse_totals :=
  if size <? MMAP_TAG_SIZE then io (panic "invalid mmap tag size" size) else
  entry_size ← memory_access (load32 (u32 (cursor + 8)));
  if entry_size <? MMAP_ENTRY_SIZE then io (panic "invalid mmap entry size" entry_size) else
  loop fuel (entry_step entry_size (u32 (cursor + size))) (u32 (cursor + MMAP_TAG_SIZE), totals).

(** One iteration of the loop over the tags: cursor, [found_mmap], totals. *)
Definition tag_step (fuel : nat) (end_addr : Z) (st : Z * bool * stage5_parse_totals)
    : K (Z * bool * stage5_parse_totals + bool * stage5_parse_totals) :=
  let '(cursor, found_mmap, totals) := st in
  if u32 (cursor + TAG_SIZE) <=? end_addr then
    size ← memory_access (load32 (u32 (cursor + 4)));
    let aligned_tag_size := align_up_8 size in
    if size <? TAG_SIZE then io (panic "invalid Multiboot2 tag size" size) else
    type ← memory_access (load32 cursor);
    if u32 (cursor + size) >? end_addr then io (panic "truncated Multiboot2 tag" type) else
    if type =? MULTIBOOT2_TAG_END then
      if negb (size =? 8) then io (panic "invalid Multiboot2 end tag" size) else
      break (found_mmap, totals)
    else
      '(found_mmap, totals) ← (if type =? MULTIBOOT2_TAG_MMAP
        then totals ← mmap_tag_step fuel cursor size totals; mret (true, totals)
        else mret (found_mmap, totals));
      if (aligned_tag_size =? 0) || (u32 (cursor + aligned_tag_size) >? end_addr)
      then io (panic "invalid aligned tag size" size) else
      continue (u32 (cursor + aligned_tag_size), found_mmap, totals)
  else break (found_mmap, totals).

Definition stage5a_parse_mmap (fuel : nat) (mb2_info_addr : Z) : K unit :=
  let info_addr := mb2_info_addr in
  total_size ← memory_access (load32 info_addr);
  let end_addr := u32 (info_addr + total_size) in
  if total_size <? INFO_HEADER_SIZE then io (panic "invalid Multiboot2 info size" total_size) else
  if end_addr <? info_addr then io (panic "Multiboot2 size overflow" total_size) else
  io (serial_write_text ("custom-os Stage 5A: parsing memory map" +:+ newline)) ;;
  zoom memory_map_lens stage5b_reset_bookkeeping ;;
  '(found_mmap, totals) ← loop fuel (tag_step fuel end_addr)
    (u32 (info_addr + INFO_HEADER_SIZE), false, stage5_parse_totals_reset);
  if negb found_mmap then io (panic "missing Multiboot2 mmap tag" 0) else
  zoom memory_map_lens (modify (λ b, mk_memory_bookkeeping (region_count b) (dropped_regions b)
    (totals_usable_bytes totals) (totals_reserved_bytes totals) (policy_usable_bytes b)
    (highest_usable_end b) (regions b))) ;;
  stage5b_emit_summary totals.

Definition stage5c_emit_summary : K unit :=
  f ← gets (λ s, frames (k_pmm s));
  io (serial_write_label_hex "custom-os Stage 5C range count: " (range_count f)) ;;
  io (serial_write_label_hex64 "custom-os Stage 5C eligible frames: " (eligible_frames f)) ;;
  io (serial_write_label_hex64 "custom-os Stage 5C highest eligible frame: " (highest_eligible_frame f)) ;;
  io (serial_write_label_hex64 "custom-os Stage 5C highest eligible address: " (highest_eligible_addr f)) ;;
  io (serial_write_label_hex64 "custom-os Stage 5C reserved kernel start: " (kernel_reserved_start f)) ;;
  io (serial_write_label_hex64 "custom-os Stage 5C reserved kernel end: " (kernel_reserved_end f)).

Definition stage5c_prepare_frame_bookkeeping : K unit :=
  zoom frames_lens stage5c_reset_bookkeeping ;;
  let kernel_reserved_start := Z.land kernel_phys_start (not64 (STAGE5C_FRAME_SIZE - 1)) in
  let '(kernel_reserved_end, kernel_align_overflow) := stage5c_align_up_4k kernel_phys_end in
  if kernel_align_overflow || (kernel_reserved_end <=? kernel_reserved_start)
  then io (panic "invalid kernel reservation bounds" 0x000500C0) else
  zoom frames_lens (modify (λ f, mk_frame_bookkeeping (range_count f) (dropped_ranges f)
    (eligible_frames f) (highest_eligible_frame f) (highest_eligible_addr f) (ranges f)
    kernel_reserved_start kernel_reserved_end)) ;;
  b ← gets k_memory_map;
  zoom frames_lens (stage5c_scan_regions b kernel_reserved_start kernel_reserved_end) ;;
  stage5c_emit_summary.
End multiboot.
