(* ===== verification/MultibootParse.v ===== *)
(** * What the walk over the boot information computes

    The information is an area of memory: a header and a chain of tags, each
    rounded up to 8 bytes.  [check_tag] says what a tag is on unbounded
    integers; [tags_from] collects the chain.  The walk of [Multiboot] is shown
    to account exactly the entries of the memory-map tags of that chain, or
    to panic with the reason [check_tag] gives, as long as no size makes the
    32-bit cursors wrap; a size that does is shown to make it run for ever. *)
From S2P Require Import Prelude KernelMonad Paging Memory MemoryMap FrameAllocator Pmm.
From S2P Require Import Kheap Console Interrupts Kernel Multiboot.
#[local] Open Scope Z_scope.

(** ** The information in memory *)
Section info.
Context `{KL : KernelLayout, KI : KernelImage}.
Variable m : memory.

Definition vdword (a : Z) : Z := vword m a + 0x100000000 * vword m (a + 4).
Definition tag_type (a : Z) : Z := vword m a.
Definition tag_size (a : Z) : Z := vword m (a + 4).
Definition tag_entry_size (a : Z) : Z := vword m (a + 8).
Definition entry_at (a : Z) : multiboot2_mmap_entry :=
  mk_mmap_entry (vdword a) (vdword (a + 8)) (vword m (a + 16)).
Definition entries_from (size : Z) (n : nat) (a : Z) : list multiboot2_mmap_entry :=
  (λ i, entry_at (a + i * size)) <$> seqZ 0 (Z.of_nat n).

(** The entries of a memory-map tag: as many as fit. *)
Definition mmap_entries (a : Z) : list multiboot2_mmap_entry :=
  entries_from (tag_entry_size a)
    (Z.to_nat ((tag_size a - MMAP_TAG_SIZE) / tag_entry_size a)) (a + MMAP_TAG_SIZE).

Definition round_up_8 (x : Z) : Z := (x + 7) / 8 * 8.

Inductive tag_verdict := TagNext | TagStop | TagBad (reason : string) (detail : Z).

Definition check_tag (end_addr a : Z) : tag_verdict :=
  if decide (end_addr < a + TAG_SIZE) then TagStop else
  if decide (tag_size a < TAG_SIZE) then TagBad "invalid Multiboot2 tag size" (tag_size a) else
  if decide (end_addr < a + tag_size a) then TagBad "truncated Multiboot2 tag" (tag_type a) else
  if decide (tag_type a = MULTIBOOT2_TAG_END) then
    if decide (tag_size a = 8) then TagStop else TagBad "invalid Multiboot2 end tag" (tag_size a)
  else
  if decide (tag_type a = MULTIBOOT2_TAG_MMAP ∧ tag_size a < MMAP_TAG_SIZE)
  then TagBad "invalid mmap tag size" (tag_size a) else
  if decide (tag_type a = MULTIBOOT2_TAG_MMAP ∧ tag_entry_size a < MMAP_ENTRY_SIZE)
  then TagBad "invalid mmap entry size" (tag_entry_size a) else
  if decide (end_addr < a + round_up_8 (tag_size a))
  then TagBad "invalid aligned tag size" (tag_size a)
  else TagNext.

(** [tags_from end_addr a l last v]: from [a] on come the tags [l], then at
    [last] the walk ends with the verdict [v]. *)
Inductive tags_from (end_addr : Z) : Z → list Z → Z → tag_verdict → Prop :=
| tags_last a : check_tag end_addr a ≠ TagNext → tags_from end_addr a [] a (check_tag end_addr a)
| tags_more a l last v :
    check_tag end_addr a = TagNext →
    tags_from end_addr (a + round_up_8 (tag_size a)) l last v →
    tags_from end_addr a (a :: l) last v.

(** No 32-bit sum the walk forms at this tag wraps. *)
Definition tag_fits (end_addr a : Z) : Prop :=
  a + TAG_SIZE ≤ end_addr →
  a + tag_size a + 8 < 0x100000000 ∧
  (tag_type a = MULTIBOOT2_TAG_MMAP → MMAP_TAG_SIZE ≤ tag_size a →
   end_addr + tag_entry_size a < 0x100000000).

Definition is_mmap_tag (a : Z) : Prop := tag_type a = MULTIBOOT2_TAG_MMAP.
#[export] Instance is_mmap_tag_dec a : Decision (is_mmap_tag a).
Proof. unfold is_mmap_tag. apply _. Defined.
Definition tags_entries (l : list Z) : list multiboot2_mmap_entry :=
  filter is_mmap_tag l ≫= mmap_entries.

Lemma tag_size_u32 a : is_u32 (tag_size a).
Proof. apply vword_u32. Qed.

Lemma check_tag_next end_addr a :
  check_tag end_addr a = TagNext →
  a + TAG_SIZE ≤ end_addr ∧ TAG_SIZE ≤ tag_size a ∧ a + round_up_8 (tag_size a) ≤ end_addr ∧
  (is_mmap_tag a → MMAP_TAG_SIZE ≤ tag_size a ∧ MMAP_ENTRY_SIZE ≤ tag_entry_size a).
Proof. unfold check_tag, is_mmap_tag. repeat case_decide; intros [=]. zlia. Qed.

Lemma entries_from_0 size a : entries_from size 0 a = [].
Proof. done. Qed.
Lemma entries_from_S size n a :
  entries_from size (S n) a = entry_at a :: entries_from size n (a + size).
Proof.
  unfold entries_from. rewrite seqZ_cons by lia. cbn [fmap list_fmap]. f_equal; [f_equal; lia|].
  rewrite <- (fmap_add_seqZ 1 0), <- list_fmap_compose.
  replace (Z.pred (Z.of_nat (S n))) with (Z.of_nat n) by lia.
  apply list_fmap_ext. intros _ i _. cbn. f_equal. lia.
Qed.

Lemma vdword_u64 a : is_u64 (vdword a).
Proof. unfold vdword. pose proof (vword_u32 m a). pose proof (vword_u32 m (a + 4)). lia. Qed.
Lemma entry_at_u64 a : entry_u64 (entry_at a).
Proof. split; apply vdword_u64. Qed.
Lemma entries_from_u64 size n a : Forall entry_u64 (entries_from size n a).
Proof. apply Forall_fmap, Forall_true. intros i. apply entry_at_u64. Qed.

(** Every area is a chain of tags, and the chain is determined. *)
Lemma tags_from_total end_addr a : ∃ l last v, tags_from end_addr a l last v.
Proof.
  remember (Z.to_nat (end_addr - a)) as n eqn:Hn. revert a Hn.
  induction (lt_wf n) as [n _ IH]. intros a ->.
  assert (check_tag end_addr a = TagNext ∨ check_tag end_addr a ≠ TagNext) as [E|E]
    by (destruct (check_tag end_addr a); auto).
  - pose proof (check_tag_next _ _ E) as (? & ? & ? & _).
    destruct (IH (Z.to_nat (end_addr - (a + round_up_8 (tag_size a))))) with
      (a + round_up_8 (tag_size a)) as (l & last & v & Hl); [unfold round_up_8; zlia|done|].
    exists (a :: l), last, v. by apply tags_more.
  - eexists _, _, _. by apply tags_last.
Qed.

Lemma tags_from_det end_addr a l last v l' last' v' :
  tags_from end_addr a l last v → tags_from end_addr a l' last' v' →
  l = l' ∧ last = last' ∧ v = v'.
Proof.
  intros H. revert l' last' v'. induction H as [a Hn|a l last v E H IH]; intros l' last' v' H'.
  - by inversion H'; subst; [|congruence].
  - inversion H'; subst; [congruence|]. by destruct (IH _ _ _ ltac:(done)) as (-> & -> & ->).
Qed.
End info.

(** The totals of a list of entries. *)
Definition tally (t : stage5_parse_totals) (e : multiboot2_mmap_entry) : stage5_parse_totals :=
  next_entry (count_entry t (entry_type e) (entry_length e)).

Record totals_ok (t : stage5_parse_totals) : Prop := {
  ok_entry_count : is_u32 (entry_count t);
  ok_usable_regions : is_u32 (usable_regions t);
  ok_reserved_regions : is_u32 (reserved_regions t);
  ok_usable_bytes : is_u64 (totals_usable_bytes t);
  ok_reserved_bytes : is_u64 (totals_reserved_bytes t);
}.

Lemma add_clamp_range a b : is_u64 a → is_u64 b → is_u64 (add_clamp_u64 a b).
Proof. intros Ha Hb. rewrite add_clamp_spec by done. zlia. Qed.

Lemma tally_ok t e : totals_ok t → entry_u64 e → totals_ok (tally t e).
Proof.
  intros [] [_ Hl]. unfold tally, count_entry. destruct (_ =? _); split; cbn; auto using add_clamp_range.
Qed.

(** The region table, with what the summaries print of it. *)
Record table_printable (b : stage5b_memory_bookkeeping) : Prop := {
  tp_ok : bookkeeping_ok b;
  tp_dropped : is_u32 (dropped_regions b);
}.

Lemma account_printable b e : table_printable b → entry_u64 e → table_printable (account b e).
Proof.
  intros [Hok Hd] He. split; [by apply account_ok|]. cbn. by case_bool_decide.
Qed.

(** ** The region table of a list of entries *)
Definition is_available (e : multiboot2_mmap_entry) : Prop :=
  entry_type e = MULTIBOOT2_MEMORY_AVAILABLE.
#[export] Instance is_available_dec e : Decision (is_available e).
Proof. unfold is_available. apply _. Defined.

Fixpoint sum_of (f : multiboot2_mmap_entry → Z) (es : list multiboot2_mmap_entry) : Z :=
  match es with [] => 0 | e :: es => f e + sum_of f es end.
Definition usable_length (e : multiboot2_mmap_entry) : Z :=
  stage5b_policy_usable_length (entry_base_addr e) (entry_length e) (entry_type e).
Definition available_length (e : multiboot2_mmap_entry) : Z :=
  if decide (is_available e) then entry_length e else 0.
Definition reserved_length (e : multiboot2_mmap_entry) : Z :=
  if decide (is_available e) then 0 else entry_length e.

Lemma usable_length_range e : entry_u64 e → is_u64 (usable_length e).
Proof.
  intros [Hb Hl]. unfold usable_length. rewrite policy_usable_length_exact by done.
  case_decide as Hd; [|lia]. destruct Hd as [_ Hd]. consts. lia.
Qed.

Lemma sum_of_nonneg f es : Forall (λ e, 0 ≤ f e) es → 0 ≤ sum_of f es.
Proof. induction 1; cbn; lia. Qed.

(** Accounting a list of entries, one after the other. *)
Record accounts (es : list multiboot2_mmap_entry) (b : stage5b_memory_bookkeeping) : Prop := {
  ac_ok : bookkeeping_ok b;
  ac_regions : recorded_regions b = take 128 (entry_region <$> es);
  ac_count : region_count b + dropped_regions b = Z.of_nat (length es);
  ac_dropped : 0 ≤ dropped_regions b;
  ac_policy : policy_usable_bytes b = Z.min UINT64_MAX (sum_of usable_length es);
}.

Lemma sum_of_app f es es' : sum_of f (es ++ es') = sum_of f es + sum_of f es'.
Proof. induction es as [|e es IH]; cbn; [done|]. rewrite IH. lia. Qed.

Lemma accounts_snoc es b e :
  accounts es b → Forall entry_u64 es → entry_u64 e → Z.of_nat (length es) < UINT32_MAX →
  accounts (es ++ [e]) (account b e).
Proof.
  intros [Hok Hr Hc Hd Hp] Hes He Hlen. destruct (account_ok b e Hok He) as [Hok' Hr'].
  pose proof (usable_length_range e He) as Hul.
  assert (0 ≤ sum_of usable_length es).
  { apply sum_of_nonneg. eapply Forall_impl; [exact Hes|]. intros x Hx.
    apply usable_length_range in Hx. lia. }
  split; [done| | | |].
  - rewrite Hr', Hr, fmap_app. cbn. by rewrite take_take_app.
  - rewrite length_app. cbn [length]. destruct Hok as [[_ Hcc _] _ _]. cbn.
    case_bool_decide; [rewrite u32_id by zlia|]; lia.
  - cbn. case_bool_decide; [apply u32_range|done].
  - rewrite sum_of_app. cbn [sum_of]. destruct He as [He1 He2]. unfold usable_length at 2.
    revert Hul. unfold usable_length. rewrite policy_usable_length_exact by done. intros Hul.
    cbn. rewrite Hp. unfold entry_usable. fold usable_length in *.
    repeat case_decide; destruct_and?; zlia.
Qed.

Lemma accounts_fold es' es b :
  accounts es b → Forall entry_u64 (es ++ es') → Z.of_nat (length (es ++ es')) ≤ UINT32_MAX →
  accounts (es ++ es') (foldl account b es').
Proof.
  revert es b. induction es' as [|e es' IH]; intros es b Ha Hu Hlen; cbn [foldl].
  { by rewrite app_nil_r. }
  apply Forall_app in Hu as [Hu1 Hu2]. inversion Hu2; subst. rewrite length_app in Hlen. cbn in Hlen.
  rewrite (cons_middle e es es'), app_assoc. apply IH.
  - apply accounts_snoc; [done..|lia].
  - rewrite <- app_assoc. by apply Forall_app.
  - rewrite !length_app. cbn. lia.
Qed.

Lemma fold_tally_bytes es t :
  totals_ok t → Forall entry_u64 es →
  totals_usable_bytes (foldl tally t es) =
    Z.min UINT64_MAX (totals_usable_bytes t + sum_of available_length es) ∧
  totals_reserved_bytes (foldl tally t es) =
    Z.min UINT64_MAX (totals_reserved_bytes t + sum_of reserved_length es).
Proof.
  intros Ht Hes. revert t Ht. induction Hes as [|e es He Hes IH]; intros t Ht; cbn [foldl sum_of].
  { destruct Ht. split; zlia. }
  assert (0 ≤ sum_of available_length es ∧ 0 ≤ sum_of reserved_length es) as [??].
  { split; apply sum_of_nonneg; (eapply Forall_impl; [exact Hes|]); intros x [_ ?];
      unfold available_length, reserved_length; case_decide; lia. }
  destruct (IH (tally t e) (tally_ok t e Ht He)) as [-> ->].
  destruct Ht as [_ _ _ Hub Hrb], He as [_ Hl].
  unfold available_length, reserved_length, tally, count_entry, is_available in *.
  destruct (Z.eqb_spec (entry_type e) MULTIBOOT2_MEMORY_AVAILABLE); case_decide; try done; cbn;
    rewrite add_clamp_spec by done; split; consts; lia.
Qed.

(** ** What the walk leaves behind

    Between two points of the walk only text went out on the serial line and
    the region table changed. *)
Section reports.
Context `{KL : KernelLayout, KI : KernelImage, PO : Ports, IS : InterruptStubs, UR : !UartReady}.
Implicit Types s : kernel.

Definition reports (b : stage5b_memory_bookkeeping) s s' : Prop :=
  ∃ bytes c, sends bytes (view k_console_lens s) c ∧
    s' = over memory_map_lens b (over k_console_lens c s).

Lemma reports_refl s : reports (k_memory_map s) s s.
Proof. exists [], (view k_console_lens s). split; [apply sends_nil|]. by destruct s as [[]]. Qed.

Lemma reports_trans b1 b2 s1 s2 s3 : reports b1 s1 s2 → reports b2 s2 s3 → reports b2 s1 s3.
Proof.
  intros (t1 & c1 & H1 & ->) (t2 & c2 & H2 & ->). destruct s1 as [[] h p b]. cbn in *.
  exists (t1 ++ t2), c2. split; [by eapply sends_trans|done].
Qed.

Lemma reports_map b s s' : reports b s s' → k_memory_map s' = b.
Proof. by intros (t & c & _ & ->). Qed.
Lemma reports_memory b s s' : reports b s s' → view k_memory_lens s' = view k_memory_lens s.
Proof. intros (t & c & [Hm _] & ->). destruct s as [[] h p b']. exact Hm. Qed.
Lemma reports_pmm b s s' : reports b s s' → k_pmm s' = k_pmm s.
Proof. by intros (t & c & _ & ->). Qed.

Lemma io_reports m s b s0 (Q : unit → kernel → Prop) :
  reports b s0 s → (∃ c bytes, m (view k_console_lens s) = Ret tt c ∧ sends bytes (view k_console_lens s) c) →
  (∀ s', reports b s0 s' → Q tt s') → wp (io m) Q s.
Proof.
  intros HR (c & bytes & E & Hs) HQ. apply wp_zoom. eapply wp_Ret; [exact E|]. apply HQ.
  eapply reports_trans; [exact HR|]. exists bytes, c. split; [done|].
  rewrite <- (reports_map _ _ _ HR). by destruct s as [[]].
Qed.

Lemma wp_say text s b s0 Q :
  reports b s0 s → c_text text → Z.of_nat (String.length text) < 0x10000 →
  (∀ s', reports b s0 s' → Q tt s') → wp (io (serial_write_text text)) Q s.
Proof.
  intros HR Ht Hl HQ. eapply io_reports; [exact HR| |exact HQ].
  destruct (serial_write_text_sends UR text (view k_console_lens s) Ht Hl) as (c & E & H). eauto.
Qed.

Lemma wp_say_hex label v s b s0 Q :
  reports b s0 s → c_text label → Z.of_nat (String.length label) < 0x10000 → is_u32 v →
  (∀ s', reports b s0 s' → Q tt s') → wp (io (serial_write_label_hex label v)) Q s.
Proof.
  intros HR Ht Hl Hv HQ. eapply io_reports; [exact HR| |exact HQ].
  destruct (serial_hex_sends 8 label v (view k_console_lens s) ltac:(lia) Hv Ht Hl) as (c & E & H).
  exists c. eexists. split; [|exact H]. unfold serial_write_label_hex.
  by mrun (hex32_text_run v (view k_console_lens s) Hv).
Qed.

Lemma wp_say_hex64 label v s b s0 Q :
  reports b s0 s → c_text label → Z.of_nat (String.length label) < 0x10000 → is_u64 v →
  (∀ s', reports b s0 s' → Q tt s') → wp (io (serial_write_label_hex64 label v)) Q s.
Proof.
  intros HR Ht Hl Hv HQ. eapply io_reports; [exact HR| |exact HQ].
  destruct (serial_hex_sends 16 label v (view k_console_lens s) ltac:(lia) Hv Ht Hl) as (c & E & H).
  exists c. eexists. split; [|exact H]. unfold serial_write_label_hex64.
  by mrun (hex64_text_run v (view k_console_lens s) Hv).
Qed.

(** Reading the information. *)
Lemma reports_restore m b s0 s :
  reports b s0 s → view k_memory_lens s0 = m → over k_memory_lens m s = s.
Proof. intros HR <-. rewrite <- (reports_memory _ _ _ HR). by destruct s as [[[]]]. Qed.

Lemma wp_word m D a s b s0 Q :
  reports b s0 s → view k_memory_lens s0 = m → usable m D → (∀ x, a ≤ x < a + 4 → D x) →
  0 ≤ a → is_u32 (a + 3) → Q (vword m a) s → wp (memory_access (load32 a)) Q s.
Proof.
  intros HR Hm Hu HD H0 Ha HQ. apply wp_zoom. rewrite (reports_memory _ _ _ HR), Hm.
  eapply wp_Ret; [by eapply load32_ok|]. by rewrite (reports_restore _ _ _ _ HR Hm).
Qed.

Lemma wp_dword m D a s b s0 Q :
  reports b s0 s → view k_memory_lens s0 = m → usable m D → (∀ x, a ≤ x < a + 8 → D x) →
  0 ≤ a → is_u32 (a + 7) → Q (vdword m a) s → wp (memory_access (load64 a)) Q s.
Proof.
  intros HR Hm Hu HD H0 Ha HQ. apply wp_zoom. rewrite (reports_memory _ _ _ HR), Hm.
  assert (load64 a m = Ret (vdword m a) m) as E.
  { unfold load64. mrun (load32_ok m D a Hu ltac:(lia) H0 ltac:(intros; apply HD; lia)).
    rewrite u32_id by lia.
    by mrun (load32_ok m D (a + 4) Hu ltac:(lia) ltac:(lia) ltac:(intros; apply HD; lia)). }
  eapply wp_Ret; [exact E|]. by rewrite (reports_restore _ _ _ _ HR Hm).
Qed.

Lemma wp_map m b b' s s0 Q :
  reports b s0 s → m b = Ret tt b' → (∀ s', reports b' s0 s' → Q tt s') →
  wp (zoom memory_map_lens m) Q s.
Proof.
  intros HR E HQ. apply wp_zoom. cbn [view memory_map_lens]. rewrite (reports_map _ _ _ HR).
  eapply wp_Ret; [exact E|]. apply HQ. eapply reports_trans; [exact HR|].
  exists [], (view k_console_lens s). split; [apply sends_nil|]. by destruct s as [[]].
Qed.
End reports.

(** One line of text in a proof about [reports]. *)
Ltac say :=
  apply wp_bind;
  lazymatch goal with
  | |- wp (io (serial_write_text _)) _ _ => eapply wp_say
  | |- wp (io (serial_write_label_hex _ _)) _ _ => eapply wp_say_hex
  | |- wp (io (serial_write_label_hex64 _ _)) _ _ => eapply wp_say_hex64
  end; [eassumption|by vm_compute|by vm_compute|..].

(** ** The walk *)
Section walk.
Context `{KL : KernelLayout, KI : KernelImage, PO : Ports, IS : InterruptStubs, UR : !UartReady}.
Implicit Types s : kernel.

Lemma entry_loop m D size end_ n a t s s0 b fuel :
  reports b s0 s → view k_memory_lens s0 = m → usable m D → (∀ x, a ≤ x < end_ → D x) →
  0 ≤ a → a ≤ end_ → MMAP_ENTRY_SIZE ≤ size → end_ + size < 0x100000000 →
  n = Z.to_nat ((end_ - a) / size) → (n < fuel)%nat → totals_ok t → table_printable b →
  wp (loop fuel (entry_step size end_) (a, t))
    (λ t' s', t' = foldl tally t (entries_from m size n a) ∧
      reports (foldl account b (entries_from m size n a)) s0 s') s.
Proof.
  intros HR Hm Hu HD H0 Ha Hsize Hend Hn Hfuel. revert a t s b fuel HR HD H0 Ha Hn Hfuel.
  consts. induction n as [|n IH]; intros a t s b [|fuel] HR HD H0 Ha Hn Hfuel Ht Hb; [lia| |lia|];
    cbn [loop]; apply wp_bind; unfold entry_step; cbv beta iota; rewrite (u32_id (a + size)) by lia.
  { rewrite (proj2 (Z.leb_gt _ _)) by nia. wp_steps. done. }
  assert (a + size ≤ end_) as Hle by nia. rewrite (proj2 (Z.leb_le _ _)) by done.
  pose proof (entry_at_u64 m a) as Hea. destruct Hea as [Hbase Hlen].
  say; [apply Ht|]. intros s1 R1.
  eapply wp_bind, wp_dword; [exact R1|exact Hm|exact Hu|intros; apply HD; lia|done|lia|].
  say; [exact Hbase|]. intros s2 R2. rewrite !u32_id by lia.
  eapply wp_bind, wp_dword; [exact R2|exact Hm|exact Hu|intros; apply HD; lia|lia|lia|].
  say; [exact Hlen|]. intros s3 R3.
  eapply wp_bind, wp_word; [exact R3|exact Hm|exact Hu|intros; apply HD; lia|lia|lia|].
  say; [apply vword_u32|]. intros s4 R4. cbv zeta.
  apply wp_bind. eapply wp_map; [exact R4|by apply account_entry_eq; [apply Hb|]|].
  intros s5 R5. wp_steps. rewrite entries_from_S. cbn [foldl].
  apply IH; try done; try lia.
  - intros; apply HD; lia.
  - nia.
  - by apply tally_ok.
  - by apply account_printable.
Qed.

Lemma align_up_8_spec v : 0 ≤ v → v + 7 < 0x100000000 → align_up_8 v = round_up_8 v.
Proof.
  intros H0 Hv. unfold align_up_8, round_up_8. change 7 with (2 ^ 3 - 1) at 2.
  rewrite u32_id, land_not32 by lia. change (2 ^ 3) with 8. lia.
Qed.

(** The screen of a kernel that panicked. *)
Definition stopped (reason : string) (detail : Z) s : Prop :=
  ∀ r c, on_screen r c →
    screen_cell (view k_memory_lens s) r c = panic_cells reason detail r c.

Lemma panic_ends {A} m D reason detail b s0 s (Q : A → kernel → Prop) P :
  reports b s0 s → view k_memory_lens s0 = m → usable m D → (∀ x, screen x → D x) →
  c_text reason → Z.of_nat (String.length reason) < 0x10000 → is_u32 detail →
  (∀ s', stopped reason detail s' → P reason detail s') →
  ends (io (panic reason detail)) Q P s.
Proof.
  intros HR Hm Hu HD Hr Hlen Hd HP. pose proof (reports_memory _ _ _ HR) as Hmem.
  destruct (panic_run (A := A) D reason detail (view k_console_lens s)) as (c & E & [[_ Hc _] _]);
    [|done..|].
  { change (usable (view k_memory_lens s) D). by rewrite Hmem, Hm. }
  unfold ends, zoom. rewrite E. apply HP. intros x y Hxy.
  replace (view k_memory_lens _) with (con_memory c) by (by destruct s as [[[]]]). by apply Hc.
Qed.

Definition after_tag (m : memory) (a : Z) (found : bool) (t : stage5_parse_totals)
    : Z * bool * stage5_parse_totals :=
  if decide (is_mmap_tag m a)
  then (a + round_up_8 (tag_size m a), true, foldl tally t (mmap_entries m a))
  else (a + round_up_8 (tag_size m a), found, t).
Definition account_tag (m : memory) (b : stage5b_memory_bookkeeping) (a : Z) :=
  if decide (is_mmap_tag m a) then foldl account b (mmap_entries m a) else b.

(** A memory-map tag. *)
Lemma mmap_tag_step_ends m D end_ a t s s0 b fuel :
  reports b s0 s → view k_memory_lens s0 = m → usable m D → (∀ x, screen x → D x) →
  (∀ x, a ≤ x < end_ → D x) → 0 ≤ a → end_ < 0x100000000 → a + tag_size m a ≤ end_ →
  8 ≤ tag_size m a →
  (MMAP_TAG_SIZE ≤ tag_size m a → end_ + tag_entry_size m a < 0x100000000) →
  end_ - a < 8 * Z.of_nat fuel → totals_ok t → table_printable b →
  ends (mmap_tag_step fuel a (tag_size m a) t)
    (λ t' s', MMAP_TAG_SIZE ≤ tag_size m a ∧ MMAP_ENTRY_SIZE ≤ tag_entry_size m a ∧
      t' = foldl tally t (mmap_entries m a) ∧ reports (foldl account b (mmap_entries m a)) s0 s')
    (λ r d s', (if decide (tag_size m a < MMAP_TAG_SIZE)
        then TagBad "invalid mmap tag size" (tag_size m a) = TagBad r d
        else tag_entry_size m a < MMAP_ENTRY_SIZE ∧
          TagBad "invalid mmap entry size" (tag_entry_size m a) = TagBad r d) ∧ stopped r d s') s.
Proof.
  intros HR Hm Hu Hscr HD Ha Hend Hsize H8 Hes Hfuel Ht Hb. unfold mmap_tag_step.
  pose proof (tag_size_u32 m a) as Hsz. pose proof (vword_u32 m (a + 8)) as He32.
  fold (tag_entry_size m a) in He32. consts.
  destruct (Z.ltb_spec (tag_size m a) 16) as [Hlt|Hge].
  { eapply panic_ends; [done..|by vm_compute|by vm_compute|done|].
    intros s' Hs. by rewrite decide_True. }
  rewrite (u32_id (a + 8)) by lia.
  eapply ends_bind_wp, wp_word; [exact HR|exact Hm|exact Hu|intros; apply HD; lia|lia|lia|].
  fold (tag_entry_size m a). destruct (Z.ltb_spec (tag_entry_size m a) 24) as [Hlt|Hge'].
  { eapply panic_ends; [done..|by vm_compute|by vm_compute|done|].
    intros s' Hs. by rewrite decide_False by lia. }
  rewrite !u32_id by lia. apply ends_wp. eapply wp_mono; cycle 1.
  { eapply (entry_loop m D _ _ (Z.to_nat ((tag_size m a - 16) / tag_entry_size m a)));
      [exact HR|exact Hm|exact Hu|intros; apply HD; lia|lia|lia|done|
       specialize (Hes Hge); lia|f_equal; f_equal; lia| |done|done].
    assert ((tag_size m a - 16) / tag_entry_size m a ≤ (tag_size m a - 16) / 24)
      by (apply Z.div_le_compat_l; lia). lia. }
  by intros t' s' [-> HR'].
Qed.

(** The end of an iteration. *)
Lemma advance_ends m D end_ a size (found : bool) (t : stage5_parse_totals) s s0 b :
  reports b s0 s → view k_memory_lens s0 = m → usable m D → (∀ x, screen x → D x) →
  0 ≤ a → 8 ≤ size → a + size + 8 < 0x100000000 →
  ends (if (round_up_8 size =? 0) || (u32 (a + round_up_8 size) >? end_)
        then io (panic "invalid aligned tag size" size)
        else continue (u32 (a + round_up_8 size), found, t))
    (λ (r : Z * bool * stage5_parse_totals + bool * stage5_parse_totals) s',
      a + round_up_8 size ≤ end_ ∧ r = inl (a + round_up_8 size, found, t) ∧ reports b s0 s')
    (λ r d s', end_ < a + round_up_8 size ∧
      TagBad "invalid aligned tag size" size = TagBad r d ∧ stopped r d s') s.
Proof.
  intros HR Hm Hu Hscr Ha H8 Hw.
  assert (8 ≤ round_up_8 size < size + 8) as Hr by (unfold round_up_8; lia).
  rewrite (proj2 (Z.eqb_neq _ _)), u32_id by lia. cbn [orb].
  destruct (Z.gtb_spec (a + round_up_8 size) end_) as [Hgt|Hle]; [|by apply ends_ret].
  eapply panic_ends; [done..|by vm_compute|by vm_compute|lia|]. by auto with lia.
Qed.

(** One tag. *)
Lemma tag_step_ends m D end_ a found t s s0 b fuel :
  reports b s0 s → view k_memory_lens s0 = m → usable m D → (∀ x, screen x → D x) →
  (∀ x, a ≤ x < end_ → D x) → 0 ≤ a ≤ end_ → end_ + 16 < 0x100000000 → tag_fits m end_ a →
  end_ - a < 8 * Z.of_nat fuel → totals_ok t → table_printable b →
  ends (tag_step fuel end_ (a, found, t))
    (λ r s', match check_tag m end_ a with
      | TagNext => r = inl (after_tag m a found t) ∧ reports (account_tag m b a) s0 s'
      | TagStop => r = inr (found, t) ∧ reports b s0 s'
      | TagBad _ _ => False end)
    (λ r d s', check_tag m end_ a = TagBad r d ∧ stopped r d s') s.
Proof.
  intros HR Hm Hu Hscr HD Ha Hend Hfits Hfuel Ht Hb. unfold tag_fits, check_tag in *. consts.
  unfold tag_step. cbv beta iota. consts. rewrite (u32_id (a + 8)) by lia.
  pose proof (tag_size_u32 m a) as Hsz. pose proof (vword_u32 m a) as Hty. fold (tag_type m a) in Hty.
  case_decide as Hex; [rewrite (proj2 (Z.leb_gt _ _)) by lia; done|].
  destruct Hfits as [Hf1 Hf2]; [lia|]. rewrite (proj2 (Z.leb_le _ _)), (u32_id (a + 4)) by lia.
  eapply ends_bind_wp, wp_word; [exact HR|exact Hm|exact Hu|intros; apply HD; lia|lia|lia|].
  fold (tag_size m a). cbv zeta.
  rewrite align_up_8_spec by lia. case_decide.
  { rewrite (proj2 (Z.ltb_lt _ _)) by lia.
    eapply panic_ends; [done..|by vm_compute|by vm_compute|done|done]. }
  rewrite (proj2 (Z.ltb_ge _ _)) by lia.
  eapply ends_bind_wp, wp_word; [exact HR|exact Hm|exact Hu|intros; apply HD; lia|lia|lia|].
  fold (tag_type m a). rewrite (u32_id (a + tag_size m a)) by lia.
  destruct (Z.gtb_spec (a + tag_size m a) end_); case_decide; try lia.
  { eapply panic_ends; [done..|by vm_compute|by vm_compute|done|done]. }
  destruct (Z.eqb_spec (tag_type m a) 0); case_decide; try lia.
  { destruct (Z.eqb_spec (tag_size m a) 8); case_decide; try lia; cbn [negb]; [by split|].
    eapply panic_ends; [done..|by vm_compute|by vm_compute|done|done]. }
  assert (is_u32 (a + round_up_8 (tag_size m a)) ∧ 8 ≤ round_up_8 (tag_size m a)) as [Hr32 Hr8]
    by (unfold round_up_8; lia).
  clear Hr32 Hr8. apply ends_bind. destruct (Z.eqb_spec (tag_type m a) 6) as [E6|E6].
  - apply ends_bind. eapply ends_mono; cycle 2.
    { eapply (mmap_tag_step_ends m D end_); try done; try lia. }
    + intros t' s' (H16 & H24 & -> & HR'). apply ends_ret. consts.
      rewrite !(decide_False (P := _ ∧ _)) by lia.
      eapply ends_mono; [| |eapply (advance_ends m D); try done; lia]; cbv beta.
      * intros r s'' (Hle & -> & HR''). rewrite decide_False by lia.
        unfold after_tag, account_tag, is_mmap_tag. rewrite !decide_True by done. done.
      * intros r d s'' (Hlt & E & Hs). rewrite decide_True by lia. done.
    + intros r d s' [Hbad Hs]. split; [|done]. consts.
      destruct (decide (tag_size m a < 16)); [by rewrite decide_True by done|].
      destruct Hbad as [Hes <-]. rewrite decide_False by lia. by rewrite decide_True by done.
  - apply ends_ret. rewrite !(decide_False (P := _ ∧ _)) by lia.
    eapply ends_mono; [| |eapply (advance_ends m D); try done; lia]; cbv beta.
    + intros r s'' (Hle & -> & HR''). rewrite decide_False by lia.
      unfold after_tag, account_tag, is_mmap_tag. consts. rewrite !decide_False by done. done.
    + intros r d s'' (Hlt & E & Hs). rewrite decide_True by lia. done.
Qed.

Lemma fold_tally_ok l t : Forall entry_u64 l → totals_ok t → totals_ok (foldl tally t l).
Proof. intros Hl. revert t. induction Hl; intros t Ht; cbn [foldl]; auto using tally_ok. Qed.
Lemma fold_account_printable l b :
  Forall entry_u64 l → table_printable b → table_printable (foldl account b l).
Proof. intros Hl. revert b. induction Hl; intros b Hb; cbn [foldl]; auto using account_printable. Qed.
Lemma mmap_entries_u64 m a : Forall entry_u64 (mmap_entries m a).
Proof. apply entries_from_u64. Qed.
Lemma tags_entries_u64 m l : Forall entry_u64 (tags_entries m l).
Proof.
  unfold tags_entries. induction (filter (is_mmap_tag m) l) as [|a l' IH]; cbn; [constructor|].
  apply Forall_app. split; [apply mmap_entries_u64|exact IH].
Qed.

Lemma tags_entries_cons m a l :
  tags_entries m (a :: l) =
    (if decide (is_mmap_tag m a) then mmap_entries m a else []) ++ tags_entries m l.
Proof. unfold tags_entries. rewrite filter_cons. by case_decide. Qed.

Definition any_mmap_tag (m : memory) (l : list Z) : bool := bool_decide (Exists (is_mmap_tag m) l).

(** The chain of tags from [a] on. *)
Lemma tag_loop_ends m D end_ a l last v s0 :
  tags_from m end_ a l last v → Forall (tag_fits m end_) (l ++ [last]) →
  view k_memory_lens s0 = m → usable m D → (∀ x, screen x → D x) → end_ + 16 < 0x100000000 →
  ∀ inner fuel found t b s,
  reports b s0 s → (∀ x, a ≤ x < end_ → D x) → 0 ≤ a ≤ end_ →
  end_ - a < 8 * Z.of_nat inner → end_ - a < 8 * Z.of_nat fuel →
  totals_ok t → table_printable b →
  ends (loop fuel (tag_step inner end_) (a, found, t))
    (λ r s', v = TagStop ∧ r = (found || any_mmap_tag m l, foldl tally t (tags_entries m l)) ∧
      reports (foldl account b (tags_entries m l)) s0 s')
    (λ r d s', v = TagBad r d ∧ stopped r d s') s.
Proof.
  intros Htags Hfits Hm Hu Hscr Hend.
  induction Htags as [a Hne|a l last v E Htags IH];
    intros inner [|fuel] found t b s HR HD Ha Hi Hf Ht Hb; try lia.
  - apply ends_loop. cbn [app] in Hfits. rewrite Forall_singleton in Hfits.
    eapply ends_mono; [| |eapply (tag_step_ends m D end_ a); done || lia].
    + intros r s' Hr. destruct (check_tag m end_ a); [done| |done].
      destruct Hr as [-> Hr]. by rewrite orb_false_r.
    + by intros r d s' [-> Hs].
  - apply ends_loop. inversion Hfits as [|? ? Hfit Hfits']; subst.
    eapply ends_mono; [| |eapply (tag_step_ends _ D end_ a); done || lia];
      cbv beta; rewrite E; [|by intros r d s' [[=] _]].
    intros r s' [-> HR']. pose proof (check_tag_next _ _ _ E) as (H8 & Hs8 & Hle & _).
    assert (8 ≤ round_up_8 (tag_size (view k_memory_lens s0) a)) as Hr8
      by (revert Hs8; unfold round_up_8, TAG_SIZE; lia).
    rewrite tags_entries_cons. unfold after_tag, account_tag in *.
    unfold any_mmap_tag. destruct (decide (is_mmap_tag _ a)) as [Hmm|Hmm].
    + rewrite !foldl_app, (bool_decide_true (Exists _ (a :: l))), orb_true_r by (by constructor).
      apply (IH Hfits' inner fuel true); try done; try lia.
      * intros x Hx. apply HD. lia.
      * by apply fold_tally_ok; [apply mmap_entries_u64|].
      * by apply fold_account_printable; [apply mmap_entries_u64|].
    + rewrite (bool_decide_ext (Exists _ (a :: l)) (Exists (is_mmap_tag _) l))
        by (rewrite Exists_cons; split; [by intros [?|?]|by right]).
      apply (IH Hfits' inner fuel found); try done; try lia. intros x Hx. apply HD. lia.
Qed.

Lemma emit_summary_reports t b s s0 :
  reports b s0 s → totals_ok t → table_printable b →
  is_u64 (raw_usable_bytes b) → is_u64 (raw_reserved_bytes b) →
  wp (stage5b_emit_summary t) (λ _ s', reports b s0 s') s.
Proof.
  intros HR [] [[[_ Hc _] Hp Hh] Hd] Hru Hrr. unfold stage5b_emit_summary.
  apply wp_bind, wp_gets. rewrite (reports_map _ _ _ HR). cbv zeta.
  set (unusable := if raw_usable_bytes b >=? policy_usable_bytes b then _ else 0).
  assert (is_u64 unusable) by
    (unfold unusable; destruct (Z.geb_spec (raw_usable_bytes b) (policy_usable_bytes b)); lia).
  clearbody unusable.
  do 10 (let s' := fresh "s" in say; [lia|]; clear HR; intros s' HR).
  eapply wp_say_hex64; [exact HR|by vm_compute|by vm_compute|lia|done].
Qed.

(** ** The whole of Stage 5A *)
Definition raw_totals (b : stage5b_memory_bookkeeping) (t : stage5_parse_totals) :=
  mk_memory_bookkeeping (region_count b) (dropped_regions b) (totals_usable_bytes t)
    (totals_reserved_bytes t) (policy_usable_bytes b) (highest_usable_end b) (regions b).

(** The information can be read, and so can the screen; the cursor stays clear
    of the end of the address space. *)
Record info_readable (m : memory) (D : Z → Prop) (info : Z) : Prop := {
  ir_usable : usable m D;
  ir_screen x : screen x → D x;
  ir_window x : info ≤ x < info + Z.max INFO_HEADER_SIZE (vword m info) → D x;
  ir_low : 0 ≤ info;
  ir_high : info + vword m info + 16 < 0x100000000;
}.

Definition reset_map (b : stage5b_memory_bookkeeping) : stage5b_memory_bookkeeping :=
  mk_memory_bookkeeping 0 0 0 0 0 0 (regions b).

Lemma parse_mmap_ends D fuel info s l last v :
  let m := view k_memory_lens s in
  let end_ := info + vword m info in
  info_readable m D info → INFO_HEADER_SIZE ≤ vword m info → vword m info < 8 * Z.of_nat fuel →
  length (regions (k_memory_map s)) = 128%nat →
  tags_from m end_ (info + INFO_HEADER_SIZE) l last v → Forall (tag_fits m end_) (l ++ [last]) →
  let t := foldl tally stage5_parse_totals_reset (tags_entries m l) in
  let b := foldl account (reset_map (k_memory_map s)) (tags_entries m l) in
  ends (stage5a_parse_mmap fuel info)
    (λ _ s', v = TagStop ∧ Exists (is_mmap_tag m) l ∧ reports (raw_totals b t) s s')
    (λ r d s', stopped r d s' ∧ (v = TagBad r d ∨
      v = TagStop ∧ ¬ Exists (is_mmap_tag m) l ∧ TagBad r d = TagBad "missing Multiboot2 mmap tag" 0)) s.
Proof.
  intros m end_ [Hu Hscr HD H0 Hhi] Hsize Hfuel Hlen Htags Hfits t b.
  pose proof (vword_u32 m info) as H32. consts. unfold stage5a_parse_mmap.
  assert (bookkeeping_ok (reset_map (k_memory_map s))) as Hreset.
  { split; [split|..]; cbn; lia || constructor || done. }
  assert (totals_ok stage5_parse_totals_reset) as Ht0 by (split; cbn; lia).
  assert (table_printable (reset_map (k_memory_map s))) as Hp0 by (split; [done|cbn; lia]).
  eapply ends_bind_wp, wp_word; [apply reports_refl|done|exact Hu|intros; apply HD; lia|lia|lia|].
  fold m. rewrite (u32_id (info + vword m info)) by lia. fold end_. cbv zeta. consts.
  rewrite (proj2 (Z.ltb_ge _ _)), (proj2 (Z.ltb_ge _ _)) by lia.
  eapply ends_bind_wp, wp_say; [apply reports_refl|by vm_compute|by vm_compute|]. intros s1 R1.
  eapply ends_bind_wp, wp_map; [exact R1|done|]. intros s2 R2. change (mk_memory_bookkeeping 0 0 0 0 0 0 _)
    with (reset_map (k_memory_map s)) in R2.
  rewrite (u32_id (info + 8)) by lia. apply ends_bind.
  eapply ends_mono; cycle 2.
  { eapply (tag_loop_ends m D end_ (info + 8) l last v s); try done; try lia.
    intros x Hx. apply HD. lia. }
  - intros [found t'] s3 (-> & [= -> ->] & R3). cbn [orb]. unfold any_mmap_tag.
    case_bool_decide as Hex; cbn [negb].
    + eapply ends_bind_wp, wp_map; [exact R3|done|]. intros s4 R4. apply ends_wp.
      assert (totals_ok t) as Ht by (apply fold_tally_ok; [apply tags_entries_u64|done]).
      assert (table_printable b) as [[Hb1 Hb2 Hb3] Hb4]
        by (apply fold_account_printable; [apply tags_entries_u64|done]).
      pose proof Ht as [_ _ _ Htu Htr]. eapply wp_mono; [|eapply emit_summary_reports].
      * intros [] s' HR. split; [done|]. split; [done|exact HR].
      * exact R4.
      * exact Ht.
      * destruct Hb1. split; [split; [split|..]|]; assumption.
      * exact Htu.
      * exact Htr.
    + eapply panic_ends; [exact R3|done|exact Hu|done|by vm_compute|by vm_compute|lia|]. by auto.
  - intros r d s3 [-> Hs]. auto.
Qed.

Lemma tags_entries_length m end_ a l last v :
  tags_from m end_ a l last v → a ≤ end_ + 8 →
  24 * Z.of_nat (length (tags_entries m l)) ≤ Z.max 0 (end_ - a).
Proof.
  induction 1 as [a Hn|a l last v E H IH]; intros Ha; [cbn; lia|].
  pose proof (check_tag_next _ _ _ E) as (H8 & Hs8 & Hle & Hmm). specialize (IH ltac:(lia)).
  rewrite tags_entries_cons, length_app. revert H8 Hs8 Hle Hmm IH. unfold round_up_8. consts.
  intros H8 Hs8 Hle Hmm IH. case_decide as Hd; [|cbn; lia]. destruct (Hmm Hd) as [H16 H24].
  unfold mmap_entries, entries_from. rewrite length_fmap, length_seqZ. consts.
  assert ((tag_size m a - 16) / tag_entry_size m a ≤ (tag_size m a - 16) / 24)
    by (apply Z.div_le_compat_l; lia). lia.
Qed.

Lemma parsed_accounts m s end_ a l last v :
  tags_from m end_ a l last v → 0 ≤ a ≤ end_ → end_ < 0x100000000 →
  length (regions (k_memory_map s)) = 128%nat →
  let t := foldl tally stage5_parse_totals_reset (tags_entries m l) in
  let b := raw_totals (foldl account (reset_map (k_memory_map s)) (tags_entries m l)) t in
  accounts (tags_entries m l) b ∧
  raw_usable_bytes b = Z.min UINT64_MAX (sum_of available_length (tags_entries m l)) ∧
  raw_reserved_bytes b = Z.min UINT64_MAX (sum_of reserved_length (tags_entries m l)).
Proof.
  intros Htags Ha Hend Hlen t b. pose proof (tags_entries_length _ _ _ _ _ _ Htags ltac:(lia)).
  pose proof (tags_entries_u64 m l) as Hu.
  destruct (fold_tally_bytes (tags_entries m l) stage5_parse_totals_reset) as [Eu Er];
    [split; cbn; lia|done|]. split; [|by split].
  assert (accounts [] (reset_map (k_memory_map s))) as H0.
  { split; [split; [split|..]|..]; cbn; lia || constructor || done. }
  destruct (accounts_fold (tags_entries m l) [] _ H0 Hu) as [[[] ? ?] ? ? ? ?]; [cbn; zlia|].
  split; [split; [split|..]|..]; assumption.
Qed.

(** The information is accepted: its tags are well formed, one of them is a
    memory map and no size makes the cursors wrap. *)
Record info_accepted (m : memory) (info : Z) (l : list Z) (last : Z) : Prop := {
  ia_size : INFO_HEADER_SIZE ≤ vword m info;
  ia_tags : tags_from m (info + vword m info) (info + INFO_HEADER_SIZE) l last TagStop;
  ia_mmap : Exists (is_mmap_tag m) l;
  ia_fits : Forall (tag_fits m (info + vword m info)) (l ++ [last]);
}.

Lemma parse_mmap_run D fuel info s l last :
  let m := view k_memory_lens s in
  info_readable m D info → info_accepted m info l last → vword m info < 8 * Z.of_nat fuel →
  length (regions (k_memory_map s)) = 128%nat →
  ∃ s' b, stage5a_parse_mmap fuel info s = Ret tt s' ∧ reports b s s' ∧
    accounts (tags_entries m l) b ∧
    raw_usable_bytes b = Z.min UINT64_MAX (sum_of available_length (tags_entries m l)) ∧
    raw_reserved_bytes b = Z.min UINT64_MAX (sum_of reserved_length (tags_entries m l)).
Proof.
  intros m Hr [Hsize Htags Hmm Hfits] Hfuel Hlen.
  pose proof (parse_mmap_ends D fuel info s l last TagStop Hr Hsize Hfuel Hlen Htags Hfits) as H.
  unfold ends in H. destruct (stage5a_parse_mmap fuel info s) as [[] s'|r d s'| | |]; try done.
  - destruct H as (_ & _ & HR). exists s'. eexists. split; [done|]. split; [exact HR|].
    destruct Hr. revert Hsize. consts. intros Hsize.
    apply (parsed_accounts m s (info + vword m info) (info + 8) l last TagStop Htags); lia || done.
  - by destruct H as [_ [[=]|(_ & ? & _)]].
Qed.

(** What is wrong with the information, if anything: reason and detail. *)
Definition parse_failure (m : memory) (info : Z) (l : list Z) (v : tag_verdict) : option (string * Z) :=
  if decide (vword m info < INFO_HEADER_SIZE)
  then Some ("invalid Multiboot2 info size"%string, vword m info) else
  match v with
  | TagBad r d => Some (r, d)
  | _ => if any_mmap_tag m l then None else Some ("missing Multiboot2 mmap tag"%string, 0)
  end.

(** C11. Well-formed boot information is walked to its end: the region table holds
    the first 128 entries of its memory maps in order and counts the others as
    dropped, and the byte totals are the saturated sums of the entries'
    lengths.  Only text on the serial line goes out besides. *)
Theorem parse_mmap_correct D fuel info s l last :
  let m := view k_memory_lens s in
  info_readable m D info → info_accepted m info l last → vword m info < 8 * Z.of_nat fuel →
  length (regions (k_memory_map s)) = 128%nat →
  ∃ s' b, stage5a_parse_mmap fuel info s = Ret tt s' ∧ reports b s s' ∧
    accounts (tags_entries m l) b ∧
    raw_usable_bytes b = Z.min UINT64_MAX (sum_of available_length (tags_entries m l)) ∧
    raw_reserved_bytes b = Z.min UINT64_MAX (sum_of reserved_length (tags_entries m l)).
Proof. apply parse_mmap_run. Qed.

Lemma parse_mmap_short D fuel info s :
  let m := view k_memory_lens s in
  info_readable m D info → vword m info < INFO_HEADER_SIZE →
  ∃ s', stage5a_parse_mmap fuel info s = Panic "invalid Multiboot2 info size" (vword m info) s' ∧
    stopped "invalid Multiboot2 info size" (vword m info) s'.
Proof.
  intros m [Hu Hscr HD H0 Hhi] Hsize. pose proof (vword_u32 m info) as H32. consts.
  assert (ends (stage5a_parse_mmap fuel info) (λ _ _, False) (λ r d s',
    TagBad r d = TagBad "invalid Multiboot2 info size" (vword m info) ∧ stopped r d s') s) as H.
  { unfold stage5a_parse_mmap.
    eapply ends_bind_wp, wp_word; [apply reports_refl|done|exact Hu|intros; apply HD; lia|lia|lia|].
    fold m. cbv zeta. consts. rewrite (proj2 (Z.ltb_lt _ _)) by lia.
    eapply panic_ends; [apply reports_refl|done|exact Hu|done|by vm_compute|by vm_compute|lia|].
    by auto. }
  unfold ends in H. destruct (stage5a_parse_mmap fuel info s); try done.
  destruct H as [[= -> ->] ?]. eauto.
Qed.

(** C12. Whatever the memory at the information's address holds, the walk comes to
    an end as long as no size makes a cursor wrap: it returns, or it panics
    with the reason and the detail of the first thing wrong on screen.  It
    never reads outside the information. *)
Theorem parse_mmap_stops D fuel info s :
  let m := view k_memory_lens s in
  let end_ := info + vword m info in
  info_readable m D info → vword m info < 8 * Z.of_nat fuel →
  length (regions (k_memory_map s)) = 128%nat →
  (∀ l last v, tags_from m end_ (info + INFO_HEADER_SIZE) l last v →
     Forall (tag_fits m end_) (l ++ [last])) →
  ∃ l last v s', tags_from m end_ (info + INFO_HEADER_SIZE) l last v ∧
    match parse_failure m info l v with
    | None => stage5a_parse_mmap fuel info s = Ret tt s'
    | Some (r, d) => stage5a_parse_mmap fuel info s = Panic r d s' ∧ stopped r d s'
    end.
Proof.
  intros m end_ Hr Hfuel Hlen Hfits.
  destruct (tags_from_total m end_ (info + INFO_HEADER_SIZE)) as (l & last & v & Htags).
  exists l, last, v. unfold parse_failure. case_decide as Hsize.
  { destruct (parse_mmap_short D fuel info s Hr Hsize) as (s' & E & Hs). eauto. }
  pose proof (parse_mmap_ends D fuel info s l last v Hr (proj1 (Z.nlt_ge _ _) Hsize) Hfuel Hlen Htags (Hfits _ _ _ Htags)) as H.
  unfold ends in H. unfold any_mmap_tag.
  destruct (stage5a_parse_mmap fuel info s) as [[] s'|r d s'| | |]; try done; exists s'.
  - destruct H as (-> & ? & _). by rewrite bool_decide_true.
  - destruct H as [Hs [->|(-> & ? & [= -> ->])]]; [done|]. by rewrite bool_decide_false.
Qed.

(** ** A size that wraps *)
Definition plain_tag (m : memory) (a size : Z) : Prop :=
  tag_type m a ≠ MULTIBOOT2_TAG_END ∧ tag_type m a ≠ MULTIBOOT2_TAG_MMAP ∧ tag_size m a = size.

(** A tag of another kind only moves the cursor, in 32 bits. *)
Lemma plain_tag_step m D end_ a size found t s inner :
  view k_memory_lens s = m → usable m D → (∀ x, a ≤ x < a + 8 → D x) → 0 ≤ a →
  a + 8 ≤ end_ → end_ < 0x100000000 → plain_tag m a size → 8 ≤ size → is_u32 size →
  u32 (a + size) ≤ end_ → size mod 8 = 0 →
  tag_step inner end_ (a, found, t) s = Ret (inl (u32 (a + size), found, t)) s.
Proof.
  intros Hm Hu HD Ha Hle Hend (H0 & H6 & Hsz) H8 H32 Hwrap Hmod. pose proof (reports_refl s) as HR.
  assert (wp (tag_step inner end_ (a, found, t))
    (λ r s', r = inl (u32 (a + size), found, t) ∧ s' = s) s) as Hwp;
    [|by apply wp_run in Hwp as (r & s' & E & -> & ->)].
  unfold tag_step. cbv beta iota. consts.
  rewrite (u32_id (a + 8)), (proj2 (Z.leb_le _ _)), (u32_id (a + 4)) by lia.
  eapply wp_bind, wp_word; [exact HR|exact Hm|exact Hu|intros; apply HD; lia|lia|lia|].
  fold (tag_size m a). rewrite Hsz. cbv zeta.
  assert (align_up_8 size = size) as ->.
  { unfold align_up_8. change 7 with (2 ^ 3 - 1) at 2. rewrite u32_id, land_not32 by lia.
    change (2 ^ 3) with 8. lia. }
  rewrite (proj2 (Z.ltb_ge _ _)) by lia.
  eapply wp_bind, wp_word; [exact HR|exact Hm|exact Hu|intros; apply HD; lia|lia|lia|].
  fold (tag_type m a). destruct (Z.gtb_spec (u32 (a + size)) end_); [lia|].
  rewrite (proj2 (Z.eqb_neq (tag_type m a) 0)), (proj2 (Z.eqb_neq (tag_type m a) 6)) by done.
  rewrite (proj2 (Z.eqb_neq size 0)) by lia. wp_steps. cbn [orb]. by wp_steps.
Qed.

Lemma wrapping_tags_loop m D info end_ inner fuel found t s :
  view k_memory_lens s = m → usable m D → (∀ x, info ≤ x < end_ → D x) → 0 ≤ info →
  info + 24 ≤ end_ → end_ < 0x100000000 →
  plain_tag m (info + 8) 8 → plain_tag m (info + 16) 0xFFFFFFF8 →
  loop fuel (tag_step inner end_) (info + 8, found, t) s = OutOfFuel ∧
  loop fuel (tag_step inner end_) (info + 16, found, t) s = OutOfFuel.
Proof.
  intros Hm Hu HD H0 Hle Hend H1 H2. induction fuel as [|fuel [IH1 IH2]]; [done|].
  assert (u32 (info + 8 + 8) = info + 16) as E1 by (rewrite u32_id; lia).
  assert (u32 (info + 16 + 0xFFFFFFF8) = info + 8) as E2 by (unfold u32; lia).
  split.
  - erewrite loop_step; cycle 1.
    { eapply (plain_tag_step m D _ _ 8); try done; try lia. intros x Hx. apply HD. lia. }
    cbn iota beta. rewrite E1. exact IH2.
  - erewrite loop_step; cycle 1.
    { eapply (plain_tag_step m D _ _ 0xFFFFFFF8); try done; try lia. intros x Hx. apply HD. lia. }
    cbn iota beta. rewrite E2. exact IH1.
Qed.

(** C21. A tag whose size is 0xFFFFFFF8 leads the 32-bit cursor back to the tag
    before it, past all the checks: the walk never ends, whatever the fuel. *)
Theorem wrapping_size_runs_forever D fuel info s :
  let m := view k_memory_lens s in
  info_readable m D info → 24 ≤ vword m info →
  plain_tag m (info + 8) 8 → plain_tag m (info + 16) 0xFFFFFFF8 →
  stage5a_parse_mmap fuel info s = OutOfFuel.
Proof.
  intros m [Hu Hscr HD H0 Hhi] Hsize H1 H2. consts. unfold stage5a_parse_mmap.
  assert (memory_access (load32 info) s = Ret (vword m info) s) as E1.
  { assert (wp (memory_access (load32 info)) (λ v s', v = vword m info ∧ s' = s) s) as Hwp;
      [|by apply wp_run in Hwp as (v & s' & E & -> & ->)].
    eapply wp_word; [apply reports_refl|done|exact Hu|intros; apply HD; lia|lia|lia|done]. }
  mrun E1. rewrite (u32_id (info + vword m info)) by lia. cbv zeta. consts.
  rewrite (proj2 (Z.ltb_ge _ _)), (proj2 (Z.ltb_ge _ _)) by lia.
  assert (wp (io (serial_write_text ("custom-os Stage 5A: parsing memory map" +:+ newline)))
    (λ _ s', reports (k_memory_map s) s s') s) as Hwp
    by (eapply wp_say; [apply reports_refl|by vm_compute|by vm_compute|done]).
  apply wp_run in Hwp as ([] & s1 & E2 & R1). mrun E2.
  assert (wp (zoom memory_map_lens stage5b_reset_bookkeeping)
    (λ _ s', reports (reset_map (k_memory_map s)) s s') s1) as Hwp
    by (eapply wp_map; [exact R1|done|done]).
  apply wp_run in Hwp as ([] & s2 & E3 & R2). mrun E3.
  rewrite (u32_id (info + 8)) by lia. unfold mbind, M_bind.
  destruct (wrapping_tags_loop m D info (info + vword m info) fuel fuel false
    stage5_parse_totals_reset s2) as [-> _]; try done; try lia.
  - by rewrite (reports_memory _ _ _ R2).
  - intros x Hx. apply HD. lia.
Qed.
End walk.

(** ** A boot loader's information: three entries, at 0x10000 *)
Section witnesses.
#[local] Existing Instance qemu_layout.
#[local] Existing Instance qemu_image.
#[local] Existing Instance idle_ports.
#[local] Existing Instance demo_stubs.

Definition le32 (v : Z) : list Z := [le_byte 0 v; le_byte 1 v; le_byte 2 v; le_byte 3 v].
Definition le_entry (base length type : Z) : list Z :=
  le32 base ++ le32 0 ++ le32 length ++ le32 0 ++ le32 type ++ le32 0.
Definition demo_info : list Z :=
  le32 104 ++ le32 0 ++
  le32 6 ++ le32 88 ++ le32 24 ++ le32 0 ++
  le_entry 0 0x9FC00 1 ++ le_entry 0x100000 0x7EE0000 1 ++ le_entry 0xFFFC0000 0x40000 2 ++
  le32 0 ++ le32 8.
(** A tag of type 1 and size 8, then one of size 0xFFFFFFF8. *)
Definition wrapping_info : list Z :=
  le32 32 ++ le32 0 ++ le32 1 ++ le32 8 ++ le32 1 ++ le32 0xFFFFFFF8 ++ le32 0 ++ le32 8.

(** The machine as the boot loader leaves it. *)
Definition boot_memory (bytes : list Z) : memory :=
  mk_memory (reset_paging_state 0x11 0 ∅)
    (list_to_map (zip (seqZ 0x10000 (Z.of_nat (length bytes))) bytes)) (λ _, 0).
Definition boot_kernel (bytes : list Z) : kernel :=
  mk_kernel _ (mk_platform _ (mk_console _ (boot_memory bytes) tt [])
      (replicate 256 (mk_idt_entry 0 0 0 0 0)) (mk_idtr 0 0) None 0)
    (mk_kheap_state 0 0 0 0 0)
    (mk_pmm zero_frame_bookkeeping (mk_pmm_state 0 0 0 0 0) (replicate 64 0) 0)
    zero_memory_bookkeeping.
Definition low_memory : Z → Prop := within 0 0x100000.

Lemma boot_readable bytes :
  vword (boot_memory bytes) 0x10000 < 0x1000 → info_readable (boot_memory bytes) low_memory 0x10000.
Proof.
  intros Hs. pose proof (vword_u32 (boot_memory bytes) 0x10000). unfold low_memory, within.
  split; [|intros x; unfold screen, within, VGA_TEXT_BUFFER; lia|unfold INFO_HEADER_SIZE; lia|lia|lia].
  apply usable_flat; [done|]. unfold in_kernel_image. simpl. lia.
Qed.

Lemma demo_tags :
  tags_from (boot_memory demo_info) 0x10068 0x10008 [0x10008] 0x10060 TagStop.
Proof.
  apply tags_more; [by vm_compute|].
  replace (0x10008 + round_up_8 _) with 0x10060 by by vm_compute.
  replace TagStop with (check_tag (boot_memory demo_info) 0x10068 0x10060) by by vm_compute.
  apply tags_last. by vm_compute.
Qed.

Lemma demo_fits : Forall (tag_fits (boot_memory demo_info) 0x10068) ([0x10008] ++ [0x10060]).
Proof. repeat constructor; by vm_compute. Qed.

Lemma demo_accepted : info_accepted (boot_memory demo_info) 0x10000 [0x10008] 0x10060.
Proof.
  split; [by vm_compute|exact demo_tags|apply Exists_cons_hd; by vm_compute|exact demo_fits].
Qed.

Lemma parse_mmap_correct_witness :
  ∃ s' b, stage5a_parse_mmap 100 0x10000 (boot_kernel demo_info) = Ret tt s' ∧
    reports b (boot_kernel demo_info) s' ∧
    region_count b + dropped_regions b = 3 ∧ raw_usable_bytes b = 0x7F7FC00.
Proof.
  destruct (parse_mmap_correct (UR := idle_ready) low_memory 100 0x10000 (boot_kernel demo_info)
    [0x10008] 0x10060 (boot_readable demo_info ltac:(by vm_compute)) demo_accepted
    ltac:(by vm_compute) ltac:(reflexivity)) as (s' & b & E & HR & Ha & Hu & _).
  exists s', b. split; [exact E|]. split; [exact HR|]. split.
  - rewrite (ac_count _ _ Ha). by vm_compute.
  - rewrite Hu. by vm_compute.
Defined.

Lemma parse_mmap_stops_witness :
  ∃ l last v s', tags_from (boot_memory demo_info) 0x10068 0x10008 l last v ∧
    match parse_failure (boot_memory demo_info) 0x10000 l v with
    | None => stage5a_parse_mmap 100 0x10000 (boot_kernel demo_info) = Ret tt s'
    | Some (r, d) => stage5a_parse_mmap 100 0x10000 (boot_kernel demo_info) = Panic r d s' ∧
        stopped r d s'
    end.
Proof.
  apply (parse_mmap_stops (UR := idle_ready) low_memory 100 0x10000 (boot_kernel demo_info)
    (boot_readable demo_info ltac:(by vm_compute)) ltac:(by vm_compute) ltac:(reflexivity)).
  intros l last v H. destruct (tags_from_det _ _ _ _ _ _ _ _ _ H demo_tags) as (-> & -> & _).
  exact demo_fits.
Defined.

Lemma wrapping_size_runs_forever_witness :
  stage5a_parse_mmap 1000 0x10000 (boot_kernel wrapping_info) = OutOfFuel.
Proof.
  apply (wrapping_size_runs_forever (UR := idle_ready) low_memory);
    [apply boot_readable; by vm_compute|by vm_compute|split_and!; by vm_compute..].
Defined.
End witnesses.
