(* ===== verification/BootFrames.v ===== *)
(** * From the boot loader's memory map to page frames

    Stage 5A followed by Stage 5C: the frames recorded for the allocator, in
    terms of the entries the boot loader left in memory. *)
From Stdlib Require Import Sorted.
From S2P Require Import Prelude KernelMonad Paging Memory MemoryMap FrameAllocator Pmm.
From S2P Require Import Kheap Console Interrupts Kernel Multiboot MultibootParse.
#[local] Open Scope Z_scope.

Section frames.
Context `{KL : KernelLayout, KI : KernelImage, PO : Ports, IS : InterruptStubs, UR : !UartReady}.
Implicit Types s : kernel.

(** Page frame [k] lies wholly in the memory the entry makes available, at or
    above 1 MiB and clear of the kernel image. *)
Definition entry_offers (e : multiboot2_mmap_entry) (k : Z) : Prop :=
  is_available e ∧ entry_base_addr e + entry_length e ≤ UINT64_MAX ∧
  entry_base_addr e ≤ k * 0x1000 ∧ (k + 1) * 0x1000 ≤ entry_base_addr e + entry_length e ∧
  STAGE5B_POLICY_MIN_ADDR ≤ k * 0x1000 ∧
  ((k + 1) * 0x1000 ≤ kernel_phys_start ∨ kernel_phys_end ≤ k * 0x1000).

(** The kernel image: not empty, and its end can be rounded up. *)
Record image_ok : Prop := {
  image_start : 0 ≤ kernel_phys_start;
  image_end : kernel_phys_start < kernel_phys_end;
  image_low : is_u32 kernel_phys_end;
}.

Definition reserved_start : Z := kernel_phys_start / 0x1000 * 0x1000.
Definition reserved_end : Z := (kernel_phys_end + 0xFFF) / 0x1000 * 0x1000.

Lemma region_offers_entry e k :
  entry_u64 e → image_ok →
  region_offers reserved_start reserved_end (entry_region e) k ↔ entry_offers e k.
Proof.
  intros [Hb Hl] [H0 Hk Hend]. unfold region_offers, entry_offers.
  rewrite entry_region_usable, bool_decide_eq_true. unfold entry_usable, is_available, reserved_start, reserved_end.
  cbn. consts. split; intros H; destruct_and?; split_and?; try done; try lia.
Qed.

Lemma wp_frames m f' s (Q : unit → kernel → Prop) :
  m (frames (k_pmm s)) = Ret tt f' → Q tt (over frames_lens f' s) → wp (zoom frames_lens m) Q s.
Proof. intros E HQ. apply wp_zoom. by eapply wp_Ret. Qed.

(** The values the summary of Stage 5C prints. *)
Record frames_printable (f : stage5c_frame_bookkeeping) : Prop := {
  fp_eligible : is_u64 (eligible_frames f);
  fp_highest : is_u64 (highest_eligible_frame f);
  fp_addr : is_u64 (highest_eligible_addr f);
}.

Lemma add_range_printable f r :
  frames_printable f → 0 ≤ start_frame r → 0 < frame_count r →
  (start_frame r + frame_count r) * 0x1000 ≤ UINT64_MAX → frames_printable (add_range f r).
Proof.
  intros [He Hh Ha] H0 Hc Hm. consts. split; cbn.
  - apply add_clamp_range; lia.
  - case_bool_decide; lia.
  - case_bool_decide; lia.
Qed.

Lemma fold_add_range_printable ks ke l f :
  Forall region_u64 l → frames_printable f →
  frames_printable (foldl add_range f (l ≫= region_ranges ks ke)).
Proof.
  intros Hl Hf.
  assert (Forall (λ x, 0 ≤ start_frame x ∧ 0 < frame_count x ∧
    (start_frame x + frame_count x) * 0x1000 ≤ UINT64_MAX) (l ≫= region_ranges ks ke)) as Hx.
  { apply Forall_forall. intros x (r & Hx & Hr)%list_elem_of_bind.
    rewrite Forall_forall in Hl. destruct (Hl r Hr). apply region_ranges_inside in Hx. zlia. }
  revert f Hf. induction Hx as [|x l' (H0 & H1 & H2) _ IH]; intros f Hf; cbn [foldl]; [done|].
  by apply IH, add_range_printable.
Qed.

Lemma stage5c_summary_reports f s :
  frames (k_pmm s) = f → 0 ≤ range_count f ≤ 128 → frames_printable f →
  is_u64 (kernel_reserved_start f) → is_u64 (kernel_reserved_end f) →
  wp stage5c_emit_summary (λ _ s', reports (k_memory_map s) s s') s.
Proof.
  intros Hf Hc [He Hh Ha] Hks Hke. unfold stage5c_emit_summary. apply wp_bind, wp_gets. rewrite Hf.
  pose proof (reports_refl s) as HR.
  do 5 (let s1 := fresh "s" in say; [lia|]; clear HR; intros s1 HR).
  by eapply wp_say_hex64; [exact HR|by vm_compute|by vm_compute|lia|].
Qed.

Definition reset_frames (f : stage5c_frame_bookkeeping) : stage5c_frame_bookkeeping :=
  mk_frame_bookkeeping 0 0 0 0 0 (ranges f) reserved_start reserved_end.

Lemma prepare_run s :
  image_ok → regions_ok (k_memory_map s) → length (ranges (frames (k_pmm s))) = 128%nat →
  ∃ f s', stage5c_prepare_frame_bookkeeping s = Ret tt s' ∧
    reports (k_memory_map s) (over frames_lens f s) s' ∧
    stage5c_scan_regions (k_memory_map s) reserved_start reserved_end
      (reset_frames (frames (k_pmm s))) = Ret tt f.
Proof.
  intros [H0 Hk Hend] Hr Hlen.
  assert (is_u64 reserved_start ∧ is_u64 reserved_end ∧ reserved_start < reserved_end)
    as (Hs64 & He64 & Hlt) by (unfold reserved_start, reserved_end; lia).
  set (f0 := reset_frames (frames (k_pmm s))).
  assert (table_ok f0) as Hok by (split; cbn; lia).
  assert (frames_printable f0) as Hp0 by (split; cbn; lia).
  set (f := foldl add_range f0 (recorded_regions (k_memory_map s) ≫= region_ranges reserved_start reserved_end)).
  assert (stage5c_scan_regions (k_memory_map s) reserved_start reserved_end f0 = Ret tt f) as Escan
    by (by apply scan_regions_eq).
  destruct (fold_add_range (recorded_regions (k_memory_map s) ≫= region_ranges reserved_start reserved_end) f0 Hok)
    as [Hokf _].
  destruct (fold_add_range_reserved (recorded_regions (k_memory_map s) ≫= region_ranges reserved_start reserved_end) f0)
    as [Eks Eke].
  assert (wp stage5c_prepare_frame_bookkeeping
    (λ _ s', reports (k_memory_map s) (over frames_lens f s) s') s) as Hwp.
  { unfold stage5c_prepare_frame_bookkeeping. apply wp_bind. eapply wp_frames; [done|]. cbv zeta.
    rewrite align_down_4k_spec by lia. fold reserved_start. rewrite align_up_4k_spec by lia.
    rewrite decide_True by zlia. fold reserved_end. cbv beta iota. cbn [orb].
    rewrite (proj2 (Z.leb_gt _ _)) by done. apply wp_bind. eapply wp_frames; [done|].
    apply wp_bind, wp_gets. apply wp_bind. eapply wp_frames; [exact Escan|].
    match goal with |- wp _ _ ?x => set (s2 := x) end.
    assert (s2 = over frames_lens f s) as -> by (by destruct s as [? ? []]).
    assert (k_memory_map (over frames_lens f s) = k_memory_map s) as <- by done.
    apply (stage5c_summary_reports f).
    - by destruct s as [? ? []].
    - by destruct Hokf.
    - apply fold_add_range_printable; [apply Hr|done].
    - unfold f. rewrite Eks. exact Hs64.
    - unfold f. rewrite Eke. exact He64. }
  apply wp_run in Hwp as ([] & s' & E & HR). by exists f, s'.
Qed.

Definition entry_before (e e' : multiboot2_mmap_entry) : Prop :=
  entry_base_addr e + entry_length e ≤ entry_base_addr e'.

Lemma entries_sorted es :
  StronglySorted entry_before es → StronglySorted region_before (entry_region <$> es).
Proof.
  induction 1 as [|e es Hs IH He]; cbn; [constructor|]. constructor; [exact IH|].
  apply Forall_fmap. eapply Forall_impl; [exact He|]. intros e' Hb.
  unfold entry_before, region_before in *. cbn. lia.
Qed.

Lemma accounts_all es b :
  accounts es b → dropped_regions b = 0 → recorded_regions b = entry_region <$> es.
Proof.
  intros [[[_ Hc _] _ _] Hr Hn _ _] Hd. rewrite Hr. apply take_ge. rewrite length_fmap. lia.
Qed.

Lemma few_ranges_fit b ks ke f f' :
  regions_ok b → frames_reset f → is_u64 ks ∧ is_u64 ke ∧ ks < ke →
  stage5c_scan_regions b ks ke f = Ret tt f' → (length (recorded_regions b) ≤ 64)%nat →
  dropped_ranges f' = 0.
Proof.
  intros Hb (Hlen & Hc & Hd & He) (Hks & Hke & Hk) E Hfew.
  assert (table_ok f) as Hok by (split; lia).
  rewrite scan_regions_eq in E by done. injection E as <-.
  pose proof (length_bind_ranges ks ke (recorded_regions b)).
  rewrite fold_add_range_dropped; [lia|done|lia|lia|lia].
Qed.

Lemma map_to_frames_run D fuel info s l last :
  let m := view k_memory_lens s in
  let es := tags_entries m l in
  info_readable m D info → info_accepted m info l last → vword m info < 8 * Z.of_nat fuel →
  length (regions (k_memory_map s)) = 128%nat → length (ranges (frames (k_pmm s))) = 128%nat →
  image_ok →
  ∃ s' b f, (stage5a_parse_mmap fuel info ;; stage5c_prepare_frame_bookkeeping) s = Ret tt s' ∧
    reports b (over frames_lens f s) s' ∧ table_ok f ∧
    (∀ k, in_ranges (recorded_ranges f) k → ∃ e, e ∈ es ∧ entry_offers e k) ∧
    (dropped_regions b = 0 → dropped_ranges f = 0 → ∀ e k, e ∈ es → entry_offers e k →
       in_ranges (recorded_ranges f) k) ∧
    (dropped_ranges f = 0 → eligible_frames f = total_frames (recorded_ranges f)) ∧
    ((length es ≤ 64)%nat → dropped_regions b = 0 ∧ dropped_ranges f = 0) ∧
    (StronglySorted entry_before es → frames_ok f).
Proof.
  intros m es Hr Ha Hfuel Hlen Hlenf Himg.
  destruct (parse_mmap_run D fuel info s l last Hr Ha Hfuel Hlen) as (s1 & b & E1 & R1 & Hac & _).
  fold m es in Hac. pose proof (reports_map _ _ _ R1) as Hb1. pose proof (reports_pmm _ _ _ R1) as Hp1.
  destruct (prepare_run s1 Himg) as (f & s' & E2 & R2 & Escan);
    [by rewrite Hb1; apply Hac|by rewrite Hp1|].
  rewrite Hb1, Hp1 in *. pose proof Himg as [H0 Hk Hend].
  assert (frames_reset (reset_frames (frames (k_pmm s)))) as Hreset by done.
  destruct (scan_regions_frames b reserved_start reserved_end _ (bk_regions _ (ac_ok _ _ Hac)) Hreset)
    as (f' & E & Hok & Hsound & Hcomplete & Htotal);
    [unfold reserved_start; lia|unfold reserved_end; lia|unfold reserved_start, reserved_end; lia|
     unfold reserved_end; lia|].
  rewrite Escan in E. injection E as <-. pose proof (tags_entries_u64 m l) as Hu. fold es in Hu.
  assert (is_u64 reserved_start ∧ is_u64 reserved_end ∧ reserved_start < reserved_end) as Hres
    by (unfold reserved_start, reserved_end; lia).
  exists s', b, f. split; [by mrun E1|]. split.
  { destruct R1 as (t1 & c1 & H1 & ->), R2 as (t2 & c2 & H2 & ->). destruct s as [[] h [] mm].
    exists (t1 ++ t2), c2. split; [by eapply sends_trans|done]. }
  split; [done|]. split_and!.
  - intros k (r & Hin & Hoff)%Hsound. rewrite (ac_regions _ _ Hac) in Hin.
    apply elem_of_take in Hin as (i & Hi%list_elem_of_lookup_2 & _).
    apply list_elem_of_fmap in Hi as (e & -> & He). exists e. split; [done|].
    rewrite Forall_forall in Hu. by apply region_offers_entry; auto.
  - intros Hd Hd' e k He Hoff. apply (Hcomplete Hd' (entry_region e)).
    + rewrite (accounts_all _ _ Hac Hd). by apply list_elem_of_fmap_2.
    + rewrite Forall_forall in Hu. by apply region_offers_entry; auto.
  - exact Htotal.
  - intros He. assert (length (recorded_regions b) ≤ 64)%nat
      by (rewrite (ac_regions _ _ Hac), length_take, length_fmap; lia).
    split; [|by eapply few_ranges_fit; [apply Hac|exact Hreset|exact Hres..|exact Escan|]].
    destruct (ac_ok _ _ Hac) as [[_ Hc _] _ _]. pose proof (ac_count _ _ Hac). pose proof (ac_dropped _ _ Hac).
    assert (length (recorded_regions b) = Z.to_nat (region_count b)) by (apply length_take_le; destruct (ac_ok _ _ Hac) as [[]]; lia).
    rewrite (ac_regions _ _ Hac), length_take, length_fmap in *. lia.
  - intros Hs. destruct (scan_regions_sorted b reserved_start reserved_end _ f (bk_regions _ (ac_ok _ _ Hac)) Hreset)
      as [Hsort Hran]; [apply Hres..| |exact Escan|].
    + rewrite (ac_regions _ _ Hac). by apply StronglySorted_take, entries_sorted.
    + split; [done|exact Hsort|]. eapply Forall_impl; [exact Hran|]. by intros x (? & ? & ?).
Qed.

(** C5. The frames recorded for the allocator are those the boot loader's map
    offers: each lies in one available entry, above 1 MiB and clear of the
    kernel; and if neither table overflowed, as for at most 64 entries, every
    such frame is recorded.  An ascending map gives the ascending, non-empty
    ranges the allocator relies on. *)
Theorem boot_map_to_frames D fuel info s l last :
  let m := view k_memory_lens s in
  let es := tags_entries m l in
  info_readable m D info → info_accepted m info l last → vword m info < 8 * Z.of_nat fuel →
  length (regions (k_memory_map s)) = 128%nat → length (ranges (frames (k_pmm s))) = 128%nat →
  image_ok →
  ∃ s' b f, (stage5a_parse_mmap fuel info ;; stage5c_prepare_frame_bookkeeping) s = Ret tt s' ∧
    reports b (over frames_lens f s) s' ∧ table_ok f ∧
    (∀ k, in_ranges (recorded_ranges f) k → ∃ e, e ∈ es ∧ entry_offers e k) ∧
    (dropped_regions b = 0 → dropped_ranges f = 0 → ∀ e k, e ∈ es → entry_offers e k →
       in_ranges (recorded_ranges f) k) ∧
    (dropped_ranges f = 0 → eligible_frames f = total_frames (recorded_ranges f)) ∧
    ((length es ≤ 64)%nat → dropped_regions b = 0 ∧ dropped_ranges f = 0) ∧
    (StronglySorted entry_before es → frames_ok f).
Proof. apply map_to_frames_run. Qed.
End frames.

Section witnesses.
#[local] Existing Instance qemu_layout.
#[local] Existing Instance qemu_image.
#[local] Existing Instance idle_ports.
#[local] Existing Instance demo_stubs.

Lemma boot_map_to_frames_witness :
  ∃ s' f, (stage5a_parse_mmap 100 0x10000 ;; stage5c_prepare_frame_bookkeeping)
      (boot_kernel demo_info) = Ret tt s' ∧ frames (k_pmm s') = f ∧
    ∀ k, in_ranges (recorded_ranges f) k → ∃ e,
      e ∈ tags_entries (boot_memory demo_info) [0x10008] ∧ entry_offers e k.
Proof.
  destruct (boot_map_to_frames (UR := idle_ready) low_memory 100 0x10000 (boot_kernel demo_info)
    [0x10008] 0x10060 (boot_readable demo_info ltac:(by vm_compute)) demo_accepted
    ltac:(by vm_compute) ltac:(reflexivity) ltac:(reflexivity) ltac:(by constructor))
    as (s' & b & f & E & HR & _ & Hs & _).
  exists s', f. split; [exact E|]. split; [by rewrite (reports_pmm _ _ _ HR)|exact Hs].
Defined.
End witnesses.
