(* ===== verification/SelfChecks.v ===== *)
(** * The boot-time self-checks, Stages 5D to 8D ([init/stage0_main.c], 919-1687)

    The kernel exercises each component while it boots, prints what it sees
    and panics when a check fails.  A check is translated with its prints; the
    [int] flags are booleans.  A condition whose operands call something is
    evaluated left to right and stops early ([and_then], [or_else]). *)
From S2P Require Import Prelude KernelMonad VmmLayout Paging Vmm Memory MemoryMap FrameAllocator Pmm.
From S2P Require Import Kheap Console Interrupts Kernel.
#[local] Open Scope Z_scope.

Definition STAGE5D_TEST_ALLOC_COUNT : Z := 4.
Definition STAGE7D_IDENTITY_MAP_MAX_ADDR : Z := 0x003FFFFF.
Definition STAGE7D_PROBE_ADDR_LOW_PAGE : Z := 0x00001000.
Definition STAGE7D_PROBE_ADDR_VGA_TEXT : Z := 0x000B8000.
Definition STAGE7D_PF_AWARE_ADDR : Z := 0x00400000.
Definition STAGE8B_TEST_VIRTUAL_PAGE : Z := STAGE8A_VMM_LAYOUT_FUTURE_MAPPING_RESERVED_START.
Definition STAGE8B_TEST_PHYSICAL_FRAME : Z := 0x00300000.
Definition STAGE8D_TEST_ALLOC_COUNT : Z := 4.
Definition STAGE8D_FAIL_DETAIL : Z := 0x000800D0.

(** [a && b] and [a || b] where [b] is only evaluated when it matters. *)
Definition and_then {S} (a b : M S bool) : M S bool := x ← a; if x : bool then b else mret false.
Definition or_else {S} (a b : M S bool) : M S bool := x ← a; if x : bool then mret true else b.

Section checks.
Context `{KL : KernelLayout, KI : KernelImage, PO : Ports, IS : InterruptStubs}.
#[local] Abbreviation K := (M kernel).

(** [serial_write_text] of a line; the line of a passed or failed check, and
    what it makes of [passed]; the end of a stage. *)
Definition say (text : string) : K unit := io (serial_write_text (text +:+ newline)).
Definition say_hex (label : string) (v : Z) : K unit := io (serial_write_label_hex label v).
Definition say_hex64 (label : string) (v : Z) : K unit := io (serial_write_label_hex64 label v).
Definition report (check : string) (ok passed : bool) : K bool :=
  if ok then say (check +:+ ": PASS") ;; mret passed
  else say (check +:+ ": FAIL") ;; mret false.
Definition finish (stage : string) (passed : bool) (reason : string) (detail : Z) : K unit :=
  if passed then say (stage +:+ ": PASS")
  else say (stage +:+ ": FAIL") ;; io (panic reason detail).

(** ** Stages 5D and 6D: the page-frame allocator *)
Definition stage5d_run_boot_allocation_test : K unit :=
  pmm_call stage6a_pmm_seed_from_stage5c ;;
  say "custom-os Stage 5D: deterministic frame allocation test" ;;
  say_hex "custom-os Stage 5D alloc request count: " STAGE5D_TEST_ALLOC_COUNT ;;
  granted ← loop (S (Z.to_nat STAGE5D_TEST_ALLOC_COUNT)) (λ '(i, granted),
    if i <? STAGE5D_TEST_ALLOC_COUNT then
      '(ok, out) ← pmm_call (stage6b_pmm_alloc_frame (Some 0));
      phys_addr ← from_option out;
      if negb ok then break granted else
      say_hex "custom-os Stage 5D alloc index: " i ;;
      say_hex64 "custom-os Stage 5D alloc addr : " phys_addr ;;
      continue (u32 (i + 1), u32 (granted + 1))
    else break granted) (0, 0);
  say_hex "custom-os Stage 5D alloc granted: " granted ;;
  remaining ← pmm_call stage6b_pmm_get_remaining_frames;
  say_hex64 "custom-os Stage 5D remaining eligible frames: " remaining.

Definition stage6d_emit_test_result (check_name : string) (passed : bool) : K unit :=
  io (serial_write_text "custom-os Stage 6D test ") ;;
  io (serial_write_text check_name) ;;
  io (serial_write_text ": ") ;;
  if passed then io (serial_write_text ("PASS" +:+ newline))
  else io (serial_write_text ("FAIL" +:+ newline)).

(** A call whose out-parameter is a local variable. *)
Definition alloc_frame_into (v : Z) : K (bool * Z) :=
  '(ok, out) ← pmm_call (stage6b_pmm_alloc_frame (Some v));
  v ← from_option out;
  mret (ok, v).

Definition stage6d_run_reuse_self_test : K unit :=
  say "custom-os Stage 6D test: start" ;;
  '(ok, alloc_a) ← alloc_frame_into 0;
  '(check, alloc_b) ← (if ok : bool then
    '(ok, alloc_b) ← alloc_frame_into 0;
    mret (ok && negb (alloc_a =? alloc_b), alloc_b) else mret (false, 0));
  stage6d_emit_test_result "alloc A/B" check ;;
  let all_passed := check in
  check ← pmm_call (stage6c_pmm_free_frame alloc_a);
  stage6d_emit_test_result "free A accept" check ;;
  let all_passed := all_passed && check in
  check ← pmm_call (stage6c_pmm_free_frame alloc_b);
  stage6d_emit_test_result "free B accept" check ;;
  let all_passed := all_passed && check in
  freed ← pmm_call (stage6c_pmm_free_frame alloc_a);
  let check := negb freed in
  stage6d_emit_test_result "duplicate free reject" check ;;
  let all_passed := all_passed && check in
  pmm_call stage6a_pmm_advance_to_next_eligible ;;
  p ← gets k_pmm;
  check ← (if (range_index (pmm_state p) <? range_count (frames p))
      && (next_frame_index (pmm_state p) <=? Z.shiftr UINT64_MAX STAGE5C_FRAME_SHIFT) then
    let never_issued_addr := u64 (Z.shiftl (next_frame_index (pmm_state p)) STAGE5C_FRAME_SHIFT) in
    freed ← pmm_call (stage6c_pmm_free_frame never_issued_addr);
    mret (negb freed) else mret false);
  stage6d_emit_test_result "never-issued reject" check ;;
  let all_passed := all_passed && check in
  '(ok, count) ← pmm_call (stage6c_pmm_get_pending_free_frames (Some 0));
  pending_count ← from_option count;
  let check := ok && (pending_count =? 2) in
  stage6d_emit_test_result "pending count after free" check ;;
  let all_passed := all_passed && check in
  '(ok, reuse_a) ← alloc_frame_into 0;
  check ← (if ok : bool then
    '(ok, reuse_b) ← alloc_frame_into 0;
    mret (ok && (reuse_a =? alloc_a) && (reuse_b =? alloc_b)) else mret false);
  stage6d_emit_test_result "fifo reuse order" check ;;
  let all_passed := all_passed && check in
  '(ok, count) ← pmm_call (stage6c_pmm_get_pending_free_frames (Some pending_count));
  pending_count ← from_option count;
  let check := ok && (pending_count =? 0) in
  stage6d_emit_test_result "pending drained" check ;;
  let all_passed := all_passed && check in
  stage6d_emit_test_result "overall" all_passed.

(** ** Stage 7: paging *)
Definition stage7a_run_paging_groundwork_self_check : K unit :=
  let sample_vaddr := 0x12345000 in
  let sample_unaligned_addr := 0x12345ABC in
  let pd_index := stage7a_paging_pd_index sample_vaddr in
  let pt_index := stage7a_paging_pt_index sample_vaddr in
  let page_offset := stage7a_paging_page_offset sample_vaddr in
  let identity_addr := stage7a_paging_identity_map_addr sample_unaligned_addr in
  let entry := stage7a_paging_make_entry sample_unaligned_addr
    (Z.lor STAGE7A_PAGING_FLAG_PRESENT STAGE7A_PAGING_FLAG_WRITABLE) in
  say "custom-os Stage 7A: paging groundwork self-check" ;;
  say_hex "custom-os Stage 7A sample vaddr: " sample_vaddr ;;
  say_hex "custom-os Stage 7A pd index    : " pd_index ;;
  say_hex "custom-os Stage 7A pt index    : " pt_index ;;
  say_hex "custom-os Stage 7A page offset : " page_offset ;;
  say_hex "custom-os Stage 7A identity addr: " identity_addr ;;
  say_hex "custom-os Stage 7A entry source: " sample_unaligned_addr ;;
  say_hex "custom-os Stage 7A entry value : " entry ;;
  let passed := (pd_index =? 0x48) && (pt_index =? 0x345) && (page_offset =? 0x0)
    && (identity_addr =? 0x12345000) && (entry =? 0x12345003) in
  if passed then say "custom-os Stage 7A self-check: PASS"
  else say "custom-os Stage 7A self-check: FAIL".

(** [sizeof(page_table_t)] and [sizeof(page_directory_t)]: 1024 words. *)
Definition PAGE_TABLE_SIZE : Z := 4 * STAGE7A_PAGING_ENTRIES_PER_TABLE.

Definition stage7b_run_static_paging_setup_self_check : K unit :=
  let expected_structure_size := STAGE7A_PAGING_PAGE_SIZE in
  let expected_pde0 := stage7a_paging_make_entry (table_addr stage7b_get_early_identity_page_table)
    (Z.lor STAGE7A_PAGING_FLAG_PRESENT STAGE7A_PAGING_FLAG_WRITABLE) in
  vmm_call stage7b_setup_early_identity_paging ;;
  first_pte ← vmm_call (table_read stage7b_get_early_identity_page_table 0);
  last_pte ← vmm_call (table_read stage7b_get_early_identity_page_table
    (STAGE7A_PAGING_ENTRIES_PER_TABLE - 1));
  pde0 ← vmm_call (directory_read 0);
  say "custom-os Stage 7B: static paging setup self-check" ;;
  say_hex "custom-os Stage 7B page_table_t size : " PAGE_TABLE_SIZE ;;
  say_hex "custom-os Stage 7B page_directory_t size: " PAGE_TABLE_SIZE ;;
  say_hex "custom-os Stage 7B first PTE         : " first_pte ;;
  say_hex "custom-os Stage 7B last PTE          : " last_pte ;;
  say_hex "custom-os Stage 7B PDE[0]            : " pde0 ;;
  let passed := (PAGE_TABLE_SIZE =? expected_structure_size)
    && (PAGE_TABLE_SIZE =? expected_structure_size)
    && (first_pte =? 0x00000003) && (last_pte =? 0x003FF003) && (pde0 =? expected_pde0) in
  if passed then say "custom-os Stage 7B self-check: PASS"
  else say "custom-os Stage 7B self-check: FAIL".

Definition stage7c_run_paging_activation_self_check : K unit :=
  let expected_cr3 := stage7a_paging_frame_addr stage7b_get_early_page_directory in
  say "custom-os Stage 7C: paging activation begin" ;;
  say_hex "custom-os Stage 7C expected CR3   : " expected_cr3 ;;
  vmm_call stage7c_load_cr3_with_early_page_directory ;;
  vmm_call stage7c_set_cr0_paging_enable ;;
  observed_cr3 ← vmm_call stage7c_read_cr3;
  observed_cr0 ← vmm_call stage7c_read_cr0;
  say_hex "custom-os Stage 7C observed CR3   : " observed_cr3 ;;
  say_hex "custom-os Stage 7C observed CR0   : " observed_cr0 ;;
  let passed := (stage7a_paging_frame_addr observed_cr3 =? expected_cr3)
    && negb (Z.land observed_cr0 STAGE7C_CR0_PG_MASK =? 0) in
  finish "custom-os Stage 7C activation" passed "Stage 7C paging activation failed" observed_cr0.

Definition stage7d_probe_read32 (addr : Z) : K Z := memory_access (load32 addr).

Definition stage7d_run_identity_validation_self_check : K unit :=
  let expected_cr3 := stage7a_paging_frame_addr stage7b_get_early_page_directory in
  let identity_page_table := stage7b_get_early_identity_page_table in
  let flags := Z.lor STAGE7A_PAGING_FLAG_PRESENT STAGE7A_PAGING_FLAG_WRITABLE in
  let probe_low_pt_index := stage7a_paging_pt_index STAGE7D_PROBE_ADDR_LOW_PAGE in
  let probe_vga_pt_index := stage7a_paging_pt_index STAGE7D_PROBE_ADDR_VGA_TEXT in
  let probe_low_expected_pte := stage7a_paging_make_entry STAGE7D_PROBE_ADDR_LOW_PAGE flags in
  let probe_vga_expected_pte := stage7a_paging_make_entry STAGE7D_PROBE_ADDR_VGA_TEXT flags in
  observed_cr3 ← vmm_call stage7c_read_cr3;
  observed_cr0 ← vmm_call stage7c_read_cr0;
  probe_low_pte ← vmm_call (table_read identity_page_table probe_low_pt_index);
  probe_vga_pte ← vmm_call (table_read identity_page_table probe_vga_pt_index);
  say "custom-os Stage 7D validation begin" ;;
  say_hex "custom-os Stage 7D observed CR3 under active paging: " observed_cr3 ;;
  say_hex "custom-os Stage 7D observed CR0 under active paging: " observed_cr0 ;;
  probe_low_read ← stage7d_probe_read32 STAGE7D_PROBE_ADDR_LOW_PAGE;
  probe_vga_read ← stage7d_probe_read32 STAGE7D_PROBE_ADDR_VGA_TEXT;
  say "custom-os Stage 7D identity-map probe results" ;;
  say_hex "custom-os Stage 7D probe low addr : " STAGE7D_PROBE_ADDR_LOW_PAGE ;;
  say_hex "custom-os Stage 7D probe low pte  : " probe_low_pte ;;
  say_hex "custom-os Stage 7D probe low read : " probe_low_read ;;
  say_hex "custom-os Stage 7D probe vga addr : " STAGE7D_PROBE_ADDR_VGA_TEXT ;;
  say_hex "custom-os Stage 7D probe vga pte  : " probe_vga_pte ;;
  say_hex "custom-os Stage 7D probe vga read : " probe_vga_read ;;
  pde0 ← vmm_call (directory_read 0);
  pde1 ← vmm_call (directory_read 1);
  let passed := negb (Z.land observed_cr0 STAGE7C_CR0_PG_MASK =? 0)
    && (stage7a_paging_frame_addr observed_cr3 =? expected_cr3)
    && (stage7a_paging_pd_index STAGE7D_PROBE_ADDR_LOW_PAGE =? 0)
    && (stage7a_paging_pd_index STAGE7D_PROBE_ADDR_VGA_TEXT =? 0)
    && negb (pde0 =? 0)
    && (probe_low_pte =? probe_low_expected_pte)
    && (probe_vga_pte =? probe_vga_expected_pte) in
  let page_fault_awareness_ok := negb (
    negb (stage7a_paging_pd_index STAGE7D_PF_AWARE_ADDR =? 1)
    || (STAGE7D_PF_AWARE_ADDR <=? STAGE7D_IDENTITY_MAP_MAX_ADDR)
    || negb (pde1 =? 0)) in
  let passed := passed && page_fault_awareness_ok in
  say_hex "custom-os Stage 7D page-fault-aware addr : " STAGE7D_PF_AWARE_ADDR ;;
  say_hex "custom-os Stage 7D page-fault-aware PDE[1]: " pde1 ;;
  (if page_fault_awareness_ok
   then say "custom-os Stage 7D page-fault-awareness confirmation: PASS (guarded, no forced fault)"
   else say "custom-os Stage 7D page-fault-awareness confirmation: FAIL") ;;
  finish "custom-os Stage 7D validation" passed "Stage 7D paging validation failed" observed_cr0.

(** ** Stage 8: layout, mapping, heap *)
Definition samples : list (Z * stage8a_vmm_layout_region_class) :=
  [(0x00001000, STAGE8A_VMM_LAYOUT_REGION_ACTIVE_IDENTITY);
   (0x00400000, STAGE8A_VMM_LAYOUT_REGION_FUTURE_HEAP_RESERVED);
   (0x00800000, STAGE8A_VMM_LAYOUT_REGION_FUTURE_MAPPING_RESERVED);
   (0x01000000, STAGE8A_VMM_LAYOUT_REGION_UNCLASSIFIED)].

(** The checks of one sample. *)
Definition sample_ok (addr : Z) (expected : stage8a_vmm_layout_region_class) : bool :=
  bool_decide (stage8a_vmm_layout_classify_addr addr = expected)
  && match expected with
     | STAGE8A_VMM_LAYOUT_REGION_ACTIVE_IDENTITY => stage8a_vmm_layout_is_addr_in_active_identity addr
     | STAGE8A_VMM_LAYOUT_REGION_FUTURE_HEAP_RESERVED =>
         stage8a_vmm_layout_is_addr_in_future_heap_reserved addr
     | STAGE8A_VMM_LAYOUT_REGION_FUTURE_MAPPING_RESERVED =>
         stage8a_vmm_layout_is_addr_in_future_mapping_reserved addr
     | STAGE8A_VMM_LAYOUT_REGION_UNCLASSIFIED =>
         negb (stage8a_vmm_layout_is_addr_in_active_identity addr
           || stage8a_vmm_layout_is_addr_in_future_heap_reserved addr
           || stage8a_vmm_layout_is_addr_in_future_mapping_reserved addr)
     end.

Definition stage8a_run_vmm_layout_policy_self_check : K unit :=
  let sample_count := Z.of_nat (length samples) in
  say "custom-os Stage 8A: layout policy begin" ;;
  say "custom-os Stage 8A active identity-mapped range" ;;
  say_hex "custom-os Stage 8A active start : " STAGE8A_VMM_LAYOUT_ACTIVE_IDENTITY_START ;;
  say_hex "custom-os Stage 8A active end   : " STAGE8A_VMM_LAYOUT_ACTIVE_IDENTITY_END ;;
  say "custom-os Stage 8A future reserved heap range" ;;
  say_hex "custom-os Stage 8A heap start   : " STAGE8A_VMM_LAYOUT_FUTURE_HEAP_RESERVED_START ;;
  say_hex "custom-os Stage 8A heap end     : " STAGE8A_VMM_LAYOUT_FUTURE_HEAP_RESERVED_END ;;
  say "custom-os Stage 8A future reserved mapping range" ;;
  say_hex "custom-os Stage 8A map start    : " STAGE8A_VMM_LAYOUT_FUTURE_MAPPING_RESERVED_START ;;
  say_hex "custom-os Stage 8A map end      : " STAGE8A_VMM_LAYOUT_FUTURE_MAPPING_RESERVED_END ;;
  let passed := stage8a_vmm_layout_validate_policy
    && stage8a_vmm_layout_is_region_in_active_identity
         STAGE8A_VMM_LAYOUT_ACTIVE_IDENTITY_START
         (STAGE8A_VMM_LAYOUT_ACTIVE_IDENTITY_END_EXCLUSIVE - STAGE8A_VMM_LAYOUT_ACTIVE_IDENTITY_START)
    && stage8a_vmm_layout_is_region_in_future_heap_reserved
         STAGE8A_VMM_LAYOUT_FUTURE_HEAP_RESERVED_START
         (STAGE8A_VMM_LAYOUT_FUTURE_HEAP_RESERVED_END_EXCLUSIVE
            - STAGE8A_VMM_LAYOUT_FUTURE_HEAP_RESERVED_START)
    && stage8a_vmm_layout_is_region_in_future_mapping_reserved
         STAGE8A_VMM_LAYOUT_FUTURE_MAPPING_RESERVED_START
         (STAGE8A_VMM_LAYOUT_FUTURE_MAPPING_RESERVED_END_EXCLUSIVE
            - STAGE8A_VMM_LAYOUT_FUTURE_MAPPING_RESERVED_START)
    && negb (stage8a_vmm_layout_is_region_in_active_identity
         STAGE8A_VMM_LAYOUT_FUTURE_HEAP_RESERVED_START STAGE8A_VMM_LAYOUT_PAGE_SIZE_4K) in
  say "custom-os Stage 8A address classification examples" ;;
  passed ← loop (S (length samples)) (λ '(i, passed),
    if i <? sample_count then
      '(addr, expected) ← from_option (array_get samples i);
      let observed_class := stage8a_vmm_layout_classify_addr addr in
      say_hex "custom-os Stage 8A sample addr  : " addr ;;
      io (serial_write_text "custom-os Stage 8A sample class : ") ;;
      io (serial_write_text (stage8a_vmm_layout_region_class_name observed_class)) ;;
      io (serial_write_text newline) ;;
      continue (u32 (i + 1), passed && sample_ok addr expected)
    else break passed) (0, passed);
  finish "custom-os Stage 8A" passed "Stage 8A layout policy failed" 0x000800A0.

Definition stage8b_run_vmm_mapping_interface_self_check : K unit :=
  let test_virtual_page := STAGE8B_TEST_VIRTUAL_PAGE in
  let expected_physical_frame := stage7a_paging_frame_addr STAGE8B_TEST_PHYSICAL_FRAME in
  let passed := true in
  say "custom-os Stage 8B mapping interface begin" ;;
  say_hex "custom-os Stage 8B test virtual page: " test_virtual_page ;;
  say_hex "custom-os Stage 8B expected physical frame: " expected_physical_frame ;;
  mapped ← vmm_call (stage8b_vmm_is_page_mapped test_virtual_page);
  passed ← report "custom-os Stage 8B initial unmapped state" (negb mapped) passed;
  map_result ← vmm_call (stage8b_vmm_map_page test_virtual_page expected_physical_frame);
  passed ← report "custom-os Stage 8B successful map result" map_result passed;
  '(ok, out) ← vmm_call (stage8b_vmm_resolve_page_frame test_virtual_page (Some 0));
  resolved_physical_frame ← from_option out;
  let resolve_result := ok && (resolved_physical_frame =? expected_physical_frame) in
  say_hex "custom-os Stage 8B resolved physical frame: " resolved_physical_frame ;;
  let passed := passed && resolve_result in
  unmap_result ← vmm_call (stage8b_vmm_unmap_page test_virtual_page);
  passed ← report "custom-os Stage 8B successful unmap result" unmap_result passed;
  mapped ← vmm_call (stage8b_vmm_is_page_mapped test_virtual_page);
  passed ← report "custom-os Stage 8B final unmapped state" (negb mapped) passed;
  finish "custom-os Stage 8B" passed "Stage 8B mapping interface failed" 0x000800B0.

(** [stage8c_kheap_get_state] with the addresses of four locals: start,
    current, end, mapped end. *)
Definition heap_state_into (locals : Z * Z * Z * Z) : K (bool * (Z * Z * Z * Z)) :=
  let '(s, c, e, m) := locals in
  '(ok, (s, c, e, m)) ← heap_call (stage8c_kheap_get_state (Some s) (Some c) (Some e) (Some m));
  s ← from_option s; c ← from_option c; e ← from_option e; m ← from_option m;
  mret (ok, (s, c, e, m)).

Definition is_aligned_8 (addr : Z) : bool := Z.land addr 0x7 =? 0.
Definition in_heap_window (addr : Z) : bool :=
  (addr >=? STAGE8A_VMM_LAYOUT_FUTURE_HEAP_RESERVED_START)
  && (addr <? STAGE8A_VMM_LAYOUT_FUTURE_HEAP_RESERVED_END_EXCLUSIVE).

Definition stage8c_run_kheap_bootstrap_self_check : K unit :=
  say "custom-os Stage 8C heap bootstrap begin" ;;
  init ← heap_call stage8c_kheap_bootstrap_init;
  let passed : bool := init in
  '(ok, (start, current, end_, mapped_end)) ← heap_state_into (0, 0, 0, 0);
  let passed := passed && ok in
  say_hex "custom-os Stage 8C heap start: " start ;;
  say_hex "custom-os Stage 8C heap current: " current ;;
  say_hex "custom-os Stage 8C heap end exclusive: " end_ ;;
  say_hex "custom-os Stage 8C heap mapped end exclusive: " mapped_end ;;
  first ← heap_call (stage8c_kheap_alloc 24);
  second ← heap_call (stage8c_kheap_alloc 40);
  say_hex "custom-os Stage 8C first allocation result: " first ;;
  say_hex "custom-os Stage 8C second allocation result: " second ;;
  '(ok, (start, current, end_, mapped_end)) ← heap_state_into (start, current, end_, mapped_end);
  let passed := passed && ok in
  say_hex "custom-os Stage 8C heap current post alloc: " current ;;
  say_hex "custom-os Stage 8C heap mapped end post alloc: " mapped_end ;;
  let alignment_ordering_check :=
    negb (first =? 0) && negb (second =? 0) && negb (first =? second)
    && is_aligned_8 first && is_aligned_8 second && (first <? second)
    && in_heap_window first && in_heap_window second
    && (start =? STAGE8A_VMM_LAYOUT_FUTURE_HEAP_RESERVED_START)
    && (end_ =? STAGE8A_VMM_LAYOUT_FUTURE_HEAP_RESERVED_END_EXCLUSIVE)
    && (mapped_end >=? start) && (mapped_end <=? end_)
    && (Z.land mapped_end STAGE8A_VMM_LAYOUT_PAGE_MASK_4K =? 0)
    && (current >=? start) && (current <=? mapped_end) in
  passed ← report "custom-os Stage 8C alignment/ordering check" alignment_ordering_check passed;
  finish "custom-os Stage 8C" passed "Stage 8C heap bootstrap failed" 0x000800C0.

Definition allocation_sizes : list Z := [0x80; 0x180; 0x300; 0x1000].

(** The loop over [allocation_sizes]: the addresses so far and the flags
    [allocations_non_null] and [alignment_ordering_ok]. *)
Definition stage8d_allocate (flags : bool * bool) : K (list Z * bool * bool) :=
  loop (S (Z.to_nat STAGE8D_TEST_ALLOC_COUNT)) (λ '(i, addrs, non_null, ordered),
    if i <? STAGE8D_TEST_ALLOC_COUNT then
      size ← from_option (array_get allocation_sizes i);
      addr ← heap_call (stage8c_kheap_alloc size);
      addrs ← from_option (array_set addrs i addr);
      say_hex "custom-os Stage 8D allocation index: " i ;;
      say_hex "custom-os Stage 8D allocation size: " size ;;
      say_hex "custom-os Stage 8D allocation result: " addr ;;
      let non_null := non_null && negb (addr =? 0) in
      let ordered := ordered && is_aligned_8 addr in
      ordered ← (if i >? 0 then
        previous ← from_option (array_get addrs (i - 1));
        mret (ordered && negb (addr <=? previous)) else mret ordered);
      continue (u32 (i + 1), addrs, non_null, ordered)
    else break (addrs, non_null, ordered)) (0, replicate 4 0, flags.1, flags.2).

Definition stage8d_run_kheap_validation_self_check : K unit :=
  say "custom-os Stage 8D allocation validation begin" ;;
  '(ok, (start_pre, current_pre, end_pre, mapped_end_pre)) ← heap_state_into (0, 0, 0, 0);
  let passed : bool := ok in
  let mapped_growth_ok : bool := ok in
  let bounds_ok : bool := ok in
  say_hex "custom-os Stage 8D heap state before test start: " start_pre ;;
  say_hex "custom-os Stage 8D heap state before test current: " current_pre ;;
  say_hex "custom-os Stage 8D heap state before test end exclusive: " end_pre ;;
  say_hex "custom-os Stage 8D heap state before test mapped end: " mapped_end_pre ;;
  '(addrs, allocations_non_null, alignment_ordering_ok) ← stage8d_allocate (ok, ok);
  '(ok, (start_post, current_post, end_post, mapped_end_post)) ← heap_state_into (0, 0, 0, 0);
  let passed := passed && ok in
  let mapped_growth_ok := mapped_growth_ok && ok in
  let bounds_ok := bounds_ok && ok in
  say_hex "custom-os Stage 8D heap state after test current: " current_post ;;
  say_hex "custom-os Stage 8D heap state after test mapped end: " mapped_end_post ;;
  let mapped_growth_ok := mapped_growth_ok && (mapped_end_post >? mapped_end_pre)
    && (mapped_end_post >=? u32 (start_post + 2 * STAGE7A_PAGING_PAGE_SIZE)) in
  let bounds_ok := bounds_ok && forallb in_heap_window addrs
    && (start_post =? STAGE8A_VMM_LAYOUT_FUTURE_HEAP_RESERVED_START)
    && (end_post =? STAGE8A_VMM_LAYOUT_FUTURE_HEAP_RESERVED_END_EXCLUSIVE)
    && (current_post >=? start_post) && (current_post <=? mapped_end_post)
    && (mapped_end_post <=? end_post)
    && (Z.land mapped_end_post STAGE8A_VMM_LAYOUT_PAGE_MASK_4K =? 0) in
  passed ← report "custom-os Stage 8D multiple allocation results" allocations_non_null passed;
  passed ← report "custom-os Stage 8D ordering and alignment result" alignment_ordering_ok passed;
  passed ← report "custom-os Stage 8D page-growth / mapped-end advancement result" mapped_growth_ok passed;
  passed ← report "custom-os Stage 8D heap-window bounds result" bounds_ok passed;
  finish "custom-os Stage 8D" passed "Stage 8D heap validation failed" STAGE8D_FAIL_DETAIL.
End checks.
