(* ===== verification/PagingChecks.v ===== *)
(** * The checks of Stages 7A to 8B pass on every machine

    [progress] follows a check: the page tables it has reached and the lines it
    has printed.  The checks of the page-table arithmetic, the paging
    activation, the address-space policy and the mapping interface are run from
    the machine's reset state, whatever the control registers, the TLB and the
    memory hold. *)
From S2P Require Import Prelude KernelMonad VmmLayout Paging Vmm Memory MemoryMap FrameAllocator Pmm.
From S2P Require Import Kheap Console Interrupts Kernel Multiboot MultibootParse SelfChecks.
#[local] Open Scope Z_scope.

(** ** What a check prints *)
Inductive line :=
| Line (text : string)
| Label (label : string) (v : Z).
Definition line_bytes (l : line) : list Z :=
  match l with
  | Line text => crlf text
  | Label label v => crlf label ++ crlf (hex_text 8 v) ++ [13; 10]
  end.
Definition lines_bytes (ls : list line) : list Z := ls ≫= line_bytes.

(** The verdict in a line. *)
Definition verdict (l : line) : option bool :=
  match l with
  | Line text =>
      if String.index 0 "FAIL" text then Some false else
      if String.index 0 "PASS" text then Some true else None
  | Label _ _ => None
  end.

Section progress.
Context `{KL : KernelLayout, KI : KernelImage, PO : Ports, IS : InterruptStubs, UR : !UartReady}.
Implicit Types s : kernel.

(** From [s0] to [s] the lines [ls] went out on the serial line, and of the
    memory only the paging structures changed, to [p]. *)
Record progress s0 (p : paging_state) (ls : list line) s : Prop := {
  pg_rest : s = over k_console_lens (view k_console_lens s) s0;
  pg_memory : view k_memory_lens s = set_paging p (view k_memory_lens s0);
  pg_log : ∃ evs, con_log (view k_console_lens s) = evs ++ con_log (view k_console_lens s0) ∧
    transmitted evs = lines_bytes ls ∧ Forall serial_event evs;
}.

Lemma progress_refl s : progress s (view k_paging_lens s) [] s.
Proof.
  destruct s as [[[[] ]]]. split; [done|done|]. by exists [].
Qed.

Lemma progress_paging s0 p ls s : progress s0 p ls s → view k_paging_lens s = p.
Proof.
  intros [_ Hm _]. change (view k_paging_lens s) with (paging (view k_memory_lens s)). by rewrite Hm.
Qed.

Lemma progress_trans s0 p1 l1 s1 p2 l2 s2 :
  progress s0 p1 l1 s1 → progress s1 p2 l2 s2 → progress s0 p2 (l1 ++ l2) s2.
Proof.
  intros [R1 M1 (e1 & E1 & T1 & F1)] [R2 M2 (e2 & E2 & T2 & F2)]. split.
  - rewrite R2 at 1. rewrite R1. by destruct s0 as [[]].
  - rewrite M2, M1. by destruct (view k_memory_lens s0).
  - exists (e2 ++ e1). split; [by rewrite E2, E1, app_assoc|]. split; [|by apply Forall_app].
    unfold transmitted, lines_bytes in *. by rewrite omap_app, rev_app_distr, T1, T2, bind_app.
Qed.

Lemma wp_io_line l m s0 p ls s (Q : unit → kernel → Prop) :
  progress s0 p ls s →
  (∃ c, m (view k_console_lens s) = Ret tt c ∧ sends (line_bytes l) (view k_console_lens s) c) →
  (∀ s', progress s0 p (ls ++ [l]) s' → Q tt s') → wp (io m) Q s.
Proof.
  intros HP (c & E & [Hm (evs & El & Et & Ef)]) HQ. apply wp_zoom. eapply wp_Ret; [exact E|]. apply HQ.
  eapply progress_trans; [exact HP|]. pose proof (progress_paging _ _ _ _ HP) as Hp. split.
  - by destruct s as [[]].
  - destruct s as [[[]]]. cbn in *. rewrite Hm, <- Hp. by destruct con_memory.
  - exists evs. destruct s as [[]]. cbn in *. split; [done|]. split; [|done].
    unfold lines_bytes. cbn. by rewrite app_nil_r.
Qed.

Lemma wp_text text s0 p ls s Q :
  progress s0 p ls s → c_text text → Z.of_nat (String.length text) < 0x10000 →
  (∀ s', progress s0 p (ls ++ [Line text]) s' → Q tt s') → wp (io (serial_write_text text)) Q s.
Proof.
  intros HP Ht Hl HQ. eapply wp_io_line; [exact HP| |exact HQ].
  destruct (serial_write_text_sends UR text (view k_console_lens s) Ht Hl) as (c & E & H).
  by exists c.
Qed.

Lemma wp_label label v s0 p ls s Q :
  progress s0 p ls s → c_text label → Z.of_nat (String.length label) < 0x10000 → is_u32 v →
  (∀ s', progress s0 p (ls ++ [Label label v]) s' → Q tt s') → wp (say_hex label v) Q s.
Proof.
  intros HP Ht Hl Hv HQ. eapply wp_io_line; [exact HP| |exact HQ].
  destruct (serial_hex_sends 8 label v (view k_console_lens s) ltac:(lia) Hv Ht Hl) as (c & E & H).
  exists c. split; [|exact H]. unfold serial_write_label_hex.
  by mrun (hex32_text_run v (view k_console_lens s) Hv).
Qed.

Lemma wp_vmm {A} (m : M paging_state A) a p' s0 p ls s (Q : A → kernel → Prop) :
  progress s0 p ls s → m p = Ret a p' → (∀ s', progress s0 p' ls s' → Q a s') →
  wp (vmm_call m) Q s.
Proof.
  intros HP E HQ. pose proof (progress_paging _ _ _ _ HP) as Hp. apply wp_zoom. rewrite Hp.
  eapply wp_Ret; [exact E|]. apply HQ. rewrite <- (app_nil_r ls).
  eapply progress_trans; [exact HP|]. destruct s as [[[[] ]]].
  split; [done|done|]. by exists [].
Qed.

Lemma wp_true {A} (c : bool) (m m' : M kernel A) Q s :
  c = true → wp m Q s → wp (if c then m else m') Q s.
Proof. by intros ->. Qed.

Lemma wp_false {A} (c : bool) (m m' : M kernel A) Q s :
  c = false → wp m' Q s → wp (if c then m else m') Q s.
Proof. by intros ->. Qed.

(** Reading a word at an address whose bytes reach themselves. *)
Lemma wp_probe a s0 p ls s Q :
  progress s0 p ls s → (∀ k, 0 ≤ k < 4 → translate p (a + k) = Some (a + k)) →
  (∀ k, 0 ≤ k < 4 → in_kernel_image (a + k) = false) → 0 ≤ a → is_u32 (a + 3) →
  (∀ v, is_u32 v → Q v s) → wp (stage7d_probe_read32 a) Q s.
Proof.
  intros HP Ht Hi H0 Ha HQ. unfold stage7d_probe_read32. apply wp_zoom.
  assert (usable (view k_memory_lens s) (within a (a + 4))) as Hu.
  { assert (∀ va, within a (a + 4) va → phys (view k_memory_lens s) va = Some va) as Hphys.
    { intros va Hva. unfold within in Hva. unfold phys.
      change (paging (view k_memory_lens s)) with (view k_paging_lens s).
      rewrite (progress_paging _ _ _ _ HP). replace va with (a + (va - a)) by lia.
      rewrite Ht by lia. cbn [mbind option_bind]. by rewrite Hi by lia. }
    split; [intros va Hva; rewrite Hphys by done; eauto|].
    intros x y Hx Hy. rewrite !Hphys by done. by intros [= ->]. }
  eapply wp_Ret; [apply (load32_ok _ _ a Hu Ha H0); by intros|].
  rewrite over_view. apply HQ, vword_u32.
Qed.
End progress.

(** Printing one line, [H] being the [progress] so far. *)
Ltac tell H :=
  apply wp_bind; unfold say;
  lazymatch goal with
  | |- wp (io (serial_write_text _)) _ _ => eapply wp_text; [exact H|by vm_compute|by vm_compute|]
  | |- wp (say_hex _ _) _ _ => eapply wp_label; [exact H|by vm_compute|by vm_compute| |]
  end; [..|clear H; let s := fresh "s" in intros s H].
Ltac tell_last H :=
  unfold say; eapply wp_text; [exact H|by vm_compute|by vm_compute|];
  clear H; let s := fresh "s" in intros s H.

Section stages.
Context `{KL : KernelLayout, KLO : !KernelLayoutOk, KI : KernelImage, PO : Ports}.
Context `{IS : InterruptStubs, UR : !UartReady}.
Implicit Types s : kernel.

(** A check has run: the tables are [p'] now and its verdicts were all good. *)
Definition passes (n : nat) (p' : paging_state) s s' : Prop :=
  ∃ ls, progress s p' ls s' ∧ omap verdict ls = replicate n true.

Lemma passes_trans n1 n2 p1 p2 s s1 s2 :
  passes n1 p1 s s1 → passes n2 p2 s1 s2 → passes (n1 + n2) p2 s s2.
Proof.
  intros (l1 & H1 & V1) (l2 & H2 & V2). exists (l1 ++ l2).
  split; [by eapply progress_trans|]. by rewrite omap_app, V1, V2, replicate_add.
Qed.

Lemma stage7a_passes s :
  wp stage7a_run_paging_groundwork_self_check (λ _ s', passes 1 (view k_paging_lens s) s s') s.
Proof.
  pose proof (progress_refl s) as H. unfold stage7a_run_paging_groundwork_self_check. cbv zeta.
  tell H. do 7 (tell H; [by vm_compute|]).
  apply wp_true; [by vm_compute|].
  tell_last H. eexists. split; [exact H|reflexivity].
Qed.

Definition paging_set_up (p : paging_state) : paging_state :=
  set_identity_table identity_entries (set_page_directory early_directory p).

Lemma stage7b_passes s p :
  view k_paging_lens s = p → length (page_directory p) = 1024%nat →
  length (identity_table p) = 1024%nat →
  wp stage7b_run_static_paging_setup_self_check (λ _ s', passes 1 (paging_set_up p) s s') s.
Proof.
  intros Hp Hd Hi. pose proof (progress_refl s) as H. rewrite Hp in H.
  unfold stage7b_run_static_paging_setup_self_check. cbv zeta.
  apply wp_bind. eapply wp_vmm; [exact H|by apply setup_early_identity_paging_eq|].
  fold (paging_set_up p). clear H. intros s1 H.
  apply wp_bind. eapply wp_vmm; [exact H|eapply table_read_ok; [done|by apply identity_entries_lookup]|].
  clear H. intros s2 H.
  apply wp_bind. eapply wp_vmm; [exact H|eapply table_read_ok; [done|by apply identity_entries_lookup]|].
  clear H. intros s3 H.
  apply wp_bind. eapply wp_vmm; [exact H|by apply directory_read_ok|]. clear H. intros s4 H.
  assert (is_u32 addr_identity_page_table) as Haddr by (by destruct KLO).
  tell H. do 4 (tell H; [by vm_compute|]). tell H; [by apply make_entry_u32|].
  change (table_addr stage7b_get_early_identity_page_table) with addr_identity_page_table.
  fold mapping_flags. rewrite (Z.eqb_refl (stage7a_paging_make_entry _ _)).
  apply wp_true; [by vm_compute|].
  tell_last H. eexists. split; [exact H|reflexivity].
Qed.

(** Paging is on, with the early directory. *)
Definition paging_active (p : paging_state) : paging_state :=
  set_cr0 (Z.lor (cr0 p) STAGE7C_CR0_PG_MASK) (set_tlb ∅ (set_cr3 addr_page_directory p)).

Lemma directory_frame : stage7a_paging_frame_addr addr_page_directory = addr_page_directory.
Proof. destruct KLO. by apply frame_addr_aligned. Qed.

Lemma set_cr0_run p :
  stage7c_set_cr0_paging_enable p = Ret tt (set_cr0 (Z.lor (cr0 p) STAGE7C_CR0_PG_MASK) p).
Proof. done. Qed.

Lemma stage7c_passes s p :
  view k_paging_lens s = p → is_u32 (cr0 p) →
  wp stage7c_run_paging_activation_self_check (λ _ s', passes 1 (paging_active p) s s') s.
Proof.
  intros Hp H0. pose proof (progress_refl s) as H. rewrite Hp in H.
  assert (is_u32 addr_page_directory) as Haddr by (by destruct KLO).
  unfold stage7c_run_paging_activation_self_check. cbv zeta.
  change stage7b_get_early_page_directory with addr_page_directory. rewrite directory_frame.
  tell H. tell H; [done|].
  apply wp_bind. eapply wp_vmm; [exact H|reflexivity|]. clear H. intros s2 H.
  apply wp_bind. eapply wp_vmm; [exact H|apply set_cr0_run|]. clear H. intros s3 H.
  apply wp_bind. eapply wp_vmm; [exact H|reflexivity|]. clear H. intros s4 H.
  apply wp_bind. eapply wp_vmm; [exact H|reflexivity|]. clear H. intros s5 H. cbn [cr0 cr3 set_cr0 set_cr3 set_tlb] in *.
  change stage7b_get_early_page_directory with addr_page_directory in *. rewrite directory_frame in *.
  tell H; [done|]. tell H; [by apply (lor_range 32)|].
  rewrite directory_frame, Z.eqb_refl, paging_bit_set. unfold finish. cbn [andb].
  tell_last H. eexists. split; [exact H|reflexivity].
Qed.

(** After Stage 7C: the identity map of the first 4 MiB. *)
Lemma active_wf c0 c3 t :
  let p := paging_active (paging_set_up (reset_paging_state c0 c3 t)) in
  vmm_wf p ∧ ∀ va, is_u32 va → translate p va = if va <? 0x400000 then Some va else None.
Proof.
  destruct (activation_wf c0 c3 t) as (p' & E & Hwf & Ht).
  rewrite (bind_run _ _ _ _ _ (setup_early_identity_paging_eq (reset_paging_state c0 c3 t) eq_refl eq_refl)) in E.
  cbv [mbind M_bind stage7c_load_cr3_with_early_page_directory stage7c_set_cr0_paging_enable
    stage7c_read_cr0 gets modify] in E.
  change stage7b_get_early_page_directory with addr_page_directory in E. rewrite directory_frame in E.
  by injection E as <-.
Qed.

Lemma stage7d_passes s p p0 :
  view k_paging_lens s = p → p = paging_active (paging_set_up p0) → is_u32 (cr0 p0) →
  (∀ va, is_u32 va → translate p va = if va <? 0x400000 then Some va else None) →
  (∀ a, 0 ≤ a < 0x100000 → in_kernel_image a = false) →
  wp stage7d_run_identity_validation_self_check (λ _ s', passes 2 p s s') s.
Proof.
  intros Hp Ep H0 Ht Hi. pose proof (progress_refl s) as H. rewrite Hp in H.
  assert (is_u32 addr_page_directory ∧ is_u32 addr_identity_page_table) as [Haddr Haddr'] by (by destruct KLO).
  unfold stage7d_run_identity_validation_self_check. cbv zeta.
  change stage7b_get_early_page_directory with addr_page_directory. rewrite directory_frame.
  apply wp_bind. eapply wp_vmm; [exact H|reflexivity|]. clear H. intros s1 H.
  apply wp_bind. eapply wp_vmm; [exact H|reflexivity|]. clear H. intros s2 H.
  assert (∀ i, 0 ≤ i < 1024 →
    table_read stage7b_get_early_identity_page_table i p = Ret (i * 0x1000 + 3) p) as Htab.
  { intros i Hi'. eapply table_read_ok; [by rewrite Ep|by apply identity_entries_lookup]. }
  change (stage7a_paging_pt_index STAGE7D_PROBE_ADDR_LOW_PAGE) with 1.
  change (stage7a_paging_pt_index STAGE7D_PROBE_ADDR_VGA_TEXT) with 0xB8.
  apply wp_bind. eapply wp_vmm; [exact H|by apply Htab|]. clear H. intros s3 H.
  apply wp_bind. eapply wp_vmm; [exact H|by apply Htab|]. clear H. intros s4 H.
  assert (cr3 p = addr_page_directory) as -> by (by rewrite Ep).
  assert (is_u32 (cr0 p)) as Hcr0 by (rewrite Ep; by apply (lor_range 32)).
  tell H. tell H; [done|]. tell H; [done|].
  assert (∀ a, 0 ≤ a < 0x100000 → translate p a = Some a) as Htr.
  { intros a Ha. rewrite Ht by lia. by rewrite (proj2 (Z.ltb_lt _ _)) by lia. }
  apply wp_bind. eapply wp_probe; [exact H| | |done|by vm_compute|];
    [by intros; apply Htr; unfold STAGE7D_PROBE_ADDR_LOW_PAGE; lia|
     by intros; apply Hi; unfold STAGE7D_PROBE_ADDR_LOW_PAGE; lia|]. intros v1 Hv1.
  apply wp_bind. eapply wp_probe; [exact H| | |done|by vm_compute|];
    [by intros; apply Htr; unfold STAGE7D_PROBE_ADDR_VGA_TEXT; lia|
     by intros; apply Hi; unfold STAGE7D_PROBE_ADDR_VGA_TEXT; lia|]. intros v2 Hv2.
  tell H. tell H; [by vm_compute|]. tell H; [by vm_compute|]. tell H; [done|].
  tell H; [by vm_compute|]. tell H; [by vm_compute|]. tell H; [done|].
  apply wp_bind. eapply wp_vmm; [exact H|apply directory_read_ok; by rewrite Ep|]. clear H. intros t1 H.
  apply wp_bind. eapply wp_vmm; [exact H|apply (directory_read_ok 1 0); by rewrite Ep|]. clear H. intros t2 H.
  tell H; [by vm_compute|]. tell H; [by vm_compute|].
  apply wp_bind. apply wp_true; [by vm_compute|]. tell_last H.
  unfold finish. apply wp_true.
  - assert (negb (Z.land (cr0 p) STAGE7C_CR0_PG_MASK =? 0) = true) as ->
      by (rewrite Ep; apply paging_bit_set).
    rewrite directory_frame, Z.eqb_refl.
    pose proof (make_entry_present addr_identity_page_table Haddr') as Hpres.
    destruct (Z.eqb_spec (stage7a_paging_make_entry addr_identity_page_table mapping_flags) 0) as [E|_];
      [by rewrite E in Hpres|]. by vm_compute.
  - tell_last H. eexists. split; [exact H|reflexivity].
Qed.

Lemma stage8a_passes s :
  wp stage8a_run_vmm_layout_policy_self_check (λ _ s', passes 1 (view k_paging_lens s) s s') s.
Proof.
  pose proof (progress_refl s) as H. unfold stage8a_run_vmm_layout_policy_self_check. cbv zeta.
  do 2 tell H. do 2 (tell H; [by vm_compute|]). tell H. do 2 (tell H; [by vm_compute|]). tell H.
  do 2 (tell H; [by vm_compute|]). tell H. apply wp_bind.
  change (length samples) with 4%nat. change (Z.of_nat 4) with 4.
  do 4 (apply wp_loop_step; cbv beta iota; apply wp_true; [by vm_compute|];
    eapply wp_bind, wp_from_option; [by vm_compute|]; cbv beta iota zeta;
    tell H; [by vm_compute|]; tell H; tell H; tell H; wp_steps; cbv beta iota).
  apply wp_loop_step. cbv beta iota. apply wp_false; [by vm_compute|]. wp_steps. cbv beta iota.
  unfold finish. apply wp_true; [by vm_compute|]. tell_last H.
  eexists. split; [exact H|reflexivity].
Qed.

(** Stage 8B leaves the translation of every address as it was. *)
Lemma stage8b_passes s p :
  view k_paging_lens s = p → vmm_wf p → translate p STAGE8B_TEST_VIRTUAL_PAGE = None →
  wp stage8b_run_vmm_mapping_interface_self_check
    (λ _ s', ∃ p', passes 5 p' s s' ∧ vmm_wf p' ∧ paging_equiv p' p) s.
Proof.
  intros Hp Hwf Hnone. pose proof (progress_refl s) as H. rewrite Hp in H.
  unfold stage8b_run_vmm_mapping_interface_self_check. cbv zeta.
  change (stage7a_paging_frame_addr STAGE8B_TEST_PHYSICAL_FRAME) with 0x300000.
  change STAGE8B_TEST_VIRTUAL_PAGE with 0x800000 in *.
  assert (can_map p 0x800000 0x300000) as Hcan by (unfold can_map, in_window; split_and!; done || lia).
  destruct (queries_run p 0x800000 0 Hwf ltac:(lia)) as [_ Eq1].
  destruct (map_page_spec p 0x800000 0x300000 Hwf ltac:(lia) ltac:(lia)) as (p1 & E1 & Hwf1 & _ & Ht1).
  rewrite bool_decide_true in E1 by done.
  assert (translate p1 0x800000 = Some 0x300000) as Hmapped
    by (rewrite Ht1 by lia; by rewrite decide_True by (split; [exact Hcan|reflexivity])).
  destruct (queries_run p1 0x800000 0 Hwf1 ltac:(lia)) as [Er1 _].
  rewrite Hmapped in Er1. change (0x800000 mod 0x1000 =? 0) with true in Er1. cbv beta iota in Er1.
  destruct (unmap_page_spec p1 0x800000 Hwf1 ltac:(lia)) as (p2 & E2 & Hwf2 & _ & Ht2).
  assert (can_unmap p1 0x800000) as Hun
    by (unfold can_unmap, in_window; rewrite Hmapped; split_and!; done || lia).
  rewrite bool_decide_true in E2 by done.
  destruct (queries_run p2 0x800000 0 Hwf2 ltac:(lia)) as [_ Eq2].
  assert (translate p2 0x800000 = None) as Hgone
    by (rewrite Ht2 by lia; by rewrite decide_True by (split; [exact Hun|reflexivity])).
  rewrite bool_decide_false in Eq1 by (by intros [_ ?]). rewrite bool_decide_false in Eq2 by (by intros [_ ?]).
  tell H. tell H; [lia|]. tell H; [lia|].
  apply wp_bind. eapply wp_vmm; [exact H|exact Eq1|]. clear H. intros s1' H. cbn [negb]. unfold report.
  apply wp_bind. tell H. wp_steps.
  eapply wp_vmm; [exact H|exact E1|]. clear H. intros s2' H.
  apply wp_bind. tell H. wp_steps.
  eapply wp_vmm; [exact H|exact Er1|]. clear H. intros s3' H. cbv beta iota.
  eapply wp_bind, wp_from_option; [reflexivity|]. tell H; [lia|].
  apply wp_bind. eapply wp_vmm; [exact H|exact E2|]. clear H. intros s4' H.
  apply wp_bind. tell H. wp_steps.
  eapply wp_vmm; [exact H|exact Eq2|]. clear H. intros s5' H. cbn [negb].
  apply wp_bind. tell H. wp_steps. cbn [andb]. rewrite Z.eqb_refl. unfold finish. tell_last H.
  exists p2. split; [eexists; split; [exact H|reflexivity]|]. split; [done|].
  intros a Ha. rewrite Ht2, Ht1 by done. case_decide as D2; [|case_decide as D1; [|done]].
  - destruct D2 as [_ D2]. unfold same_page in D2.
    rewrite translate_walk, mmu_walk_page in Hnone by (done || lia).
    rewrite translate_walk, mmu_walk_page by done.
    change (0x800000 mod 0x1000) with 0 in Hnone. rewrite Z.sub_0_r in Hnone.
    replace (a - a mod 0x1000) with 0x800000 by (clear -D2; lia).
    destruct (mmu_walk p 0x800000); [by cbn in Hnone|done].
  - destruct D2. split; [exact Hun|]. by destruct D1.
Qed.

Lemma paging_stages_run c0 c3 t s :
  view k_paging_lens s = reset_paging_state c0 c3 t → is_u32 c0 →
  (∀ a, 0 ≤ a < 0x100000 → in_kernel_image a = false) →
  ∃ s' p, (stage7a_run_paging_groundwork_self_check ;; stage7b_run_static_paging_setup_self_check ;;
      stage7c_run_paging_activation_self_check ;; stage7d_run_identity_validation_self_check ;;
      stage8a_run_vmm_layout_policy_self_check ;; stage8b_run_vmm_mapping_interface_self_check) s
      = Ret tt s' ∧
    passes 11 p s s' ∧ vmm_wf p ∧
    ∀ va, is_u32 va → translate p va = if va <? 0x400000 then Some va else None.
Proof.
  intros Hp H0 Hi. set (p0 := reset_paging_state c0 c3 t) in *.
  assert (∀ n p s s', passes n p s s' → view k_paging_lens s' = p) as Hview
    by (intros n p x x' (ls & H & _); by eapply progress_paging).
  destruct (active_wf c0 c3 t) as [Hwf Ht]. fold p0 in Hwf, Ht.
  match goal with |- ∃ s' p, ?m s = _ ∧ _ =>
    assert (wp m (λ _ s', ∃ p, passes 11 p s s' ∧ vmm_wf p ∧ paging_equiv p (paging_active (paging_set_up p0))) s)
      as Hwp end.
  { apply wp_bind. eapply wp_mono; [|apply stage7a_passes]. intros [] s1 P1. rewrite Hp in P1.
    apply wp_bind. eapply wp_mono; [|apply (stage7b_passes s1 p0); [by eapply Hview|reflexivity|reflexivity]]. intros [] s2 P2.
    apply wp_bind. eapply wp_mono; [|apply (stage7c_passes s2 (paging_set_up p0)); [by eapply Hview|exact H0]]. intros [] s3 P3.
    apply wp_bind. eapply wp_mono; [|apply (stage7d_passes s3 (paging_active (paging_set_up p0)) p0); [by eapply Hview|reflexivity|exact H0|exact Ht|exact Hi]]. intros [] s4 P4.
    apply wp_bind. eapply wp_mono; [|apply stage8a_passes]. intros [] s5 P5. rewrite (Hview _ _ _ _ P4) in P5.
    eapply wp_mono; [|apply (stage8b_passes s5 (paging_active (paging_set_up p0))); [by eapply Hview|exact Hwf|by rewrite Ht by (unfold STAGE8B_TEST_VIRTUAL_PAGE; zlia)]].
    intros [] s6 (p & P6 & Hwf' & Heq). exists p. split; [|done].
    change 11%nat with (1 + (1 + (1 + (2 + (1 + 5)))))%nat. by repeat (eapply passes_trans; [eassumption|]). }
  apply wp_run in Hwp as ([] & s' & E & p & HP & Hwf' & Heq). exists s', p. split; [exact E|].
  split; [done|]. split; [done|]. intros va Hva. by rewrite Heq, Ht.
Qed.

(** C9. From the reset state to Stage 8B, whatever the control registers, the TLB
    and the memory hold: every verdict printed is PASS, no check panics or
    faults, and the processor then translates by the identity map of the first
    4 MiB alone. *)
Theorem paging_checks_pass c0 c3 t s :
  view k_paging_lens s = reset_paging_state c0 c3 t → is_u32 c0 →
  (∀ a, 0 ≤ a < 0x100000 → in_kernel_image a = false) →
  ∃ s' p, (stage7a_run_paging_groundwork_self_check ;; stage7b_run_static_paging_setup_self_check ;;
      stage7c_run_paging_activation_self_check ;; stage7d_run_identity_validation_self_check ;;
      stage8a_run_vmm_layout_policy_self_check ;; stage8b_run_vmm_mapping_interface_self_check) s
      = Ret tt s' ∧
    passes 11 p s s' ∧ vmm_wf p ∧
    ∀ va, is_u32 va → translate p va = if va <? 0x400000 then Some va else None.
Proof. apply paging_stages_run. Qed.
End stages.

Section witnesses.
#[local] Existing Instance qemu_layout.
#[local] Existing Instance qemu_layout_ok.
#[local] Existing Instance qemu_image.
#[local] Existing Instance idle_ports.
#[local] Existing Instance demo_stubs.

Lemma paging_checks_pass_witness :
  ∃ s' p, (stage7a_run_paging_groundwork_self_check ;; stage7b_run_static_paging_setup_self_check ;;
      stage7c_run_paging_activation_self_check ;; stage7d_run_identity_validation_self_check ;;
      stage8a_run_vmm_layout_policy_self_check ;; stage8b_run_vmm_mapping_interface_self_check)
      (boot_kernel demo_info) = Ret tt s' ∧ passes 11 p (boot_kernel demo_info) s' ∧
    translate p 0xB8000 = Some 0xB8000.
Proof.
  destruct (paging_checks_pass (UR := idle_ready) 0x11 0 ∅ (boot_kernel demo_info) eq_refl ltac:(lia))
    as (s' & p & E & HP & _ & Ht); [unfold in_kernel_image; simpl; lia|].
  exists s', p. split; [exact E|]. split; [exact HP|]. rewrite Ht by lia. reflexivity.
Defined.
End witnesses.
