(* ===== verification/SelfChecksHeap.v ===== *)
(** * The boot-time self-checks, Stages 9A to 10E ([init/stage0_main.c], 1689-2641)

    The heap, [kmalloc] and the byte primitives.  Local byte arrays live in a
    stack frame, which is a memory of its own here ([StackFrame]): the
    pointers of [Memory] do not reach the kernel image, and the stack is in
    it. *)
From S2P Require Import Prelude KernelMonad VmmLayout Paging Memory FrameAllocator Pmm.
From S2P Require Import Kheap Kmalloc Kmemory Console Interrupts Kernel SelfChecks.
#[local] Open Scope Z_scope.

Definition STAGE9A_FAIL_DETAIL : Z := 0x000900A0.
Definition STAGE9B_FAIL_DETAIL : Z := 0x000900B0.
Definition STAGE9C_FAIL_DETAIL : Z := 0x000900C0.
Definition STAGE9D_FAIL_DETAIL : Z := 0x000900D0.
Definition STAGE10A_FAIL_DETAIL : Z := 0x000A00A0.
Definition STAGE10B_FAIL_DETAIL : Z := 0x000A00B0.
Definition STAGE10C_FAIL_DETAIL : Z := 0x000A00C0.
Definition STAGE10D_FAIL_DETAIL : Z := 0x000A00D0.
Definition STAGE10E_FAIL_DETAIL : Z := 0x000A00E0.

(** The frame of a check: where its arrays start, and what is in it. *)
Class StackFrame := {
  frame_base : Z;
  frame_contents : memory;
}.

Section checks.
Context `{KL : KernelLayout, KI : KernelImage, PO : Ports, IS : InterruptStubs, SF : StackFrame}.
#[local] Abbreviation K := (M kernel).

(** ** Stage 9: freeing and reuse *)
Definition stage9a_run_kheap_free_groundwork_self_check : K unit :=
  say "custom-os Stage 9A heap free validation begin" ;;
  alloc_a ← heap_call (stage8c_kheap_alloc 32);
  alloc_b ← heap_call (stage8c_kheap_alloc 48);
  say_hex "custom-os Stage 9A alloc A: " alloc_a ;;
  say_hex "custom-os Stage 9A alloc B: " alloc_b ;;
  let passed := negb ((alloc_a =? 0) || (alloc_b =? 0) || (alloc_b <=? alloc_a)) in
  '(ok, (start, current_before, end_, mapped_before)) ← heap_state_into (0, 0, 0, 0);
  let passed := passed && ok in
  valid_free_ok ← heap_call (stage9a_kheap_free alloc_a);
  passed ← report "custom-os Stage 9A free A accept" valid_free_ok passed;
  freed ← heap_call (stage9a_kheap_free alloc_a);
  passed ← report "custom-os Stage 9A duplicate free reject" (negb freed) passed;
  freed ← heap_call (stage9a_kheap_free (u32 (start + 4)));
  passed ← report "custom-os Stage 9A invalid free reject" (negb freed) passed;
  freed ← heap_call (stage9a_kheap_free 0);
  passed ← report "custom-os Stage 9A null free reject" (negb freed) passed;
  '(ok, (start, current_after, end_, mapped_after)) ← heap_state_into (start, 0, end_, 0);
  let passed := passed && ok in
  say_hex "custom-os Stage 9A heap current before free: " current_before ;;
  say_hex "custom-os Stage 9A heap current after free: " current_after ;;
  let passed := passed && negb (negb (current_after =? current_before)
    || negb (mapped_after =? mapped_before)) in
  alloc_c ← heap_call (stage8c_kheap_alloc 64);
  say_hex "custom-os Stage 9A alloc C after free: " alloc_c ;;
  let no_reuse_monotonic_ok := negb (alloc_c =? 0) && (alloc_c >? alloc_b) in
  passed ← report "custom-os Stage 9A no-reuse monotonic alloc result" no_reuse_monotonic_ok passed;
  finish "custom-os Stage 9A" passed "Stage 9A heap free groundwork failed" STAGE9A_FAIL_DETAIL.

Definition stage9b_run_kheap_reuse_activation_self_check : K unit :=
  say "custom-os Stage 9B free-list reuse activation begin" ;;
  alloc_a ← heap_call (stage8c_kheap_alloc 56);
  alloc_b ← heap_call (stage8c_kheap_alloc 88);
  say_hex "custom-os Stage 9B alloc A: " alloc_a ;;
  say_hex "custom-os Stage 9B alloc B: " alloc_b ;;
  let passed := negb ((alloc_a =? 0) || (alloc_b =? 0) || (alloc_b <=? alloc_a)) in
  '(ok, (start, current_before_reuse, end_, mapped)) ← heap_state_into (0, 0, 0, 0);
  let passed := passed && ok in
  free_a_ok ← heap_call (stage9a_kheap_free alloc_a);
  passed ← report "custom-os Stage 9B free A accept" free_a_ok passed;
  alloc_c ← heap_call (stage8c_kheap_alloc 56);
  say_hex "custom-os Stage 9B reuse allocation result: " alloc_c ;;
  passed ← report "custom-os Stage 9B reused-address match" (alloc_c =? alloc_a) passed;
  '(ok, (start, current_after_reuse, end_, mapped)) ← heap_state_into (start, 0, end_, mapped);
  let passed := passed && ok in
  let passed := passed && (current_after_reuse =? current_before_reuse) in
  finish "custom-os Stage 9B" passed "Stage 9B heap reuse activation failed" STAGE9B_FAIL_DETAIL.

Definition stage9c_run_kheap_fragmentation_reuse_self_check : K unit :=
  say "custom-os Stage 9C fragmentation-aware reuse begin" ;;
  alloc_large ← heap_call (stage8c_kheap_alloc 96);
  say_hex "custom-os Stage 9C alloc large block: " alloc_large ;;
  let passed := negb (alloc_large =? 0) in
  '(ok, (start, current_before_reuse, end_, mapped)) ← heap_state_into (0, 0, 0, 0);
  let passed := passed && ok in
  free_large_ok ← heap_call (stage9a_kheap_free alloc_large);
  passed ← report "custom-os Stage 9C free large block accept" free_large_ok passed;
  alloc_small ← heap_call (stage8c_kheap_alloc 40);
  say_hex "custom-os Stage 9C alloc smaller block result: " alloc_small ;;
  passed ← report "custom-os Stage 9C reused-start match" (alloc_small =? alloc_large) passed;
  alloc_leftover ← heap_call (stage8c_kheap_alloc 40);
  say_hex "custom-os Stage 9C leftover fragment allocation: " alloc_leftover ;;
  let expected_leftover_start := u32 (u32 (alloc_large + 40) + 16) in
  let leftover_fragment_reuse_ok := alloc_leftover =? expected_leftover_start in
  (if leftover_fragment_reuse_ok
   then say "custom-os Stage 9C leftover fragment reuse result: PASS"
   else say "custom-os Stage 9C leftover fragment reuse result: FAIL") ;;
  '(ok, (start, current_after_reuse, end_, mapped)) ← heap_state_into (start, 0, end_, mapped);
  let passed := passed && ok in
  let passed := passed && (current_after_reuse =? current_before_reuse) in
  let passed := passed && leftover_fragment_reuse_ok in
  finish "custom-os Stage 9C" passed "Stage 9C fragmentation reuse failed" STAGE9C_FAIL_DETAIL.

Definition stage9d_run_kheap_lifecycle_validation_self_check : K unit :=
  say "custom-os Stage 9D heap lifecycle validation begin" ;;
  alloc_a ← heap_call (stage8c_kheap_alloc 32);
  alloc_b ← heap_call (stage8c_kheap_alloc 64);
  alloc_c ← heap_call (stage8c_kheap_alloc 96);
  say_hex "custom-os Stage 9D alloc A: " alloc_a ;;
  say_hex "custom-os Stage 9D alloc B: " alloc_b ;;
  say_hex "custom-os Stage 9D alloc C: " alloc_c ;;
  let passed := negb ((alloc_a =? 0) || (alloc_b =? 0) || (alloc_c =? 0)
    || (alloc_a >=? alloc_b) || (alloc_b >=? alloc_c)) in
  '(ok, (start, current_before, end_, mapped)) ← heap_state_into (0, 0, 0, 0);
  let passed := passed && ok in
  free_b_ok ← heap_call (stage9a_kheap_free alloc_b);
  let passed := passed && free_b_ok in
  alloc_d ← heap_call (stage8c_kheap_alloc 64);
  say_hex "custom-os Stage 9D alloc D exact-size candidate: " alloc_d ;;
  passed ← report "custom-os Stage 9D exact-size reuse result" (alloc_d =? alloc_b) passed;
  free_c_ok ← heap_call (stage9a_kheap_free alloc_c);
  let passed := passed && free_c_ok in
  alloc_e ← heap_call (stage8c_kheap_alloc 40);
  say_hex "custom-os Stage 9D alloc E split candidate: " alloc_e ;;
  passed ← report "custom-os Stage 9D split-reuse result" (alloc_e =? alloc_c) passed;
  alloc_f ← heap_call (stage8c_kheap_alloc 40);
  say_hex "custom-os Stage 9D alloc F leftover candidate: " alloc_f ;;
  let expected_leftover_start := u32 (u32 (alloc_c + 40) + 16) in
  passed ← report "custom-os Stage 9D leftover-fragment reuse result"
    (alloc_f =? expected_leftover_start) passed;
  freed ← heap_call (stage9a_kheap_free (u32 (start + 4)));
  passed ← report "custom-os Stage 9D invalid free rejection result" (negb freed) passed;
  free_d_once_ok ← heap_call (stage9a_kheap_free alloc_d);
  let passed := passed && free_d_once_ok in
  freed ← heap_call (stage9a_kheap_free alloc_d);
  passed ← report "custom-os Stage 9D double free rejection result" (negb freed) passed;
  '(ok, (start, current_after, end_, mapped)) ← heap_state_into (start, 0, end_, mapped);
  let passed := passed && ok in
  let passed := passed && (current_after =? current_before) in
  finish "custom-os Stage 9D" passed "Stage 9D heap lifecycle validation failed" STAGE9D_FAIL_DETAIL.

(** ** Stage 10: [kmalloc], [kfree] and the byte primitives *)
Definition stage10a_run_kmalloc_interface_self_check : K unit :=
  say "custom-os Stage 10A kmalloc interface validation begin" ;;
  alloc_large ← heap_call (kmalloc 1536);
  say_hex "custom-os Stage 10A kmalloc alloc large: " alloc_large ;;
  let passed := negb (alloc_large =? 0) in
  free_large_ok ← heap_call (kfree alloc_large);
  passed ← report "custom-os Stage 10A kfree valid free result" free_large_ok passed;
  alloc_reused ← heap_call (kmalloc 1536);
  say_hex "custom-os Stage 10A kmalloc exact-reuse candidate: " alloc_reused ;;
  passed ← report "custom-os Stage 10A kmalloc exact-reuse result" (alloc_reused =? alloc_large) passed;
  freed ← heap_call (kfree (u32 (alloc_reused + 4)));
  passed ← report "custom-os Stage 10A kfree invalid free rejection result" (negb freed) passed;
  free_once_ok ← heap_call (kfree alloc_reused);
  let passed := passed && free_once_ok in
  freed ← heap_call (kfree alloc_reused);
  passed ← report "custom-os Stage 10A kfree double free rejection result" (negb freed) passed;
  finish "custom-os Stage 10A" passed "Stage 10A kmalloc interface failed" STAGE10A_FAIL_DETAIL.

Definition stage10b_run_kmalloc_allocation_semantics_self_check : K unit :=
  say "custom-os Stage 10B allocation semantics begin" ;;
  zero ← heap_call (kmalloc 0);
  passed ← report "custom-os Stage 10B kmalloc zero-size result" (zero =? 0) true;
  freed ← heap_call (kfree 0);
  passed ← report "custom-os Stage 10B kfree null result" (negb freed) passed;
  alloc_valid ← heap_call (kmalloc 128);
  say_hex "custom-os Stage 10B kmalloc valid result: " alloc_valid ;;
  let passed := passed && negb (alloc_valid =? 0) in
  kfree_valid_ok ← heap_call (kfree alloc_valid);
  passed ← report "custom-os Stage 10B kfree valid result" kfree_valid_ok passed;
  freed ← heap_call (kfree (u32 (alloc_valid + 4)));
  passed ← report "custom-os Stage 10B invalid free rejection result" (negb freed) passed;
  finish "custom-os Stage 10B" passed "Stage 10B allocation semantics failed" STAGE10B_FAIL_DETAIL.

(** The arrays in the frame: [memset_buffer], [memcpy_src] and [memcpy_dst]
    (16 bytes each), [move_buffer] and [expected_move] (8 bytes each). *)
Definition memset_buffer : Z := frame_base.
Definition memcpy_src : Z := frame_base + 16.
Definition memcpy_dst : Z := frame_base + 32.
Definition move_buffer : Z := frame_base + 48.
Definition expected_move : Z := frame_base + 56.

(** A part of a check that only works on its frame. *)
Definition in_frame {A} (m : M memory A) : K A := λ s,
  match m frame_contents with
  | Ret a _ => Ret a s
  | Panic r d _ => Panic r d s
  | PageFault a _ => PageFault a s
  | Undefined _ => Undefined s
  | OutOfFuel => OutOfFuel
  end.

(** [while (i < n) { if (!test(i)) { ok = 0; break; } i++; }] *)
Definition all_bytes (n : Z) (test : Z → M memory bool) : M memory bool :=
  loop (S (Z.to_nat n)) (λ i,
    if i <? n then
      ok ← test i;
      if ok : bool then continue (u32 (i + 1)) else break false
    else break true) 0.

Definition check_memset (value : Z) : M memory bool :=
  kmemset memset_buffer value 16 ;;
  all_bytes 16 (λ i, b ← load8 (memset_buffer + i); mret (b =? value)).

Definition fill_copy_buffers (first : Z) : M memory unit :=
  for_u32 16 (λ i,
    store8 (memcpy_src + i) (u8 (i + first)) ;;
    store8 (memcpy_dst + i) 0).

Definition check_memmove : M memory bool :=
  for_u32 8 (λ i,
    store8 (move_buffer + i) (u8 i) ;;
    store8 (expected_move + i) (u8 i)) ;;
  store8 (expected_move + 2) 0 ;;
  store8 (expected_move + 3) 1 ;;
  store8 (expected_move + 4) 2 ;;
  store8 (expected_move + 5) 3 ;;
  store8 (expected_move + 6) 4 ;;
  store8 (expected_move + 7) 5 ;;
  kmemmove (move_buffer + 2) (move_buffer + 0) 6 ;;
  all_bytes 8 (λ i,
    b ← load8 (move_buffer + i);
    e ← load8 (expected_move + i);
    mret (b =? e)).

(** [memcpy_dst[i] ^= 0x01u;] *)
Definition flip_copy (i : Z) : M memory unit :=
  b ← load8 (memcpy_dst + i);
  store8 (memcpy_dst + i) (Z.lxor b 0x01).

(** The results of Stage 10C, in order. *)
Definition primitives_10c : M memory (bool * bool * bool * bool * bool) :=
  kmemset_ok ← check_memset 0xA5;
  fill_copy_buffers 1 ;;
  kmemcpy memcpy_dst memcpy_src 16 ;;
  kmemcpy_ok ← all_bytes 16 (λ i,
    b ← load8 (memcpy_dst + i);
    e ← load8 (memcpy_src + i);
    mret (b =? e));
  kmemmove_overlap_ok ← check_memmove;
  equal ← kmemcmp memcpy_src memcpy_dst 16;
  flip_copy 7 ;;
  different ← kmemcmp memcpy_src memcpy_dst 16;
  mret (kmemset_ok, kmemcpy_ok, kmemmove_overlap_ok, equal =? 0, negb (different =? 0)).

Definition stage10c_run_kmemory_primitives_self_check : K unit :=
  say "custom-os Stage 10C memory primitives validation begin" ;;
  '(kmemset_ok, kmemcpy_ok, kmemmove_overlap_ok, kmemcmp_equality_ok, kmemcmp_difference_ok) ←
    in_frame primitives_10c;
  passed ← report "custom-os Stage 10C kmemset result" kmemset_ok true;
  passed ← report "custom-os Stage 10C kmemcpy result" kmemcpy_ok passed;
  passed ← report "custom-os Stage 10C kmemmove overlap result" kmemmove_overlap_ok passed;
  passed ← report "custom-os Stage 10C kmemcmp equality result" kmemcmp_equality_ok passed;
  passed ← report "custom-os Stage 10C kmemcmp difference result" kmemcmp_difference_ok passed;
  finish "custom-os Stage 10C" passed "Stage 10C memory primitives failed" STAGE10C_FAIL_DETAIL.

Definition stage10d_run_kmalloc_lifecycle_hardening_self_check : K unit :=
  say "custom-os Stage 10D allocator hardening validation begin" ;;
  alloc_a ← heap_call (kmalloc 32);
  alloc_b ← heap_call (kmalloc 64);
  alloc_c ← heap_call (kmalloc 96);
  say_hex "custom-os Stage 10D alloc A: " alloc_a ;;
  say_hex "custom-os Stage 10D alloc B: " alloc_b ;;
  say_hex "custom-os Stage 10D alloc C: " alloc_c ;;
  let alignment_ordering_ok := negb (alloc_a =? 0) && negb (alloc_b =? 0) && negb (alloc_c =? 0)
    && (alloc_a <? alloc_b) && (alloc_b <? alloc_c)
    && is_aligned_8 alloc_a && is_aligned_8 alloc_b && is_aligned_8 alloc_c in
  let passed := alignment_ordering_ok in
  freed ← heap_call (kfree alloc_b);
  let passed := passed && freed in
  alloc_d ← heap_call (kmalloc 64);
  say_hex "custom-os Stage 10D exact-size reuse candidate: " alloc_d ;;
  passed ← report "custom-os Stage 10D exact-size reuse result" (alloc_d =? alloc_b) passed;
  alloc_split_large ← heap_call (kmalloc 4096);
  let passed := passed && negb (alloc_split_large =? 0) in
  freed ← heap_call (kfree alloc_split_large);
  let passed := passed && freed in
  alloc_e ← heap_call (kmalloc 2048);
  say_hex "custom-os Stage 10D split-reuse candidate: " alloc_e ;;
  passed ← report "custom-os Stage 10D split-reuse result" (alloc_e =? alloc_split_large) passed;
  alloc_f ← heap_call (kmalloc 1800);
  say_hex "custom-os Stage 10D leftover-fragment candidate: " alloc_f ;;
  let expected_leftover := u32 (u32 (alloc_split_large + 2048) + 16) in
  passed ← report "custom-os Stage 10D leftover-fragment result" (alloc_f =? expected_leftover) passed;
  freed ← heap_call (kfree (u32 (alloc_d + 4)));
  passed ← report "custom-os Stage 10D invalid free rejection result" (negb freed) passed;
  free_d_once_ok ← heap_call (kfree alloc_d);
  let passed := passed && free_d_once_ok in
  freed ← heap_call (kfree alloc_d);
  passed ← report "custom-os Stage 10D double free rejection result" (negb freed) passed;
  (if alignment_ordering_ok
   then say "custom-os Stage 10D alignment/ordering result: PASS"
   else say "custom-os Stage 10D alignment/ordering result: FAIL") ;;
  finish "custom-os Stage 10D" passed "Stage 10D allocator hardening failed" STAGE10D_FAIL_DETAIL.

(** The allocator part of Stage 10E. *)
Definition lifecycle_10e : K bool :=
  alloc_a ← heap_call (kmalloc 48);
  alloc_b ← heap_call (kmalloc 80);
  alloc_c ← heap_call (kmalloc 112);
  let lifecycle_ok := negb ((alloc_a =? 0) || (alloc_b =? 0) || (alloc_c =? 0)
    || (alloc_a >=? alloc_b) || (alloc_b >=? alloc_c)
    || negb (is_aligned_8 alloc_a) || negb (is_aligned_8 alloc_b) || negb (is_aligned_8 alloc_c)) in
  freed ← heap_call (kfree alloc_b);
  let lifecycle_ok := lifecycle_ok && freed in
  alloc_exact ← heap_call (kmalloc 80);
  let lifecycle_ok := lifecycle_ok && (alloc_exact =? alloc_b) in
  alloc_split_large ← heap_call (kmalloc 4096);
  let lifecycle_ok := lifecycle_ok && negb (alloc_split_large =? 0) in
  freed ← heap_call (kfree alloc_split_large);
  let lifecycle_ok := lifecycle_ok && freed in
  alloc_split ← heap_call (kmalloc 2048);
  let lifecycle_ok := lifecycle_ok && (alloc_split =? alloc_split_large) in
  alloc_leftover ← heap_call (kmalloc 1800);
  let expected_leftover := u32 (u32 (alloc_split_large + 2048) + 16) in
  let lifecycle_ok := lifecycle_ok && (alloc_leftover =? expected_leftover) in
  freed ← heap_call (kfree (u32 (alloc_exact + 4)));
  let lifecycle_ok := lifecycle_ok && negb freed in
  freed ← heap_call (kfree alloc_exact);
  let lifecycle_ok := lifecycle_ok && freed in
  freed ← heap_call (kfree alloc_exact);
  mret (lifecycle_ok && negb freed).

(** The byte-primitive part of Stage 10E. *)
Definition primitives_10e : M memory bool :=
  memset_ok ← check_memset 0x5A;
  fill_copy_buffers 3 ;;
  kmemcpy memcpy_dst memcpy_src 16 ;;
  equal ← kmemcmp memcpy_src memcpy_dst 16;
  memmove_ok ← check_memmove;
  flip_copy 5 ;;
  different ← kmemcmp memcpy_src memcpy_dst 16;
  mret (memset_ok && (equal =? 0) && memmove_ok && negb (different =? 0)).

Definition stage10e_run_allocation_api_validation_suite_self_check : K unit :=
  say "custom-os Stage 10E allocation API validation suite begin" ;;
  lifecycle_ok ← lifecycle_10e;
  report "custom-os Stage 10E kmalloc/kfree lifecycle result" lifecycle_ok true ;;
  bad ← or_else (zero ← heap_call (kmalloc 0); mret (negb (zero =? 0))) (heap_call (kfree 0));
  let wrapper_semantics_ok := negb bad in
  report "custom-os Stage 10E wrapper semantics result" wrapper_semantics_ok true ;;
  memory_primitives_ok ← in_frame primitives_10e;
  report "custom-os Stage 10E memory primitives result" memory_primitives_ok true ;;
  continuity_alloc ← heap_call (kmalloc 72);
  bad ← or_else (mret (continuity_alloc =? 0))
    (freed ← heap_call (kfree continuity_alloc); mret (negb freed));
  let cross_stage_continuity_ok := negb bad
    && negb (negb lifecycle_ok || negb wrapper_semantics_ok || negb memory_primitives_ok) in
  report "custom-os Stage 10E cross-stage continuity result" cross_stage_continuity_ok true ;;
  finish "custom-os Stage 10E"
    (lifecycle_ok && wrapper_semantics_ok && memory_primitives_ok && cross_stage_continuity_ok)
    "Stage 10E allocation API suite failed" STAGE10E_FAIL_DETAIL.
End checks.
