(* ===== verification/PrimitiveChecks.v ===== *)
(** * The checks of the byte primitives pass for every stack frame

    Stages 10C and 10E try [kmemset], [kmemcpy], [kmemmove] and [kmemcmp] on
    arrays of their stack frame, whatever the frame held before. *)
From S2P Require Import Prelude KernelMonad Paging Memory Kmemory Console Interrupts Kernel.
From S2P Require Import SelfChecks SelfChecksHeap.
#[local] Open Scope Z_scope.

(** The frame can be used, and does not wrap. *)
Class StackFrameOk `{KernelLayout, KernelImage, SF : StackFrame} : Prop := {
  stack_low : 0 ≤ frame_base;
  stack_high : frame_base + 64 < 0x100000000;
  stack_usable : usable frame_contents (within frame_base (frame_base + 64));
}.

Section frame.
Context `{KL : KernelLayout, KI : KernelImage, SF : StackFrame, SFO : !StackFrameOk}.
Implicit Types m : memory.

#[local] Abbreviation D := (within frame_base (frame_base + 64)).

(** Outside [lo, hi) nothing has changed. *)
Definition changed (lo hi : Z) m m' : Prop :=
  usable m' D ∧ ∀ a, D a → ¬ lo ≤ a < hi → vbyte m' a = vbyte m a.

Lemma written_changed m m' W f lo hi :
  usable m D → written m m' D W f → (∀ a, W a → lo ≤ a < hi) → changed lo hi m m'.
Proof.
  intros Hu (Hp & _ & Hn) HW. split; [by eapply usable_same|]. intros a Ha Hout. apply Hn; [done|].
  intros ?%HW. lia.
Qed.

Lemma all_bytes_true n test m :
  is_u32 n → (∀ i, 0 ≤ i < n → test i m = Ret true m) → all_bytes n test m = Ret true m.
Proof.
  intros Hn Ht. assert (wp (all_bytes n test) (λ r m', r = true ∧ m' = m) m) as Hwp;
    [|by apply wp_run in Hwp as (r & m' & E & -> & ->)].
  apply (wp_loop (λ i m', 0 ≤ i ≤ n ∧ m' = m) (λ i _, n - i)); [split; [lia|done]| |lia|lia].
  intros i m' [Hi ->]. destruct (Z.ltb_spec i n); [|by wp_steps].
  wp_step. eapply wp_Ret; [apply Ht; lia|]. wp_steps. rewrite u32_id by lia.
  split; [split; [lia|done]|lia].
Qed.

Lemma load_ok m a : usable m D → D a → load8 a m = Ret (vbyte m a) m.
Proof. intros Hu Ha. apply load8_ok, (usable_phys _ _ Hu), Ha. Qed.

Lemma frame_region o n : 0 ≤ o → 0 ≤ n → o + n ≤ 64 → region D (frame_base + o) n.
Proof. intros Ho Hn Hs. destruct SFO. unfold region, within. split_and!; [lia..|intros; lia]. Qed.

Lemma check_memset_passes m v :
  usable m D → is_u8 v → ∃ m', check_memset v m = Ret true m' ∧ usable m' D.
Proof.
  intros Hu Hv. unfold check_memset, memset_buffer.
  pose proof (frame_region 0 16 ltac:(lia) ltac:(lia) ltac:(lia)) as Hr. rewrite Z.add_0_r in Hr.
  destruct (kmemset_fills m D frame_base v 16 Hu Hr) as (m1 & E & Hw).
  assert (usable m1 D) as Hu1 by (destruct Hw as [Hp _]; by eapply usable_same).
  exists m1. split; [|done]. mrun E. apply all_bytes_true; [lia|]. intros i Hi.
  mrun (load_ok m1 (frame_base + i) Hu1 ltac:(unfold within; lia)).
  destruct Hw as (_ & Hw & _). rewrite Hw by (unfold within; lia). by rewrite u8_id, Z.eqb_refl.
Qed.

Lemma store_changed m a v :
  usable m D → D a →
  ∃ m', store8 a v m = Ret tt m' ∧ vbyte m' a = u8 v ∧ changed a (a + 1) m m'.
Proof.
  intros Hu Ha. destruct (store8_written m D a v Hu Ha) as (m' & E & Hw). exists m'. split; [done|].
  split; [by apply Hw|]. eapply written_changed; [done|exact Hw|intros ? ->; lia].
Qed.

Lemma fill_copy_buffers_run m first :
  usable m D → 0 ≤ first ≤ 200 →
  ∃ m', fill_copy_buffers first m = Ret tt m' ∧ usable m' D ∧
    ∀ i, 0 ≤ i < 16 → vbyte m' (memcpy_src + i) = i + first.
Proof.
  intros Hu Hf. unfold fill_copy_buffers, memcpy_src, memcpy_dst.
  match goal with |- ∃ m', ?l m = _ ∧ _ => cut (wp l (λ _ m', usable m' D ∧
    ∀ i, 0 ≤ i < 16 → vbyte m' (frame_base + 16 + i) = i + first) m) end.
  { intros ([] & m' & ? & ?)%wp_run. eauto. }
  apply (wp_for_u32 (λ n m', usable m' D ∧
    ∀ i, 0 ≤ i < n → vbyte m' (frame_base + 16 + i) = i + first)); [lia|split; [done|lia]| |done].
  intros n m1 Hn [Hu1 H1].
  destruct (store_changed m1 (frame_base + 16 + n) (u8 (n + first)) Hu1) as (m2 & E2 & V2 & Hu2 & C2);
    [unfold within; lia|].
  wp_step. eapply wp_Ret; [exact E2|].
  destruct (store_changed m2 (frame_base + 32 + n) 0 Hu2) as (m3 & E3 & _ & Hu3 & C3);
    [unfold within; lia|].
  eapply wp_Ret; [exact E3|]. split; [done|]. intros i Hi.
  rewrite C3 by (unfold within; lia). destruct (decide (i = n)) as [->|].
  - rewrite V2, !u8_id; [done|lia|]. rewrite u8_id; lia.
  - rewrite C2 by (unfold within; lia). apply H1. lia.
Qed.

Lemma frame_loads m : usable m D → ∀ o, 0 ≤ o < 64 → load8 (frame_base + o) m = Ret (vbyte m (frame_base + o)) m.
Proof. intros Hu o Ho. apply load_ok; [done|]. unfold within. lia. Qed.

(** [kmemcpy] into the second buffer: both agree afterwards. *)
Lemma copy_run m :
  usable m D →
  ∃ m', kmemcpy memcpy_dst memcpy_src 16 m = Ret memcpy_dst m' ∧ usable m' D ∧
    ∀ i, 0 ≤ i < 16 → vbyte m' (memcpy_dst + i) = vbyte m (memcpy_src + i) ∧
      vbyte m' (memcpy_src + i) = vbyte m (memcpy_src + i).
Proof.
  intros Hu. unfold memcpy_dst, memcpy_src.
  destruct (kmemcpy_spec m D (frame_base + 32) (frame_base + 16) 16 Hu) as (m' & E & Hp & Hw & Hn);
    [by apply frame_region..|lia|].
  exists m'. split; [done|]. split; [by eapply usable_same|]. intros i Hi. split.
  - rewrite Hw by (unfold within; lia). f_equal. lia.
  - apply Hn; unfold within; lia.
Qed.

Lemma compare_run m :
  usable m D →
  ∃ r, kmemcmp memcpy_src memcpy_dst 16 m = Ret r m ∧
    (r = 0 ↔ ∀ i, 0 ≤ i < 16 → vbyte m (memcpy_src + i) = vbyte m (memcpy_dst + i)).
Proof.
  intros Hu. unfold memcpy_src, memcpy_dst.
  destruct (kmemcmp_spec m D (frame_base + 16) (frame_base + 32) 16 Hu) as (r & E & Hr & _);
    [by apply frame_region..|]. eauto.
Qed.

Lemma flip_run m i :
  usable m D → 0 ≤ i < 16 →
  ∃ m', flip_copy i m = Ret tt m' ∧ usable m' D ∧
    vbyte m' (memcpy_dst + i) = Z.lxor (vbyte m (memcpy_dst + i)) 1 ∧
    ∀ j, 0 ≤ j < 16 → vbyte m' (memcpy_src + j) = vbyte m (memcpy_src + j).
Proof.
  intros Hu Hi. unfold flip_copy, memcpy_dst, memcpy_src.
  destruct (store_changed m (frame_base + 32 + i) (Z.lxor (vbyte m (frame_base + 32 + i)) 1) Hu)
    as (m' & E & V & Hu' & C); [unfold within; lia|].
  exists m'. split; [by mrun (load_ok m (frame_base + 32 + i) Hu ltac:(unfold within; lia))|].
  split; [done|]. split; [|intros j Hj; apply C; unfold within; lia].
  rewrite V. apply u8_id. pose proof (vbyte_u8 m (frame_base + 32 + i)) as H8.
  change 0x100 with (2 ^ 8) in *. destruct (Z.eq_dec (Z.lxor (vbyte m (frame_base + 32 + i)) 1) 0) as [->|Hne]; [lia|].
  assert (0 ≤ Z.lxor (vbyte m (frame_base + 32 + i)) 1) by (apply Z.lxor_nonneg; lia).
  split; [done|]. apply Z.log2_lt_pow2; [lia|].
  pose proof (Z.log2_lxor (vbyte m (frame_base + 32 + i)) 1 ltac:(lia) ltac:(lia)).
  assert (Z.log2 (vbyte m (frame_base + 32 + i)) < 8).
  { destruct (decide (vbyte m (frame_base + 32 + i) = 0)) as [->|]; [done|]. apply Z.log2_lt_pow2; lia. }
  change (Z.log2 1) with 0 in *. lia.
Qed.

(** The other arrays are as in [m]. *)
Definition others_kept m m' : Prop :=
  ∀ o, 0 ≤ o < 48 → vbyte m' (frame_base + o) = vbyte m (frame_base + o).

(** What the two arrays of the [kmemmove] check hold. *)
Definition shows m0 (f g : Z → Z) m : Prop :=
  usable m D ∧ (∀ j, 0 ≤ j < 8 → vbyte m (move_buffer + j) = f j ∧ vbyte m (expected_move + j) = g j) ∧
  others_kept m0 m.

Lemma poke m0 f g m k v :
  shows m0 f g m → 0 ≤ k < 8 → is_u8 v →
  wp (store8 (expected_move + k) v) (λ _, shows m0 f (λ j, if decide (j = k) then v else g j)) m.
Proof.
  unfold shows, others_kept, move_buffer, expected_move. intros (Hu & Hs & Ho) Hk Hv.
  destruct (store_changed m (frame_base + 56 + k) v Hu) as (m' & E & V & Hu' & C); [unfold within; lia|].
  eapply wp_Ret; [exact E|]. split; [done|]. split; cycle 1.
  { intros o Hlow. rewrite C by (unfold within; lia). by apply Ho. }
  intros j Hj. destruct (Hs j Hj) as [H1 H2].
  rewrite C by (unfold within; lia). split; [done|]. case_decide as Hjk.
  - subst. rewrite V. by apply u8_id.
  - rewrite C by (unfold within; lia). done.
Qed.

Lemma fill_move_run m :
  usable m D →
  wp (for_u32 8 (λ i, store8 (move_buffer + i) (u8 i) ;; store8 (expected_move + i) (u8 i)))
    (λ _, shows m (λ j, j) (λ j, j)) m.
Proof.
  intros Hu. unfold shows, others_kept, move_buffer, expected_move.
  apply (wp_for_u32 (λ n m', usable m' D ∧ (∀ j, 0 ≤ j < n →
    vbyte m' (frame_base + 48 + j) = j ∧ vbyte m' (frame_base + 56 + j) = j) ∧ others_kept m m'));
    [lia|split; [done|split; [lia|done]]| |done].
  intros n m1 Hn (Hu1 & H1 & Ho1).
  destruct (store_changed m1 (frame_base + 48 + n) (u8 n) Hu1) as (m2 & E2 & V2 & Hu2 & C2);
    [unfold within; lia|]. wp_step. eapply wp_Ret; [exact E2|].
  destruct (store_changed m2 (frame_base + 56 + n) (u8 n) Hu2) as (m3 & E3 & V3 & Hu3 & C3);
    [unfold within; lia|]. eapply wp_Ret; [exact E3|]. split; [done|]. split; cycle 1.
  { intros o Hlow. rewrite C3, C2 by (unfold within; lia). by apply Ho1. }
  intros j Hj.
  rewrite (C3 (frame_base + 48 + j)) by (unfold within; lia). destruct (decide (j = n)) as [->|].
  - rewrite V2, V3, !u8_id; [done|lia|]. rewrite u8_id; lia.
  - rewrite C3, !C2 by (unfold within; lia). apply H1. lia.
Qed.

Lemma check_memmove_passes m : usable m D → wp check_memmove (λ r m', r = true ∧ usable m' D ∧ others_kept m m') m.
Proof.
  intros Hu. unfold check_memmove. apply wp_bind. eapply wp_mono; [|by apply fill_move_run].
  intros [] m0 H. cbv beta in H.
  do 6 (apply wp_bind; eapply wp_mono; [|eapply poke; [exact H|lia|lia]];
    clear H; let m' := fresh "m" in intros [] m' H; cbv beta in H).
  destruct H as (Hu6 & H6 & Ho6). unfold move_buffer, expected_move in *.
  destruct (kmemmove_spec m6 D (frame_base + 48 + 2) (frame_base + 48 + 0) 6 Hu6)
    as (m7 & E & Hp & Hw & Hn); [rewrite <- Z.add_assoc; apply frame_region; lia..|].
  apply wp_bind. eapply wp_Ret; [exact E|]. assert (usable m7 D) as Hu7 by (by eapply usable_same).
  eapply wp_Ret; [|split; [reflexivity|split; [exact Hu7|]]]; cycle 1.
  { intros o Ho. rewrite Hn by (unfold within; lia). by apply Ho6. }
  apply all_bytes_true; [lia|]. intros i Hi.
  rewrite <- !Z.add_assoc. mrun (frame_loads m7 Hu7 (48 + i) ltac:(lia)).
  mrun (frame_loads m7 Hu7 (56 + i) ltac:(lia)). rewrite !Z.add_assoc.
  rewrite (Hn (frame_base + 56 + i)) by (unfold within; lia). rewrite (proj2 (H6 i Hi)).
  assert (vbyte m7 (frame_base + 48 + i) = if decide (i < 2) then i else i - 2) as ->.
  { case_decide.
    - rewrite Hn by (unfold within; lia). by apply H6.
    - rewrite Hw by (unfold within; lia).
      replace (frame_base + 48 + 0 + (frame_base + 48 + i - (frame_base + 48 + 2)))
        with (frame_base + 48 + (i - 2)) by lia.
      apply H6. lia. }
  unfold mret, M_ret. f_equal. apply Z.eqb_eq. repeat case_decide; lia.
Qed.

Lemma flipped_differs m m' i first :
  0 ≤ i < 16 → i + first = 8 →
  (∀ j, 0 ≤ j < 16 → vbyte m (memcpy_src + j) = j + first ∧ vbyte m (memcpy_dst + j) = j + first) →
  vbyte m' (memcpy_dst + i) = Z.lxor (vbyte m (memcpy_dst + i)) 1 →
  (∀ j, 0 ≤ j < 16 → vbyte m' (memcpy_src + j) = vbyte m (memcpy_src + j)) →
  ¬ ∀ j, 0 ≤ j < 16 → vbyte m' (memcpy_src + j) = vbyte m' (memcpy_dst + j).
Proof.
  intros Hi H8 Hm Hf Hs Hall. specialize (Hall i Hi). rewrite Hf, Hs in Hall by done.
  destruct (Hm i Hi) as [E1 E2]. rewrite E1, E2, H8 in Hall. discriminate Hall.
Qed.

Lemma others_copies m m' :
  others_kept m m' → ∀ j, 0 ≤ j < 16 →
    vbyte m' (memcpy_src + j) = vbyte m (memcpy_src + j) ∧
    vbyte m' (memcpy_dst + j) = vbyte m (memcpy_dst + j).
Proof.
  intros Ho j Hj. unfold memcpy_src, memcpy_dst. rewrite <- !Z.add_assoc. split; apply Ho; lia.
Qed.

Lemma primitives_10c_run : ∃ m, primitives_10c frame_contents = Ret (true, true, true, true, true) m.
Proof.
  unfold primitives_10c.
  destruct (check_memset_passes frame_contents 0xA5 stack_usable ltac:(lia)) as (m1 & E1 & Hu1). mrun E1.
  destruct (fill_copy_buffers_run m1 1 Hu1 ltac:(lia)) as (m2 & E2 & Hu2 & V2). mrun E2.
  destruct (copy_run m2 Hu2) as (m3 & E3 & Hu3 & V3). mrun E3.
  assert (∀ j, 0 ≤ j < 16 → vbyte m3 (memcpy_src + j) = j + 1 ∧ vbyte m3 (memcpy_dst + j) = j + 1) as H3.
  { intros j Hj. destruct (V3 j Hj) as [-> ->]. by rewrite V2. }
  erewrite bind_run; cycle 1.
  { apply all_bytes_true; [lia|]. intros i Hi. unfold memcpy_dst, memcpy_src in *.
    rewrite <- !Z.add_assoc. mrun (frame_loads m3 Hu3 (32 + i) ltac:(lia)).
    mrun (frame_loads m3 Hu3 (16 + i) ltac:(lia)). rewrite !Z.add_assoc.
    destruct (H3 i Hi) as [-> ->]. by rewrite Z.eqb_refl. }
  pose proof (check_memmove_passes m3 Hu3) as (r & m4 & E4 & -> & Hu4 & Ho4)%wp_run. mrun E4.
  assert (∀ j, 0 ≤ j < 16 → vbyte m4 (memcpy_src + j) = j + 1 ∧ vbyte m4 (memcpy_dst + j) = j + 1) as H4.
  { intros j Hj. destruct (others_copies _ _ Ho4 j Hj) as [-> ->]. by apply H3. }
  destruct (compare_run m4 Hu4) as (r & E5 & R5). mrun E5.
  destruct (flip_run m4 7 Hu4 ltac:(lia)) as (m6 & E6 & Hu6 & V6 & S6). mrun E6.
  destruct (compare_run m6 Hu6) as (r' & E7 & R7). mrun E7. exists m6.
  assert (r = 0) as -> by (apply R5; intros i Hi; by destruct (H4 i Hi) as [-> ->]).
  assert (r' ≠ 0) as Hr'.
  { intros Hz. pose proof (proj1 R7 Hz). by eapply (flipped_differs m4 m6 7 1). }
  by rewrite (proj2 (Z.eqb_neq r' 0)).
Qed.

Lemma primitives_10e_run : ∃ m, primitives_10e frame_contents = Ret true m.
Proof.
  unfold primitives_10e.
  destruct (check_memset_passes frame_contents 0x5A stack_usable ltac:(lia)) as (m1 & E1 & Hu1). mrun E1.
  destruct (fill_copy_buffers_run m1 3 Hu1 ltac:(lia)) as (m2 & E2 & Hu2 & V2). mrun E2.
  destruct (copy_run m2 Hu2) as (m3 & E3 & Hu3 & V3). mrun E3.
  assert (∀ j, 0 ≤ j < 16 → vbyte m3 (memcpy_src + j) = j + 3 ∧ vbyte m3 (memcpy_dst + j) = j + 3) as H3.
  { intros j Hj. destruct (V3 j Hj) as [-> ->]. by rewrite V2. }
  destruct (compare_run m3 Hu3) as (r & E4 & R4). mrun E4.
  pose proof (check_memmove_passes m3 Hu3) as (b & m5 & E5 & -> & Hu5 & Ho5)%wp_run. mrun E5.
  assert (∀ j, 0 ≤ j < 16 → vbyte m5 (memcpy_src + j) = j + 3 ∧ vbyte m5 (memcpy_dst + j) = j + 3) as H5.
  { intros j Hj. destruct (others_copies _ _ Ho5 j Hj) as [-> ->]. by apply H3. }
  destruct (flip_run m5 5 Hu5 ltac:(lia)) as (m6 & E6 & Hu6 & V6 & S6). mrun E6.
  destruct (compare_run m6 Hu6) as (r' & E7 & R7). mrun E7. exists m6.
  assert (r = 0) as -> by (apply R4; intros i Hi; by destruct (H3 i Hi) as [-> ->]).
  assert (r' ≠ 0) as Hr'.
  { intros Hz. pose proof (proj1 R7 Hz). by eapply (flipped_differs m5 m6 5 3). }
  by rewrite (proj2 (Z.eqb_neq r' 0)).
Qed.
End frame.
