(* ===== verification/HeapChecks.v ===== *)
(** * The checks of Stages 8C to 10E pass on every machine

    From an empty heap each check makes a fixed sequence of calls, so the
    [model] of the heap follows them: [told] says what has been printed and
    what the heap is, and [follow] runs a check on it. *)
From S2P Require Import Prelude KernelMonad VmmLayout Paging Vmm Memory Kmemory MemoryMap FrameAllocator Pmm.
From S2P Require Import Kheap KheapSpec KheapSafety HeapModel Kmalloc Console Interrupts Kernel.
From S2P Require Import Multiboot MultibootParse SelfChecks PagingChecks SelfChecksHeap PrimitiveChecks.
#[local] Open Scope Z_scope.

Section told.
Context `{KL : KernelLayout, KLO : !KernelLayoutOk, KI : KernelImage, PO : Ports}.
Context `{IS : InterruptStubs, UR : !UartReady}.
Variable R : pmm → Prop.
Implicit Types s : kernel.

(** From [s0] to [s] the lines [ls] went out, [P] holds of what the heap works
    on, and the rest is as it was: the interrupts, the region table, and the
    translation outside the heap's window. *)
Record told s0 (P : kheap_machine pmm → Prop) (ls : list line) s : Prop := {
  told_machine : P (machine_of s);
  told_platform : over console_lens (view k_console_lens s0) (k_platform s) = k_platform s0;
  told_map : k_memory_map s = k_memory_map s0;
  told_outside va : is_u32 va → ¬ HEAP_START ≤ va < HEAP_END →
    translate (view k_paging_lens s) va = translate (view k_paging_lens s0) va;
  told_log : ∃ evs, con_log (view k_console_lens s) = evs ++ con_log (view k_console_lens s0) ∧
    transmitted evs = lines_bytes ls ∧ Forall serial_event evs;
}.

Lemma told_refl s (P : kheap_machine pmm → Prop) : P (machine_of s) → told s P [] s.
Proof. intros HP. destruct s as [[]]. split; try done. by exists []. Qed.

Lemma told_mono s0 (P P' : kheap_machine pmm → Prop) ls s :
  (∀ x, P x → P' x) → told s0 P ls s → told s0 P' ls s.
Proof. intros HP []. split; auto. Qed.

Lemma told_line l m s0 P ls s (Q : unit → kernel → Prop) :
  told s0 P ls s →
  (∃ c, m (view k_console_lens s) = Ret tt c ∧ sends (line_bytes l) (view k_console_lens s) c) →
  (∀ s', told s0 P (ls ++ [l]) s' → Q tt s') → wp (io m) Q s.
Proof.
  intros [HP Hpl Hmap Hout (e1 & E1 & T1 & F1)] (c & E & [Hm (evs & El & Et & Ef)]) HQ.
  apply wp_zoom. eapply wp_Ret; [exact E|]. apply HQ. destruct s as [[con ? ? ? ?] ? ? ?]. cbn in *. split.
  - unfold machine_of in *. cbn in *. by rewrite Hm.
  - exact Hpl.
  - exact Hmap.
  - intros va Hva Ho. cbn. rewrite Hm. by apply Hout.
  - exists (evs ++ e1). cbn. split; [by rewrite El, E1, app_assoc|]. split; [|by apply Forall_app].
    unfold transmitted, lines_bytes in *. rewrite omap_app, rev_app_distr, T1, Et, bind_app. cbn.
    by rewrite app_nil_r.
Qed.

Lemma told_text text s0 P ls s Q :
  told s0 P ls s → c_text text → Z.of_nat (String.length text) < 0x10000 →
  (∀ s', told s0 P (ls ++ [Line text]) s' → Q tt s') → wp (io (serial_write_text text)) Q s.
Proof.
  intros HP Ht Hl HQ. eapply told_line; [exact HP| |exact HQ].
  destruct (serial_write_text_sends UR text (view k_console_lens s) Ht Hl) as (c & E & H). eauto.
Qed.

Lemma told_label label v s0 P ls s Q :
  told s0 P ls s → c_text label → Z.of_nat (String.length label) < 0x10000 → is_u32 v →
  (∀ s', told s0 P (ls ++ [Label label v]) s' → Q tt s') → wp (say_hex label v) Q s.
Proof.
  intros HP Ht Hl Hv HQ. eapply told_line; [exact HP| |exact HQ].
  destruct (serial_hex_sends 8 label v (view k_console_lens s) ltac:(lia) Hv Ht Hl) as (c & E & H).
  exists c. split; [|exact H]. unfold serial_write_label_hex.
  by mrun (hex32_text_run v (view k_console_lens s) Hv).
Qed.

(** A check that succeeded, and the end of a stage. *)
Lemma told_report check ok passed s0 P ls s (Q : bool → kernel → Prop) :
  told s0 P ls s → ok = true → c_text ((check +:+ ": PASS") +:+ newline) →
  Z.of_nat (String.length ((check +:+ ": PASS") +:+ newline)) < 0x10000 →
  (∀ s', told s0 P (ls ++ [Line ((check +:+ ": PASS") +:+ newline)]) s' → Q passed s') →
  wp (report check ok passed) Q s.
Proof.
  intros HT -> Hc Hl HQ. unfold report, say. apply wp_bind.
  eapply told_text; [exact HT|exact Hc|exact Hl|].
  intros s' HT'. apply wp_ret. by apply HQ.
Qed.

Lemma told_finish stage passed reason detail s0 P ls s (Q : unit → kernel → Prop) :
  told s0 P ls s → passed = true → c_text ((stage +:+ ": PASS") +:+ newline) →
  Z.of_nat (String.length ((stage +:+ ": PASS") +:+ newline)) < 0x10000 →
  (∀ s', told s0 P (ls ++ [Line ((stage +:+ ": PASS") +:+ newline)]) s' → Q tt s') →
  wp (finish stage passed reason detail) Q s.
Proof.
  intros HT -> Hc Hl HQ. unfold finish, say.
  by eapply told_text.
Qed.

(** Calls of the heap. *)
Lemma told_heap {A} (m : M (kheap_machine pmm) A) a x (P P' : kheap_machine pmm → Prop) s0 ls s (Q : A → kernel → Prop) :
  told s0 P ls s → m (machine_of s) = Ret a x → P' x →
  (∀ va, is_u32 va → ¬ HEAP_START ≤ va < HEAP_END →
    translate (paging (mem x)) va = translate (paging (mem (machine_of s))) va) →
  (∀ s', told s0 P' ls s' → Q a s') → wp (heap_call m) Q s.
Proof.
  intros [HP Hpl Hmap Hout Hlog] E HP' Hx HQ. apply wp_zoom. eapply wp_Ret; [exact E|]. apply HQ.
  destruct s as [[[cm cp cl] ? ? ? ?] ? ? ?]. destruct x as [xm xh xa]. cbn in *. split; try done.
  intros va Hva Ho. cbn. rewrite Hx by done. by apply Hout.
Qed.

Lemma told_alloc h n p h' s0 ls s Q :
  told s0 (heap_at R h) ls s → model_alloc h n = Some (p, h') →
  (∀ s', told s0 (heap_at R h') ls s' → Q p s') → wp (heap_call (stage8c_kheap_alloc n)) Q s.
Proof.
  intros HT E HQ. destruct (model_alloc_run _ _ _ _ _ _ (told_machine _ _ _ _ HT) E) as (x & Ex & Hx & Hp).
  eapply told_heap; [exact HT|exact Ex|exact Hx|apply (pv_outside _ _ _ Hp)|exact HQ].
Qed.

Lemma told_free h p ok h' s0 ls s Q :
  told s0 (heap_at R h) ls s → is_u32 p → model_free h p = (ok, h') →
  (∀ s', told s0 (heap_at R h') ls s' → Q ok s') → wp (heap_call (stage9a_kheap_free p)) Q s.
Proof.
  intros HT Hp E HQ. destruct (model_free_run _ _ _ _ (told_machine _ _ _ _ HT) Hp) as (x & Ex & Hx & _ & Hpv).
  rewrite E in *. eapply told_heap; [exact HT|exact Ex|exact Hx|apply (pv_outside _ _ _ Hpv)|exact HQ].
Qed.

Lemma wp_ext {S A} (m m' : M S A) Q (s : S) : m s = m' s → wp m' Q s → wp m Q s.
Proof. unfold wp. by intros ->. Qed.

Lemma told_kmalloc h n p h' s0 ls s Q :
  told s0 (heap_at R h) ls s → model_alloc h n = Some (p, h') →
  (∀ s', told s0 (heap_at R h') ls s' → Q p s') → wp (heap_call (kmalloc n)) Q s.
Proof.
  intros HT E HQ. apply (wp_ext _ (heap_call (stage8c_kheap_alloc n))); [unfold zoom; by rewrite kmalloc_eq|].
  by eapply told_alloc.
Qed.

Lemma told_kfree h p ok h' s0 ls s Q :
  told s0 (heap_at R h) ls s → is_u32 p → model_free h p = (ok, h') →
  (∀ s', told s0 (heap_at R h') ls s' → Q ok s') → wp (heap_call (kfree p)) Q s.
Proof.
  intros HT Hp E HQ. apply (wp_ext _ (heap_call (stage9a_kheap_free p))); [unfold zoom; by rewrite kfree_eq|].
  by eapply told_free.
Qed.

Lemma told_zero_alloc P s0 ls s Q :
  told s0 P ls s → Q 0 s → wp (heap_call (kmalloc 0)) Q s.
Proof. intros HT HQ. apply wp_zoom. apply wp_ret. by rewrite (over_view (l := machine_lens)). Qed.

Lemma told_state h locals s0 ls s Q :
  told s0 (heap_at R h) ls s →
  Q (true, (HEAP_START, HEAP_START + span (md_blocks h), HEAP_END, md_mapped h)) s →
  wp (heap_state_into locals) Q s.
Proof.
  intros HT HQ. destruct (told_machine _ _ _ _ HT) as [Hi He _]. destruct locals as [[[a b] c] d].
  assert (stage8c_kheap_get_state (Some a) (Some b) (Some c) (Some d) (machine_of s) =
    Ret (true, (Some HEAP_START, Some (HEAP_START + span (md_blocks h)), Some HEAP_END,
      Some (md_mapped h))) (machine_of s)) as E.
  { unfold stage8c_kheap_get_state. rewrite bind_get, (hi_initialized _ _ Hi), (hi_start _ _ Hi),
      (hi_current _ _ Hi), (hi_end _ _ Hi), He. reflexivity. }
  unfold heap_state_into. apply wp_bind, wp_zoom. eapply wp_Ret; [exact E|].
  change (over machine_lens (machine_of s) s) with (over machine_lens (view machine_lens s) s).
  rewrite (over_view (l := machine_lens)). cbv beta iota. do 4 (eapply wp_bind, wp_from_option; [reflexivity|]). by apply wp_ret.
Qed.
End told.

(** [follow1 H] runs the next step of a check on closed values, [H] being what
    has been [told] so far. *)
Ltac follow1 H :=
  cbv beta iota;
  lazymatch goal with
  | |- wp (let x := ?v in @?f x) ?Q ?s =>
      let v' := eval vm_compute in v in change (wp (f v') Q s)
  | |- wp (if ?c then ?m else ?m') ?Q ?s =>
      let c' := eval vm_compute in c in change (wp (if c' then m else m') Q s)
  | |- wp (mbind _ _) _ _ => apply wp_bind
  | |- wp (mret _) _ _ => apply wp_ret
  | |- wp (continue _) _ _ => apply wp_ret
  | |- wp (break _) _ _ => apply wp_ret
  | |- wp (loop (S _) _ _) _ _ => apply wp_loop_step
  | |- wp (from_option _) _ _ => eapply wp_from_option; [vm_compute; reflexivity|]
  | |- wp (say _) _ _ => unfold say at 1; eapply told_text;
      [exact H|by vm_compute|by vm_compute|clear H; let s := fresh "s" in intros s H]
  | |- wp (say_hex _ _) _ _ => eapply told_label;
      [exact H|by vm_compute|by vm_compute|by vm_compute|clear H; let s := fresh "s" in intros s H]
  | |- wp (report _ _ _) _ _ => eapply told_report;
      [exact H|by vm_compute|by vm_compute|by vm_compute|clear H; let s := fresh "s" in intros s H]
  | |- wp (finish _ _ _ _) _ _ => eapply told_finish;
      [exact H|by vm_compute|by vm_compute|by vm_compute|clear H; let s := fresh "s" in intros s H]
  | |- wp (heap_call (stage8c_kheap_alloc _)) _ _ => eapply told_alloc;
      [exact H|vm_compute; reflexivity|clear H; let s := fresh "s" in intros s H]
  | |- wp (heap_call (stage9a_kheap_free _)) _ _ => eapply told_free;
      [exact H|by vm_compute|vm_compute; reflexivity|clear H; let s := fresh "s" in intros s H]
  | |- wp (heap_call (kmalloc 0)) _ _ => eapply told_zero_alloc; [exact H|]
  | |- wp (heap_call (kmalloc _)) _ _ => eapply told_kmalloc;
      [exact H|vm_compute; reflexivity|clear H; let s := fresh "s" in intros s H]
  | |- wp (heap_call (kfree _)) _ _ => eapply told_kfree;
      [exact H|by vm_compute|vm_compute; reflexivity|clear H; let s := fresh "s" in intros s H]
  | |- wp (heap_state_into _) _ _ => eapply told_state; [exact H|]
  | |- wp (or_else _ _) _ _ => unfold or_else at 1
  end.
Ltac follow H := repeat follow1 H.
(** The end of a check: [H] is what it has told. *)
Ltac all_good H := eexists; split; [exact H|vm_compute; reflexivity].
Ltac heap_check :=
  let HP := fresh in let H := fresh in
  intros HP; epose proof (told_refl _ _ HP) as H; follow H; all_good H.

(** The calls a check makes. *)
Inductive heap_op := Alloc (n : Z) | Free (p : Z).
Definition model_op (h : model) (op : heap_op) : model :=
  match op with
  | Alloc n => match model_alloc h n with Some (_, h) => h | None => h end
  | Free p => (model_free h p).2
  end.
Definition after (h : model) (ops : list heap_op) : model := foldl model_op h ops.

Section stages.
Context `{KL : KernelLayout, KLO : !KernelLayoutOk, KI : KernelImage, PO : Ports}.
Context `{IS : InterruptStubs, UR : !UartReady, SF : StackFrame}.
Variable R : pmm → Prop.    (* what holds of the allocator in the end *)
Implicit Types s : kernel.

(** A check has run: its verdicts are [vs], and [P] holds of the heap; [checked]:
    the [n] verdicts are all good. *)
Definition judged (vs : list bool) (P : kheap_machine pmm → Prop) s s' : Prop :=
  ∃ ls, told s P ls s' ∧ omap verdict ls = vs.
Definition checked (n : nat) : (kheap_machine pmm → Prop) → kernel → kernel → Prop :=
  judged (replicate n true).

Lemma told_trans s0 P1 P2 l1 l2 s1 s2 : told s0 P1 l1 s1 → told s1 P2 l2 s2 → told s0 P2 (l1 ++ l2) s2.
Proof.
  intros [H1 A1 B1 C1 (e1 & E1 & T1 & F1)] [H2 A2 B2 C2 (e2 & E2 & T2 & F2)]. split.
  - done.
  - rewrite <- A1, <- A2. by destruct s2 as [[]], s1 as [[]], s0 as [[]].
  - by rewrite B2.
  - intros va Hva Ho. by rewrite C2, C1.
  - exists (e2 ++ e1). split; [by rewrite E2, E1, app_assoc|]. split; [|by apply Forall_app].
    unfold transmitted, lines_bytes in *. by rewrite omap_app, rev_app_distr, T1, T2, bind_app.
Qed.

Lemma checked_then n1 n2 P1 P2 (m1 m2 : M kernel unit) s (Q : unit → kernel → Prop) :
  wp m1 (λ _ s1, checked n1 P1 s s1) s →
  (∀ s1, P1 (machine_of s1) → wp m2 (λ _ s2, checked n2 P2 s1 s2) s1) →
  wp (m1 ;; m2) (λ _ s2, checked (n1 + n2) P2 s s2) s.
Proof.
  intros H1 H2. apply wp_bind. eapply wp_mono; [|exact H1]. intros [] s1 (l1 & T1 & V1).
  eapply wp_mono; [|apply H2, (told_machine _ _ _ _ T1)]. intros [] s2 (l2 & T2 & V2).
  exists (l1 ++ l2). split; [by eapply told_trans|]. by rewrite omap_app, V1, V2, replicate_add.
Qed.

(** The heap before Stage 8C. *)
Record heap_ready (k : nat) (x : kheap_machine pmm) : Prop := {
  hr_uninitialized : heap_is_initialized (heap x) = 0;
  hr_paging : vmm_wf (paging (mem x));
  hr_allocator : allocator_wf (allocator x);
  hr_unmapped va : HEAP_START ≤ va < HEAP_END → translate (paging (mem x)) va = None;
  hr_supply : ∃ b, granted k (allocator x) b ∧ R b;
}.

Lemma told_bootstrap k s0 ls s Q :
  told s0 (heap_ready k) ls s →
  (∀ s', told s0 (heap_at R (mk_model [] HEAP_START k)) ls s' → Q true s') →
  wp (heap_call stage8c_kheap_bootstrap_init) Q s.
Proof.
  intros HT HQ. destruct (told_machine _ _ _ _ HT) as [H0 Hwf Ha Hun Hk].
  destruct (bootstrap_at R k _ H0 Hwf Ha Hun Hk) as (x & E & Hx & Em).
  eapply told_heap; [exact HT|exact E|exact Hx|by rewrite Em|exact HQ].
Qed.

Definition heap_8c : model :=
  Eval vm_compute in after (mk_model [] HEAP_START 1) [Alloc 24; Alloc 40].
Definition heap_8d : model :=
  Eval vm_compute in after (set_supply 1 heap_8c) [Alloc 0x80; Alloc 0x180; Alloc 0x300; Alloc 0x1000].
Definition heap_9a : model :=
  Eval vm_compute in after heap_8d [Alloc 32; Alloc 48; Free 0x4015B0; Alloc 64].
Definition heap_9b : model :=
  Eval vm_compute in after heap_9a [Alloc 56; Alloc 88; Free 0x401670; Alloc 56].
Definition heap_9c : model :=
  Eval vm_compute in after heap_9b [Alloc 96; Free 0x401720; Alloc 40; Alloc 40].
Definition heap_9d : model :=
  Eval vm_compute in after heap_9c [Alloc 32; Alloc 64; Alloc 96; Free 0x401790; Alloc 64;
    Free 0x4017E0; Alloc 40; Alloc 40; Free 0x401790].

Lemma stage8c_passes s :
  heap_ready 1 (machine_of s) →
  wp stage8c_run_kheap_bootstrap_self_check (λ _ s', checked 2 (heap_at R heap_8c) s s') s.
Proof.
  intros HP. pose proof (told_refl s _ HP) as H. unfold stage8c_run_kheap_bootstrap_self_check.
  do 2 follow1 H. follow1 H. eapply told_bootstrap; [exact H|]. clear H. intros s1 H. follow H. all_good H.
Qed.

Lemma stage8d_passes s :
  heap_at R (set_supply 1 heap_8c) (machine_of s) →
  wp stage8d_run_kheap_validation_self_check (λ _ s', checked 5 (heap_at R heap_8d) s s') s.
Proof.
  intros HP. pose proof (told_refl s _ HP) as H. unfold stage8d_run_kheap_validation_self_check.
  unfold stage8d_allocate. change (Z.to_nat STAGE8D_TEST_ALLOC_COUNT) with 4%nat.
  follow H. all_good H.
Qed.

Lemma stage9a_passes s :
  heap_at R heap_8d (machine_of s) →
  wp stage9a_run_kheap_free_groundwork_self_check (λ _ s', checked 6 (heap_at R heap_9a) s s') s.
Proof. unfold stage9a_run_kheap_free_groundwork_self_check. heap_check. Qed.

Lemma stage9b_passes s :
  heap_at R heap_9a (machine_of s) →
  wp stage9b_run_kheap_reuse_activation_self_check (λ _ s', checked 3 (heap_at R heap_9b) s s') s.
Proof. unfold stage9b_run_kheap_reuse_activation_self_check. heap_check. Qed.

Lemma stage9c_passes s :
  heap_at R heap_9b (machine_of s) →
  wp stage9c_run_kheap_fragmentation_reuse_self_check (λ _ s', checked 4 (heap_at R heap_9c) s s') s.
Proof. unfold stage9c_run_kheap_fragmentation_reuse_self_check. heap_check. Qed.

Lemma stage9d_passes s :
  heap_at R heap_9c (machine_of s) →
  wp stage9d_run_kheap_lifecycle_validation_self_check (λ _ s', checked 6 (heap_at R heap_9d) s s') s.
Proof. unfold stage9d_run_kheap_lifecycle_validation_self_check. heap_check. Qed.

(** ** Stage 10 *)
Context {SFO : StackFrameOk}.

Lemma wp_in_frame {A} (m : M memory A) a m' (Q : A → kernel → Prop) s :
  m frame_contents = Ret a m' → Q a s → wp (in_frame m) Q s.
Proof. intros E HQ. unfold wp, in_frame. by rewrite E. Qed.

Definition heap_10a : model :=
  Eval vm_compute in after heap_9d [Alloc 1536; Free 0x401850; Alloc 1536; Free 0x401850].
Definition heap_10b : model := Eval vm_compute in after heap_10a [Alloc 128; Free 0x401850].
Definition heap_10d : model :=
  Eval vm_compute in after (set_supply 1 heap_10b) [Alloc 32; Alloc 64; Alloc 96; Free 0x401850; Alloc 64; Alloc 4096;
    Free 0x401E60; Alloc 2048; Alloc 1800; Free 0x401850].
Definition heap_10e : model :=
  Eval vm_compute in after (set_supply 1 heap_10d) [Alloc 48; Alloc 80; Alloc 112; Free 0x401950; Alloc 80; Alloc 4096;
    Free 0x402E70; Alloc 2048; Alloc 1800; Free 0x401950; Alloc 72; Free 0x401950].

Lemma stage10a_passes s :
  heap_at R heap_9d (machine_of s) →
  wp stage10a_run_kmalloc_interface_self_check (λ _ s', checked 5 (heap_at R heap_10a) s s') s.
Proof. unfold stage10a_run_kmalloc_interface_self_check. heap_check. Qed.

Lemma stage10b_passes s :
  heap_at R heap_10a (machine_of s) →
  wp stage10b_run_kmalloc_allocation_semantics_self_check (λ _ s', checked 5 (heap_at R heap_10b) s s') s.
Proof. unfold stage10b_run_kmalloc_allocation_semantics_self_check. heap_check. Qed.

Lemma stage10c_passes P s :
  P (machine_of s) →
  wp stage10c_run_kmemory_primitives_self_check (λ _ s', checked 6 P s s') s.
Proof.
  intros HP. pose proof (told_refl s _ HP) as H. unfold stage10c_run_kmemory_primitives_self_check.
  destruct primitives_10c_run as [m E]. do 3 follow1 H.
  eapply wp_in_frame; [exact E|]. follow H. all_good H.
Qed.

Lemma stage10d_passes s :
  heap_at R (set_supply 1 heap_10b) (machine_of s) →
  wp stage10d_run_kmalloc_lifecycle_hardening_self_check (λ _ s', checked 7 (heap_at R heap_10d) s s') s.
Proof. unfold stage10d_run_kmalloc_lifecycle_hardening_self_check. heap_check. Qed.

Lemma stage10e_passes s :
  heap_at R (set_supply 1 heap_10d) (machine_of s) →
  wp stage10e_run_allocation_api_validation_suite_self_check (λ _ s', checked 5 (heap_at R heap_10e) s s') s.
Proof.
  intros HP. pose proof (told_refl s _ HP) as H.
  unfold stage10e_run_allocation_api_validation_suite_self_check, lifecycle_10e.
  destruct primitives_10e_run as [m E]. follow H.
  eapply wp_in_frame; [exact E|]. follow H. all_good H.
Qed.
End stages.
