(* ===== verification/SelfChecksObjects.v ===== *)
(** * The boot-time self-checks, Stages 11A to 11E ([init/stage0_main.c], 2643-3124)

    Kernel objects and their lists.  The list record is a local of the check
    and is passed through the calls; a node that is null is not dereferenced
    (the conditions stop before), any other node is read through its pointer.
    Traversals get the fuel of a list of the checks, which has at most four
    nodes. *)
From S2P Require Import Prelude KernelMonad VmmLayout Paging Memory FrameAllocator Pmm.
From S2P Require Import Kheap Kmalloc Console Interrupts Kernel Kobject SelfChecks.
#[local] Open Scope Z_scope.

Definition STAGE11A_FAIL_DETAIL : Z := 0x000B00A0.
Definition STAGE11B_FAIL_DETAIL : Z := 0x000B00B0.
Definition STAGE11C_FAIL_DETAIL : Z := 0x000B00C0.
Definition STAGE11D_FAIL_DETAIL : Z := 0x000B00D0.
Definition STAGE11E_FAIL_DETAIL : Z := 0x000B00E0.

Definition LIST_FUEL : nat := 8.

Section checks.
Context `{KL : KernelLayout, KI : KernelImage, PO : Ports, IS : InterruptStubs}.
#[local] Abbreviation K := (M kernel).

(** The list functions on a local list. *)
Definition append_to (list : kobject_list) (node : Z) : K (bool * kobject_list) :=
  '(ok, list) ← memory_access (kobject_list_append (Some list) node);
  list ← from_option list;
  mret (ok, list).
Definition remove_from (list : kobject_list) (id : Z) : K (bool * kobject_list) :=
  '(ok, list) ← memory_access (kobject_list_remove_by_id LIST_FUEL (Some list) id);
  list ← from_option list;
  mret (ok, list).
Definition find_in (list : kobject_list) (id : Z) : K Z :=
  memory_access (kobject_list_find_by_id LIST_FUEL (Some list) id).
Definition create (id value : Z) : K Z := heap_call (kobject_node_create id value).
Definition destroy (node : Z) : K bool := heap_call (kobject_node_destroy node).

(** [node->next == next] *)
Definition next_is (node next : Z) : K bool :=
  n ← memory_access (node_next node);
  mret (n =? next).
Definition node_value (node : Z) : M memory Z := load32 (u32 (node + 4)).

(** [if (node != 0 && kobject_node_destroy(node) == 0) cleanup_ok = 0;] *)
Definition cleanup (node : Z) (cleanup_ok : bool) : K bool :=
  bad ← and_then (mret (negb (node =? 0))) (freed ← destroy node; mret (negb freed));
  mret (cleanup_ok && negb bad).

(** A fresh local list: the storage before the initialisation is arbitrary. *)
Definition new_list : K kobject_list := from_option (kobject_list_init (Some (mk_list 0 0 0))).
Definition list_is (list : kobject_list) (head tail count : Z) : bool :=
  (list_head list =? head) && (list_tail list =? tail) && (list_count list =? count).
Definition count_of (list : kobject_list) : Z := kobject_list_count (Some list).

Definition stage11a_run_kobject_groundwork_self_check : K unit :=
  let expected_id := 0x11A00001 in
  let expected_value := 0x0000BEEF in
  say "custom-os Stage 11A kernel object groundwork begin" ;;
  node ← create expected_id expected_value;
  say_hex "custom-os Stage 11A object alloc result: " node ;;
  field_init_ok ← and_then (mret (negb (node =? 0)))
    (and_then (i ← memory_access (node_id node); mret (i =? expected_id))
      (v ← memory_access (node_value node); mret (v =? expected_value)));
  passed ← report "custom-os Stage 11A field init result" field_init_ok true;
  next_null_ok ← and_then (mret (negb (node =? 0))) (next_is node 0);
  passed ← report "custom-os Stage 11A next-null result" next_null_ok passed;
  free_ok ← destroy node;
  passed ← report "custom-os Stage 11A object free result" free_ok passed;
  finish "custom-os Stage 11A" passed "Stage 11A kobject groundwork failed" STAGE11A_FAIL_DETAIL.

Definition stage11b_run_kobject_linked_structure_self_check : K unit :=
  say "custom-os Stage 11B linked structure validation begin" ;;
  list ← new_list;
  passed ← report "custom-os Stage 11B init result" (list_is list 0 0 0) true;
  node1 ← create 0x11B00001 0x00001001;
  '(ok, list) ← append_to list node1;
  first_append_ok ← and_then (mret (ok && list_is list node1 node1 1 && negb (node1 =? 0)))
    (next_is node1 0);
  passed ← report "custom-os Stage 11B first append result" first_append_ok passed;
  node2 ← create 0x11B00002 0x00001002;
  '(ok, list) ← append_to list node2;
  second_append_ok ← and_then (mret (ok && list_is list node1 node2 2 && negb (node2 =? 0)))
    (next_is node2 0);
  passed ← report "custom-os Stage 11B second append result" second_append_ok passed;
  linkage_ok ← and_then (mret (negb (node1 =? 0) && negb (node2 =? 0))) (next_is node1 node2);
  passed ← report "custom-os Stage 11B linkage result" linkage_ok passed;
  cleanup_ok ← cleanup node2 true;
  cleanup_ok ← cleanup node1 cleanup_ok;
  passed ← report "custom-os Stage 11B cleanup result" cleanup_ok passed;
  finish "custom-os Stage 11B" passed "Stage 11B linked structure validation failed" STAGE11B_FAIL_DETAIL.

Definition stage11c_run_kobject_traversal_self_check : K unit :=
  say "custom-os Stage 11C list traversal validation begin" ;;
  list ← new_list;
  node1 ← create 0x11C00001 0x00002001;
  node2 ← create 0x11C00002 0x00002002;
  '(ok, list) ← append_to list node1;
  '(passed, list) ← (if ok : bool then append_to list node2 else mret (false, list));
  found ← find_in list 0x11C00001;
  passed ← report "custom-os Stage 11C find first result" (found =? node1) passed;
  found ← find_in list 0x11C00002;
  passed ← report "custom-os Stage 11C find second result" (found =? node2) passed;
  found ← find_in list 0x11C0FFFF;
  passed ← report "custom-os Stage 11C find missing result" (found =? 0) passed;
  passed ← report "custom-os Stage 11C count result" (count_of list =? 2) passed;
  cleanup_ok ← cleanup node2 true;
  cleanup_ok ← cleanup node1 cleanup_ok;
  passed ← report "custom-os Stage 11C cleanup result" cleanup_ok passed;
  finish "custom-os Stage 11C" passed "Stage 11C list traversal validation failed" STAGE11C_FAIL_DETAIL.

(** Appending nodes in order, [a && b && ...]. *)
Fixpoint append_all (l : kobject_list) (nodes : list Z) : K (bool * kobject_list) :=
  match nodes with
  | [] => mret (true, l)
  | node :: nodes =>
      '(ok, l) ← append_to l node;
      if ok : bool then append_all l nodes else mret (false, l)
  end.

(** [remove_by_id(&list, id) != 0 && destroy(node) != 0] *)
Definition remove_and_destroy (list : kobject_list) (id node : Z) : K (bool * kobject_list) :=
  '(ok, list) ← remove_from list id;
  if ok : bool then freed ← destroy node; mret (freed, list) else mret (false, list).

(** [find_by_id(&list, id) == node] *)
Definition finds (list : kobject_list) (id node : Z) : K bool :=
  found ← find_in list id;
  mret (found =? node).

Definition stage11d_run_kobject_removal_self_check : K unit :=
  say "custom-os Stage 11D list removal validation begin" ;;
  list ← new_list;
  node1 ← create 0x11D00001 0x00003001;
  node2 ← create 0x11D00002 0x00003002;
  node3 ← create 0x11D00003 0x00003003;
  node4 ← create 0x11D00004 0x00003004;
  '(passed, list) ← append_all list [node1; node2; node3; node4];
  '(ok, list) ← remove_and_destroy list 0x11D00001 node1;
  let remove_head_ok := ok && list_is list node2 node4 3 in
  passed ← report "custom-os Stage 11D remove head result" remove_head_ok passed;
  '(ok, list) ← remove_and_destroy list 0x11D00003 node3;
  remove_middle_ok ← and_then (mret (ok && list_is list node2 node4 2 && negb (node2 =? 0)))
    (next_is node2 node4);
  passed ← report "custom-os Stage 11D remove middle result" remove_middle_ok passed;
  '(ok, list) ← remove_and_destroy list 0x11D00004 node4;
  remove_tail_ok ← and_then (mret (ok && list_is list node2 node2 1 && negb (node2 =? 0)))
    (next_is node2 0);
  passed ← report "custom-os Stage 11D remove tail result" remove_tail_ok passed;
  integrity_ok ← and_then (finds list 0x11D00001 0) (and_then (finds list 0x11D00003 0)
    (and_then (finds list 0x11D00004 0) (and_then (finds list 0x11D00002 node2)
      (mret ((count_of list =? 1) && (list_head list =? node2) && (list_tail list =? node2))))));
  passed ← report "custom-os Stage 11D integrity result" integrity_ok passed;
  '(ok, list) ← remove_and_destroy list 0x11D00002 node2;
  let passed := passed && ok in
  empty_state_ok ← and_then
    (mret ((count_of list =? 0) && (list_head list =? 0) && (list_tail list =? 0)))
    (finds list 0x11D00002 0);
  passed ← report "custom-os Stage 11D empty-state result" empty_state_ok passed;
  finish "custom-os Stage 11D" passed "Stage 11D list removal validation failed" STAGE11D_FAIL_DETAIL.

(** [if (remove && destroy) node = 0; else passed = 0;] *)
Definition drop_node (list : kobject_list) (id node : Z) (passed : bool)
    : K (kobject_list * Z * bool) :=
  '(ok, list) ← remove_and_destroy list id node;
  mret (list, if ok : bool then 0 else node, passed && ok).

(** [if (node != 0) { if (destroy(node) == 0) passed = 0; node = 0; }] *)
Definition destroy_left_over (node : Z) (passed : bool) : K bool :=
  if node =? 0 then mret passed else
  freed ← destroy node;
  mret (passed && freed).

Definition stage11e_run_kobject_lifecycle_validation_suite_self_check : K unit :=
  say "custom-os Stage 11E object lifecycle validation suite begin" ;;
  list ← new_list;
  node1 ← create 0x11E00001 0x00004001;
  node2 ← create 0x11E00002 0x00004002;
  node3 ← create 0x11E00003 0x00004003;
  let creation_ok := negb (node1 =? 0) && negb (node2 =? 0) && negb (node3 =? 0) in
  passed ← report "custom-os Stage 11E creation result" creation_ok true;
  '(ok, list) ← (if creation_ok then append_all list [node1; node2; node3] else mret (false, list));
  append_ok ← and_then (mret (ok && list_is list node1 node3 3))
    (and_then (next_is node1 node2) (and_then (next_is node2 node3) (next_is node3 0)));
  passed ← report "custom-os Stage 11E append result" append_ok passed;
  lookup_ok ← and_then (finds list 0x11E00001 node1) (and_then (finds list 0x11E00002 node2)
    (and_then (finds list 0x11E00003 node3) (mret (count_of list =? 3))));
  passed ← report "custom-os Stage 11E lookup result" lookup_ok passed;
  '(removal_ok, list) ← remove_and_destroy list 0x11E00002 node2;
  let node2 := if removal_ok : bool then 0 else node2 in
  removal_ok ← and_then (mret removal_ok) (and_then (finds list 0x11E00002 0)
    (and_then (finds list 0x11E00001 node1) (and_then (finds list 0x11E00003 node3)
      (mret (count_of list =? 2)))));
  passed ← report "custom-os Stage 11E removal result" removal_ok passed;
  '(list, node1, passed) ← drop_node list 0x11E00001 node1 passed;
  '(list, node3, passed) ← drop_node list 0x11E00003 node3 passed;
  final_empty_ok ← and_then
    (mret ((count_of list =? 0) && (list_head list =? 0) && (list_tail list =? 0)))
    (and_then (finds list 0x11E00001 0) (and_then (finds list 0x11E00002 0) (finds list 0x11E00003 0)));
  passed ← report "custom-os Stage 11E final empty-state result" final_empty_ok passed;
  let cross_stage_continuity_ok := creation_ok && append_ok && lookup_ok && removal_ok && final_empty_ok in
  passed ← report "custom-os Stage 11E cross-stage continuity result" cross_stage_continuity_ok passed;
  passed ← destroy_left_over node1 passed;
  passed ← destroy_left_over node2 passed;
  passed ← destroy_left_over node3 passed;
  finish "custom-os Stage 11E" passed "Stage 11E object lifecycle validation suite failed" STAGE11E_FAIL_DETAIL.
End checks.
