(* ===== verification/ObjectChecks.v ===== *)
(** * The checks of Stages 11A to 11E pass on every machine

    The nodes a check creates are at addresses the [model] of the heap gives.
    [objects] says which of them are in the list and which are loose; what the
    list functions answer then follows from the Rocq list. *)
From S2P Require Import Prelude KernelMonad VmmLayout Paging Vmm Memory Kmemory MemoryMap FrameAllocator Pmm.
From S2P Require Import Kheap KheapSpec KheapSafety HeapModel Kmalloc Console Interrupts Kernel Kobject KobjectHeap.
From S2P Require Import Multiboot MultibootParse SelfChecks PagingChecks SelfChecksHeap SelfChecksObjects.
From S2P Require Import PrimitiveChecks HeapChecks.
#[local] Open Scope Z_scope.

(** The list record of these nodes, and the link of the node at an address. *)
Definition list_of (ns : list node) : kobject_list :=
  mk_list (head_addr ns 0) (last_addr ns) (Z.of_nat (length ns)).
Fixpoint next_in (ns : list node) (a : Z) : option Z :=
  match ns with
  | [] => None
  | nd :: ns => if n_addr nd =? a then Some (head_addr ns 0) else next_in ns a
  end.

Section objects.
Context `{KL : KernelLayout, KLO : !KernelLayoutOk, KI : KernelImage}.
Context {F : Type} `{FA : FrameAllocator F, FAO : !FrameAllocatorOk F}.
Variable R : F → Prop.
Implicit Types x : kheap_machine F.

Record objects (h : model) (ns loose : list node) x : Prop := {
  ob_heap : heap_at R h x;
  ob_list : list_repr (mem x) (list_of ns) ns;
  ob_loose : Forall (λ nd, node_at (mem x) nd 0) loose;
  ob_owned : owned (md_blocks h) (ns ++ loose);
}.

Lemma list_repr_of m l ns : list_repr m l ns → l = list_of ns.
Proof. intros [Hh Ht Hc _]. destruct l. cbn in *. by subst. Qed.

Lemma objects_none h x : heap_at R h x → objects h [] [] x.
Proof. intros Hh. split; [done|by split|done|]. split; [by intros nd ?%not_elem_of_nil|apply NoDup_nil_2]. Qed.

Lemma objects_placed h ns loose x : objects h ns loose x → placed (mapped_heap x) (ns ++ loose).
Proof. intros []. eapply owned_placed; [by apply (ha_inv R)|done]. Qed.

(** [kobject_node_create]. *)
Lemma create_run h ns loose x id value p h' :
  objects h ns loose x → model_alloc h 12 = Some (p, h') → p ≠ 0 → is_u32 id → is_u32 value →
  ∃ x', kobject_node_create id value x = Ret p x' ∧
    objects h' ns (loose ++ [mk_node p id value]) x' ∧ preserves (md_blocks h) x x'.
Proof.
  intros [Hh Hl Hlo Hown] E Hp Hid Hv.
  destruct (proj1 (wp_run _ _ _) (node_create_spec _ x id value (ha_inv _ _ _ Hh) Hid Hv))
    as (q & x' & Er & bs' & Hi' & Hpres & Hs & Hcase).
  destruct (supplied_at _ _ _ _ _ _ _ _ _ Hh E Hi' Hs) as (-> & Hh' & ->).
  exists x'. split; [done|]. split; [|done]. destruct Hcase as [[? _]|(Hsub & Hno & Hpay & Hat)]; [done|].
  assert (∀ nd a, nd ∈ ns ++ loose → n_addr nd ≤ a < n_addr nd + 12 →
    vbyte (mem x') a = vbyte (mem x) a) as Hkeep.
  { intros nd a Hnd Ha. destruct (owned_payload _ _ Hown nd Hnd) as (sz & Hsz & Hin).
    eapply (pv_payloads _ _ _ Hpres); [exact Hin|lia]. }
  split; [done| | |].
  - eapply list_repr_frame; [exact Hl|]. intros nd a Hnd. apply Hkeep, elem_of_app. by left.
  - apply Forall_app. split; [|by apply Forall_singleton]. rewrite Forall_forall in Hlo.
    apply Forall_forall. intros nd Hnd. eapply node_at_frame; [by apply Hlo|].
    intros a. apply Hkeep, elem_of_app. by right.
  - rewrite app_assoc. destruct Hown as [Hin Hnd]. split.
    + intros nd [Hx|Hx]%elem_of_app; [|apply list_elem_of_singleton in Hx as ->; done].
      destruct (Hin nd Hx) as (sz & ? & ?). exists sz. auto.
    + rewrite fmap_app. apply NoDup_app. split_and!; [done| |apply NoDup_singleton].
      intros a (nd & -> & Hx)%list_elem_of_fmap Ha%list_elem_of_singleton. cbn in Ha.
      destruct (Hin nd Hx) as (sz & _ & Hin'). rewrite Ha in Hin'. by apply Hno in Hin'.
Qed.

(** Updates of link fields of the list. *)
Lemma objects_relinked h ns0 loose0 ns loose x m :
  objects h ns0 loose0 x → relinked (mapped_heap x) ns0 (mem x) m →
  list_repr m (list_of ns) ns → Forall (λ nd, node_at m nd 0) loose → ns ++ loose ≡ₚ ns0 ++ loose0 →
  objects h ns loose (set_mem m x).
Proof.
  intros [Hh Hl Hlo Hown] Hre Hl' Hlo' HP. split; [|done|done|].
  - apply heap_at_set_mem; [done|]. eapply heap_inv_relinked; [by apply (ha_inv R)| |exact Hre].
    eapply owned_subset; [exact Hown|]. by apply sublist_inserts_r.
  - destruct Hown as [Hin Hnd]. split; [intros nd; rewrite HP; apply Hin|by rewrite HP].
Qed.

Lemma append_run h ns nd loose x :
  objects h ns (nd :: loose) x →
  ∃ m, kobject_list_append (Some (list_of ns)) (n_addr nd) (mem x) =
      Ret (true, Some (list_of (ns ++ [nd]))) m ∧
    objects h (ns ++ [nd]) loose (set_mem m x) ∧ same_paging (mem x) m.
Proof.
  intros Ho. pose proof Ho as [Hh Hl Hlo Hown]. pose proof (objects_placed _ _ _ _ Ho) as Hp.
  rewrite cons_middle, app_assoc in Hp. pose proof Hp as Hp'. apply placed_app in Hp as (Hp & _ & _).
  apply Forall_cons in Hlo as [Hat Hlo].
  destruct (list_append_spec (mem x) (mapped_heap x) (list_of ns) ns nd (hi_usable _ _ (ha_inv _ _ _ Hh)) Hp Hl Hat)
    as (m & l' & E & Hl' & Hre).
  { eapply owned_length; [by apply (ha_inv R)|]. eapply owned_subset; [exact Hown|]. by apply sublist_inserts_r. }
  pose proof (list_repr_of _ _ _ Hl') as ->. exists m. split; [done|]. split; [|apply Hre].
  eapply objects_relinked; [exact Ho|exact Hre|done| |by rewrite <- app_assoc].
  rewrite Forall_forall in Hlo. apply Forall_forall. intros y Hy.
  eapply (relinked_loose _ ns (nd :: loose)); [by apply objects_placed in Ho|exact Hre|by right|by apply Hlo].
Qed.

Lemma find_run h ns loose x id fuel :
  objects h ns loose x → (length ns < fuel)%nat →
  kobject_list_find_by_id fuel (Some (list_of ns)) id (mem x) =
    Ret (match find_node ns id with Some nd => n_addr nd | None => 0 end) (mem x).
Proof.
  intros Ho Hf. pose proof (objects_placed _ _ _ _ Ho) as Hp. apply placed_app in Hp as (Hp & _ & _).
  apply (list_find_spec _ (mapped_heap x)); [|done|apply Ho|done].
  apply (hi_usable _ _ (ha_inv _ _ _ (ob_heap _ _ _ _ Ho))).
Qed.

Lemma remove_run h ns loose x id fuel nd ns' :
  objects h ns loose x → (length ns < fuel)%nat → remove_node ns id = Some (nd, ns') →
  ∃ m, kobject_list_remove_by_id fuel (Some (list_of ns)) id (mem x) = Ret (true, Some (list_of ns')) m ∧
    objects h ns' (nd :: loose) (set_mem m x) ∧ same_paging (mem x) m.
Proof.
  intros Ho Hf Er. pose proof Ho as [Hh Hl Hlo Hown]. pose proof (objects_placed _ _ _ _ Ho) as Hpa.
  pose proof Hpa as Hp. apply placed_app in Hp as (Hp & _ & _).
  assert (owned (md_blocks h) ns) as Hown' by (eapply owned_subset; [exact Hown|by apply sublist_inserts_r]).
  pose proof (owned_length _ _ _ (ha_inv _ _ _ Hh) Hown') as Hlen.
  pose proof (list_remove_spec (mem x) (mapped_heap x) (list_of ns) ns id fuel
    (hi_usable _ _ (ha_inv _ _ _ Hh)) Hp Hl Hf ltac:(lia)) as Hrem.
  rewrite Er in Hrem. destruct Hrem as (m & l' & E & Hl' & Hat & Hre).
  pose proof (list_repr_of _ _ _ Hl') as ->. exists m. split; [done|]. split; [|apply Hre].
  eapply objects_relinked; [exact Ho|exact Hre|done| |].
  - constructor; [done|]. rewrite Forall_forall in Hlo. apply Forall_forall. intros y Hy.
    eapply (relinked_loose _ ns loose); [done|exact Hre|done|by apply Hlo].
  - pose proof (find_remove ns id) as Hfr. destruct (find_node ns id); [|by rewrite Hfr in Er].
    destruct Hfr as (ns1 & ns2 & -> & Er'). rewrite Er in Er'. injection Er' as -> ->.
    rewrite <- !app_assoc. apply Permutation_app_head. symmetry. apply Permutation_middle.
Qed.

(** [kobject_node_destroy] of a loose node, and of any live pointer. *)
Lemma destroy_eq p x : p ≠ 0 → kobject_node_destroy p x = stage9a_kheap_free p x.
Proof. intros Hp. unfold kobject_node_destroy. by rewrite (proj2 (Z.eqb_neq p 0)), kfree_eq. Qed.

Lemma destroy_run h ns nd loose x h' :
  objects h ns (nd :: loose) x → model_free h (n_addr nd) = (true, h') →
  ∃ x', kobject_node_destroy (n_addr nd) x = Ret true x' ∧ objects h' ns loose x' ∧
    preserves (md_blocks h) x x'.
Proof.
  intros Ho E. pose proof Ho as [Hh Hl Hlo Hown]. apply Forall_cons in Hlo as [_ Hlo].
  assert (nd ∈ ns ++ nd :: loose) as Hnd by (apply elem_of_app; right; by left).
  destruct (placed_in _ _ _ (objects_placed _ _ _ _ Ho) Hnd) as (H0 & Hmax & _).
  destruct (model_free_run R h x (n_addr nd) Hh ltac:(lia)) as (x' & Er & Hh' & _ & Hpres).
  pose proof (spec_free_payloads HEAP_START _ (n_addr nd) (hi_blocks _ _ (ha_inv _ _ _ Hh))) as Hpay.
  rewrite E in *. cbn [fst snd] in *. unfold model_free in E.
  destruct (spec_free HEAP_START (md_blocks h) (n_addr nd)) as [bs'|]; [|done]. injection E as <-.
  destruct Hpay as [_ Hiff]. exists x'. rewrite destroy_eq by lia. split; [done|]. split; [|done].
  assert (∀ y, y ∈ ns ++ loose → y ∈ ns ++ nd :: loose) as Hsub
    by (intros y; rewrite !elem_of_app, elem_of_cons; tauto).
  assert (∀ y a, y ∈ ns ++ loose → n_addr y ≤ a < n_addr y + 12 →
    vbyte (mem x') a = vbyte (mem x) a) as Hkeep.
  { intros y a Hy Ha. destruct (owned_payload _ _ Hown y (Hsub y Hy)) as (sz & Hsz & Hin).
    eapply (pv_payloads _ _ _ Hpres); [exact Hin|lia]. }
  pose proof (owned_nodup _ _ Hown) as Hnodup. rewrite fmap_app, fmap_cons in Hnodup.
  apply NoDup_app in Hnodup as (N1 & N2 & N3). apply NoDup_cons in N3 as [N3 N4].
  split; [done| | |].
  - eapply list_repr_frame; [exact Hl|]. intros y a Hy. apply Hkeep, elem_of_app. by left.
  - rewrite Forall_forall in Hlo. apply Forall_forall. intros y Hy. eapply node_at_frame; [by apply Hlo|].
    intros a. apply Hkeep, elem_of_app. by right.
  - split.
    + intros y Hy. destruct (owned_payload _ _ Hown y (Hsub y Hy)) as (sz & Hsz & Hin).
      exists sz. split; [done|]. apply Hiff. split; [done|]. cbn. intros Heq.
      apply elem_of_app in Hy as [Hy|Hy]; apply (list_elem_of_fmap_2 n_addr) in Hy; rewrite Heq in Hy.
      * by apply (N2 _ Hy), elem_of_cons; left.
      * by apply N3.
    + rewrite fmap_app. apply NoDup_app. split_and!; [done| |done].
      intros a Ha Ha'. by apply (N2 a Ha), elem_of_cons; right.
Qed.

(** Reading a node. *)
Lemma next_run h ns loose x a v :
  objects h ns loose x → next_in ns a = Some v → node_next a (mem x) = Ret v (mem x).
Proof.
  intros Ho E. pose proof (objects_placed _ _ _ _ Ho) as Hp. apply placed_app in Hp as (Hp & _ & _).
  pose proof (repr_links _ _ _ (ob_list _ _ _ _ Ho)) as Hl.
  pose proof (hi_usable _ _ (ha_inv _ _ _ (ob_heap _ _ _ _ Ho))) as Hu.
  assert (∃ nd, nd ∈ ns ∧ n_addr nd = a ∧ node_at (mem x) nd v) as (nd & Hnd & <- & Hat).
  { clear Ho Hp Hu. induction ns as [|y ns IH]; [done|]. cbn in *. destruct Hl as [Hy Hl].
    destruct (Z.eqb_spec (n_addr y) a).
    - injection E as <-. exists y. split; [by left|done].
    - destruct (IH E Hl) as (nd & Hnd & Ea & Hat). exists nd. split; [by right|done]. }
  eapply node_next_ok; [exact Hu|by eapply placed_in|exact Hat].
Qed.

Lemma loose_run h ns nd loose x :
  objects h ns (nd :: loose) x →
  node_id (n_addr nd) (mem x) = Ret (n_id nd) (mem x) ∧
  node_value (n_addr nd) (mem x) = Ret (n_value nd) (mem x) ∧
  node_next (n_addr nd) (mem x) = Ret 0 (mem x).
Proof.
  intros Ho. pose proof (ob_loose _ _ _ _ Ho) as Hlo. apply Forall_cons in Hlo as [Hat _].
  assert (nd ∈ ns ++ nd :: loose) as Hnd by (apply elem_of_app; right; by left).
  pose proof (placed_in _ _ _ (objects_placed _ _ _ _ Ho) Hnd) as Hok.
  pose proof (hi_usable _ _ (ha_inv _ _ _ (ob_heap _ _ _ _ Ho))) as Hu. split_and!.
  - by eapply node_id_ok.
  - destruct Hok as (H0 & H1 & HD). destruct Hat as [_ Hv _]. unfold node_value. rewrite u32_id by lia.
    rewrite (load32_ok (mem x) (mapped_heap x)); [by rewrite Hv|done|lia|lia|]. intros a Ha. apply HD. lia.
  - by eapply node_next_ok.
Qed.
End objects.

(** ** In the kernel *)
Section told.
Context `{KL : KernelLayout, KLO : !KernelLayoutOk, KI : KernelImage, PO : Ports}.
Context `{IS : InterruptStubs, UR : !UartReady}.
Variable R : pmm → Prop.
Implicit Types s : kernel.

Lemma told_create h ns loose id value p h' s0 ls s Q :
  told s0 (objects R h ns loose) ls s → model_alloc h 12 = Some (p, h') → p ≠ 0 → is_u32 id → is_u32 value →
  (∀ s', told s0 (objects R h' ns (loose ++ [mk_node p id value])) ls s' → Q p s') →
  wp (create id value) Q s.
Proof.
  intros HT E Hp Hid Hv HQ. destruct (create_run _ _ _ _ _ id value _ _ (told_machine _ _ _ _ HT) E Hp Hid Hv)
    as (x & Ex & Hx & Hpv).
  eapply told_heap; [exact HT|exact Ex|exact Hx|apply (pv_outside _ _ _ Hpv)|exact HQ].
Qed.

Lemma told_destroy h ns nd loose p h' s0 ls s Q :
  told s0 (objects R h ns (nd :: loose)) ls s → p = n_addr nd → model_free h p = (true, h') →
  (∀ s', told s0 (objects R h' ns loose) ls s' → Q true s') → wp (destroy p) Q s.
Proof.
  intros HT -> E HQ. destruct (destroy_run _ _ _ _ _ _ _ (told_machine _ _ _ _ HT) E) as (x & Ex & Hx & Hpv).
  eapply told_heap; [exact HT|exact Ex|exact Hx|apply (pv_outside _ _ _ Hpv)|exact HQ].
Qed.

(** Destroying a node that is still in a list: only the heap is known then. *)
Lemma told_destroy_any h p ok h' s0 ls s Q :
  told s0 (heap_at R h) ls s → p ≠ 0 → is_u32 p → model_free h p = (ok, h') →
  (∀ s', told s0 (heap_at R h') ls s' → Q ok s') → wp (destroy p) Q s.
Proof.
  intros HT H0 Hp E HQ. apply (wp_ext _ (heap_call (stage9a_kheap_free p))).
  { unfold destroy, zoom. by rewrite destroy_eq. }
  by eapply told_free.
Qed.

(** Memory accesses. *)
Lemma told_access {A} (m : M memory A) a m' (P P' : kheap_machine pmm → Prop) s0 ls s (Q : A → kernel → Prop) :
  told s0 P ls s → m (mem (machine_of s)) = Ret a m' → same_paging (mem (machine_of s)) m' →
  P' (set_mem m' (machine_of s)) → (∀ s', told s0 P' ls s' → Q a s') → wp (memory_access m) Q s.
Proof.
  intros [HP Hpl Hmap Hout Hlog] E Hsame HP' HQ. apply wp_zoom. eapply wp_Ret; [exact E|]. apply HQ.
  unfold same_paging in Hsame. destruct s as [[[cm cp cl] ? ? ? ?] ? ? ?]. cbn in *. split; try done.
  intros va Hva Ho. cbn. rewrite Hsame. by apply Hout.
Qed.

Lemma told_read {A} (m : M memory A) a P s0 ls s (Q : A → kernel → Prop) :
  told s0 P ls s → m (mem (machine_of s)) = Ret a (mem (machine_of s)) → Q a s →
  wp (memory_access m) Q s.
Proof.
  intros HT E HQ. apply wp_zoom. eapply wp_Ret; [exact E|].
  change (mem (machine_of s)) with (view k_memory_lens s). by rewrite over_view.
Qed.

Lemma told_append h ns nd loose l p l' s0 ls s Q :
  told s0 (objects R h ns (nd :: loose)) ls s → l = list_of ns → p = n_addr nd →
  list_of (ns ++ [nd]) = l' →
  (∀ s', told s0 (objects R h (ns ++ [nd]) loose) ls s' → Q (true, l') s') → wp (append_to l p) Q s.
Proof.
  intros HT -> -> <- HQ. unfold append_to. apply wp_bind.
  destruct (append_run _ _ _ _ _ _ (told_machine _ _ _ _ HT)) as (m & E & Ho & Hp).
  eapply told_access; [exact HT|exact E|exact Hp|exact Ho|]. intros s' HT'.
  eapply wp_bind, wp_from_option; [reflexivity|]. apply wp_ret. by apply HQ.
Qed.

Lemma told_find h ns loose l id p s0 ls s (Q : Z → kernel → Prop) :
  told s0 (objects R h ns loose) ls s → l = list_of ns → (length ns < LIST_FUEL)%nat →
  (match find_node ns id with Some nd => n_addr nd | None => 0 end) = p → Q p s →
  wp (find_in l id) Q s.
Proof.
  intros HT -> Hf <- HQ. eapply told_read; [exact HT| |exact HQ].
  by apply (find_run _ _ _ _ _ _ _ (told_machine _ _ _ _ HT)).
Qed.

Lemma told_remove h ns loose l id nd ns' l' s0 ls s Q :
  told s0 (objects R h ns loose) ls s → l = list_of ns → (length ns < LIST_FUEL)%nat →
  remove_node ns id = Some (nd, ns') → list_of ns' = l' →
  (∀ s', told s0 (objects R h ns' (nd :: loose)) ls s' → Q (true, l') s') → wp (remove_from l id) Q s.
Proof.
  intros HT -> Hf Er <- HQ. unfold remove_from. apply wp_bind.
  destruct (remove_run _ _ _ _ _ _ _ _ _ (told_machine _ _ _ _ HT) Hf Er) as (m & E & Ho & Hp).
  eapply told_access; [exact HT|exact E|exact Hp|exact Ho|]. intros s' HT'.
  eapply wp_bind, wp_from_option; [reflexivity|]. apply wp_ret. by apply HQ.
Qed.

Lemma told_next h ns loose a v next s0 ls s (Q : bool → kernel → Prop) :
  told s0 (objects R h ns loose) ls s → next_in ns a = Some v → Q (v =? next) s →
  wp (next_is a next) Q s.
Proof.
  intros HT E HQ. unfold next_is. apply wp_bind.
  eapply told_read; [exact HT|by apply (next_run _ _ _ _ _ _ _ (told_machine _ _ _ _ HT) E)|]. by apply wp_ret.
Qed.
End told.

(** [follow_objects H] is [follow H] with the operations on objects. *)
Ltac object1 H :=
  cbv beta iota;
  lazymatch goal with
  | |- wp new_list _ _ => eapply wp_from_option; [reflexivity|]
  | |- wp (create _ _) _ _ => eapply told_create;
      [exact H|vm_compute; reflexivity|done|by vm_compute|by vm_compute|
       clear H; let s := fresh "s" in intros s H; cbn [app] in H]
  | |- wp (append_to _ _) _ _ => eapply told_append;
      [exact H|reflexivity|reflexivity|vm_compute; reflexivity|
       clear H; let s := fresh "s" in intros s H; cbn [app] in H]
  | |- wp (find_in _ _) _ _ => eapply told_find;
      [exact H|reflexivity|by vm_compute; lia|vm_compute; reflexivity|]
  | |- wp (remove_from _ _) _ _ => eapply told_remove;
      [exact H|reflexivity|by vm_compute; lia|vm_compute; reflexivity|vm_compute; reflexivity|
       clear H; let s := fresh "s" in intros s H]
  | |- wp (next_is _ _) _ _ => eapply told_next; [exact H|vm_compute; reflexivity|]
  | |- wp (destroy _) _ _ =>
      lazymatch type of H with
      | told _ (heap_at _ _) _ _ => eapply told_destroy_any;
          [exact H|done|by vm_compute|vm_compute; reflexivity|clear H; let s := fresh "s" in intros s H]
      | told _ (objects _ _ _ (_ :: _)) _ _ => eapply told_destroy;
          [exact H|reflexivity|vm_compute; reflexivity|clear H; let s := fresh "s" in intros s H]
      end
  | |- wp (and_then _ _) _ _ => unfold and_then at 1
  | |- wp (finds _ _ _) _ _ => unfold finds at 1
  | |- wp (remove_and_destroy _ _ _) _ _ => unfold remove_and_destroy at 1
  | |- wp (drop_node _ _ _ _) _ _ => unfold drop_node at 1
  | |- wp (destroy_left_over _ _) _ _ => unfold destroy_left_over at 1
  | |- wp (cleanup _ _) _ _ => unfold cleanup at 1
  | |- wp (append_all _ _) _ _ => cbn [append_all]
  | _ => follow1 H
  end.
Ltac follow_objects H := repeat object1 H.
(** Reading the node that is loose. *)
Ltac read_loose H :=
  eapply told_read; [exact H|apply (loose_run _ _ _ _ _ _ (told_machine _ _ _ _ H))|].

Section stages.
Context `{KL : KernelLayout, KLO : !KernelLayoutOk, KI : KernelImage, PO : Ports}.
Context `{IS : InterruptStubs, UR : !UartReady}.
Variable R : pmm → Prop.
Implicit Types s : kernel.

Definition heap_11a : model := Eval vm_compute in after heap_10e [Alloc 12; Free 0x4017C0].
Definition heap_11b : model :=
  Eval vm_compute in after heap_11a [Alloc 12; Alloc 12; Free 0x4018A0; Free 0x4017C0].
Definition heap_11d : model :=
  Eval vm_compute in after heap_11b [Alloc 12; Alloc 12; Alloc 12; Alloc 12; Free 0x4017C0;
    Free 0x4018C0; Free 0x401950; Free 0x4018A0].
Definition heap_11e : model :=
  Eval vm_compute in after heap_11d [Alloc 12; Alloc 12; Alloc 12; Free 0x4018A0; Free 0x4017C0;
    Free 0x4018C0].

Lemma told_objects h s : heap_at R h (machine_of s) → told s (objects R h [] []) [] s.
Proof. intros Hh. apply told_refl. by apply objects_none. Qed.

(** The list is not used any more. *)
Lemma told_forget h ns loose s0 ls s : told s0 (objects R h ns loose) ls s → told s0 (heap_at R h) ls s.
Proof. apply told_mono. by intros x []. Qed.

Lemma stage11a_passes s :
  heap_at R heap_10e (machine_of s) →
  wp stage11a_run_kobject_groundwork_self_check (λ _ s', checked 4 (heap_at R heap_11a) s s') s.
Proof.
  intros HP. pose proof (told_objects _ _ HP) as H. unfold stage11a_run_kobject_groundwork_self_check.
  follow_objects H. read_loose H. follow_objects H. read_loose H. follow_objects H.
  unfold next_is. follow_objects H. read_loose H. follow_objects H.
  apply told_forget in H. all_good H.
Qed.

Lemma stage11b_passes s :
  heap_at R heap_11a (machine_of s) →
  wp stage11b_run_kobject_linked_structure_self_check (λ _ s', checked 6 (heap_at R heap_11b) s s') s.
Proof.
  intros HP. pose proof (told_objects _ _ HP) as H. unfold stage11b_run_kobject_linked_structure_self_check.
  follow_objects H. apply told_forget in H. follow_objects H. all_good H.
Qed.

Lemma stage11c_passes s :
  heap_at R heap_11b (machine_of s) →
  wp stage11c_run_kobject_traversal_self_check (λ _ s', checked 6 (heap_at R heap_11b) s s') s.
Proof.
  intros HP. pose proof (told_objects _ _ HP) as H. unfold stage11c_run_kobject_traversal_self_check.
  follow_objects H. apply told_forget in H. follow_objects H. all_good H.
Qed.

Lemma stage11d_passes s :
  heap_at R heap_11b (machine_of s) →
  wp stage11d_run_kobject_removal_self_check (λ _ s', checked 6 (heap_at R heap_11d) s s') s.
Proof.
  intros HP. pose proof (told_objects _ _ HP) as H. unfold stage11d_run_kobject_removal_self_check.
  follow_objects H. apply told_forget in H. all_good H.
Qed.

Lemma stage11e_passes s :
  heap_at R heap_11d (machine_of s) →
  wp stage11e_run_kobject_lifecycle_validation_suite_self_check
    (λ _ s', checked 7 (heap_at R heap_11e) s s') s.
Proof.
  intros HP. pose proof (told_objects _ _ HP) as H.
  unfold stage11e_run_kobject_lifecycle_validation_suite_self_check.
  follow_objects H. apply told_forget in H. all_good H.
Qed.
End stages.
