(* ===== verification/HeapShortage.v ===== *)
(** * The checks when page frames run out

    The heap draws a page in Stages 8C, 8D, 10D and 10E.  When the allocator has
    no frame for it, the check that needs it fails: it says so and the kernel
    stops with the stage's reason on the screen. *)
From S2P Require Import Prelude KernelMonad VmmLayout Paging Vmm Memory Kmemory MemoryMap FrameAllocator Pmm.
From S2P Require Import Kheap KheapSpec KheapSafety HeapModel Kmalloc Console Interrupts Kernel.
From S2P Require Import Multiboot MultibootParse SelfChecks PagingChecks SelfChecksHeap PrimitiveChecks HeapChecks.
#[local] Open Scope Z_scope.

Section shortage.
Context `{KL : KernelLayout, KLO : !KernelLayoutOk, KI : KernelImage, PO : Ports}.
Context `{IS : InterruptStubs, UR : !UartReady}.
Variable R : pmm → Prop.
Context (Hdry : runs_dry R).
Implicit Types s : kernel.

Lemma told_refused h n h' s0 ls s (Q : Z → kernel → Prop) :
  told s0 (heap_at R h) ls s → model_refused h n = Some h' →
  (∀ s', told s0 (heap_at R h') ls s' → Q 0 s') → wp (heap_call (stage8c_kheap_alloc n)) Q s.
Proof.
  intros HT E HQ. destruct (model_refused_run _ _ _ _ _ Hdry (told_machine _ _ _ _ HT) E) as (x & Ex & Hx & Hp).
  eapply told_heap; [exact HT|exact Ex|exact Hx|apply (pv_outside _ _ _ Hp)|exact HQ].
Qed.

Lemma told_kmalloc_refused h n h' s0 ls s (Q : Z → kernel → Prop) :
  told s0 (heap_at R h) ls s → model_refused h n = Some h' →
  (∀ s', told s0 (heap_at R h') ls s' → Q 0 s') → wp (heap_call (kmalloc n)) Q s.
Proof.
  intros HT E HQ. apply (wp_ext _ (heap_call (stage8c_kheap_alloc n))); [unfold zoom; by rewrite kmalloc_eq|].
  by eapply told_refused.
Qed.

Lemma told_fail check ok passed s0 P ls s (Q : bool → kernel → Prop) :
  told s0 P ls s → ok = false → c_text ((check +:+ ": FAIL") +:+ newline) →
  Z.of_nat (String.length ((check +:+ ": FAIL") +:+ newline)) < 0x10000 →
  (∀ s', told s0 P (ls ++ [Line ((check +:+ ": FAIL") +:+ newline)]) s' → Q false s') →
  wp (report check ok passed) Q s.
Proof.
  intros HT -> Hc Hl HQ. unfold report, say. apply wp_bind.
  eapply told_text; [exact HT|exact Hc|exact Hl|].
  intros s' HT'. apply wp_ret. by apply HQ.
Qed.

(** The first 4 MiB are mapped to themselves, and the first has no kernel in it. *)
Definition identity_mapped s : Prop :=
  (∀ va, 0 ≤ va < 0x400000 → translate (view k_paging_lens s) va = Some va) ∧
  ∀ a, 0 ≤ a < 0x100000 → in_kernel_image a = false.

Lemma identity_screen s : identity_mapped s → usable (view k_memory_lens s) screen.
Proof.
  intros [Ht Hi].
  assert (∀ va, screen va → phys (view k_memory_lens s) va = Some va) as Hphys.
  { intros va Hva. unfold screen, within, VGA_TEXT_BUFFER in Hva. unfold phys.
    change (paging (view k_memory_lens s)) with (view k_paging_lens s). rewrite Ht by lia. cbn. by rewrite Hi by lia. }
  split; [intros va Hva; rewrite Hphys by done; eauto|]. intros a b Ha Hb. rewrite !Hphys by done. congruence.
Qed.

(** A panic with this reason, shown on the screen. *)
Definition stops {A} (m : M kernel A) (reason : string) (detail : Z) s : Prop :=
  ends m (λ _ _, False) (λ r d s', r = reason ∧ d = detail ∧ stopped reason detail s') s.

Lemma told_stop stage reason detail s0 P ls s :
  identity_mapped s0 → told s0 P ls s → c_text ((stage +:+ ": FAIL") +:+ newline) →
  Z.of_nat (String.length ((stage +:+ ": FAIL") +:+ newline)) < 0x10000 →
  c_text reason → Z.of_nat (String.length reason) < 0x10000 → is_u32 detail →
  stops (finish stage false reason detail) reason detail s.
Proof.
  intros [Hid Himg] HT Hc Hl Hr Hrl Hd. unfold stops, finish, say. apply ends_bind_wp.
  eapply told_text; [exact HT|exact Hc|exact Hl|]. clear HT. intros s' HT.
  assert (usable (view k_memory_lens s') screen) as Hu.
  { apply identity_screen. split; [|exact Himg]. intros va Hva.
    rewrite (told_outside _ _ _ _ HT) by (unfold HEAP_START; lia). by apply Hid. }
  eapply panic_ends; [apply reports_refl|done|exact Hu|done|done|done|done|]. done.
Qed.
End shortage.

(** [stop1 H] runs the next step of a check that will fail. *)
Ltac stop1 H :=
  cbv beta iota;
  lazymatch goal with
  | |- ends (let x := ?v in @?f x) ?Q ?P ?s =>
      let v' := eval vm_compute in v in change (ends (f v') Q P s)
  | |- ends (mbind _ _) _ _ _ => apply ends_bind_wp
  | |- wp (report _ _ _) _ _ => first [follow1 H | eapply told_fail;
      [exact H|by vm_compute|by vm_compute|by vm_compute|clear H; let s := fresh "s" in intros s H]]
  | |- wp (heap_call (stage8c_kheap_alloc _)) _ _ => first [follow1 H | eapply told_refused;
      [eassumption|exact H|vm_compute; reflexivity|clear H; let s := fresh "s" in intros s H]]
  | |- wp (heap_call (kmalloc _)) _ _ => first [follow1 H | eapply told_kmalloc_refused;
      [eassumption|exact H|vm_compute; reflexivity|clear H; let s := fresh "s" in intros s H]]
  | |- wp _ _ _ => follow1 H
  end.
Ltac stop H := repeat stop1 H.
(** The stage's end: [Hid] is the identity map at its start. *)
Ltac all_stop Hid H :=
  cbv beta iota;
  lazymatch goal with |- ends (finish ?stage ?p ?r ?d) ?Q ?P ?s =>
    let p' := eval vm_compute in p in change (ends (finish stage p' r d) Q P s) end;
  eapply told_stop; [exact Hid|exact H|by vm_compute..].

Section stages.
Context `{KL : KernelLayout, KLO : !KernelLayoutOk, KI : KernelImage, PO : Ports}.
Context `{IS : InterruptStubs, UR : !UartReady, SF : StackFrame, SFO : !StackFrameOk}.
Variable R : pmm → Prop.
Context (Hdry : runs_dry R).
Implicit Types s : kernel.

Lemma stage8c_stops s :
  identity_mapped s → heap_ready R 0 (machine_of s) →
  stops stage8c_run_kheap_bootstrap_self_check "Stage 8C heap bootstrap failed" 0x800C0 s.
Proof.
  intros Hid HP. pose proof (told_refl s _ HP) as H. unfold stops, stage8c_run_kheap_bootstrap_self_check.
  stop1 H. stop1 H. stop1 H. eapply told_bootstrap; [exact H|]. clear H. intros s1 H. stop H.
  all_stop Hid H.
Qed.

Lemma stage8d_stops s :
  identity_mapped s → heap_at R heap_8c (machine_of s) →
  stops stage8d_run_kheap_validation_self_check "Stage 8D heap validation failed" 0x800D0 s.
Proof.
  intros Hid HP. pose proof (told_refl s _ HP) as H. unfold stops, stage8d_run_kheap_validation_self_check.
  unfold stage8d_allocate. change (Z.to_nat STAGE8D_TEST_ALLOC_COUNT) with 4%nat. stop H. all_stop Hid H.
Qed.

Lemma stage10d_stops s :
  identity_mapped s → heap_at R heap_10b (machine_of s) →
  stops stage10d_run_kmalloc_lifecycle_hardening_self_check "Stage 10D allocator hardening failed" 0xA00D0 s.
Proof.
  intros Hid HP. pose proof (told_refl s _ HP) as H. unfold stops, stage10d_run_kmalloc_lifecycle_hardening_self_check.
  stop H. all_stop Hid H.
Qed.

Lemma stage10e_stops s :
  identity_mapped s → heap_at R heap_10d (machine_of s) →
  stops stage10e_run_allocation_api_validation_suite_self_check "Stage 10E allocation API suite failed" 0xA00E0 s.
Proof.
  intros Hid HP. pose proof (told_refl s _ HP) as H.
  unfold stops, stage10e_run_allocation_api_validation_suite_self_check, lifecycle_10e.
  destruct primitives_10e_run as [m E]. stop H. eapply wp_in_frame; [exact E|]. stop H. all_stop Hid H.
Qed.
End stages.
