(* ===== verification/HeapStages.v ===== *)
(** * Stages 8C to 11E one after the other

    With frames for four pages every check passes; with fewer the one that
    draws the missing page stops the kernel. *)
From S2P Require Import Prelude KernelMonad VmmLayout Paging Vmm Memory MemoryMap FrameAllocator Pmm.
From S2P Require Import Kheap KheapSpec KheapSafety HeapModel Console Interrupts Kernel.
From S2P Require Import Multiboot MultibootParse SelfChecks PagingChecks SelfChecksHeap.
From S2P Require Import PrimitiveChecks HeapChecks SelfChecksObjects ObjectChecks HeapShortage.
#[local] Open Scope Z_scope.

Section heap_checks.
Context `{KL : KernelLayout, KLO : !KernelLayoutOk, KI : KernelImage, PO : Ports}.
Context `{IS : InterruptStubs, UR : !UartReady, SF : StackFrame, SFO : !StackFrameOk}.
Implicit Types (R : pmm → Prop) (s : kernel).

(** Stages 8C to 11E, and what follows them. *)
Definition heap_checks (rest : M kernel unit) : M kernel unit :=
  stage8c_run_kheap_bootstrap_self_check ;;
  stage8d_run_kheap_validation_self_check ;;
  stage9a_run_kheap_free_groundwork_self_check ;;
  stage9b_run_kheap_reuse_activation_self_check ;;
  stage9c_run_kheap_fragmentation_reuse_self_check ;;
  stage9d_run_kheap_lifecycle_validation_self_check ;;
  stage10a_run_kmalloc_interface_self_check ;;
  stage10b_run_kmalloc_allocation_semantics_self_check ;;
  stage10c_run_kmemory_primitives_self_check ;;
  stage10d_run_kmalloc_lifecycle_hardening_self_check ;;
  stage10e_run_allocation_api_validation_suite_self_check ;;
  stage11a_run_kobject_groundwork_self_check ;;
  stage11b_run_kobject_linked_structure_self_check ;;
  stage11c_run_kobject_traversal_self_check ;;
  stage11d_run_kobject_removal_self_check ;;
  stage11e_run_kobject_lifecycle_validation_suite_self_check ;;
  rest.

Lemma judged_step v1 v2 P1 P2 (m1 m2 : M kernel unit) s0 s Q P :
  judged v1 P1 s0 s → (P1 (machine_of s) → wp m1 (λ _ s', judged v2 P2 s s') s) →
  (∀ s', judged (v1 ++ v2) P2 s0 s' → ends m2 Q P s') → ends (m1 ;; m2) Q P s.
Proof.
  intros (l1 & T1 & V1) H1 H2. apply ends_bind_wp.
  eapply wp_mono; [|apply H1, (told_machine _ _ _ _ T1)]. intros [] s' (l2 & T2 & V2). apply H2.
  exists (l1 ++ l2). split; [by eapply told_trans|]. by rewrite omap_app, V1, V2.
Qed.

Lemma checked_step n1 n2 P1 P2 (m1 m2 : M kernel unit) s0 s Q P :
  checked n1 P1 s0 s → (P1 (machine_of s) → wp m1 (λ _ s', checked n2 P2 s s') s) →
  (∀ s', checked (n1 + n2) P2 s0 s' → ends m2 Q P s') → ends (m1 ;; m2) Q P s.
Proof.
  intros H0 H1 H2. eapply judged_step; [exact H0|exact H1|]. intros s' H. apply H2. unfold checked.
  by rewrite replicate_add.
Qed.

Lemma checked_start P s : P (machine_of s) → checked 0 P s s.
Proof. intros HP. exists []. split; [by apply told_refl|done]. Qed.

Lemma checked_mono n (P P' : kheap_machine pmm → Prop) s0 s :
  (∀ x, P x → P' x) → checked n P s0 s → checked n P' s0 s.
Proof. intros HP (ls & T & V). exists ls. split; [by eapply told_mono|done]. Qed.

Lemma checked_identity n P s0 s : checked n P s0 s → identity_mapped s0 → identity_mapped s.
Proof.
  intros (ls & T & _) [Ht Hi]. split; [|done]. intros va Hva.
  rewrite (told_outside _ _ _ _ T) by (unfold HEAP_START; lia). by apply Ht.
Qed.

(** One of the grants to come is for the next page. *)
Lemma checked_supply n k R h s0 s :
  md_supply h = 0%nat → checked n (heap_at (later (S k) R) h) s0 s →
  checked n (heap_at (later k R) (set_supply 1 h)) s0 s.
Proof. intros E. apply checked_mono. intros x Hx. apply heap_at_later. destruct h. cbn in E. by subst. Qed.

Lemma heap_ready_later k R x : heap_ready R (S k) x → heap_ready (later k R) 1 x.
Proof.
  intros [H1 H2 H3 H4 (b & (out & a & E & Hout & Hk) & HR)]. split; [done..|].
  exists a. split; [by exists out, a|by exists b].
Qed.

Lemma heap_at_now R h x : heap_at (later 0 R) h x → heap_at R h x.
Proof. intros [H1 H2 (b & Hb & c & <- & HR)]. split; [done..|]. by exists b. Qed.

#[local] Ltac pass H check :=
  eapply checked_step; [exact H|exact (check _)|];
  clear H; let s := fresh "s" in intros s H.
#[local] Ltac supply H := apply checked_supply in H; [|reflexivity].

(** Stages 9A to 10C draw no page. *)
Lemma middle_run n R (rest : M kernel unit) s0 s Q P :
  checked n (heap_at R heap_8d) s0 s →
  (∀ s', checked (n + 35) (heap_at R heap_10b) s0 s' → ends rest Q P s') →
  ends (stage9a_run_kheap_free_groundwork_self_check ;;
    stage9b_run_kheap_reuse_activation_self_check ;;
    stage9c_run_kheap_fragmentation_reuse_self_check ;;
    stage9d_run_kheap_lifecycle_validation_self_check ;;
    stage10a_run_kmalloc_interface_self_check ;;
    stage10b_run_kmalloc_allocation_semantics_self_check ;;
    stage10c_run_kmemory_primitives_self_check ;; rest) Q P s.
Proof.
  intros H HQ. pass H (stage9a_passes R). pass H (stage9b_passes R). pass H (stage9c_passes R).
  pass H (stage9d_passes R). pass H (stage10a_passes R). pass H (stage10b_passes R).
  pass H (stage10c_passes (heap_at R heap_10b)). apply HQ. by replace (n + 35)%nat with (n + 6 + 3 + 4 + 6 + 5 + 5 + 6)%nat by lia.
Qed.
Lemma heap_checks_run R rest s Q P :
  heap_ready R 4 (machine_of s) →
  (∀ s', checked 83 (heap_at R heap_11e) s s' → ends rest Q P s') → ends (heap_checks rest) Q P s.
Proof.
  intros HP HQ. apply heap_ready_later, checked_start in HP as H. clear HP. unfold heap_checks.
  pass H (stage8c_passes (later 3 R)). supply H. pass H (stage8d_passes (later 2 R)).
  eapply middle_run; [exact H|]. clear H. intros s3 H. supply H. pass H (stage10d_passes (later 1 R)).
  supply H. pass H (stage10e_passes (later 0 R)). apply (checked_mono _ _ _ _ _ (heap_at_now R _)) in H.
  pass H (stage11a_passes R). pass H (stage11b_passes R).
  pass H (stage11c_passes R). pass H (stage11d_passes R). pass H (stage11e_passes R).
  by apply HQ.
Qed.

Lemma stops_then (m rest : M kernel unit) reason detail s :
  stops m reason detail s → stops (m ;; rest) reason detail s.
Proof. intros H. unfold stops. apply ends_bind. eapply ends_mono; [| |exact H]; by intros. Qed.

(** What stops the kernel when there are [k] pages for the heap. *)
Definition shortage (k : nat) : string * Z :=
  match k with
  | 0%nat => ("Stage 8C heap bootstrap failed"%string, 0x800C0)
  | 1%nat => ("Stage 8D heap validation failed"%string, 0x800D0)
  | 2%nat => ("Stage 10D allocator hardening failed"%string, 0xA00D0)
  | _ => ("Stage 10E allocation API suite failed"%string, 0xA00E0)
  end.

Lemma heap_checks_short R k rest s :
  runs_dry R → (k < 4)%nat → identity_mapped s → heap_ready R k (machine_of s) →
  stops (heap_checks rest) (shortage k).1 (shortage k).2 s.
Proof.
  intros Hdry Hk Hid HP. unfold heap_checks. destruct k as [|k]; [by eapply stops_then, stage8c_stops|].
  apply heap_ready_later, checked_start in HP as H. clear HP. unfold stops.
  pass H (stage8c_passes (later k R)). destruct k as [|k].
  { eapply stops_then, stage8d_stops; [exact Hdry|by eapply checked_identity|].
    destruct H as (ls & T & _). apply heap_at_now, (told_machine _ _ _ _ T). }
  supply H. pass H (stage8d_passes (later k R)). eapply middle_run; [exact H|]. clear H. intros s3 H.
  destruct k as [|k].
  { eapply stops_then, stage10d_stops; [exact Hdry|by eapply checked_identity|].
    destruct H as (ls & T & _). apply heap_at_now, (told_machine _ _ _ _ T). }
  supply H. pass H (stage10d_passes (later k R)). assert (k = 0%nat) as -> by lia.
  eapply stops_then, stage10e_stops; [exact Hdry|by eapply checked_identity|].
  destruct H as (ls & T & _). apply heap_at_now, (told_machine _ _ _ _ T).
Qed.
End heap_checks.
