(* ===== verification/PmmChecks.v ===== *)
(** * The checks of the page-frame allocator pass: Stages 5D and 6D

    Both run on the abstract allocator: what it has issued, what is fresh, and
    the queue of freed frames. *)
From S2P Require Import Prelude KernelMonad VmmLayout Paging Vmm Memory MemoryMap FrameAllocator Pmm.
From S2P Require Import Kheap HeapModel Console Interrupts Kernel Multiboot MultibootParse.
From S2P Require Import SelfChecks PagingChecks SelfChecksHeap HeapChecks.
#[local] Open Scope Z_scope.

(** ** Stage 5D: the first allocations *)
Section allocation.
Context `{KL : KernelLayout, KI : KernelImage, PO : Ports, IS : InterruptStubs, UR : !UartReady}.
Implicit Types s : kernel.

Lemma wp_pmm {A} (m : M pmm A) a p p' b s0 s (Q : A → kernel → Prop) :
  reports b (over pmm_lens p s0) s → m p = Ret a p' →
  (∀ s', reports b (over pmm_lens p' s0) s' → Q a s') → wp (pmm_call m) Q s.
Proof.
  intros HR E HQ. apply wp_zoom. cbn [view pmm_lens]. rewrite (reports_pmm _ _ _ HR).
  eapply wp_Ret; [exact E|]. apply HQ. destruct HR as (t & c & Hs & ->).
  exists t, c. split; [exact Hs|]. by destruct s0 as [[]].
Qed.

(** The allocator after the first [n] allocations. *)
Definition after_allocations (l : list Z) (n : nat) : alloc_spec :=
  mk_alloc_spec (take n l) (drop n l) [].

Lemma next_allocation l n p :
  pmm_wf p → abstract p = after_allocations l n →
  match l !! n with
  | Some f => ∃ p', stage6b_pmm_alloc_frame (Some 0) p = Ret (true, Some (f * 0x1000)) p' ∧ pmm_wf p' ∧
      frames p' = frames p ∧ abstract p' = after_allocations l (S n)
  | None => ∃ p', stage6b_pmm_alloc_frame (Some 0) p = Ret (false, Some 0) p' ∧ pmm_wf p' ∧
      frames p' = frames p ∧ abstract p' = after_allocations l n
  end.
Proof.
  intros Hwf Ha. destruct (alloc_frame_refines p 0 Hwf) as (ok & out & p' & E & Hwf' & Habs & Hfr & Hr).
  rewrite Ha in *. unfold spec_alloc, after_allocations in *. cbn [sp_queue sp_fresh sp_issued] in *.
  destruct (l !! n) as [f|] eqn:Hn.
  - rewrite (drop_S _ _ _ Hn) in *. cbn [fst snd] in *. injection Hr as -> ->.
    exists p'. split_and!; [done|done|done|]. by rewrite Habs, (take_S_r _ _ _ Hn).
  - assert (drop n l = []) as Hd by (by apply drop_ge, lookup_ge_None).
    rewrite Hd in *. cbn [fst snd] in *. injection Hr as -> ->. by exists p'.
Qed.

Lemma after_allocations_end l n : l !! n = None → (n ≤ 4)%nat → after_allocations l n = after_allocations l 4.
Proof.
  intros Hl%lookup_ge_None Hn. unfold after_allocations. by rewrite !take_ge, !drop_ge by lia.
Qed.

Lemma remaining_run p :
  pmm_wf p → stage6b_pmm_get_remaining_frames p = Ret (remaining_frame_count (pmm_state p)) p ∧
  is_u64 (remaining_frame_count (pmm_state p)).
Proof.
  intros Hwf. split; [done|]. rewrite (wf_remaining _ Hwf).
  pose proof (fresh_bound p (wf_frames _ Hwf) (wf_cursor _ Hwf)) as Hb.
  assert (Z.of_nat (length (queue p)) ≤ 64).
  { unfold queue. rewrite length_take, (wf_pending_length _ Hwf). lia. }
  zlia.
Qed.

Lemma range_frame_u64 p f :
  frames_ok (frames p) → f ∈ table p ≫= frames_of → is_u64 (f * 0x1000).
Proof.
  intros Hok (r & Hf & Hr)%list_elem_of_bind.
  assert (in_ranges (table p) f) as Hin by (exists r; by rewrite <- elem_of_frames_of).
  apply in_ranges_bounds in Hin; [|exact Hok]. zlia.
Qed.

Lemma stage5d_run s :
  unseeded (k_pmm s) →
  wp stage5d_run_boot_allocation_test (λ _ s', ∃ p, pmm_wf p ∧ frames p = frames (k_pmm s) ∧
    abstract p = after_allocations (table (k_pmm s) ≫= frames_of) 4 ∧
    reports (k_memory_map s) (over pmm_lens p s) s') s.
Proof.
  intros Hun. destruct (seed_ok _ Hun) as (p0 & E0 & Hwf0 & Hfr0 & Habs0).
  set (l := table (k_pmm s) ≫= frames_of) in *. unfold stage5d_run_boot_allocation_test.
  assert (reports (k_memory_map s) (over pmm_lens (k_pmm s) s) s) as HR
    by (replace (over pmm_lens (k_pmm s) s) with s by (by destruct s); apply reports_refl).
  apply wp_bind. eapply wp_pmm; [exact HR|exact E0|]. clear HR. intros s1 HR.
  unfold SelfChecks.say, say_hex, say_hex64. MultibootParse.say. clear HR. intros s2 HR.
  MultibootParse.say; [by vm_compute|]. clear HR. intros s3 HR.
  set (good n p x := pmm_wf p ∧ frames p = frames (k_pmm s) ∧
    abstract p = after_allocations l n ∧ reports (k_memory_map s) (over pmm_lens p s) x).
  apply wp_bind. apply (wp_mono _ (λ granted x, is_u32 granted ∧ ∃ p, good 4%nat p x)).
  { intros granted x [Hg (p & Hwf & Hfr & Habs & HR')]. MultibootParse.say; [exact Hg|].
    clear x HR'. intros x HR'. destruct (remaining_run p Hwf) as [E H64].
    apply wp_bind. eapply wp_pmm; [exact HR'|exact E|]. clear x HR'. intros x HR'.
    eapply wp_say_hex64; [exact HR'|by vm_compute|by vm_compute|exact H64|].
    clear x HR'. intros x HR'. exists p. by split_and!. }
  apply (wp_loop (λ '(i, granted) x, is_u32 granted ∧ 0 ≤ i ≤ 4 ∧ ∃ p, good (Z.to_nat i) p x)
    (λ '(i, _) _, 4 - i));
    [split; [lia|]; split; [lia|]; by exists p0| |by vm_compute|by vm_compute].
  clear s1 s2 s3 HR. intros [i granted] x [Hg [Hi (p & Hwf & Hfr & Habs & HR)]].
  unfold STAGE5D_TEST_ALLOC_COUNT. destruct (Z.ltb_spec i 4) as [Hlt|Hge].
  - pose proof (next_allocation l (Z.to_nat i) p Hwf Habs) as Hnext.
    destruct (l !! Z.to_nat i) as [f|] eqn:Hf; destruct Hnext as (p' & E & Hwf' & Hfr' & Habs');
      (apply wp_bind; eapply wp_pmm; [exact HR|exact E|]); clear HR; intros x1 HR; cbv beta iota;
      (eapply wp_bind, wp_from_option; [reflexivity|]); cbn [negb].
    + MultibootParse.say; [lia|]. clear HR. intros x2 HR.
      MultibootParse.say; [eapply range_frame_u64; [apply Hun|by eapply list_elem_of_lookup_2]|].
      clear HR. intros x3 HR. wp_steps.
      rewrite (u32_id (i + 1)) by lia. split; [|lia]. split; [apply u32_range|]. split; [lia|].
      exists p'. split_and!; [done|by rewrite Hfr'| |exact HR].
      by replace (Z.to_nat (i + 1)) with (S (Z.to_nat i)) by lia.
    + wp_steps. split; [done|]. exists p'. split_and!; [done|by rewrite Hfr'| |exact HR].
      rewrite Habs'. apply after_allocations_end; [done|lia].
  - assert (i = 4) as -> by lia. wp_steps. split; [done|]. by exists p.
Qed.
End allocation.

(** ** What the heap may draw *)
Section supply.
Context `{KI : KernelImage}.

Lemma after_allocations_granted l n k p :
  pmm_wf p → abstract p = after_allocations l n →
  (∀ i, (i < k)%nat → ∃ f, l !! (n + i)%nat = Some f ∧ f * 0x1000 ≤ UINT32_MAX) →
  ∃ b, granted k p b ∧ pmm_wf b ∧ frames b = frames p ∧ abstract b = after_allocations l (n + k).
Proof.
  revert n p. induction k as [|k IH]; intros n p Hwf Ha Hl.
  { exists p. by rewrite Nat.add_0_r. }
  destruct (Hl 0%nat ltac:(lia)) as (f & Hf & Hmax). rewrite Nat.add_0_r in Hf.
  pose proof (next_allocation l n p Hwf Ha) as Hnext. rewrite Hf in Hnext.
  destruct Hnext as (p' & E & Hwf' & Hfr & Ha').
  destruct (IH (S n) p' Hwf' Ha') as (b & Hb & Hwfb & Hfrb & Hab).
  { intros i Hi. destruct (Hl (S i) ltac:(lia)) as (g & Hg & Hgm). exists g. split; [|done].
    by rewrite Nat.add_succ_comm. }
  exists b. split; [by exists (f * 0x1000), p'|]. split; [done|]. split; [by rewrite Hfrb|].
  by rewrite Hab, Nat.add_succ_comm.
Qed.
End supply.

(** ** Stage 6D: freeing and reuse *)
Section reuse.
Context `{KL : KernelLayout, KLO : !KernelLayoutOk, KI : KernelImage, PO : Ports}.
Context `{IS : InterruptStubs, UR : !UartReady}.
Implicit Types s : kernel.

(** The allocator is in this abstract state; its table, the memory and the heap's
    bookkeeping are these. *)
Variable f0 : stage5c_frame_bookkeeping.
Variable m0 : memory.
Variable h0 : stage8c_kheap_state.
Record allocator_at (a : alloc_spec) (x : kheap_machine pmm) : Prop := {
  al_wf : pmm_wf (allocator x);
  al_abstract : abstract (allocator x) = a;
  al_table : frames (allocator x) = f0;
  al_memory : mem x = m0;
  al_heap : heap x = h0;
}.

Lemma told_pmm {A} (m : M pmm A) r p' (P P' : kheap_machine pmm → Prop) s0 ls s (Q : A → kernel → Prop) :
  told s0 P ls s → m (k_pmm s) = Ret r p' → P' (set_allocator p' (machine_of s)) →
  (∀ s', told s0 P' ls s' → k_pmm s' = p' → Q r s') → wp (pmm_call m) Q s.
Proof.
  intros [HP Hpl Hmap Hout Hlog] E HP' HQ. apply wp_zoom. eapply wp_Ret; [exact E|].
  apply HQ; [|by destruct s]. destruct s as [[] ? ? ?]. by split.
Qed.

Lemma told_alloc_frame a f a' v s0 ls s (Q : bool * Z → kernel → Prop) :
  told s0 (allocator_at a) ls s → spec_alloc a = (Some f, a') →
  (∀ s', told s0 (allocator_at a') ls s' → Q (true, f * 0x1000) s') → wp (alloc_frame_into v) Q s.
Proof.
  intros HT Es HQ. destruct (told_machine _ _ _ _ HT) as [Hwf Ha Htab Hmem Hheap]. change (allocator (machine_of s)) with (k_pmm s) in *.
  destruct (alloc_frame_refines (k_pmm s) v Hwf) as (ok & out & p' & E & Hwf' & Ha' & Hfr & Hr).
  rewrite Ha, Es in *. injection Hr as -> ->. unfold alloc_frame_into. apply wp_bind.
  eapply (told_pmm _ _ _ _ (allocator_at a')); [exact HT|exact E|split; try done; by rewrite <- Htab|]. intros s' HT' _. cbv beta iota.
  eapply wp_bind, wp_from_option; [reflexivity|]. apply wp_ret. by apply HQ.
Qed.

Lemma told_alloc_frame_none a v s0 ls s (Q : bool * Z → kernel → Prop) :
  told s0 (allocator_at a) ls s → spec_alloc a = (None, a) →
  (∀ s', told s0 (allocator_at a) ls s' → Q (false, v) s') → wp (alloc_frame_into v) Q s.
Proof.
  intros HT Es HQ. destruct (told_machine _ _ _ _ HT) as [Hwf Ha Htab Hmem Hheap]. change (allocator (machine_of s)) with (k_pmm s) in *.
  destruct (alloc_frame_refines (k_pmm s) v Hwf) as (ok & out & p' & E & Hwf' & Ha' & Hfr & Hr).
  rewrite Ha, Es in *. injection Hr as -> ->. unfold alloc_frame_into. apply wp_bind.
  eapply (told_pmm _ _ _ _ (allocator_at a)); [exact HT|exact E|split; try done; by rewrite <- Htab|]. intros s' HT' _. cbv beta iota.
  eapply wp_bind, wp_from_option; [reflexivity|]. apply wp_ret. by apply HQ.
Qed.

Lemma told_free_frame a pa ok a' s0 ls s (Q : bool → kernel → Prop) :
  told s0 (allocator_at a) ls s → is_u64 pa → spec_free pa a = (ok, a') →
  (∀ s', told s0 (allocator_at a') ls s' → Q ok s') → wp (pmm_call (stage6c_pmm_free_frame pa)) Q s.
Proof.
  intros HT Hpa Es HQ. destruct (told_machine _ _ _ _ HT) as [Hwf Ha Htab Hmem Hheap]. change (allocator (machine_of s)) with (k_pmm s) in *.
  destruct (free_frame_refines (k_pmm s) pa Hwf Hpa) as (p' & E & Hwf' & Ha' & Hfr & _).
  rewrite Ha, Es in *. eapply (told_pmm _ _ _ _ (allocator_at a')); [exact HT|exact E|split; try done; by rewrite <- Htab|]. intros s' HT' _. by apply HQ.
Qed.

Lemma told_pending a n s0 ls s (Q : bool * option Z → kernel → Prop) :
  told s0 (allocator_at a) ls s → Q (true, Some (Z.of_nat (length (sp_queue a)))) s →
  wp (pmm_call (stage6c_pmm_get_pending_free_frames (Some n))) Q s.
Proof.
  intros HT HQ. destruct (told_machine _ _ _ _ HT) as [Hwf Ha Htab Hmem Hheap]. change (allocator (machine_of s)) with (k_pmm s) in *.
  apply wp_zoom. unfold stage6c_pmm_get_pending_free_frames. wp_steps. cbn [view pmm_lens].
  assert (Z.of_nat (length (sp_queue a)) = pending_free_count (k_pmm s)) as E.
  { rewrite <- Ha. cbn. unfold queue. rewrite length_take, (wf_pending_length _ Hwf).
    pose proof (wf_pending_count _ Hwf). lia. }
  rewrite <- E. by destruct s.
Qed.

Lemma told_emit check (passed : bool) s0 P ls s (Q : unit → kernel → Prop) :
  told s0 P ls s → c_text check → Z.of_nat (String.length check) < 0x10000 →
  (∀ s', told s0 P (ls ++ [Line "custom-os Stage 6D test "; Line check; Line ": ";
      Line ((if passed then "PASS" else "FAIL") +:+ newline)]) s' → Q tt s') →
  wp (stage6d_emit_test_result check passed) Q s.
Proof.
  intros HT Hc Hl HQ. unfold stage6d_emit_test_result.
  apply wp_bind. eapply told_text; [exact HT|by vm_compute|by vm_compute|]. clear HT. intros s1 HT.
  apply wp_bind. eapply told_text; [exact HT|exact Hc|exact Hl|]. clear HT. intros s2 HT.
  apply wp_bind. eapply told_text; [exact HT|by vm_compute|by vm_compute|]. clear HT. intros s3 HT.
  destruct passed; (eapply told_text; [exact HT|by vm_compute|by vm_compute|]); clear HT; intros s4 HT;
    apply HQ; by rewrite <- !app_assoc in HT.
Qed.

(** Advancing the cursor: to the next frame that was never issued, or past the
    last range. *)
Lemma told_advance I l q s0 ls s (Q : unit → kernel → Prop) :
  told s0 (allocator_at (mk_alloc_spec I l q)) ls s →
  (∀ s', told s0 (allocator_at (mk_alloc_spec I l q)) ls s' →
    match l with
    | [] => range_count (frames (k_pmm s')) ≤ range_index (pmm_state (k_pmm s'))
    | f :: _ => range_index (pmm_state (k_pmm s')) < range_count (frames (k_pmm s')) ∧
        next_frame_index (pmm_state (k_pmm s')) = f
    end → Q tt s') →
  wp (pmm_call stage6a_pmm_advance_to_next_eligible) Q s.
Proof.
  intros HT HQ. destruct (told_machine _ _ _ _ HT) as [Hwf Ha Htab Hmem Hheap]. change (allocator (machine_of s)) with (k_pmm s) in *.
  destruct (advance_spec (k_pmm s) (wf_frames _ Hwf) (wf_range _ Hwf) (wf_cursor _ Hwf))
    as (i & n & E & Hi & Hc & Hf & His & Hat).
  set (p' := with_cursor i n (k_pmm s)) in *.
  assert (abstract p' = abstract (k_pmm s)) as Ea by (unfold abstract; by rewrite Hf, His).
  assert (fresh p' = l) as Efr by (rewrite Hf; by injection Ha).
  unfold fresh, fresh_at in Efr. change (cursor_range p') with (Z.to_nat i) in Efr.
  change (cursor_frame p') with n in Efr. change (table p') with (table (k_pmm s)) in Efr.
  eapply (told_pmm _ _ _ _ (allocator_at (mk_alloc_spec I l q))); [exact HT|exact E| |].
  - split; [|change (abstract p' = mk_alloc_spec I l q); by rewrite Ea|done..]. destruct Hwf as [W1 W2 W3 W4 W5 W6 W7 W8 W9 W10]. split; try done.
    + intros g Hg. change (allocator _) with p'. rewrite His. by apply W8.
    + change (allocator _) with p'. rewrite Hf. exact W9.
  - intros s' HT' Ep. apply HQ; [exact HT'|]. rewrite Ep. change (range_count (frames p')) with (range_count (frames (k_pmm s))).
    change (range_index (pmm_state p')) with i. change (next_frame_index (pmm_state p')) with n.
    pose proof (length_recorded _ (fr_table _ (wf_frames _ Hwf))) as Hlen. fold (table (k_pmm s)) in Hlen.
    destruct (table (k_pmm s) !! Z.to_nat i) as [r|] eqn:Er.
    + assert (i < range_count (frames (k_pmm s))) as Hlt by (apply lookup_lt_Some in Er; lia).
      destruct (Hat Hlt) as (r' & [= <-] & Hn).
      rewrite Z.max_l, seqZ_cons in Efr by (unfold end_frame in *; lia). by subst l.
    + subst l. apply lookup_ge_None in Er. lia.
Qed.

Lemma may_free_frame I l q f :
  may_free (mk_alloc_spec I l q) (f * 0x1000) ↔ f ∈ I ∧ f ∉ q ∧ (length q < 64)%nat.
Proof.
  unfold may_free. cbn. rewrite Z.div_mul by lia. rewrite Z.mod_mul by lia. tauto.
Qed.

Lemma spec_free_frame I l q f :
  f ∈ I → f ∉ q → (length q < 64)%nat →
  spec_free (f * 0x1000) (mk_alloc_spec I l q) = (true, mk_alloc_spec I l (q ++ [f])).
Proof.
  intros HI Hq Hlen. unfold spec_free. rewrite decide_True by (by apply may_free_frame).
  cbn. by rewrite Z.div_mul by lia.
Qed.

Lemma spec_free_refused I l q f :
  f ∉ I ∨ f ∈ q → spec_free (f * 0x1000) (mk_alloc_spec I l q) = (false, mk_alloc_spec I l q).
Proof.
  intros H. unfold spec_free. rewrite decide_False; [done|]. rewrite may_free_frame. tauto.
Qed.

(** The check for a frame that was never issued: it needs one to be left. *)
Lemma told_never_issued I l q s0 ls s (K : bool → M kernel unit) (Q : unit → kernel → Prop) :
  told s0 (allocator_at (mk_alloc_spec I l q)) ls s →
  (∀ f, head l = Some f → f ∉ I ∧ is_u64 (f * 0x1000)) →
  (∀ s', told s0 (allocator_at (mk_alloc_spec I l q)) ls s' → wp (K (negb (bool_decide (l = [])))) Q s') →
  wp (pmm_call stage6a_pmm_advance_to_next_eligible ;;
    p ← gets k_pmm;
    check ← (if (range_index (pmm_state p) <? range_count (frames p))
        && (next_frame_index (pmm_state p) <=? Z.shiftr UINT64_MAX STAGE5C_FRAME_SHIFT) then
      let never_issued_addr := u64 (Z.shiftl (next_frame_index (pmm_state p)) STAGE5C_FRAME_SHIFT) in
      freed ← pmm_call (stage6c_pmm_free_frame never_issued_addr);
      mret (negb freed) else mret false);
    K check) Q s.
Proof.
  intros HT Hl HQ. apply wp_bind. eapply told_advance; [exact HT|]. clear HT. intros s1 HT Hcursor.
  apply wp_bind, wp_gets. apply wp_bind. destruct l as [|f l].
  - rewrite (proj2 (Z.ltb_ge _ _) Hcursor). cbn [andb]. apply wp_ret. by apply HQ.
  - destruct (Hl f eq_refl) as [Hf Hu], Hcursor as [Hrange ->]. rewrite (proj2 (Z.ltb_lt _ _) Hrange). cbn [andb].
    change (Z.shiftr UINT64_MAX STAGE5C_FRAME_SHIFT) with 0xFFFFFFFFFFFFF.
    rewrite (proj2 (Z.leb_le f 0xFFFFFFFFFFFFF)) by lia.
    change STAGE5C_FRAME_SHIFT with 12. rewrite Z.shiftl_mul_pow2 by lia. change (2 ^ 12) with 0x1000.
    rewrite u64_id by done. cbv zeta. apply wp_bind.
    eapply told_free_frame; [exact HT|exact Hu|apply spec_free_refused; by left|].
    clear HT. intros s2 HT. apply wp_ret. by apply HQ.
Qed.

(** The verdicts of Stage 6D, by the number of frames that are left: it needs two
    to allocate and a third that is never issued. *)
Definition reuse_verdicts (frames_left : nat) : list bool :=
  match frames_left with
  | 0%nat => [false; false; false; true; false; false; false; true; false]
  | 1%nat => [false; true; false; true; false; false; false; true; false]
  | 2%nat => [true; true; true; true; false; true; true; true; false]
  | _ => replicate 9 true
  end.

(** One verdict of Stage 6D. *)
Ltac emit H :=
  apply wp_bind; eapply told_emit; [exact H|by vm_compute|by vm_compute|];
  clear H; let s := fresh "s" in intros s H; cbv beta iota zeta.
Ltac emit_last H :=
  eapply told_emit; [exact H|by vm_compute|by vm_compute|]; clear H; let s := fresh "s" in intros s H.

Lemma stage6d_two_left I f g rest s :
  allocator_at (mk_alloc_spec I (f :: g :: rest) []) (machine_of s) →
  NoDup (I ++ f :: g :: rest) → (∀ x, x ∈ f :: g :: rest → is_u64 (x * 0x1000)) →
  wp stage6d_run_reuse_self_test (λ _ s', judged (reuse_verdicts (2 + length rest))
    (allocator_at (mk_alloc_spec (I ++ [f] ++ [g]) rest [])) s s') s.
Proof.
  intros HP Hnd Hu. pose proof (told_refl s _ HP) as H. unfold stage6d_run_reuse_self_test.
  apply NoDup_app in Hnd as (_ & Hdis & Hnd). apply NoDup_cons in Hnd as [Hf Hnd].
  apply NoDup_cons in Hnd as [Hg Hnd]. rewrite !not_elem_of_cons in Hf.
  assert (f ∈ (I ++ [f]) ++ [g]) as Hf1 by (rewrite !elem_of_app, !list_elem_of_singleton; tauto).
  assert (g ∈ (I ++ [f]) ++ [g] ∧ g ∉ [f]) as (Hg1 & Hg2)
    by (rewrite !elem_of_app, !list_elem_of_singleton; destruct_and?; split_and!; [tauto|congruence]).
  assert (∀ k, head rest = Some k → k ∉ (I ++ [f]) ++ [g] ∧ is_u64 (k * 0x1000)) as Hk.
  { intros k Hk. destruct rest as [|k' rest]; [done|]. injection Hk as ->. rewrite not_elem_of_cons in Hg.
    split; [|apply Hu; rewrite !elem_of_cons; tauto]. rewrite !not_elem_of_app, !list_elem_of_singleton, !not_elem_of_cons in *.
    split_and!; [|naive_solver..]. intros Hk. apply (Hdis _ Hk). rewrite !elem_of_cons. tauto. }
  assert (is_u64 (f * 0x1000) ∧ is_u64 (g * 0x1000)) as (Huf & Hug)
    by (split; apply Hu; rewrite !elem_of_cons; tauto).
  follow1 H. follow1 H. apply wp_bind.
  eapply told_alloc_frame; [exact H|reflexivity|]. clear H. intros s1 H. cbv beta iota.
  cbn [sp_issued sp_fresh sp_queue] in H. apply wp_bind. apply wp_bind.
  eapply told_alloc_frame; [exact H|reflexivity|]. clear H. intros s2 H. cbv beta iota. apply wp_ret. cbv beta iota.
  cbn [sp_issued sp_fresh sp_queue] in H.
  rewrite (proj2 (Z.eqb_neq (f * 0x1000) (g * 0x1000))) by lia. cbv beta iota. cbn [andb negb]. emit H.
  apply wp_bind. eapply told_free_frame; [exact H|exact Huf|apply spec_free_frame; [exact Hf1|apply not_elem_of_nil|cbn; lia]|].
  clear H. intros s4 H. emit H. cbn [andb app] in *.
  apply wp_bind. eapply told_free_frame; [exact H|exact Hug|apply spec_free_frame; [exact Hg1|exact Hg2|cbn; lia]|].
  clear H. intros s6 H. emit H. cbn [andb app] in *.
  apply wp_bind. eapply told_free_frame; [exact H|exact Huf|apply spec_free_refused; right; by left|].
  clear H. intros s8 H. cbn [negb]. emit H. cbn [andb].
  eapply told_never_issued; [exact H|exact Hk|]. clear H. intros s10 H. emit H. cbn [andb].
  apply wp_bind. eapply told_pending; [exact H|]. cbv beta iota. cbn [sp_queue length].
  eapply wp_bind, wp_from_option; [reflexivity|]. change (true && (Z.of_nat 2 =? 2)) with true. emit H.
  apply wp_bind. eapply told_alloc_frame; [exact H|reflexivity|]. clear H. intros s14 H. cbv beta iota.
  cbn [sp_issued sp_fresh sp_queue] in H. apply wp_bind. apply wp_bind.
  eapply told_alloc_frame; [exact H|reflexivity|]. clear H. intros s15 H. cbv beta iota. apply wp_ret. cbv beta iota.
  cbn [sp_issued sp_fresh sp_queue] in H. rewrite !Z.eqb_refl. cbn [andb]. emit H.
  apply wp_bind. eapply told_pending; [exact H|]. cbv beta iota. cbn [sp_queue length].
  eapply wp_bind, wp_from_option; [reflexivity|]. change (true && (Z.of_nat 0 =? 0)) with true. emit H.
  emit_last H. rewrite <- (app_assoc I [f] [g]) in H. destruct rest; all_good H.
Qed.

Lemma spec_free_zero I l q : 0 ∉ I → spec_free 0 (mk_alloc_spec I l q) = (false, mk_alloc_spec I l q).
Proof. intros H. apply (spec_free_refused I l q 0). by left. Qed.

Lemma stage6d_one_left I f s :
  allocator_at (mk_alloc_spec I [f] []) (machine_of s) → 0 ∉ I ++ [f] → is_u64 (f * 0x1000) →
  wp stage6d_run_reuse_self_test (λ _ s', judged (reuse_verdicts 1)
    (allocator_at (mk_alloc_spec (I ++ [f]) [] [])) s s') s.
Proof.
  intros HP H0 Huf. pose proof (told_refl s _ HP) as H. unfold stage6d_run_reuse_self_test.
  assert (f ∈ I ++ [f]) as Hf by (apply elem_of_app; right; by left).
  follow1 H. follow1 H. apply wp_bind.
  eapply told_alloc_frame; [exact H|reflexivity|]. clear H. intros s1 H. cbv beta iota.
  cbn [sp_issued sp_fresh sp_queue] in H. apply wp_bind. apply wp_bind.
  eapply told_alloc_frame_none; [exact H|reflexivity|]. clear H. intros s2 H. cbv beta iota. apply wp_ret.
  cbv beta iota. cbn [andb]. emit H.
  apply wp_bind. eapply told_free_frame; [exact H|exact Huf|apply spec_free_frame; [exact Hf|apply not_elem_of_nil|cbn; lia]|].
  clear H. intros s4 H. emit H. cbn [andb app] in *.
  apply wp_bind. eapply told_free_frame; [exact H|lia|by apply spec_free_zero|].
  clear H. intros s6 H. emit H. cbn [andb] in *.
  apply wp_bind. eapply told_free_frame; [exact H|exact Huf|apply spec_free_refused; right; by left|].
  clear H. intros s8 H. cbn [negb]. emit H. cbn [andb].
  eapply told_never_issued; [exact H|done|]. clear H. intros s10 H. emit H. cbn [andb].
  apply wp_bind. eapply told_pending; [exact H|]. cbv beta iota. cbn [sp_queue length].
  eapply wp_bind, wp_from_option; [reflexivity|]. change (true && (Z.of_nat 1 =? 2)) with false. emit H.
  apply wp_bind. eapply told_alloc_frame; [exact H|reflexivity|]. clear H. intros s14 H. cbv beta iota.
  cbn [sp_issued sp_fresh sp_queue] in H. apply wp_bind. apply wp_bind.
  eapply told_alloc_frame_none; [exact H|reflexivity|]. clear H. intros s15 H. cbv beta iota. apply wp_ret. cbv beta iota.
  cbn [andb]. emit H.
  apply wp_bind. eapply told_pending; [exact H|]. cbv beta iota. cbn [sp_queue length].
  eapply wp_bind, wp_from_option; [reflexivity|]. change (true && (Z.of_nat 0 =? 0)) with true. emit H.
  emit_last H. all_good H.
Qed.

Lemma stage6d_none_left I s :
  allocator_at (mk_alloc_spec I [] []) (machine_of s) → 0 ∉ I →
  wp stage6d_run_reuse_self_test (λ _ s', judged (reuse_verdicts 0)
    (allocator_at (mk_alloc_spec I [] [])) s s') s.
Proof.
  intros HP H0. pose proof (told_refl s _ HP) as H. unfold stage6d_run_reuse_self_test.
  follow1 H. follow1 H. apply wp_bind.
  eapply told_alloc_frame_none; [exact H|reflexivity|]. clear H. intros s1 H. cbv beta iota.
  apply wp_bind, wp_ret. cbv beta iota. emit H.
  do 2 (apply wp_bind; eapply told_free_frame; [exact H|lia|by apply spec_free_zero|];
    clear H; let s := fresh "s" in intros s H; emit H; cbn [andb]).
  apply wp_bind; eapply told_free_frame; [exact H|lia|by apply spec_free_zero|].
  clear H. intros s8 H. cbn [negb]. emit H. cbn [andb].
  eapply told_never_issued; [exact H|done|]. clear H. intros s10 H. emit H. cbn [andb].
  apply wp_bind. eapply told_pending; [exact H|]. cbv beta iota. cbn [sp_queue length].
  eapply wp_bind, wp_from_option; [reflexivity|]. change (true && (Z.of_nat 0 =? 2)) with false. emit H.
  apply wp_bind. eapply told_alloc_frame_none; [exact H|reflexivity|]. clear H. intros s14 H. cbv beta iota.
  apply wp_bind, wp_ret. cbv beta iota. emit H.
  apply wp_bind. eapply told_pending; [exact H|]. cbv beta iota. cbn [sp_queue length].
  eapply wp_bind, wp_from_option; [reflexivity|]. change (true && (Z.of_nat 0 =? 0)) with true. emit H.
  emit_last H. all_good H.
Qed.

(** Stage 6D never stops the kernel: its verdicts tell how many frames were left,
    of which it takes two. *)
Lemma stage6d_judged I l s :
  allocator_at (mk_alloc_spec I l []) (machine_of s) → NoDup (I ++ l) → 0 ∉ I ++ l →
  (∀ x, x ∈ l → is_u64 (x * 0x1000)) →
  wp stage6d_run_reuse_self_test (λ _ s', judged (reuse_verdicts (length l))
    (allocator_at (mk_alloc_spec (I ++ take 2 l) (drop 2 l) [])) s s') s.
Proof.
  intros HP Hnd H0 Hu. destruct l as [|f [|g l]].
  - cbn [length take drop]. rewrite app_nil_r in *. by apply stage6d_none_left.
  - apply stage6d_one_left; [done|done|]. apply Hu. by left.
  - by apply stage6d_two_left.
Qed.
End reuse.
