(* ===== verification/Boot.v ===== *)
(** * The boot sequence ([init/stage0_main.c], lines 3421-3493)

    [stage0_main] with the build flags as parameters.  Two instructions end
    it: [sti], which has no effect on the state modelled here, and, in one
    build, [int3], whose stub calls [stage2_exception_dispatch] with vector 3,
    error code 0 and the frame the processor pushed. *)
From Stdlib Require Import Ascii.
From S2P Require Import Prelude KernelMonad VmmLayout Paging Memory MemoryMap FrameAllocator Pmm.
From S2P Require Import Kheap Console Interrupts Kernel Multiboot MultibootParse.
From S2P Require Import SelfChecks SelfChecksHeap SelfChecksObjects.
#[local] Open Scope Z_scope.

(** The flags, 0 unless the build sets them. *)
Class BuildFlags := {
  STAGE1_FORCE_PANIC : bool;
  STAGE2_FORCE_EXCEPTION : bool;
  STAGE6D_FORCE_REUSE_TEST : bool;
}.

(** What [int3] pushes. *)
Class BreakpointFrame := { bp_eip : Z; bp_cs : Z; bp_eflags : Z }.

Section boot.
Context `{KL : KernelLayout, KI : KernelImage, PO : Ports, IS : InterruptStubs}.
Context `{SF : StackFrame, BF : BuildFlags, BP : BreakpointFrame}.
#[local] Abbreviation K := (M kernel).

Definition stage0_main (fuel : nat) (mb2_magic mb2_info_addr : Z) : K unit :=
  io clear_screen ;;
  io serial_init ;;
  io (write_text "custom-os Stage 6: init start" 0) ;;
  say "custom-os v0.11.0 (Stage 11): init start" ;;
  if STAGE1_FORCE_PANIC then io (panic "forced panic for Stage 1 test" 0x0000F001) else
  if negb (mb2_magic =? MULTIBOOT2_BOOTLOADER_MAGIC)
  then io (panic "invalid Multiboot2 magic" mb2_magic) else
  if mb2_info_addr =? 0 then io (panic "null Multiboot2 info pointer" mb2_info_addr) else
  stage5a_parse_mmap fuel mb2_info_addr ;;
  stage5c_prepare_frame_bookkeeping ;;
  stage5d_run_boot_allocation_test ;;
  stage7a_run_paging_groundwork_self_check ;;
  stage7b_run_static_paging_setup_self_check ;;
  stage7c_run_paging_activation_self_check ;;
  stage7d_run_identity_validation_self_check ;;
  stage8a_run_vmm_layout_policy_self_check ;;
  stage8b_run_vmm_mapping_interface_self_check ;;
  stage8c_run_kheap_bootstrap_self_check ;;
  stage8d_run_kheap_validation_self_check ;;
  stage9a_run_kheap_free_groundwork_self_check ;;
  stage9b_run_kheap_reuse_activation_self_check ;;
  stage9c_run_kheap_fragmentation_reuse_self_check ;;
  stage9d_run_kheap_lifecycle_validation_self_check ;;
  stage10a_run_kmalloc_interface_self_check ;;
  stage10b_run_kmalloc_allocation_semantics_self_check ;;
  stage10c_run_kmemory_primitives_self_check ;;
  stage10d_run_kmalloc_lifecycle_hardening_self_check ;;
  stage10e_run_allocation_api_validation_suite_self_check ;;
  stage11a_run_kobject_groundwork_self_check ;;
  stage11b_run_kobject_linked_structure_self_check ;;
  stage11c_run_kobject_traversal_self_check ;;
  stage11d_run_kobject_removal_self_check ;;
  stage11e_run_kobject_lifecycle_validation_suite_self_check ;;
  (if STAGE6D_FORCE_REUSE_TEST then stage6d_run_reuse_self_test else mret tt) ;;
  zoom platform_lens idt_install ;;
  io (pic_remap (u8 IRQ_BASE_VECTOR) (u8 (IRQ_BASE_VECTOR + 8))) ;;
  io (pic_set_masks 0xFC 0xFF) ;;
  io (pit_init PIT_TARGET_HZ) ;;
  io (write_text "custom-os Stage 6: Multiboot2 handoff OK" 1) ;;
  io (write_text "custom-os Stage 6: IDT installed" 2) ;;
  io (write_text "custom-os Stage 6: PIC remapped + PIT started" 3) ;;
  io (write_text "custom-os Stage 6: deterministic init OK" 4) ;;
  say "custom-os Stage 6: Multiboot2 handoff OK" ;;
  say "custom-os Stage 6: IDT installed" ;;
  say "custom-os Stage 6: PIC remapped + PIT started" ;;
  say "custom-os Stage 6: deterministic init OK" ;;
  if STAGE2_FORCE_EXCEPTION then
    io (write_text "custom-os Stage 6: triggering INT3 test" 6) ;;
    say "custom-os Stage 6: triggering INT3 test" ;;
    io (stage2_exception_dispatch 3 0 bp_eip bp_cs bp_eflags)
  else mret tt.
End boot.

(** ** Boots that are refused *)
Section refused.
Context `{KL : KernelLayout, KI : KernelImage, PO : Ports, IS : InterruptStubs, UR : !UartReady}.
Context `{SF : StackFrame, BF : BuildFlags, BP : BreakpointFrame}.
Implicit Types s : kernel.

(** Why the kernel stops before it reads the boot information. *)
Definition boot_refusal (mb2_magic mb2_info_addr : Z) : option (string * Z) :=
  if STAGE1_FORCE_PANIC then Some ("forced panic for Stage 1 test"%string, 0xF001) else
  if decide (mb2_magic ≠ MULTIBOOT2_BOOTLOADER_MAGIC)
  then Some ("invalid Multiboot2 magic"%string, mb2_magic) else
  if decide (mb2_info_addr = 0) then Some ("null Multiboot2 info pointer"%string, 0) else None.

(** Up to its first line the kernel only draws on the screen and drives the
    serial line. *)
Record greeted (D : Z → Prop) s0 s : Prop := {
  gr_rest : s = over k_console_lens (view k_console_lens s) s0;
  gr_paging : same_paging (view k_memory_lens s0) (view k_memory_lens s);
  gr_bytes a : D a → ¬ screen a → vbyte (view k_memory_lens s) a = vbyte (view k_memory_lens s0) a;
}.

Lemma greeted_refl D s : greeted D s s.
Proof. split; [by destruct s as [[]]|done|done]. Qed.

Lemma wp_greet D m s0 s (Q : unit → kernel → Prop) :
  greeted D s0 s →
  (∃ c, m (view k_console_lens s) = Ret tt c ∧ same_paging (view k_memory_lens s) (con_memory c) ∧
    ∀ a, D a → ¬ screen a → vbyte (con_memory c) a = vbyte (view k_memory_lens s) a) →
  (∀ s', greeted D s0 s' → Q tt s') → wp (io m) Q s.
Proof.
  intros [Hr Hp Hb] (c & E & Hp' & Hb') HQ. apply wp_zoom. eapply wp_Ret; [exact E|]. apply HQ. split.
  - rewrite Hr. by destruct s0 as [[]].
  - unfold same_paging in *. rewrite <- Hp, <- Hp'. by destruct s as [[]].
  - intros a Ha Hs. rewrite <- Hb, <- Hb' by done. by destruct s as [[]].
Qed.

Lemma greeted_usable D s0 s : greeted D s0 s → usable (view k_memory_lens s0) D → usable (view k_memory_lens s) D.
Proof. intros [_ Hp _]. by apply usable_same. Qed.

Lemma greeting_run D s :
  usable (view k_memory_lens s) D → (∀ x, screen x → D x) →
  ∃ s', greeted D s s' ∧ ∀ rest : M kernel unit,
    (io clear_screen ;; io serial_init ;; io (write_text "custom-os Stage 6: init start" 0) ;;
     SelfChecks.say "custom-os v0.11.0 (Stage 11): init start" ;; rest) s = rest s'.
Proof.
  intros Hu HD. pose proof (greeted_refl D s) as G.
  assert (wp (io clear_screen) (λ _ s', greeted D s s') s) as H.
  { eapply wp_greet; [exact G| |done].
    destruct (clear_screen_draws D (view k_console_lens s) Hu HD) as (m' & E & [Hp _ Ho]).
    eexists. split; [exact E|]. by split. }
  apply wp_run in H as ([] & s1 & E1 & G1).
  assert (wp (io serial_init) (λ _ s', greeted D s s') s1) as H.
  { eapply wp_greet; [exact G1| |done]. eexists. split; [reflexivity|]. done. }
  apply wp_run in H as ([] & s2 & E2 & G2). pose proof (greeted_usable _ _ _ G2 Hu) as Hu2.
  assert (wp (io (write_text "custom-os Stage 6: init start" 0)) (λ _ s', greeted D s s') s2) as H.
  { eapply wp_greet; [exact G2| |done].
    destruct (write_text_at_draws D "custom-os Stage 6: init start" 0 0 (view k_console_lens s2) Hu2 HD)
      as (m' & E & [Hp _ Ho]); [done|done|done|by vm_compute|].
    eexists. split; [exact E|]. by split. }
  apply wp_run in H as ([] & s3 & E3 & G3).
  assert (wp (SelfChecks.say "custom-os v0.11.0 (Stage 11): init start") (λ _ s', greeted D s s') s3) as H.
  { eapply wp_greet; [exact G3| |done].
    destruct (serial_write_text_sends UR ("custom-os v0.11.0 (Stage 11): init start" +:+ newline)
      (view k_console_lens s3)) as (c & E & [Hm _]); [by vm_compute|by vm_compute|].
    exists c. split; [exact E|]. by rewrite Hm. }
  apply wp_run in H as ([] & s4 & E4 & G4).
  exists s4. split; [exact G4|]. intros rest. by mrun E1; mrun E2; mrun E3; mrun E4.
Qed.

(** C22. A boot that was not started by a Multiboot2 loader, or without
    information, stops in a panic that shows the reason on screen, whatever the
    state of the machine; so does a build that asks for it. *)
Theorem bad_boot_is_refused D fuel magic addr reason detail s :
  usable (view k_memory_lens s) D → (∀ x, screen x → D x) → is_u32 magic →
  boot_refusal magic addr = Some (reason, detail) →
  ∃ s', stage0_main fuel magic addr s = Panic reason detail s' ∧ stopped reason detail s'.
Proof.
  intros Hu HD Hm Href.
  assert (ends (stage0_main fuel magic addr) (λ _ _, False)
    (λ r d s', (r, d) = (reason, detail) ∧ stopped r d s') s) as H.
  { destruct (greeting_run D s Hu HD) as (s' & G & Hrun). pose proof (greeted_usable _ _ _ G Hu) as Hu'.
    unfold ends, stage0_main. rewrite Hrun.
    unfold boot_refusal in Href.
    destruct STAGE1_FORCE_PANIC.
    { injection Href as <- <-.
      eapply panic_ends; [apply reports_refl|done|exact Hu'|done|by vm_compute|by vm_compute|lia|by auto]. }
    destruct (Z.eqb_spec magic MULTIBOOT2_BOOTLOADER_MAGIC) as [E|E]; cbn [negb].
    - rewrite decide_False in Href by tauto. destruct (Z.eqb_spec addr 0) as [->|E'];
        [|by rewrite decide_False in Href].
      rewrite decide_True in Href by done. injection Href as <- <-.
      eapply panic_ends; [apply reports_refl|done|exact Hu'|done|by vm_compute|by vm_compute|lia|by auto].
    - rewrite decide_True in Href by done. injection Href as <- <-.
      eapply panic_ends; [apply reports_refl|done|exact Hu'|done|by vm_compute|by vm_compute|lia|by auto]. }
  unfold ends in H. destruct (stage0_main fuel magic addr s) as [|r d s'| | |]; try done.
  destruct H as [[= -> ->] Hs]. eauto.
Qed.
End refused.

Section witnesses.
#[local] Existing Instance qemu_layout.
#[local] Existing Instance qemu_image.
#[local] Existing Instance idle_ports.
#[local] Existing Instance demo_stubs.
Definition demo_frame : StackFrame := {| frame_base := 0x200000; frame_contents := flat_memory |}.
Definition demo_flags : BuildFlags :=
  {| STAGE1_FORCE_PANIC := false; STAGE2_FORCE_EXCEPTION := false; STAGE6D_FORCE_REUSE_TEST := true |}.
Definition demo_breakpoint : BreakpointFrame := {| bp_eip := 0; bp_cs := 8; bp_eflags := 0x202 |}.
#[local] Existing Instance demo_frame.
#[local] Existing Instance demo_flags.
#[local] Existing Instance demo_breakpoint.

Lemma bad_boot_is_refused_witness :
  ∃ s', stage0_main 100 0x2BADB002 0x10000 (boot_kernel demo_info) =
      Panic "invalid Multiboot2 magic" 0x2BADB002 s' ∧
    screen_cell (view k_memory_lens s') 1 0 = vga_cell "i"%char.
Proof.
  destruct (bad_boot_is_refused (UR := idle_ready) low_memory 100 0x2BADB002 0x10000
    "invalid Multiboot2 magic" 0x2BADB002 (boot_kernel demo_info)) as (s' & E & Hs).
  - apply (ir_usable _ _ 0x10000). apply boot_readable. by vm_compute.
  - intros x. unfold screen, low_memory, within, VGA_TEXT_BUFFER. lia.
  - lia.
  - reflexivity.
  - exists s'. split; [exact E|]. rewrite Hs by (unfold on_screen, VGA_HEIGHT, VGA_WIDTH; lia). reflexivity.
Defined.
End witnesses.
