(* ===== verification/EarlyBoot.v ===== *)
(** * The boot up to the heap

    [stage0_main] on any machine a Multiboot2 loader hands over with a sane
    memory map: the greeting, Stages 5A to 8B and their checks, as one run.  It
    composes the walk over the boot information, the page-frame bookkeeping,
    the frame allocator and the paging checks. *)
From Stdlib Require Import Sorted.
From S2P Require Import Prelude KernelMonad VmmLayout Paging Vmm Memory MemoryMap FrameAllocator Pmm.
From S2P Require Import Kheap Console Interrupts Kernel Multiboot MultibootParse BootFrames.
From S2P Require Import SelfChecks PagingChecks SelfChecksHeap SelfChecksObjects PmmChecks Boot.
#[local] Open Scope Z_scope.

(** ** The information survives the greeting

    What the walk reads depends only on the bytes of the information. *)
Section transfer.
Context `{KL : KernelLayout, KI : KernelImage}.
Context (m m' : memory) (lo hi : Z).
Context (Hsame : ∀ x, lo ≤ x < hi → vbyte m' x = vbyte m x).

Lemma same_word a : lo ≤ a → a + 4 ≤ hi → vword m' a = vword m a.
Proof. intros H1 H2. unfold vword. by rewrite !Hsame by lia. Qed.

Lemma same_tag a :
  lo ≤ a → a + TAG_SIZE ≤ hi → tag_type m' a = tag_type m a ∧ tag_size m' a = tag_size m a.
Proof. unfold TAG_SIZE. intros H1 H2. unfold tag_type, tag_size. by rewrite !same_word by lia. Qed.

Lemma same_entry_size a : lo ≤ a → a + MMAP_TAG_SIZE ≤ hi → tag_entry_size m' a = tag_entry_size m a.
Proof. unfold MMAP_TAG_SIZE. intros H1 H2. unfold tag_entry_size. by rewrite same_word by lia. Qed.

Lemma same_check a : lo ≤ a → check_tag m' hi a = check_tag m hi a.
Proof.
  intros Ha. unfold check_tag. case_decide as H0; [done|]. destruct (same_tag a Ha) as [-> ->]; [lia|].
  do 3 (case_decide; [done|]). case_decide as H6; [done|]. case_decide as H7.
  - rewrite same_entry_size in * by lia. by rewrite decide_True.
  - destruct (decide (tag_type m a = MULTIBOOT2_TAG_MMAP)) as [Ht|Ht].
    + rewrite same_entry_size in H7 by lia. rewrite (decide_False (P := _ ∧ tag_entry_size m a < _)); done.
    + rewrite (decide_False (P := _ ∧ tag_entry_size m a < _)); [done|tauto].
Qed.

Lemma same_tags_from a l last v : lo ≤ a → tags_from m hi a l last v → tags_from m' hi a l last v.
Proof.
  intros Ha H. revert Ha. induction H as [a Hc|a l last v Hc Ht IH]; intros Ha.
  - rewrite <- same_check in * by done. by apply tags_last.
  - destruct (check_tag_next _ _ _ Hc) as (H1 & H2 & H3 & _). apply tags_more; [by rewrite same_check|].
    destruct (same_tag a Ha H1) as [_ ->]. apply IH. unfold round_up_8, TAG_SIZE in *. lia.
Qed.

Lemma same_mmap_entries a :
  lo ≤ a → check_tag m hi a = TagNext → is_mmap_tag m a → mmap_entries m' a = mmap_entries m a.
Proof.
  intros Ha (H1 & H2 & H3 & H4)%check_tag_next Hm. destruct (H4 Hm) as [H5 H6].
  unfold mmap_entries. destruct (same_tag a Ha H1) as [_ ->].
  assert (a + tag_size m a ≤ hi) by (unfold round_up_8 in *; lia).
  rewrite same_entry_size by lia. set (size := tag_entry_size m a) in *. set (n := (tag_size m a - MMAP_TAG_SIZE) / size).
  unfold entries_from. apply list_fmap_ext. intros _ i Hi%list_elem_of_lookup_2%elem_of_seqZ.
  unfold MMAP_ENTRY_SIZE, MMAP_TAG_SIZE in *.
  assert (i * size + size ≤ tag_size m a - 16).
  { assert (n * size ≤ tag_size m a - 16) by (unfold n; pose proof (Z.mul_div_le (tag_size m a - 16) size); lia). nia. }
  assert (0 ≤ i * size) by nia. unfold entry_at, vdword. by rewrite !same_word by lia.
Qed.

Lemma same_entries a l last v :
  lo ≤ a → tags_from m hi a l last v → tags_entries m' l = tags_entries m l.
Proof.
  intros Ha H. revert Ha. induction H as [a Hc|a l last v Hc Ht IH]; intros Ha; [done|].
  destruct (check_tag_next _ _ _ Hc) as (H1 & H2 & _).
  rewrite !tags_entries_cons, IH by (unfold round_up_8, TAG_SIZE in *; lia). f_equal.
  assert (is_mmap_tag m' a ↔ is_mmap_tag m a) as Hiff by (unfold is_mmap_tag; by rewrite (proj1 (same_tag a Ha H1))).
  destruct (decide (is_mmap_tag m a)) as [Hm|Hm]; [|by rewrite decide_False by tauto].
  rewrite decide_True by tauto. by apply same_mmap_entries.
Qed.

Lemma same_fits a l last :
  lo ≤ a → tags_from m hi a l last TagStop → Forall (tag_fits m hi) (l ++ [last]) →
  Forall (tag_fits m' hi) (l ++ [last]).
Proof.
  intros Ha H. remember TagStop as v eqn:Hv. revert Ha Hv.
  induction H as [a Hc|a l last v Hc Ht IH]; intros Ha Hv Hf; apply Forall_cons in Hf as [Hf Hfs].
  - constructor; [|done]. intros H8. destruct (same_tag a Ha H8) as [-> ->]. destruct (Hf H8) as [H1 _].
    split; [done|]. intros H6. exfalso. revert Hv. unfold check_tag. rewrite H6.
    repeat case_decide; try done; lia.
  - destruct (check_tag_next _ _ _ Hc) as (H1 & H2 & H3 & H4). constructor.
    + intros H8. destruct (Hf H8) as [H5 H6]. destruct (same_tag a Ha H8) as [-> ->]. split; [done|].
      intros H7 H9. rewrite same_entry_size; [by apply H6|done|]. unfold round_up_8 in *. lia.
    + apply IH; [unfold round_up_8, TAG_SIZE in *; lia|done..].
Qed.

Lemma same_mmap_tag a l last v :
  lo ≤ a → tags_from m hi a l last v → Exists (is_mmap_tag m) l → Exists (is_mmap_tag m') l.
Proof.
  intros Ha H. revert Ha. induction H as [a Hc|a l last v Hc Ht IH]; intros Ha He; [by apply Exists_nil in He|].
  destruct (check_tag_next _ _ _ Hc) as (H1 & H2 & _). apply Exists_cons. apply Exists_cons in He as [He|He].
  - left. unfold is_mmap_tag in *. by rewrite (proj1 (same_tag a Ha H1)).
  - right. apply IH; [unfold round_up_8, TAG_SIZE in *; lia|done].
Qed.
End transfer.

Lemma same_accepted `{KernelLayout, KernelImage} m m' info l last :
  (∀ x, info ≤ x < info + vword m info → vbyte m' x = vbyte m x) → info_accepted m info l last →
  vword m' info = vword m info ∧ info_accepted m' info l last ∧ tags_entries m' l = tags_entries m l.
Proof.
  intros Hs [Hsize Htags Hmm Hfits]. unfold INFO_HEADER_SIZE in *.
  assert (vword m' info = vword m info) as E by (eapply same_word; [exact Hs|lia|lia]).
  split; [exact E|]. split; [split; rewrite ?E|].
  - done.
  - eapply same_tags_from; [exact Hs|unfold INFO_HEADER_SIZE; lia|done].
  - eapply same_mmap_tag; [exact Hs| |exact Htags|done]. unfold INFO_HEADER_SIZE; lia.
  - eapply same_fits; [exact Hs| |exact Htags|done]. unfold INFO_HEADER_SIZE; lia.
  - eapply same_entries; [exact Hs| |exact Htags]. unfold INFO_HEADER_SIZE; lia.
Qed.

(** ** The boot *)
Section early_boot.
Context `{KL : KernelLayout, KLO : !KernelLayoutOk, KI : KernelImage, PO : Ports, IS : InterruptStubs}.
Context `{UR : !UartReady, SF : StackFrame, BF : BuildFlags, BP : BreakpointFrame}.
Implicit Types s : kernel.

(** What is left of [stage0_main] when Stage 8B is done. *)
Definition boot_from_heap : M kernel unit :=
  stage8c_run_kheap_bootstrap_self_check ;;
  stage8d_run_kheap_validation_self_check ;;
  stage9a_run_kheap_free_groundwork_self_check ;;
  stage9b_run_kheap_reuse_activation_self_check ;;
  stage9c_run_kheap_fragmentation_reuse_self_check ;;
  stage9d_run_kheap_lifecycle_validation_self_check ;;
  stage10a_run_kmalloc_interface_self_check ;;
  stage10b_run_kmalloc_allocation_semantics_self_check ;;
  stage10c_run_kmemory_primitives_self_check ;;
  stage10d_run_kmalloc_lifecycle_hardening_self_check ;;
  stage10e_run_allocation_api_validation_suite_self_check ;;
  stage11a_run_kobject_groundwork_self_check ;;
  stage11b_run_kobject_linked_structure_self_check ;;
  stage11c_run_kobject_traversal_self_check ;;
  stage11d_run_kobject_removal_self_check ;;
  stage11e_run_kobject_lifecycle_validation_suite_self_check ;;
  (if STAGE6D_FORCE_REUSE_TEST then stage6d_run_reuse_self_test else mret tt) ;;
  zoom platform_lens idt_install ;;
  io (pic_remap (u8 IRQ_BASE_VECTOR) (u8 (IRQ_BASE_VECTOR + 8))) ;;
  io (pic_set_masks 0xFC 0xFF) ;;
  io (pit_init PIT_TARGET_HZ) ;;
  io (write_text "custom-os Stage 6: Multiboot2 handoff OK" 1) ;;
  io (write_text "custom-os Stage 6: IDT installed" 2) ;;
  io (write_text "custom-os Stage 6: PIC remapped + PIT started" 3) ;;
  io (write_text "custom-os Stage 6: deterministic init OK" 4) ;;
  SelfChecks.say "custom-os Stage 6: Multiboot2 handoff OK" ;;
  SelfChecks.say "custom-os Stage 6: IDT installed" ;;
  SelfChecks.say "custom-os Stage 6: PIC remapped + PIT started" ;;
  SelfChecks.say "custom-os Stage 6: deterministic init OK" ;;
  if STAGE2_FORCE_EXCEPTION then
    io (write_text "custom-os Stage 6: triggering INT3 test" 6) ;;
    SelfChecks.say "custom-os Stage 6: triggering INT3 test" ;;
    io (stage2_exception_dispatch 3 0 bp_eip bp_cs bp_eflags)
  else mret tt.

(** The machine at the hand-over: paging as after a reset, zeroed tables, and
    information that is well formed, clear of the screen, and lists at most 64
    entries in ascending order. *)
Record handed_over (D : Z → Prop) (info : Z) (l : list Z) (last c0 c3 : Z) (t : gmap Z Z) s : Prop := {
  ho_paging : view k_paging_lens s = reset_paging_state c0 c3 t;
  ho_cr0 : is_u32 c0;
  ho_readable : info_readable (view k_memory_lens s) D info;
  ho_accepted : info_accepted (view k_memory_lens s) info l last;
  ho_off_screen x : info ≤ x < info + vword (view k_memory_lens s) info → ¬ screen x;
  ho_not_null : info ≠ 0;
  ho_entries : (length (tags_entries (view k_memory_lens s) l) ≤ 64)%nat;
  ho_ascending : StronglySorted entry_before (tags_entries (view k_memory_lens s) l);
  ho_regions : length (regions (k_memory_map s)) = 128%nat;
  ho_ranges : length (ranges (frames (k_pmm s))) = 128%nat;
  ho_queue : length (pending_free_frames (k_pmm s)) = 64%nat;
  ho_pending : pending_free_count (k_pmm s) = 0;
}.

(** The interrupt code's table and counter are as they were. *)
Definition same_tables s s' : Prop :=
  g_idt (k_platform s') = g_idt (k_platform s) ∧ g_timer_ticks (k_platform s') = g_timer_ticks (k_platform s).

Lemma paging_stages_then c0 c3 t s (rest : M kernel unit) :
  view k_paging_lens s = reset_paging_state c0 c3 t → is_u32 c0 →
  (∀ a, 0 ≤ a < 0x100000 → in_kernel_image a = false) →
  ∃ s' p, (stage7a_run_paging_groundwork_self_check ;; stage7b_run_static_paging_setup_self_check ;;
      stage7c_run_paging_activation_self_check ;; stage7d_run_identity_validation_self_check ;;
      stage8a_run_vmm_layout_policy_self_check ;; stage8b_run_vmm_mapping_interface_self_check ;; rest) s
      = rest s' ∧
    passes 11 p s s' ∧ vmm_wf p ∧
    ∀ va, is_u32 va → translate p va = if va <? 0x400000 then Some va else None.
Proof.
  intros Hp H0 Hi. destruct (paging_stages_run c0 c3 t s Hp H0 Hi) as (s' & p & E & HP).
  exists s', p. split; [|exact HP]. clear HP. revert E. unfold mbind, M_bind.
  destruct (stage7a_run_paging_groundwork_self_check s) as [[] s1| | | |]; try done.
  destruct (stage7b_run_static_paging_setup_self_check s1) as [[] s2| | | |]; try done.
  destruct (stage7c_run_paging_activation_self_check s2) as [[] s3| | | |]; try done.
  destruct (stage7d_run_identity_validation_self_check s3) as [[] s4| | | |]; try done.
  destruct (stage8a_run_vmm_layout_policy_self_check s4) as [[] s5| | | |]; try done.
  by intros ->.
Qed.

Lemma frames_stages_then D fuel info s l last (rest : M kernel unit) :
  let m := view k_memory_lens s in
  let es := tags_entries m l in
  info_readable m D info → info_accepted m info l last → vword m info < 8 * Z.of_nat fuel →
  length (regions (k_memory_map s)) = 128%nat → length (ranges (frames (k_pmm s))) = 128%nat →
  length (pending_free_frames (k_pmm s)) = 64%nat → pending_free_count (k_pmm s) = 0 →
  image_ok → (length es ≤ 64)%nat → StronglySorted entry_before es →
  ∃ s', (stage5a_parse_mmap fuel info ;; stage5c_prepare_frame_bookkeeping ;;
      stage5d_run_boot_allocation_test ;; rest) s = rest s' ∧
    view k_memory_lens s' = m ∧ pmm_wf (k_pmm s') ∧
    abstract (k_pmm s') = after_allocations (table (k_pmm s') ≫= frames_of) 4 ∧
    (∀ k, in_ranges (table (k_pmm s')) k ↔ ∃ e, e ∈ es ∧ entry_offers e k) ∧
    k_heap s' = k_heap s ∧ same_tables s s'.
Proof.
  intros m es Hr Ha Hfuel Hlen Hlenf Hq Hpend Himg Hfew Hasc.
  destruct (map_to_frames_run D fuel info s l last Hr Ha Hfuel Hlen Hlenf Himg)
    as (s1 & b & f & E1 & R1 & _ & Hsound & Hcomplete & Htotal & Hnodrop & Hok).
  destruct (Hnodrop Hfew) as [Hd Hd']. specialize (Hcomplete Hd Hd'). specialize (Htotal Hd'). specialize (Hok Hasc).
  assert (k_pmm s1 = set_frames f (k_pmm s)) as Ep by (by rewrite (reports_pmm _ _ _ R1)).
  assert (unseeded (k_pmm s1)) as Hun by (rewrite Ep; by split_and!).
  pose proof (stage5d_run s1 Hun) as Hwp. apply wp_run in Hwp as ([] & s2 & E2 & p & Hwf & Hfr & Habs & R2).
  assert (k_pmm s2 = p) as Ep2 by (by rewrite (reports_pmm _ _ _ R2)).
  assert (table p = recorded_ranges f) as Etab by (unfold table; by rewrite Hfr, Ep).
  exists s2. split.
  { revert E1. unfold mbind, M_bind. destruct (stage5a_parse_mmap fuel info s) as [[] s0| | | |]; try done.
    intros ->. by rewrite E2. }
  split; [|rewrite Ep2; split_and!; [done| | | |]].
  - rewrite (reports_memory _ _ _ R2). trans (view k_memory_lens s1); [by destruct s1|].
    rewrite (reports_memory _ _ _ R1). by destruct s.
  - rewrite Habs. unfold table. by rewrite Hfr.
  - intros k. rewrite Etab. split; [apply Hsound|]. intros (e & He & Hoff). by eapply Hcomplete.
  - destruct R1 as (t1 & c1 & _ & ->), R2 as (t2 & c2 & _ & ->). done.
  - destruct R1 as (t1 & c1 & _ & ->), R2 as (t2 & c2 & _ & ->). done.
Qed.

(** The log ends in lines with these verdicts, and no others. *)
Definition reported (vs : list bool) (log : list port_event) : Prop :=
  ∃ evs before ls, log = evs ++ before ∧ transmitted evs = lines_bytes ls ∧ omap verdict ls = vs.

(** A build without the forced panic that a Multiboot2 loader starts runs up to
    the heap on every machine: no check panics, faults or runs on.  The frame
    allocator then holds exactly the frames the loader's map offers and has
    granted the four lowest; the processor translates by the identity map of
    the first 4 MiB alone. *)
Lemma early_boot_run D fuel info l last c0 c3 t s :
  let m := view k_memory_lens s in
  STAGE1_FORCE_PANIC = false → handed_over D info l last c0 c3 t s →
  vword m info < 8 * Z.of_nat fuel → image_ok →
  (∀ a, 0 ≤ a < 0x100000 → in_kernel_image a = false) →
  ∃ s' p, stage0_main fuel MULTIBOOT2_BOOTLOADER_MAGIC info s = boot_from_heap s' ∧
    pmm_wf (k_pmm s') ∧
    abstract (k_pmm s') = after_allocations (table (k_pmm s') ≫= frames_of) 4 ∧
    (∀ k, in_ranges (table (k_pmm s')) k ↔ ∃ e, e ∈ tags_entries m l ∧ entry_offers e k) ∧
    view k_paging_lens s' = p ∧ vmm_wf p ∧
    (∀ va, is_u32 va → translate p va = if va <? 0x400000 then Some va else None) ∧
    k_heap s' = k_heap s ∧ same_tables s s' ∧
    reported (replicate 11 true) (con_log (view k_console_lens s')).
Proof.
  intros m Hnoforce [Hp H0 Hr Ha Hoff Hnn Hfew Hasc Hl1 Hl2 Hl3 Hl4] Hfuel Himg Hlow.
  pose proof (ir_usable _ _ _ Hr) as Hu. pose proof (ir_screen _ _ _ Hr) as Hscr.
  destruct (greeting_run D s Hu Hscr) as (s1 & G & Hrun). pose proof (greeted_usable _ _ _ G Hu) as Hu1.
  destruct G as [Gr Gp Gb].
  destruct (same_accepted m (view k_memory_lens s1) info l last) as (Ew & Ha1 & Ees); [|done|].
  { intros x Hx. apply Gb; [apply (ir_window _ _ _ Hr); fold m; lia|by apply Hoff]. }
  assert (k_memory_map s1 = k_memory_map s ∧ k_pmm s1 = k_pmm s) as [Emap Epmm] by (by rewrite Gr).
  assert (info_readable (view k_memory_lens s1) D info) as Hr1.
  { destruct Hr. unfold m in Ew. by split; rewrite ?Ew. }
  edestruct (frames_stages_then D fuel info s1 l last) as (s2 & E2 & Em2 & Hwf & Habs & Hfr & Eh2 & Ei2);
    [exact Hr1|exact Ha1|by rewrite Ew|by rewrite Emap|by rewrite Epmm..|exact Himg|by rewrite Ees|by rewrite Ees|].
  edestruct (paging_stages_then c0 c3 t s2) as (s3 & p & E3 & (ls & HP & Hpass) & Hvwf & Ht); [|exact H0|exact Hlow|].
  { rewrite <- Hp. change (view k_paging_lens ?x) with (paging (view k_memory_lens x)). by rewrite Em2, Gp. }
  exists s3, p. split.
  { unfold stage0_main. rewrite Hrun, Hnoforce, (Z.eqb_refl MULTIBOOT2_BOOTLOADER_MAGIC). cbn [negb].
    rewrite (proj2 (Z.eqb_neq info 0)) by done. rewrite E2. exact E3. }
  assert (k_pmm s3 = k_pmm s2) as -> by (by rewrite (pg_rest _ _ _ _ HP)).
  split; [done|]. split; [done|]. split; [by rewrite Ees in Hfr|].
  split; [by eapply progress_paging|]. split; [done|]. split; [done|].
  split; [trans (k_heap s2); [by rewrite (pg_rest _ _ _ _ HP)|by rewrite Eh2, Gr]|].
  split; [unfold same_tables in *; rewrite (pg_rest _ _ _ _ HP); rewrite Gr in Ei2; exact Ei2|].
  destruct (pg_log _ _ _ _ HP) as (evs & El & Ev & _). by exists evs, (con_log (view k_console_lens s2)), ls.
Qed.
End early_boot.

Section witnesses.
#[local] Existing Instance qemu_layout.
#[local] Existing Instance qemu_layout_ok.
#[local] Existing Instance qemu_image.
#[local] Existing Instance idle_ports.
#[local] Existing Instance demo_stubs.
#[local] Existing Instance demo_frame.
#[local] Existing Instance demo_flags.
#[local] Existing Instance demo_breakpoint.

Lemma demo_entries :
  tags_entries (boot_memory demo_info) [0x10008] =
    [mk_mmap_entry 0 0x9FC00 1; mk_mmap_entry 0x100000 0x7EE0000 1; mk_mmap_entry 0xFFFC0000 0x40000 2].
Proof. by vm_compute. Qed.

Lemma demo_handed_over :
  handed_over low_memory 0x10000 [0x10008] 0x10060 0x11 0 ∅ (boot_kernel demo_info).
Proof.
  assert (vword (boot_memory demo_info) 0x10000 = 104) as E by by vm_compute.
  split; [reflexivity|lia|apply boot_readable; by rewrite E|exact demo_accepted| |lia| | |reflexivity..].
  - intros x. change (view k_memory_lens (boot_kernel demo_info)) with (boot_memory demo_info).
    rewrite E. unfold screen, within, VGA_TEXT_BUFFER. lia.
  - change (view k_memory_lens (boot_kernel demo_info)) with (boot_memory demo_info).
    rewrite demo_entries. cbn. lia.
  - change (view k_memory_lens (boot_kernel demo_info)) with (boot_memory demo_info).
    rewrite demo_entries. repeat constructor; unfold entry_before; cbn; lia.
Qed.
End witnesses.
