(* ===== verification/BootComplete.v ===== *)
(** * The boot runs to its end

    On any machine a Multiboot2 loader hands over with a sane memory map and a
    little memory below 4 GiB, [stage0_main] returns: every check of the heap,
    the allocation interface, the objects and the frame allocator passes, the
    interrupts are set up and the last lines are on the screen and the serial
    line. *)
From Stdlib Require Import Ascii Sorted.
From S2P Require Import Prelude KernelMonad VmmLayout Paging Vmm Memory MemoryMap FrameAllocator Pmm.
From S2P Require Import Kheap KheapSpec KheapSafety HeapModel Console Interrupts Kernel.
From S2P Require Import Multiboot MultibootParse BootFrames SelfChecks PagingChecks SelfChecksHeap.
From S2P Require Import PrimitiveChecks HeapChecks SelfChecksObjects ObjectChecks HeapShortage HeapStages.
From S2P Require Import PmmChecks Boot EarlyBoot.
#[local] Open Scope Z_scope.

(** ** The memory the boot needs *)

(** Eight page frames below 4 GiB: four for Stage 5D and four for the heap. *)
Definition enough_memory `{KernelImage} (es : list multiboot2_mmap_entry) : Prop :=
  ∃ fs, NoDup fs ∧ length fs = 8%nat ∧
    ∀ k, k ∈ fs → k < 0x100000 ∧ ∃ e, e ∈ es ∧ entry_offers e k.

Lemma low_elements (l fs : list Z) b i :
  StronglySorted Z.lt l → NoDup fs → (∀ k, k ∈ fs → k ∈ l ∧ k < b) → (i < length fs)%nat →
  ∃ f, l !! i = Some f ∧ f < b.
Proof.
  intros Hl Hnd Hfs Hi.
  assert (∀ l', (∀ k, k ∈ fs → k ∈ l') → (length fs ≤ length l')%nat) as Hcount
    by (intros l' Hl'; by apply submseteq_length, NoDup_submseteq).
  destruct (l !! i) as [f|] eqn:Hf; cycle 1.
  { apply lookup_ge_None in Hf. specialize (Hcount l (λ k Hk, proj1 (Hfs k Hk))). lia. }
  exists f. split; [done|]. destruct (Z.lt_ge_cases f b) as [|Hge]; [done|exfalso].
  assert (length fs ≤ length (take i l))%nat as Hlen; [|rewrite length_take in Hlen; lia].
  apply Hcount. intros k Hk. destruct (Hfs k Hk) as [Hin Hkb].
  apply list_elem_of_lookup in Hin as [j Hj]. apply list_elem_of_lookup. exists j.
  rewrite lookup_take. case_decide as Hji; [done|]. exfalso.
  destruct (decide (i = j)) as [->|Hne]; [rewrite Hf in Hj; injection Hj; lia|].
  clear -Hl Hf Hj Hji Hne Hge Hkb. revert i j Hf Hj Hji Hne.
  induction Hl as [|x l Hl IH Hx]; intros [|i] [|j] Hf Hj Hji Hne; try done; try lia.
  - injection Hf as ->. apply (list_elem_of_lookup_2 l j) in Hj. rewrite Forall_forall in Hx. specialize (Hx _ Hj). lia.
  - eapply (IH i j); [done|done|lia|lia].
Qed.

Section supply.
Context `{KL : KernelLayout, KI : KernelImage}.

(** The allocator holds what these entries offer. *)
Definition offered (es : list multiboot2_mmap_entry) (p : pmm) : Prop :=
  ∀ k, in_ranges (table p) k ↔ ∃ e, e ∈ es ∧ entry_offers e k.

Lemma offered_low es p i :
  pmm_wf p → offered es p → enough_memory es → (i < 8)%nat →
  ∃ f, (table p ≫= frames_of) !! i = Some f ∧ f < 0x100000.
Proof.
  intros Hwf Hoff (fs & Hnd & Hlen & Hfs) Hi.
  eapply low_elements; [apply all_frames_sorted, (fr_sorted _ (wf_frames _ Hwf))|exact Hnd| |lia].
  intros k Hk. destruct (Hfs k Hk) as [Hlow He]. split; [|done].
  apply Hoff in He as (r & Hr & Hin). apply list_elem_of_bind. exists r. by rewrite elem_of_frames_of.
Qed.

Lemma offered_clear es p : offered es p → frames_clear p.
Proof.
  intros Hoff f Hf. apply Hoff in Hf as (e & _ & _ & Hmax & Hb & He & Hmin & Himg).
  change STAGE5B_POLICY_MIN_ADDR with 0x100000 in Hmin. split; [zlia|]. split; [by apply Z.mod_mul|].
  intros o Ho. unfold in_kernel_image. apply andb_false_iff. rewrite Z.leb_gt, Z.ltb_ge. lia.
Qed.

(** What the allocator is when the heap has its four pages. *)
Definition heap_supplied (p b : pmm) : Prop :=
  pmm_wf b ∧ frames b = frames p ∧ abstract b = after_allocations (table p ≫= frames_of) 8.

Lemma four_pages es p :
  pmm_wf p → offered es p → enough_memory es →
  abstract p = after_allocations (table p ≫= frames_of) 4 →
  ∃ b, granted 4 p b ∧ heap_supplied p b.
Proof.
  intros Hwf Hoff Hmem Ha. destruct (after_allocations_granted _ 4 4 p Hwf Ha) as (b & Hb & H1 & H2 & H3).
  - intros i Hi. destruct (offered_low es p (4 + i) Hwf Hoff Hmem) as (f & Hf & Hlow); [lia|].
    exists f. split; [done|]. zlia.
  - exists b. by split.
Qed.
End supply.

(** ** Interrupts and the last lines *)
Section ending.
Context `{KL : KernelLayout, KLO : !KernelLayoutOk, KI : KernelImage, PO : Ports, IS : InterruptStubs}.
Context `{UR : !UartReady, ISO : !InterruptStubsOk, BF : BuildFlags, BP : BreakpointFrame}.
Implicit Types s : kernel.

(** The breakpoint of a build that asks for an exception. *)
Definition forced_exception : M kernel unit :=
  if STAGE2_FORCE_EXCEPTION then
    io (write_text "custom-os Stage 6: triggering INT3 test" 6) ;;
    SelfChecks.say "custom-os Stage 6: triggering INT3 test" ;;
    io (stage2_exception_dispatch 3 0 bp_eip bp_cs bp_eflags)
  else mret tt.

(** What is left of [stage0_main] after the checks. *)
Definition boot_ending : M kernel unit :=
  zoom platform_lens idt_install ;;
  io (pic_remap (u8 IRQ_BASE_VECTOR) (u8 (IRQ_BASE_VECTOR + 8))) ;;
  io (pic_set_masks 0xFC 0xFF) ;;
  io (pit_init PIT_TARGET_HZ) ;;
  io (write_text "custom-os Stage 6: Multiboot2 handoff OK" 1) ;;
  io (write_text "custom-os Stage 6: IDT installed" 2) ;;
  io (write_text "custom-os Stage 6: PIC remapped + PIT started" 3) ;;
  io (write_text "custom-os Stage 6: deterministic init OK" 4) ;;
  SelfChecks.say "custom-os Stage 6: Multiboot2 handoff OK" ;;
  SelfChecks.say "custom-os Stage 6: IDT installed" ;;
  SelfChecks.say "custom-os Stage 6: PIC remapped + PIT started" ;;
  SelfChecks.say "custom-os Stage 6: deterministic init OK" ;;
  forced_exception.

Definition last_texts : list string :=
  ["custom-os Stage 6: Multiboot2 handoff OK"; "custom-os Stage 6: IDT installed";
   "custom-os Stage 6: PIC remapped + PIT started"; "custom-os Stage 6: deterministic init OK"]%string.
Definition last_cells (cell : Z → Z → Z) : Z → Z → Z :=
  foldl (λ cell '(row, text), overlay text row 0 cell) cell (zip [1; 2; 3; 4] last_texts).
Definition last_bytes : list Z := last_texts ≫= (λ text, crlf (text +:+ newline)).

(** The timer counts down from 11931, a hundredth of its input frequency. *)
Definition timer_started : list port_event :=
  [PortOut PIT_CHANNEL0 0x2E; PortOut PIT_CHANNEL0 0x9B; PortOut PIT_COMMAND 0x36].

(** Interrupts are set up, whatever state the controllers were in; of the rest
    only the screen has changed. *)
Record interrupts_ready (D : Z → Prop) s0 s : Prop := {
  rd_gates v : 0 ≤ v < 256 →
    gate_of (g_idt (k_platform s)) v = (λ h, (code_segment, h)) <$> assoc handlers v;
  rd_idtr : cpu_idtr (k_platform s) = Some (mk_idtr 2047 addr_idt);
  rd_master p : ∃ n, master_after (con_log (view k_console_lens s)) p = mk_pic Operational 0x20 4 true 0xFC n;
  rd_slave p : ∃ n, slave_after (con_log (view k_console_lens s)) p = mk_pic Operational 0x28 2 true 0xFF n;
  rd_ticks : g_timer_ticks (k_platform s) = g_timer_ticks (k_platform s0);
  rd_log : ∃ evs log, con_log (view k_console_lens s) =
      evs ++ timer_started ++ log ++ con_log (view k_console_lens s0) ∧ transmitted evs = last_bytes;
  rd_screen : draws (last_cells (screen_cell (view k_memory_lens s0))) D
    (view k_memory_lens s0) (view k_memory_lens s);
  rd_rest : k_heap s = k_heap s0 ∧ k_pmm s = k_pmm s0 ∧ k_memory_map s = k_memory_map s0;
}.

Lemma wp_console {A} (m : M console A) a c c' s (Q : A → kernel → Prop) :
  m c = Ret a c' → Q a (over k_console_lens c' s) → wp (io m) Q (over k_console_lens c s).
Proof.
  intros E HQ. apply wp_zoom. rewrite view_over. eapply wp_Ret; [exact E|]. by rewrite over_over.
Qed.

Lemma pic_after_app command data l1 l2 p :
  pic_after command data (l1 ++ l2) p = pic_after command data l1 (pic_after command data l2 p).
Proof. induction l1 as [|[] l1 IH]; cbn; by rewrite ?IH. Qed.

Lemma pit_run c :
  ∃ p, pit_init PIT_TARGET_HZ c = Ret tt (mk_console _ (con_memory c) p (timer_started ++ con_log c)).
Proof.
  eexists. unfold pit_init. change (PIT_TARGET_HZ =? 0) with false. cbv beta iota zeta.
  change (u8 (Z.land (PIT_INPUT_HZ / PIT_TARGET_HZ) 0xFF)) with 0x9B.
  change (u8 (Z.land (Z.shiftr (PIT_INPUT_HZ / PIT_TARGET_HZ) 8) 0xFF)) with 0x2E. reflexivity.
Qed.

(** What [pic_remap] does to the ports, the masks being [v1] and [v2]. *)
Definition remap_log (v1 v2 : Z) : list port_event :=
  [PortOut PIC2_DATA v2; PortOut PIC1_DATA v1; PortOut 0x80 0; PortOut PIC2_DATA 1; PortOut 0x80 0;
   PortOut PIC1_DATA 1; PortOut 0x80 0; PortOut PIC2_DATA 2; PortOut 0x80 0; PortOut PIC1_DATA 4;
   PortOut 0x80 0; PortOut PIC2_DATA 0x28; PortOut 0x80 0; PortOut PIC1_DATA 0x20; PortOut 0x80 0;
   PortOut PIC2_COMMAND 0x11; PortOut 0x80 0; PortOut PIC1_COMMAND 0x11; PortIn PIC2_DATA v2;
   PortIn PIC1_DATA v1].

Lemma remap_run c :
  ∃ q v1 v2, pic_remap (u8 IRQ_BASE_VECTOR) (u8 (IRQ_BASE_VECTOR + 8)) c =
    Ret tt (mk_console _ (con_memory c) q (remap_log v1 v2 ++ con_log c)).
Proof.
  destruct (port_read PIC1_DATA (con_ports c)) as [v1 p1] eqn:E1.
  destruct (port_read PIC2_DATA p1) as [v2 p2] eqn:E2.
  eexists _, (u8 v1), (u8 v2). unfold pic_remap. mrun (inb_run _ c _ _ E1).
  mrun (inb_run PIC2_DATA (mk_console _ (con_memory c) p1 _) _ _ E2). unfold io_wait.
  change (u8 (Z.lor PIC_ICW1_INIT PIC_ICW1_ICW4)) with 0x11. change (u8 IRQ_BASE_VECTOR) with 0x20.
  change (u8 (IRQ_BASE_VECTOR + 8)) with 0x28. change PIC_ICW4_8086 with 1.
  repeat (erewrite bind_run; [|apply outb_run]; cbv beta). rewrite outb_run. reflexivity.
Qed.

(** The controllers after [pic_remap] and [pic_set_masks], and the timer. *)
Lemma chips_run c :
  ∃ c1 c2 c3, pic_remap (u8 IRQ_BASE_VECTOR) (u8 (IRQ_BASE_VECTOR + 8)) c = Ret tt c1 ∧
    pic_set_masks 0xFC 0xFF c1 = Ret tt c2 ∧ pit_init PIT_TARGET_HZ c2 = Ret tt c3 ∧
    con_memory c3 = con_memory c ∧ con_log c3 = timer_started ++ con_log c2 ∧
    (∃ log, con_log c2 = log ++ con_log c) ∧
    (∀ p, ∃ n, master_after (con_log c2) p = mk_pic Operational 0x20 4 true 0xFC n) ∧
    (∀ p, ∃ n, slave_after (con_log c2) p = mk_pic Operational 0x28 2 true 0xFF n).
Proof.
  destruct (remap_run c) as (q & v1 & v2 & E).
  destruct (pit_run (mk_console _ (con_memory c) (port_write PIC2_DATA 0xFF (port_write PIC1_DATA 0xFC q))
    (PortOut PIC2_DATA 0xFF :: PortOut PIC1_DATA 0xFC :: remap_log v1 v2 ++ con_log c))) as (q' & E').
  eexists _, _, _. split; [exact E|]. split; [reflexivity|]. split; [exact E'|].
  split; [reflexivity|]. split; [reflexivity|].
  split; [by exists (PortOut PIC2_DATA 0xFF :: PortOut PIC1_DATA 0xFC :: remap_log v1 v2)|].
  cbn [con_log]. unfold master_after, slave_after.
  split; intros p; rewrite !app_comm_cons, pic_after_app;
    match goal with |- context [pic_after _ _ (con_log c) ?p] => destruct (pic_after _ _ (con_log c) p) as [st b k f m e] end;
    exists e; vm_compute; reflexivity.
Qed.
(** The four texts on the screen, and on the serial line. *)
Lemma texts_run D c :
  usable (con_memory c) D → (∀ a, screen a → D a) →
  ∃ c1 c2 c3 c4, write_text "custom-os Stage 6: Multiboot2 handoff OK" 1 c = Ret tt c1 ∧
    write_text "custom-os Stage 6: IDT installed" 2 c1 = Ret tt c2 ∧
    write_text "custom-os Stage 6: PIC remapped + PIT started" 3 c2 = Ret tt c3 ∧
    write_text "custom-os Stage 6: deterministic init OK" 4 c3 = Ret tt c4 ∧
    shown (last_cells (screen_cell (con_memory c))) [] D c c4.
Proof.
  intros Hu HD. assert (shown (screen_cell (con_memory c)) [] D c c) as H by (split; [done|by exists []]).
  unfold write_text.
  destruct (shown_text _ _ D c c "custom-os Stage 6: Multiboot2 handoff OK" 1 0 Hu HD H)
    as (c1 & E1 & H1); [done..|by vm_compute|].
  destruct (shown_text _ _ D c c1 "custom-os Stage 6: IDT installed" 2 0 Hu HD H1)
    as (c2 & E2 & H2); [done..|by vm_compute|].
  destruct (shown_text _ _ D c c2 "custom-os Stage 6: PIC remapped + PIT started" 3 0 Hu HD H2)
    as (c3 & E3 & H3); [done..|by vm_compute|].
  destruct (shown_text _ _ D c c3 "custom-os Stage 6: deterministic init OK" 4 0 Hu HD H3)
    as (c4 & E4 & H4); [done..|by vm_compute|].
  exists c1, c2, c3, c4. by split_and!.
Qed.

Lemma lines_run cell D c0 c :
  shown cell [] D c0 c →
  ∃ c1 c2 c3 c4, serial_write_text ("custom-os Stage 6: Multiboot2 handoff OK" +:+ newline) c = Ret tt c1 ∧
    serial_write_text ("custom-os Stage 6: IDT installed" +:+ newline) c1 = Ret tt c2 ∧
    serial_write_text ("custom-os Stage 6: PIC remapped + PIT started" +:+ newline) c2 = Ret tt c3 ∧
    serial_write_text ("custom-os Stage 6: deterministic init OK" +:+ newline) c3 = Ret tt c4 ∧
    shown cell last_bytes D c0 c4.
Proof.
  intros H.
  destruct (shown_serial _ _ D c0 c ("custom-os Stage 6: Multiboot2 handoff OK" +:+ newline) H)
    as (c1 & E1 & H1); [by vm_compute..|].
  destruct (shown_serial _ _ D c0 c1 ("custom-os Stage 6: IDT installed" +:+ newline) H1)
    as (c2 & E2 & H2); [by vm_compute..|].
  destruct (shown_serial _ _ D c0 c2 ("custom-os Stage 6: PIC remapped + PIT started" +:+ newline) H2)
    as (c3 & E3 & H3); [by vm_compute..|].
  destruct (shown_serial _ _ D c0 c3 ("custom-os Stage 6: deterministic init OK" +:+ newline) H3)
    as (c4 & E4 & H4); [by vm_compute..|].
  exists c1, c2, c3, c4. by split_and!.
Qed.

Lemma boot_ending_ends D s Q P :
  usable (view k_memory_lens s) D → (∀ x, screen x → D x) → length (g_idt (k_platform s)) = 256%nat →
  (∀ s', interrupts_ready D s s' → ends forced_exception Q P s') → ends boot_ending Q P s.
Proof.
  intros Hu HD Hidt HQ. destruct (idt_install_run ISO (k_platform s) Hidt) as (p & E & Hl & Hg & Hr & Hc & Htick).
  unfold boot_ending. apply ends_bind_wp, wp_zoom. eapply wp_Ret; [exact E|].
  set (s1 := over platform_lens p s).
  assert (s1 = over k_console_lens (view k_console_lens s) s1) as Es1.
  { unfold s1. change (view k_console_lens s) with (plat_console (k_platform s)). rewrite <- Hc. by destruct s, p. }
  rewrite Es1. clear E Es1. set (c := view k_console_lens s).
  destruct (chips_run c) as (c1 & c2 & c3 & E1 & E2 & E3 & Em & Elog & (log & Elog2) & Hma & Hsl).
  apply ends_bind_wp. eapply wp_console; [exact E1|]. apply ends_bind_wp. eapply wp_console; [exact E2|].
  apply ends_bind_wp. eapply wp_console; [exact E3|].
  destruct (texts_run D c3) as (t1 & t2 & t3 & t4 & T1 & T2 & T3 & T4 & H); [by rewrite Em|done|].
  apply ends_bind_wp. eapply wp_console; [exact T1|]. apply ends_bind_wp. eapply wp_console; [exact T2|].
  apply ends_bind_wp. eapply wp_console; [exact T3|]. apply ends_bind_wp. eapply wp_console; [exact T4|].
  destruct (lines_run _ _ _ _ H) as (l1 & l2 & l3 & l4 & L1 & L2 & L3 & L4 & [Hd (evs & Ev & Htr & Hser)]).
  apply ends_bind_wp. eapply wp_console; [exact L1|]. apply ends_bind_wp. eapply wp_console; [exact L2|].
  apply ends_bind_wp. eapply wp_console; [exact L3|]. apply ends_bind_wp. eapply wp_console; [exact L4|].
  apply HQ. rewrite Em in Hd.
  assert (view k_console_lens (over k_console_lens l4 s1) = l4) as Ev4 by apply view_over.
  split; rewrite ?Ev4, ?Ev, ?Elog; try done.
  - intros q. unfold master_after. rewrite pic_after_serial by done. apply Hma.
  - intros q. unfold slave_after. rewrite pic_after_serial by done. apply Hsl.
  - exists evs, log. by rewrite Elog2.
Qed.
End ending.

(** ** The whole boot *)
Section boot_complete.
Context `{KL : KernelLayout, KLO : !KernelLayoutOk, KI : KernelImage, PO : Ports, IS : InterruptStubs}.
Context `{UR : !UartReady, ISO : !InterruptStubsOk, SF : StackFrame, SFO : !StackFrameOk}.
Context `{BF : BuildFlags, BP : BreakpointFrame}.
Implicit Types s : kernel.

(** The frames [l] that are granted and the verdicts that are given, with or
    without Stage 6D, which takes two frames of those the heap leaves. *)
Definition frames_granted : nat := if STAGE6D_FORCE_REUSE_TEST then 10 else 8.
Definition verdicts_6d (l : list Z) : list bool :=
  if STAGE6D_FORCE_REUSE_TEST then reuse_verdicts (length l - 8) else [].
Definition verdicts (l : list Z) : list bool := replicate 94 true ++ verdicts_6d l.

(** With three frames left for Stage 6D there is no failure among them. *)
Lemma verdicts_good l : (11 ≤ length l)%nat → Forall (λ v, v = true) (verdicts l).
Proof.
  intros Hl. unfold verdicts, verdicts_6d. apply Forall_app. split; [by apply Forall_replicate|].
  destruct STAGE6D_FORCE_REUSE_TEST; [|done]. replace (length l - 8)%nat with (3 + (length l - 11))%nat by lia.
  by apply (Forall_replicate _ 9).
Qed.

Lemma reuse_run es s :
  let x := machine_of s in
  let l := table (k_pmm s) ≫= frames_of in
  pmm_wf (k_pmm s) → offered es (k_pmm s) → abstract (k_pmm s) = after_allocations l 8 →
  wp (if STAGE6D_FORCE_REUSE_TEST then stage6d_run_reuse_self_test else mret tt)
    (λ _ s', judged (verdicts_6d l)
      (allocator_at (frames (k_pmm s)) (mem x) (heap x) (after_allocations l frames_granted)) s s') s.
Proof.
  intros x l Hwf Hoff Ha. unfold verdicts_6d, frames_granted. destruct STAGE6D_FORCE_REUSE_TEST; cycle 1.
  { apply wp_ret. exists []. split; [by apply told_refl|done]. }
  assert (after_allocations l 10 = mk_alloc_spec (take 8 l ++ take 2 (drop 8 l)) (drop 2 (drop 8 l)) []) as ->
    by (unfold after_allocations; by rewrite take_take_drop, drop_drop).
  rewrite <- length_drop. apply stage6d_judged.
  - by split.
  - rewrite take_drop. apply all_frames_NoDup, (fr_sorted _ (wf_frames _ Hwf)).
  - rewrite take_drop. intros (r & H0 & Hr)%list_elem_of_bind.
    assert (in_ranges (table (k_pmm s)) 0) as (e & _ & He)%Hoff by (exists r; by rewrite <- elem_of_frames_of).
    unfold entry_offers, STAGE5B_POLICY_MIN_ADDR in He. lia.
  - intros y Hy. apply (range_frame_u64 (k_pmm s)); [by apply wf_frames|]. fold l.
    rewrite <- (take_drop 8 l). apply elem_of_app. by right.
Qed.

(** The heap stays as it is when more frames are granted. *)
Lemma live_after l n m p q f :
  (n ≤ m)%nat → abstract p = after_allocations l n → abstract q = after_allocations l m →
  live p f → live q f.
Proof.
  intros Hnm Hp Hq [Hi _]. unfold live.
  assert (issued p = take n l ∧ issued q = take m l ∧ queue q = []) as (Ep & -> & ->)
    by (by injection Hp; injection Hq).
  split; [|apply not_elem_of_nil]. rewrite Ep in Hi.
  apply list_elem_of_lookup in Hi as [i Hi]. apply lookup_take_Some in Hi as [Hi Hlt].
  apply list_elem_of_lookup. exists i. apply lookup_take_Some. split; [done|lia].
Qed.

Lemma heap_inv_more bs x n m p l :
  heap_inv bs x → pmm_wf p → frames p = frames (allocator x) → (n ≤ m)%nat →
  abstract (allocator x) = after_allocations l n → abstract p = after_allocations l m →
  heap_inv bs (set_allocator p x).
Proof.
  intros Hi Hwf Hfr Hnm Hn Hm. apply heap_inv_set_allocator; [done| |].
  - destruct (hi_allocator _ _ Hi) as [_ Hclear]. split; [done|]. unfold frames_clear, table in *. by rewrite Hfr.
  - intros pa (f & -> & Hf). exists f. split; [done|]. by eapply live_after.
Qed.

(** The screen and the heap can be used together: the heap's pages are at or
    above 1 MiB. *)
Lemma screen_and_heap es bs x :
  heap_inv bs x → offered es (allocator x) →
  (∀ va, 0 ≤ va < 0x400000 → translate (paging (mem x)) va = Some va) →
  (∀ a, 0 ≤ a < 0x100000 → in_kernel_image a = false) →
  usable (mem x) (λ a, screen a ∨ mapped_heap x a).
Proof.
  intros Hi Hoff Ht Himg.
  assert (∀ a, screen a → 0 ≤ a < 0x100000 ∧ phys (mem x) a = Some a) as Hs.
  { intros a Ha. assert (0 ≤ a < 0x100000) as Hr by (unfold screen, within, VGA_TEXT_BUFFER in Ha; lia).
    split; [done|]. unfold phys. rewrite Ht by lia. cbn. by rewrite Himg. }
  assert (∀ b pa, mapped_heap x b → phys (mem x) b = Some pa → 0x100000 ≤ pa) as Hh.
  { intros b pa Hb Hp. unfold phys in Hp. destruct (translate (paging (mem x)) b) as [pa'|] eqn:Et; [|done].
    cbn in Hp. destruct (in_kernel_image pa'); [done|]. injection Hp as ->.
    destruct (hi_backed _ _ Hi b pa Hb Et) as (f & Ef & [Hf _]).
    apply issued_in_ranges in Hf; [|apply (hi_allocator _ _ Hi)].
    apply Hoff in Hf as (e & _ & _ & _ & _ & _ & Hmin & _). unfold STAGE5B_POLICY_MIN_ADDR in Hmin. zlia. }
  split.
  - intros a [Ha|Ha]; [destruct (Hs a Ha) as [_ ->]; eauto|by apply (usable_phys _ _ (hi_usable _ _ Hi))].
  - intros a b [Ha|Ha] [Hb|Hb] E.
    + destruct (Hs a Ha) as [_ Ea], (Hs b Hb) as [_ Eb]. congruence.
    + destruct (Hs a Ha) as [Hr Ea]. rewrite Ea in E. symmetry in E. apply Hh in E; [lia|done].
    + destruct (Hs b Hb) as [Hr Eb]. rewrite Eb in E. apply Hh in E; [lia|done].
    + by apply (usable_inj _ _ (hi_usable _ _ Hi)).
Qed.
(** The machine while the kernel waits for interrupts: what the allocator has
    issued, the heap the checks leave, the map of the first 4 MiB, the loaded
    interrupt table and the controllers, whatever they were at power-on. *)
Record running (es : list multiboot2_mmap_entry) s : Prop := {
  run_allocator : pmm_wf (k_pmm s);
  run_offered : offered es (k_pmm s);
  run_granted : abstract (k_pmm s) = after_allocations (table (k_pmm s) ≫= frames_of) frames_granted;
  run_heap : heap_inv (md_blocks heap_11e) (machine_of s);
  run_identity va : 0 ≤ va < 0x400000 → translate (view k_paging_lens s) va = Some va;
  run_gates v : 0 ≤ v < 256 →
    gate_of (g_idt (k_platform s)) v = (λ h, (code_segment, h)) <$> assoc handlers v;
  run_idtr : cpu_idtr (k_platform s) = Some (mk_idtr 2047 addr_idt);
  run_master p : ∃ n, master_after (con_log (view k_console_lens s)) p = mk_pic Operational 0x20 4 true 0xFC n;
  run_slave p : ∃ n, slave_after (con_log (view k_console_lens s)) p = mk_pic Operational 0x28 2 true 0xFF n;
  run_ticks : is_u32 (g_timer_ticks (k_platform s));
}.

(** The end of the boot: the counter is still 0, and the log ends with the
    verdicts, the timer's start and the last lines, which are on the screen. *)
Record booted (es : list multiboot2_mmap_entry) s : Prop := {
  bo_running : running es s;
  bo_ticks : g_timer_ticks (k_platform s) = 0;
  bo_log : ∃ evs log before, con_log (view k_console_lens s) = evs ++ timer_started ++ log ++ before ∧
    transmitted evs = last_bytes ∧ reported (verdicts (table (k_pmm s) ≫= frames_of)) before;
  bo_screen row text col : (row, text) ∈ zip [1; 2; 3; 4] last_texts →
    0 ≤ col < Z.of_nat (String.length text) →
    screen_cell (view k_memory_lens s) row col = vga_cell (text_get text col);
}.

Lemma reported_more v1 v2 P s0 s1 :
  reported v1 (con_log (view k_console_lens s0)) → judged v2 P s0 s1 →
  reported (v1 ++ v2) (con_log (view k_console_lens s1)).
Proof.
  intros (e1 & b & l1 & E1 & T1 & V1) (l2 & [_ _ _ _ (e2 & E & T2 & _)] & V2).
  exists (e2 ++ e1), b, (l1 ++ l2). split; [by rewrite E, E1, app_assoc|]. split.
  - unfold transmitted, lines_bytes in *. by rewrite omap_app, rev_app_distr, T1, T2, bind_app.
  - by rewrite omap_app, V1, V2.
Qed.

Lemma last_cells_at cell row text col :
  (row, text) ∈ zip [1; 2; 3; 4] last_texts → 0 ≤ col < Z.of_nat (String.length text) →
  last_cells cell row col = vga_cell (text_get text col).
Proof.
  intros Hin Hcol. unfold last_cells, last_texts in *. cbn [foldl zip zip_with] in *. unfold overlay.
  rewrite !elem_of_cons in Hin. destruct Hin as [E|[E|[E|[E|[]%not_elem_of_nil]]]]; injection E as -> ->;
    repeat (rewrite decide_False by lia); rewrite decide_True by lia; by rewrite Z.sub_0_r.
Qed.

Lemma judged_low vs P s0 s p :
  judged vs P s0 s → view k_paging_lens s0 = p →
  (∀ va, is_u32 va → translate p va = if va <? 0x400000 then Some va else None) →
  ∀ va, 0 ≤ va < 0x400000 → translate (view k_paging_lens s) va = Some va.
Proof.
  intros (ls & HT & _) Hp Ht va Hva. rewrite (told_outside _ _ _ _ HT); [|lia|unfold HEAP_START; lia].
  rewrite Hp, Ht by lia. by rewrite (proj2 (Z.ltb_lt _ _)) by lia.
Qed.
(** All checks have passed, Stage 6D's too where it is built in. *)
Record checks_done (es : list multiboot2_mmap_entry) s : Prop := {
  cd_idt : length (g_idt (k_platform s)) = 256%nat;
  cd_ticks : g_timer_ticks (k_platform s) = 0;
  cd_allocator : pmm_wf (k_pmm s);
  cd_offered : offered es (k_pmm s);
  cd_granted : abstract (k_pmm s) = after_allocations (table (k_pmm s) ≫= frames_of) frames_granted;
  cd_heap : heap_inv (md_blocks heap_11e) (machine_of s);
  cd_identity va : 0 ≤ va < 0x400000 → translate (view k_paging_lens s) va = Some va;
  cd_reported : reported (verdicts (table (k_pmm s) ≫= frames_of)) (con_log (view k_console_lens s));
}.

(** The last part of the boot, with the screen and the heap in use. *)
Lemma ending_ends es s Q P :
  (∀ a, 0 ≤ a < 0x100000 → in_kernel_image a = false) → checks_done es s →
  (∀ D s', (∀ a, D a ↔ screen a ∨ mapped_heap (machine_of s) a) → usable (view k_memory_lens s) D →
    interrupts_ready D s s' → ends forced_exception Q P s') →
  ends boot_ending Q P s.
Proof.
  intros Himg Hc HQ.
  pose proof (screen_and_heap es _ (machine_of s) (cd_heap _ _ Hc) (cd_offered _ _ Hc) (cd_identity _ _ Hc) Himg) as Hu.
  eapply boot_ending_ends; [exact Hu|by left|apply Hc|]. intros s' H.
  by apply (HQ (λ a, screen a ∨ mapped_heap (machine_of s) a)).
Qed.

(** Without the breakpoint the boot ends there. *)
Lemma ending_run es s :
  STAGE2_FORCE_EXCEPTION = false → (∀ a, 0 ≤ a < 0x100000 → in_kernel_image a = false) →
  checks_done es s → wp boot_ending (λ _ s', booted es s') s.
Proof.
  intros Hno Himg Hc. pose proof Hc as [_ Htick Hwf Hoff Hgr Hheap Hid Hrep].
  apply wp_ends, (ending_ends es); [done|done|].
  intros D s' HD _ [G1 G2 G3 G4 G5 (evs & log & El & Et) [Hp Hcell Ho] (Eh & Ep & _)].
  unfold forced_exception. rewrite Hno. apply ends_ret.
  assert (machine_of s' = set_mem (view k_memory_lens s') (machine_of s)) as Em
    by (unfold machine_of, set_mem; cbn [mem heap allocator]; by rewrite Eh, Ep).
  split; [split; try (by rewrite Ep); try done| | |].
  - rewrite Em. apply heap_inv_payload_writes; [done|done|]. intros a Ha _. apply Ho; [by apply HD; right|].
    unfold mapped_heap, within, screen, VGA_TEXT_BUFFER, HEAP_START in *. unfold within. lia.
  - intros va Hva. rewrite <- (Hid va Hva). change (view k_paging_lens s') with (paging (view k_memory_lens s')).
    by rewrite Hp.
  - by rewrite G5, Htick.
  - by rewrite G5.
  - exists evs, log, (con_log (view k_console_lens s)). by rewrite El, Ep.
  - intros row text col Hin Hcol. rewrite Hcell; [by apply last_cells_at|].
    unfold last_texts in Hin. cbn [zip zip_with] in Hin. rewrite !elem_of_cons in Hin. unfold on_screen, VGA_HEIGHT, VGA_WIDTH.
    destruct Hin as [E|[E|[E|[E|[]%not_elem_of_nil]]]]; injection E as -> ->; cbn in Hcol; lia.
Qed.

Lemma from_heap_ends es p s Q P :
  length (g_idt (k_platform s)) = 256%nat → g_timer_ticks (k_platform s) = 0 →
  heap_is_initialized (k_heap s) = 0 → pmm_wf (k_pmm s) → offered es (k_pmm s) → enough_memory es →
  abstract (k_pmm s) = after_allocations (table (k_pmm s) ≫= frames_of) 4 →
  view k_paging_lens s = p → vmm_wf p →
  (∀ va, is_u32 va → translate p va = if va <? 0x400000 then Some va else None) →
  reported (replicate 11 true) (con_log (view k_console_lens s)) →
  (∀ s', checks_done es s' → ends boot_ending Q P s') → ends boot_from_heap Q P s.
Proof.
  intros Hidt Htick Hini Hwf Hoff Hmem Ha Hp Hvwf Ht Hrep HQ.
  change boot_from_heap with (heap_checks
    ((if STAGE6D_FORCE_REUSE_TEST then stage6d_run_reuse_self_test else mret tt) ;; boot_ending)).
  apply (heap_checks_run (heap_supplied (k_pmm s))).
  { split; [done|by rewrite <- Hp in Hvwf|split; [done|by eapply offered_clear]| |by eapply four_pages].
    intros va Hva. change (paging (mem (machine_of s))) with (view k_paging_lens s). rewrite Hp, Ht
      by (unfold HEAP_START, HEAP_END in Hva; lia).
    by rewrite (proj2 (Z.ltb_ge _ _)) by (unfold HEAP_START in Hva; lia). }
  intros s4 H4. pose proof H4 as (ls & HT & _). destruct (told_machine _ _ _ _ HT) as [Hi4 _ (b & Eb & Hb)].
  cbn in Eb. subst b. destruct Hb as (Hwf4 & Hfr4 & Ha4). change (allocator (machine_of s4)) with (k_pmm s4) in *.
  assert (table (k_pmm s4) = table (k_pmm s)) as Et4 by (unfold table; by rewrite Hfr4).
  assert (offered es (k_pmm s4)) as Hoff4 by (unfold offered; by rewrite Et4).
  rewrite <- Et4 in Ha4. eapply judged_step; [exact H4|intros _; by eapply reuse_run|].
  intros s5 H5. pose proof (reported_more _ _ _ _ _ Hrep H5) as Hrep5.
  pose proof (judged_low _ _ _ _ _ H5 Hp Ht) as Hid. pose proof H5 as (ls5 & HT5 & _).
  destruct (told_machine _ _ _ _ HT5) as [Hwf5 Ha5 Hfr5 Hm5 Hh5]. change (allocator (machine_of s5)) with (k_pmm s5) in *.
  assert (table (k_pmm s5) = table (k_pmm s4)) as Et5 by (unfold table; by rewrite Hfr5).
  assert (same_tables s s5) as [Ei5 Et]
    by (unfold same_tables; rewrite <- (told_platform _ _ _ _ HT5); by destruct s5 as [[]]).
  apply HQ. split; [by rewrite Ei5|by rewrite Et|done|unfold offered; by rewrite Et5|by rewrite Et5| |exact Hid|rewrite Et5; exact Hrep5].
  replace (machine_of s5) with (set_allocator (k_pmm s5) (machine_of s4)).
  - eapply (heap_inv_more _ (machine_of s4)); [done|done|done| |exact Ha4|exact Ha5].
    unfold frames_granted. destruct STAGE6D_FORCE_REUSE_TEST; lia.
  - unfold machine_of at 2. unfold set_allocator. change (view k_memory_lens s5) with (mem (machine_of s5)).
    change (k_heap s5) with (heap (machine_of s5)). by rewrite Hm5, Hh5.
Qed.

(** Up to the set-up of the interrupts. *)
Lemma boot_checks_done D fuel info l last c0 c3 t s Q P :
  let m := view k_memory_lens s in
  let es := tags_entries m l in
  STAGE1_FORCE_PANIC = false → handed_over D info l last c0 c3 t s → vword m info < 8 * Z.of_nat fuel →
  length (g_idt (k_platform s)) = 256%nat → g_timer_ticks (k_platform s) = 0 →
  heap_is_initialized (k_heap s) = 0 → enough_memory es →
  image_ok → (∀ a, 0 ≤ a < 0x100000 → in_kernel_image a = false) →
  (∀ s', checks_done es s' → ends boot_ending Q P s') →
  ends (stage0_main fuel MULTIBOOT2_BOOTLOADER_MAGIC info) Q P s.
Proof.
  intros m es H1 Hh Hfuel Hidt Htick Hini Hmem Himg Hlow HQ.
  destruct (early_boot_run D fuel info l last c0 c3 t s H1 Hh Hfuel Himg Hlow)
    as (s3 & p & E & Hwf & Ha & Hoff & Hp & Hvwf & Ht & Eh & [Ei Et] & Hrep).
  unfold ends. rewrite E. eapply (from_heap_ends es p); try done; [by rewrite Ei|by rewrite Et|by rewrite Eh].
Qed.

Lemma boot_completes_run D fuel info l last c0 c3 t s :
  let m := view k_memory_lens s in
  let es := tags_entries m l in
  STAGE1_FORCE_PANIC = false → STAGE2_FORCE_EXCEPTION = false →
  handed_over D info l last c0 c3 t s → vword m info < 8 * Z.of_nat fuel →
  length (g_idt (k_platform s)) = 256%nat → g_timer_ticks (k_platform s) = 0 →
  heap_is_initialized (k_heap s) = 0 → enough_memory es →
  image_ok → (∀ a, 0 ≤ a < 0x100000 → in_kernel_image a = false) →
  ∃ s', stage0_main fuel MULTIBOOT2_BOOTLOADER_MAGIC info s = Ret tt s' ∧ booted es s'.
Proof.
  intros m es H1 H2 Hh Hfuel Hidt Htick Hini Hmem Himg Hlow.
  assert (wp (stage0_main fuel MULTIBOOT2_BOOTLOADER_MAGIC info) (λ _ s', booted es s') s) as H.
  { apply wp_ends. eapply boot_checks_done; try done. intros s' Hc. by apply ends_wp, ending_run. }
  apply wp_run in H as ([] & s' & E & Hb). by exists s'.
Qed.

(** C6. A build without the forced panic and exception that a Multiboot2 loader
    starts boots on every machine with eight page frames to offer below 4 GiB:
    [stage0_main] returns, having reported nothing but passed checks.  Stage 6D
    of a build that runs it passes when three more frames are left. *)
Theorem boot_completes D fuel info l last c0 c3 t s :
  let m := view k_memory_lens s in
  let es := tags_entries m l in
  STAGE1_FORCE_PANIC = false → STAGE2_FORCE_EXCEPTION = false →
  handed_over D info l last c0 c3 t s → vword m info < 8 * Z.of_nat fuel →
  length (g_idt (k_platform s)) = 256%nat → g_timer_ticks (k_platform s) = 0 →
  heap_is_initialized (k_heap s) = 0 → enough_memory es →
  image_ok → (∀ a, 0 ≤ a < 0x100000 → in_kernel_image a = false) →
  ∃ s', stage0_main fuel MULTIBOOT2_BOOTLOADER_MAGIC info s = Ret tt s' ∧ booted es s'.
Proof. apply boot_completes_run. Qed.
End boot_complete.

Section witnesses.
#[local] Existing Instance qemu_layout.
#[local] Existing Instance qemu_layout_ok.
#[local] Existing Instance qemu_image.
#[local] Existing Instance idle_ports.
#[local] Existing Instance idle_ready.
#[local] Existing Instance demo_stubs.
#[local] Existing Instance demo_stubs_ok.
#[local] Existing Instance demo_frame.
#[local] Existing Instance demo_flags.
#[local] Existing Instance demo_breakpoint.

Lemma demo_frame_ok : StackFrameOk.
Proof. split; [by vm_compute|by vm_compute|]. apply usable_flat; [reflexivity|]. unfold within, in_kernel_image. simpl. lia. Qed.

Lemma demo_memory : enough_memory (tags_entries (boot_memory demo_info) [0x10008]).
Proof.
  rewrite demo_entries. exists (seqZ 0x1000 8). split; [apply NoDup_seqZ|]. split; [reflexivity|].
  intros k Hk%elem_of_seqZ. split; [lia|]. exists (mk_mmap_entry 0x100000 0x7EE0000 1).
  split; [by right; left|]. unfold entry_offers, is_available, STAGE5B_POLICY_MIN_ADDR. simpl. zlia.
Qed.

Lemma boot_completes_witness :
  ∃ s', stage0_main 100 MULTIBOOT2_BOOTLOADER_MAGIC 0x10000 (boot_kernel demo_info) = Ret tt s' ∧
    pmm_wf (k_pmm s') ∧ screen_cell (view k_memory_lens s') 4 0 = vga_cell "c"%char ∧
    ∃ n, master_after (con_log (view k_console_lens s')) demo_pic = mk_pic Operational 0x20 4 true 0xFC n.
Proof.
  destruct (boot_completes (UR := idle_ready) (ISO := demo_stubs_ok) (SFO := demo_frame_ok) (BF := demo_flags) low_memory 100 0x10000 [0x10008] 0x10060 0x11 0 ∅
    (boot_kernel demo_info) eq_refl eq_refl demo_handed_over) as (s' & E & Hb).
  - by vm_compute.
  - reflexivity.
  - reflexivity.
  - reflexivity.
  - exact demo_memory.
  - by constructor.
  - unfold in_kernel_image. simpl. lia.
  - exists s'. split; [exact E|]. split; [apply (run_allocator _ _ (bo_running _ _ Hb))|]. split; [|apply (run_master _ _ (bo_running _ _ Hb))].
    rewrite (bo_screen _ _ Hb 4 "custom-os Stage 6: deterministic init OK" 0);
      [reflexivity|by do 3 right; left|simpl; lia].
Defined.
End witnesses.
