(* ===== verification/ForcedException.v ===== *)
(** * A build that asks for an exception

    With [STAGE2_FORCE_EXCEPTION] the boot goes through every check, sets up the
    interrupts and raises a breakpoint: the loaded table leads it to its stub and
    the dispatcher stops the kernel with the frame on the screen. *)
From Stdlib Require Import Ascii.
From S2P Require Import Prelude KernelMonad VmmLayout Paging Vmm Memory MemoryMap FrameAllocator Pmm.
From S2P Require Import Kheap KheapSpec KheapSafety HeapModel Console Interrupts Kernel.
From S2P Require Import Multiboot MultibootParse BootFrames SelfChecks PagingChecks SelfChecksHeap.
From S2P Require Import PrimitiveChecks HeapChecks SelfChecksObjects ObjectChecks HeapShortage HeapStages.
From S2P Require Import PmmChecks Boot EarlyBoot BootComplete.
#[local] Open Scope Z_scope.

Section forced.
Context `{KL : KernelLayout, KLO : !KernelLayoutOk, KI : KernelImage, PO : Ports, IS : InterruptStubs}.
Context `{UR : !UartReady, ISO : !InterruptStubsOk, SF : StackFrame, SFO : !StackFrameOk}.
Context `{BF : BuildFlags, BP : BreakpointFrame}.
Implicit Types s : kernel.

(** The values the processor pushes are 32-bit words. *)
Definition breakpoint_ok : Prop := is_u32 bp_eip ∧ is_u32 bp_cs ∧ is_u32 bp_eflags.

(** The kernel after the breakpoint: the table leads to the stub, the screen
    shows the exception, and after the verdicts and the last lines the serial
    line has carried the announcement and the exception. *)
Record excepted s : Prop := {
  ex_gate : gate_of (g_idt (k_platform s)) 3 = Some (code_segment, isr_stub_breakpoint);
  ex_idtr : cpu_idtr (k_platform s) = Some (mk_idtr 2047 addr_idt);
  ex_screen r c : on_screen r c →
    screen_cell (view k_memory_lens s) r c = exception_cells 3 0 bp_eip bp_cs bp_eflags r c;
  ex_log : ∃ new log before, con_log (view k_console_lens s) = new ++ timer_started ++ log ++ before ∧
    reported (verdicts (table (k_pmm s) ≫= frames_of)) before ∧
    transmitted new = last_bytes ++ crlf ("custom-os Stage 6: triggering INT3 test" +:+ newline) ++
      exception_bytes 3 0 bp_eip bp_cs bp_eflags;
}.

Lemma shown_after cell1 cell2 b1 b2 D (c0 c1 c2 : console) :
  shown cell1 b1 D c0 c1 → shown cell2 b2 D c1 c2 → shown cell2 (b1 ++ b2) D c0 c2.
Proof.
  intros [[Hp1 _ Ho1] (e1 & E1 & T1 & F1)] [[Hp2 Hc2 Ho2] (e2 & E2 & T2 & F2)]. split.
  - split; [by unfold same_paging in *; rewrite Hp2|done|]. intros a Ha Hno. by rewrite Ho2, Ho1.
  - exists (e2 ++ e1). split; [by rewrite E2, E1, app_assoc|]. split; [|by apply Forall_app].
    unfold transmitted in *. by rewrite omap_app, rev_app_distr, T1, T2.
Qed.

Lemma forced_exception_ends D s Q P :
  STAGE2_FORCE_EXCEPTION = true → breakpoint_ok →
  usable (view k_memory_lens s) D → (∀ a, screen a → D a) →
  (∀ c, shown (exception_cells 3 0 bp_eip bp_cs bp_eflags)
      (crlf ("custom-os Stage 6: triggering INT3 test" +:+ newline) ++
       exception_bytes 3 0 bp_eip bp_cs bp_eflags) D (view k_console_lens s) c →
    P "#BP breakpoint"%string 0 (over k_console_lens c s)) →
  ends forced_exception Q P s.
Proof.
  intros Hex (Hb1 & Hb2 & Hb3) Hu HD HP. set (c := view k_console_lens s) in *.
  assert (shown (screen_cell (con_memory c)) [] D c c) as H by (split; [done|by exists []]).
  destruct (shown_text _ _ D c c "custom-os Stage 6: triggering INT3 test" 6 0 Hu HD H)
    as (c1 & E1 & H1); [done..|by vm_compute|].
  destruct (shown_serial _ _ D c c1 ("custom-os Stage 6: triggering INT3 test" +:+ newline) H1)
    as (c2 & E2 & H2); [by vm_compute..|].
  destruct (exception_dispatch_run D 3 0 bp_eip bp_cs bp_eflags c2) as (c3 & E3 & H3);
    [eapply shown_usable; [exact Hu|exact H2]|done|lia|lia|done..|].
  unfold forced_exception. rewrite Hex. rewrite <- (over_view (l := k_console_lens) s). fold c.
  apply ends_bind_wp. eapply wp_console; [exact E1|]. apply ends_bind_wp. eapply wp_console; [exact E2|].
  apply ends_zoom. rewrite view_over. unfold ends. rewrite E3, over_over. apply HP.
  by eapply shown_after.
Qed.

(** C27. A build with the breakpoint that a Multiboot2 loader starts on a machine with
    enough memory passes every check and then stops with the exception, its
    name and the processor's values on the screen and the serial line. *)
Theorem forced_exception_stops D fuel info l last c0 c3 t s :
  let m := view k_memory_lens s in
  let es := tags_entries m l in
  STAGE1_FORCE_PANIC = false → STAGE2_FORCE_EXCEPTION = true → breakpoint_ok →
  handed_over D info l last c0 c3 t s → vword m info < 8 * Z.of_nat fuel →
  length (g_idt (k_platform s)) = 256%nat → g_timer_ticks (k_platform s) = 0 →
  heap_is_initialized (k_heap s) = 0 → enough_memory es →
  image_ok → (∀ a, 0 ≤ a < 0x100000 → in_kernel_image a = false) →
  ∃ s', stage0_main fuel MULTIBOOT2_BOOTLOADER_MAGIC info s = Panic "#BP breakpoint" 0 s' ∧ excepted s'.
Proof.
  intros m es H1 H2 Hb Hh Hfuel Hidt Htick Hini Hmem Himg Hlow.
  assert (ends (stage0_main fuel MULTIBOOT2_BOOTLOADER_MAGIC info) (λ _ _, False)
    (λ r d s', (r, d) = ("#BP breakpoint"%string, 0) ∧ excepted s') s) as H.
  { eapply boot_checks_done; try done. intros s4 Hc. eapply ending_ends; [done|exact Hc|].
    intros D' s5 HD Hu [G1 G2 _ _ _ (evs & log & El & Et) [Hp _ _] (_ & Ep & _)].
    eapply (forced_exception_ends D'); [done|done|by eapply usable_same|intros a Ha; apply HD; by left|].
    intros c [[_ Hcell _] (e & Ec & Te & _)]. split; [done|]. split; [by rewrite G1|done|exact Hcell|].
    exists (e ++ evs), log, (con_log (view k_console_lens s4)).
    rewrite view_over, Ec, El, <- app_assoc. split; [done|]. split.
    { change (k_pmm (over k_console_lens c s5)) with (k_pmm s5). rewrite Ep. apply Hc. }
    unfold transmitted in *. by rewrite omap_app, rev_app_distr, Te, Et. }
  unfold ends in H. destruct (stage0_main _ _ _ _) as [|r d s'| | |]; try done.
  destruct H as [[= -> ->] Hs]. by exists s'.
Qed.
End forced.

Section witnesses.
#[local] Existing Instance qemu_layout.
#[local] Existing Instance qemu_layout_ok.
#[local] Existing Instance qemu_image.
#[local] Existing Instance idle_ports.
#[local] Existing Instance idle_ready.
#[local] Existing Instance demo_stubs.
#[local] Existing Instance demo_frame.
#[local] Existing Instance demo_breakpoint.
Definition exception_flags : BuildFlags :=
  {| STAGE1_FORCE_PANIC := false; STAGE2_FORCE_EXCEPTION := true; STAGE6D_FORCE_REUSE_TEST := false |}.
#[local] Existing Instance exception_flags.

Lemma exception_memory : enough_memory (tags_entries (boot_memory demo_info) [0x10008]).
Proof.
  rewrite demo_entries. exists (seqZ 0x1000 8). split; [apply NoDup_seqZ|]. split; [reflexivity|].
  intros k Hk%elem_of_seqZ. split; [lia|]. exists (mk_mmap_entry 0x100000 0x7EE0000 1).
  split; [by right; left|]. unfold entry_offers, is_available, STAGE5B_POLICY_MIN_ADDR. simpl. zlia.
Qed.

Lemma forced_exception_stops_witness :
  ∃ s', stage0_main 100 MULTIBOOT2_BOOTLOADER_MAGIC 0x10000 (boot_kernel demo_info) =
      Panic "#BP breakpoint" 0 s' ∧ screen_cell (view k_memory_lens s') 7 15 = vga_cell "2"%char.
Proof.
  destruct (forced_exception_stops (UR := idle_ready) (ISO := demo_stubs_ok) (SFO := demo_frame_ok)
    (BF := exception_flags) low_memory 100 0x10000 [0x10008] 0x10060 0x11 0 ∅
    (boot_kernel demo_info) eq_refl eq_refl) as (s' & E & Hx).
  - unfold breakpoint_ok. simpl. lia.
  - exact demo_handed_over.
  - by vm_compute.
  - reflexivity.
  - reflexivity.
  - reflexivity.
  - exact exception_memory.
  - by constructor.
  - unfold in_kernel_image. simpl. lia.
  - exists s'. split; [exact E|]. rewrite (ex_screen _ Hx) by (unfold on_screen, VGA_HEIGHT, VGA_WIDTH; lia).
    reflexivity.
Defined.
End witnesses.
