(* ===== verification/Running.v ===== *)
(** * The kernel while it waits for interrupts

    After the boot the processor sleeps until a controller raises a line.  It
    then takes the gate of the line's vector from the interrupt table; the stub
    there saves the registers, calls the C handler and returns
    ([arch/x86_64/stage2_exceptions.S]).  [interrupt] is what one line does to
    the kernel, [interrupts] any sequence of lines. *)
From Stdlib Require Import Ascii.
From S2P Require Import Prelude KernelMonad VmmLayout Paging Vmm Memory MemoryMap FrameAllocator Pmm.
From S2P Require Import Kheap KheapSpec KheapSafety HeapModel Console Interrupts Kernel.
From S2P Require Import Multiboot MultibootParse BootFrames SelfChecks PagingChecks SelfChecksHeap.
From S2P Require Import PrimitiveChecks HeapChecks SelfChecksObjects ObjectChecks PmmChecks Boot EarlyBoot BootComplete.
#[local] Open Scope Z_scope.

(** What the kernel is interrupted by: the timer is on line 0, the keyboard on
    line 1. *)
Inductive interrupt_source := Tick | Key (scancode : Z) | Other (line : Z).

Section running.
Context `{KL : KernelLayout, KLO : !KernelLayoutOk, KI : KernelImage, PO : Ports, IS : InterruptStubs}.
Context `{UR : !UartReady, BF : BuildFlags}.
Implicit Types s : kernel.

(** The handler behind a stub. *)
Definition stub_code (addr : Z) : option (M platform unit) :=
  if addr =? irq_stub_timer then Some stage3_irq0_handler else
  if addr =? irq_stub_keyboard then Some stage4_irq1_handler else None.

Variable power_on : pic_chip.    (* the master controller before the boot *)
Definition master s : pic_chip := master_after (con_log (view k_console_lens s)) power_on.

(** The byte the keyboard controller answers with next. *)
Definition scancode_of s : Z := u8 (fst (port_read 0x60 (con_ports (view k_console_lens s)))).

Definition source line s : interrupt_source :=
  if line =? 0 then Tick else if line =? 1 then Key (scancode_of s) else Other line.

(** The master controller passes a line on when it is set up and the line is not
    masked. *)
Definition raised line s : bool :=
  match pic_state (master s) with
  | Operational => negb (Z.testbit (pic_mask (master s)) line)
  | _ => false
  end.

(** The processor finds the gate of the vector in the loaded table and runs the
    stub there; without a table, a gate or a stub nothing is known of what it
    does. *)
Definition enter line : M kernel unit :=
  s ← get;
  let vector := pic_vector_base (master s) + line in
  match cpu_idtr (k_platform s), gate_of (g_idt (k_platform s)) vector with
  | Some r, Some (selector, addr) =>
      if (idtr_base r =? addr_idt) && (8 * vector + 7 <=? idtr_limit r) && (selector =? code_segment) then
        match stub_code addr with
        | Some handler => zoom platform_lens handler
        | None => undefined
        end
      else undefined
  | _, _ => undefined
  end.

Definition interrupt line : M kernel (option interrupt_source) :=
  s ← get;
  if raised line s then enter line ;; mret (Some (source line s)) else mret None.

(** The interrupts that were served. *)
Fixpoint interrupts (lines : list Z) : M kernel (list interrupt_source) :=
  match lines with
  | [] => mret []
  | line :: lines => i ← interrupt line; evs ← interrupts lines; mret (option_list i ++ evs)
  end.

(** The counter after these interrupts, the codes read from the keyboard, and
    what goes out on the serial line. *)
Fixpoint ticks_in (evs : list interrupt_source) : Z :=
  match evs with [] => 0 | Tick :: evs => 1 + ticks_in evs | _ :: evs => ticks_in evs end.
Definition key_of (i : interrupt_source) : option Z := match i with Key scancode => Some scancode | _ => None end.
Definition interrupt_line (t : Z) (i : interrupt_source) : list Z :=
  match i with Tick => tick_line (u32 (t + 1)) | Key scancode => key_line scancode | Other _ => [] end.
Fixpoint printed (t : Z) (evs : list interrupt_source) : list Z :=
  match evs with
  | [] => []
  | i :: evs => interrupt_line t i ++ printed (u32 (t + ticks_in [i])) evs
  end.

(** The codes the keyboard controller answered with. *)
Definition keyboard_read (e : port_event) : option Z :=
  match e with PortIn port v => if port =? 0x60 then Some v else None | _ => None end.
Definition received (log : list port_event) : list Z := rev (omap keyboard_read log).

Lemma received_app l1 l2 : received (l1 ++ l2) = received l2 ++ received l1.
Proof. unfold received. by rewrite omap_app, rev_app_distr. Qed.

Lemma received_serial evs : Forall serial_event evs → received evs = [].
Proof.
  unfold received. induction 1 as [|e evs [[v ->]|[v ->]] Hevs IH]; [done| |]; cbn; exact IH.
Qed.

Lemma transmitted_app l1 l2 : transmitted (l1 ++ l2) = transmitted l2 ++ transmitted l1.
Proof. unfold transmitted. by rewrite omap_app, rev_app_distr. Qed.

(** One interrupt: the counter, the console. *)
Record one_served (i : interrupt_source) s s' : Prop := {
  os_rest : s' = over platform_lens (set_plat_console (view k_console_lens s')
    (set_ticks (u32 (g_timer_ticks (k_platform s) + ticks_in [i])) (k_platform s))) s;
  os_memory : view k_memory_lens s' = view k_memory_lens s;
  os_log : ∃ evs, con_log (view k_console_lens s') =
      PortOut PIC1_COMMAND PIC_EOI :: evs ++ (PortIn 0x60 <$> option_list (key_of i)) ++ con_log (view k_console_lens s) ∧
    transmitted evs = interrupt_line (g_timer_ticks (k_platform s)) i ∧ Forall serial_event evs;
}.

Lemma tick_served s :
  is_u32 (g_timer_ticks (k_platform s)) →
  ∃ s', zoom platform_lens stage3_irq0_handler s = Ret tt s' ∧ one_served Tick s s'.
Proof.
  intros Ht. destruct (irq0_run (k_platform s) Ht) as (p & evs & E & Hp & Hm & Hl & Htr & Hev).
  exists (over platform_lens p s). split; [unfold zoom; cbn [view over platform_lens]; by rewrite E|]. split.
  - change (view k_console_lens (over platform_lens p s)) with (plat_console p).
    change (ticks_in [Tick]) with 1. by rewrite <- Hp.
  - exact Hm.
  - by exists evs.
Qed.

Lemma key_served s :
  is_u32 (g_timer_ticks (k_platform s)) →
  ∃ s', zoom platform_lens stage4_irq1_handler s = Ret tt s' ∧ one_served (Key (scancode_of s)) s s'.
Proof.
  intros Ht. destruct (irq1_run (k_platform s)) as (p & evs & E & Hp & Hm & Hl & Htr & Hev).
  exists (over platform_lens p s). split; [unfold zoom; cbn [view over platform_lens]; by rewrite E|]. split.
  - change (view k_console_lens (over platform_lens p s)) with (plat_console p).
    change (ticks_in [_]) with 0. rewrite Z.add_0_r, u32_id by done. rewrite Hp at 1. by destruct s as [[]].
  - exact Hm.
  - by exists evs.
Qed.
(** ** What stays true *)
Lemma one_served_pic command data i s s' p :
  one_served i s s' → COM1_PORT ≠ command → COM1_PORT ≠ data →
  pic_after command data (con_log (view k_console_lens s')) p =
    pic_after command data (PortOut PIC1_COMMAND PIC_EOI :: con_log (view k_console_lens s)) p.
Proof.
  intros [_ _ (evs & -> & _ & Hser)] Hc Hd. cbn [pic_after]. rewrite pic_after_serial by done.
  by destruct i.
Qed.

Lemma running_served es i s s' : running es s → one_served i s s' → running es s'.
Proof.
  intros [R1 R2 R3 R4 R5 R6 R7 R8 R9 R10] Hone. pose proof Hone as [Hr Hm _].
  assert (k_pmm s' = k_pmm s ∧ k_heap s' = k_heap s ∧ g_idt (k_platform s') = g_idt (k_platform s) ∧
    cpu_idtr (k_platform s') = cpu_idtr (k_platform s) ∧
    g_timer_ticks (k_platform s') = u32 (g_timer_ticks (k_platform s) + ticks_in [i])) as (Ep & Eh & Ei & Er & Et)
    by (rewrite Hr; by split_and!).
  split; rewrite ?Ep, ?Ei, ?Er, ?Et; try done.
  - unfold machine_of. by rewrite Hm, Ep, Eh.
  - intros va Hva. change (view k_paging_lens s') with (paging (view k_memory_lens s')). rewrite Hm. by apply R5.
  - intros p. destruct (R8 p) as [n E]. exists (S n). unfold master_after in *.
    rewrite (one_served_pic _ _ _ _ _ _ Hone) by done. cbn [pic_after]. by rewrite E.
  - intros p. destruct (R9 p) as [n E]. exists n. unfold slave_after in *.
    rewrite (one_served_pic _ _ _ _ _ _ Hone) by done. cbn [pic_after]. by rewrite E.
Qed.

Lemma master_served i s s' : one_served i s s' → pic_eois (master s') = S (pic_eois (master s)).
Proof.
  intros Hone. unfold master, master_after. by rewrite (one_served_pic _ _ _ _ _ _ Hone).
Qed.

Context (Hstubs : irq_stub_timer ≠ irq_stub_keyboard).

(** The timer and the keyboard, and no other line, can interrupt. *)
Lemma raised_lines es s line : running es s → 0 ≤ line < 8 → raised line s = (line <? 2).
Proof.
  intros Hrun Hl. unfold raised, master. destruct (run_master _ _ Hrun power_on) as [n ->]. cbn [pic_state pic_mask].
  assert (line ∈ [0; 1; 2; 3; 4; 5; 6; 7]) as H by (rewrite !elem_of_cons; lia).
  rewrite !elem_of_cons in H. by repeat destruct H as [->|H]; [..|apply not_elem_of_nil in H].
Qed.

Lemma enter_served es s line :
  running es s → 0 ≤ line < 2 → ∃ s', enter line s = Ret tt s' ∧ one_served (source line s) s s'.
Proof.
  intros Hrun Hl. unfold enter, master. rewrite bind_get.
  destruct (run_master _ _ Hrun power_on) as [n ->]. cbn [pic_vector_base].
  rewrite (run_idtr _ _ Hrun), (run_gates _ _ Hrun) by lia. pose proof (run_ticks _ _ Hrun) as Ht.
  assert (line = 0 ∨ line = 1) as Hline by lia.
  assert (assoc handlers (0x20 + line) = Some (if line =? 0 then irq_stub_timer else irq_stub_keyboard)) as ->
    by (by destruct Hline as [->| ->]).
  cbn [fmap option_fmap option_map idtr_base idtr_limit]. rewrite !Z.eqb_refl, (proj2 (Z.leb_le _ _)) by lia.
  cbn [andb]. unfold stub_code. destruct Hline as [->| ->]; cbn [Z.eqb source].
  - rewrite Z.eqb_refl. by apply tick_served.
  - rewrite (proj2 (Z.eqb_neq _ _)) by congruence. rewrite Z.eqb_refl. by apply key_served.
Qed.

(** One line. *)
Lemma interrupt_served es s line :
  running es s → 0 ≤ line < 8 →
  if line <? 2 then ∃ s', interrupt line s = Ret (Some (source line s)) s' ∧ one_served (source line s) s s'
  else interrupt line s = Ret None s.
Proof.
  intros Hrun Hl. unfold interrupt. rewrite bind_get, (raised_lines es s line Hrun Hl).
  destruct (Z.ltb_spec line 2); [|done].
  destruct (enter_served es s line Hrun ltac:(lia)) as (s' & E & Hs). exists s'. by mrun E.
Qed.

(** The lines that are not masked, and those of the timer. *)
Definition passed_lines (lines : list Z) : list Z := filter (λ line, line < 2) lines.
Definition timer_lines (lines : list Z) : list Z := filter (λ line, line = 0) lines.

(** The interrupt a line stands for. *)
Definition comes_from line (i : interrupt_source) : Prop :=
  if line =? 0 then i = Tick else ∃ scancode, is_u8 scancode ∧ i = Key scancode.

Lemma source_from line s : 0 ≤ line < 2 → comes_from line (source line s).
Proof.
  intros Hl. assert (line = 0 ∨ line = 1) as [->| ->] by lia; [done|].
  exists (scancode_of s). split; [apply u8_range|done].
Qed.

(** What has happened since [s0]. *)
Record served_since (es : list multiboot2_mmap_entry) (evs : list interrupt_source) s0 s : Prop := {
  ss_running : running es s;
  ss_memory : view k_memory_lens s = view k_memory_lens s0;
  ss_ticks : g_timer_ticks (k_platform s) = u32 (g_timer_ticks (k_platform s0) + ticks_in evs);
  ss_eois : pic_eois (master s) = (length evs + pic_eois (master s0))%nat;
  ss_log : ∃ log, con_log (view k_console_lens s) = log ++ con_log (view k_console_lens s0) ∧
    transmitted log = printed (g_timer_ticks (k_platform s0)) evs ∧ received log = omap key_of evs;
}.

Lemma served_none es s : running es s → served_since es [] s s.
Proof.
  intros Hrun. split; [done..| | |].
  - cbn. rewrite Z.add_0_r, u32_id; [done|apply (run_ticks _ _ Hrun)].
  - done.
  - by exists [].
Qed.

Lemma served_first es i evs s0 s1 s :
  one_served i s0 s1 → served_since es evs s1 s → served_since es (i :: evs) s0 s.
Proof.
  intros Hone [Hrun Hm Ht He (log & El & Etr & Erec)]. pose proof Hone as [Hr1 Hm1 (e & El1 & Etr1 & Hser)].
  assert (g_timer_ticks (k_platform s1) = u32 (g_timer_ticks (k_platform s0) + ticks_in [i])) as Ht1 by (by rewrite Hr1).
  split; [done|by rewrite Hm| | |].
  - rewrite Ht, Ht1. destruct i; cbn [ticks_in]; unfold u32; lia.
  - rewrite He, (master_served _ _ _ Hone). cbn. lia.
  - eexists (log ++ PortOut PIC1_COMMAND PIC_EOI :: e ++ (PortIn 0x60 <$> option_list (key_of i))).
    split; [rewrite El, El1, <- app_assoc; cbn [app]; by rewrite <- app_assoc|]. rewrite Ht1 in Etr. split.
    + rewrite transmitted_app, Etr. cbn [printed]. f_equal. rewrite <- Etr1.
      change (PortOut PIC1_COMMAND PIC_EOI :: e ++ ?l) with ([PortOut PIC1_COMMAND PIC_EOI] ++ e ++ l).
      rewrite !transmitted_app. by destruct i; rewrite ?app_nil_r.
    + rewrite received_app, Erec.
      change (PortOut PIC1_COMMAND PIC_EOI :: e ++ ?l) with ([PortOut PIC1_COMMAND PIC_EOI] ++ e ++ l).
      rewrite !received_app, (received_serial e Hser). by destruct i.
Qed.

Lemma interrupts_run es s lines :
  running es s → Forall (λ line, 0 ≤ line < 8) lines →
  ∃ evs s', interrupts lines s = Ret evs s' ∧
    Forall2 comes_from (passed_lines lines) evs ∧ served_since es evs s s'.
Proof.
  intros Hrun Hl. revert s Hrun. induction Hl as [|line lines Hl Hls IH]; intros s Hrun.
  { exists [], s. split; [done|]. split; [constructor|by apply served_none]. }
  cbn [interrupts]. pose proof (interrupt_served es s line Hrun Hl) as H. unfold passed_lines. rewrite filter_cons.
  destruct (Z.ltb_spec line 2) as [H2|H2].
  - destruct H as (s1 & E & Hone). mrun E.
    destruct (IH s1 (running_served _ _ _ _ Hrun Hone)) as (evs & s' & E' & Hfrom & Hs). mrun E'.
    exists (source line s :: evs), s'. split; [done|]. rewrite decide_True by done.
    split; [constructor; [apply source_from; lia|done]|by eapply served_first].
  - mrun H. destruct (IH s Hrun) as (evs & s' & E' & Hfrom & Hs). mrun E'.
    exists evs, s'. split; [done|]. by rewrite decide_False by lia.
Qed.

(** C7. Whatever lines the controller is asked to raise after the boot, and in
    whatever order, the kernel never stops: the timer's and the keyboard's
    interrupts, and no others, are each dispatched to their handler, which
    returns, and acknowledged once; the counter has counted the timer's, modulo
    2^32; the keyboard was read once for each of its own; the serial line got
    one line for every key and every hundredth tick.  Memory, allocator, heap,
    address map and interrupt table are as the boot left them. *)
Theorem interrupts_are_served es s lines :
  running es s → Forall (λ line, 0 ≤ line < 8) lines →
  ∃ evs s', interrupts lines s = Ret evs s' ∧
    Forall2 comes_from (passed_lines lines) evs ∧
    running es s' ∧ view k_memory_lens s' = view k_memory_lens s ∧
    g_timer_ticks (k_platform s') =
      u32 (g_timer_ticks (k_platform s) + Z.of_nat (length (timer_lines lines))) ∧
    pic_eois (master s') = (length (passed_lines lines) + pic_eois (master s))%nat ∧
    ∃ log, con_log (view k_console_lens s') = log ++ con_log (view k_console_lens s) ∧
      transmitted log = printed (g_timer_ticks (k_platform s)) evs ∧ received log = omap key_of evs.
Proof.
  intros Hrun Hl. destruct (interrupts_run es s lines Hrun Hl) as (evs & s' & E & Hfrom & [S1 S2 S3 S4 S5]).
  exists evs, s'. split_and!; [done..| | |done].
  - rewrite S3. do 2 f_equal. clear -Hl Hfrom. revert evs Hfrom.
    induction Hl as [|line lines Hl Hls IH]; intros evs Hfrom; [by inversion Hfrom|].
    unfold passed_lines, timer_lines in *. rewrite !filter_cons in *. destruct (decide (line < 2)) as [H2|H2].
    + inversion_clear Hfrom as [|? i ? evs' Hi Hevs]. unfold comes_from in Hi.
      destruct (Z.eqb_spec line 0) as [->|Hne].
      * subst i. rewrite decide_True by done. cbn. rewrite IH by done. lia.
      * destruct Hi as (c & _ & ->). rewrite decide_False by done. cbn. by rewrite IH.
    + rewrite (decide_False (P := line = 0)) by lia. by apply IH.
  - by rewrite S4, <- (Forall2_length _ _ _ Hfrom).
Qed.
End running.

Section witnesses.
#[local] Existing Instance qemu_layout.
#[local] Existing Instance qemu_layout_ok.
#[local] Existing Instance qemu_image.
#[local] Existing Instance idle_ports.
#[local] Existing Instance idle_ready.
#[local] Existing Instance demo_stubs.
#[local] Existing Instance demo_stubs_ok.
#[local] Existing Instance demo_frame.
#[local] Existing Instance demo_flags.
#[local] Existing Instance demo_breakpoint.

Lemma demo_booted :
  ∃ s, stage0_main 100 MULTIBOOT2_BOOTLOADER_MAGIC 0x10000 (boot_kernel demo_info) = Ret tt s ∧
    booted (tags_entries (boot_memory demo_info) [0x10008]) s.
Proof.
  apply (boot_completes_run (UR := idle_ready) (ISO := demo_stubs_ok) (SFO := demo_frame_ok) (BF := demo_flags)
    low_memory 100 0x10000 [0x10008] 0x10060 0x11 0 ∅ (boot_kernel demo_info) eq_refl eq_refl demo_handed_over);
    [by vm_compute|reflexivity..|exact demo_memory|by constructor|].
  unfold in_kernel_image. simpl. lia.
Qed.

(** Two ticks, a key, and a line that is masked. *)
Lemma interrupts_are_served_witness :
  ∃ s scancode s', stage0_main 100 MULTIBOOT2_BOOTLOADER_MAGIC 0x10000 (boot_kernel demo_info) = Ret tt s ∧
    interrupts demo_pic [0; 1; 5; 0] s = Ret [Tick; Key scancode; Tick] s' ∧ pmm_wf (k_pmm s') ∧
    g_timer_ticks (k_platform s') = 2.
Proof.
  destruct demo_booted as (s & E & [Hrun H0 _ _]).
  assert (irq_stub_timer ≠ irq_stub_keyboard) as Hne by done.
  assert (Forall (λ line, 0 ≤ line < 8) [0; 1; 5; 0]) as Hl
    by (repeat (apply Forall_cons; split; [lia|]); apply Forall_nil; done).
  destruct (interrupts_are_served (UR := idle_ready) demo_pic Hne _ s _ Hrun Hl)
    as (evs & s' & E' & Hfrom & Hrun' & _ & Ht & _).
  change (passed_lines [0; 1; 5; 0]) with [0; 1; 0] in Hfrom.
  apply Forall2_cons_inv_l in Hfrom as (i1 & evs1 & -> & Hfrom & ->).
  apply Forall2_cons_inv_l in Hfrom as (i2 & evs2 & (c & _ & ->) & Hfrom & ->).
  apply Forall2_cons_inv_l in Hfrom as (i3 & evs3 & -> & Hfrom & ->).
  apply Forall2_nil_inv_l in Hfrom as ->.
  exists s, c, s'. split; [exact E|]. split; [exact E'|]. split; [apply (run_allocator _ _ Hrun')|].
  by rewrite Ht, H0.
Defined.
End witnesses.
