(* ===== verification/SmallMachine.v ===== *)
(** * Boots on too little memory

    With fewer than eight page frames below 4 GiB the boot stops at the check
    that needs the first page the heap cannot have: Stage 5D takes the first
    four frames, and the heap uses no frame at or above 4 GiB. *)
From Stdlib Require Import Ascii Sorted.
From S2P Require Import Prelude KernelMonad VmmLayout Paging Vmm Memory MemoryMap FrameAllocator Pmm.
From S2P Require Import Kheap KheapSpec KheapSafety HeapModel Console Interrupts Kernel.
From S2P Require Import Multiboot MultibootParse BootFrames SelfChecks PagingChecks SelfChecksHeap.
From S2P Require Import PrimitiveChecks HeapChecks SelfChecksObjects ObjectChecks HeapShortage HeapStages.
From S2P Require Import PmmChecks Boot EarlyBoot BootComplete.
#[local] Open Scope Z_scope.

(** The entries offer exactly [n] frames below 4 GiB. *)
Definition low_memory_frames `{KernelImage} (es : list multiboot2_mmap_entry) (n : nat) : Prop :=
  ∃ fs, NoDup fs ∧ length fs = n ∧ ∀ k, k ∈ fs ↔ k < 0x100000 ∧ ∃ e, e ∈ es ∧ entry_offers e k.

Lemma high_elements (l fs : list Z) b i f :
  StronglySorted Z.lt l → (∀ k, k ∈ l → k < b → k ∈ fs) → l !! i = Some f → (length fs ≤ i)%nat → b ≤ f.
Proof.
  intros Hl Hfs Hf Hi. destruct (Z.le_gt_cases b f) as [|Hlt]; [done|exfalso].
  assert (∀ k, k ∈ take (S i) l → k ∈ fs) as Hin.
  { intros k Hk. apply list_elem_of_lookup in Hk as [j Hj]. apply lookup_take_Some in Hj as [Hj Hji].
    apply Hfs; [by eapply list_elem_of_lookup_2|]. destruct (decide (i = j)) as [->|Hne]; [rewrite Hj in Hf; injection Hf; lia|].
    assert (k < f); [|lia]. assert (j < i)%nat as Hlt' by lia. clear -Hl Hf Hj Hlt'. revert i j Hf Hj Hlt'.
    induction Hl as [|x l Hl IH Hx]; intros [|i] [|j] Hf Hj Hlt; try done; try lia.
    - injection Hj as ->. apply (list_elem_of_lookup_2 l i) in Hf. rewrite Forall_forall in Hx. by apply Hx.
    - eapply (IH i j); [done|done|lia]. }
  assert (NoDup l) as Hnd.
  { clear -Hl. induction Hl as [|x l Hl IH Hx]; constructor; [|done]. intros Hin. rewrite Forall_forall in Hx.
    specialize (Hx _ Hin). lia. }
  assert (length (take (S i) l) ≤ length fs)%nat as Hlen.
  { apply submseteq_length, NoDup_submseteq; [|exact Hin]. eapply sublist_NoDup; [exact Hnd|apply sublist_take]. }
  apply lookup_lt_Some in Hf. rewrite length_take in Hlen. lia.
Qed.

Section small.
Context `{KL : KernelLayout, KLO : !KernelLayoutOk, KI : KernelImage, PO : Ports, IS : InterruptStubs}.
Context `{UR : !UartReady, SF : StackFrame, SFO : !StackFrameOk, BF : BuildFlags, BP : BreakpointFrame}.
Implicit Types s : kernel.

(** No frame below 4 GiB is left. *)
Definition drained (l : list Z) (b : pmm) : Prop :=
  pmm_wf b ∧ ∃ m, abstract b = after_allocations l m ∧ ∀ i f, l !! i = Some f → (m ≤ i)%nat → 0x100000 ≤ f.

Lemma drained_runs_dry l : runs_dry (drained l).
Proof.
  intros b (Hwf & m & Ha & Hhigh). pose proof (next_allocation l m b Hwf Ha) as Hnext.
  destruct (l !! m) as [f|] eqn:Hf; destruct Hnext as (b' & E & Hwf' & _ & Ha').
  - split.
    + intros out a' E'. assert (alloc_frame (Some 0) b = Ret (true, Some (f * 0x1000)) b') as E2 by exact E.
      rewrite E2 in E'. injection E' as <- <-. specialize (Hhigh m f Hf ltac:(lia)). zlia.
    + intros r a' E'. assert (alloc_frame (Some 0) b = Ret (true, Some (f * 0x1000)) b') as E2 by exact E.
      rewrite E2 in E'. injection E' as <- <-. split; [done|]. exists (S m). split; [done|].
      intros i g Hg Hi. apply (Hhigh i g Hg). lia.
  - assert (alloc_frame (Some 0) b = Ret (false, Some 0) b') as E2 by exact E.
    split; intros r a' E'; rewrite E2 in E'; [done|]. injection E' as <- <-. split; [done|]. by exists m.
Qed.

Lemma few_pages es n p :
  pmm_wf p → offered es p → low_memory_frames es n → (n < 8)%nat →
  abstract p = after_allocations (table p ≫= frames_of) 4 →
  ∃ b, granted (n - 4) p b ∧ drained (table p ≫= frames_of) b.
Proof.
  intros Hwf Hoff (fs & Hnd & Hlen & Hfs) Hn Ha. set (l := table p ≫= frames_of) in *.
  pose proof (all_frames_sorted _ (fr_sorted _ (wf_frames _ Hwf))) as Hsort. fold (table p) l in Hsort.
  assert (∀ k, k ∈ l ↔ ∃ e, e ∈ es ∧ entry_offers e k) as Hl.
  { intros k. rewrite <- (Hoff k). unfold l, in_ranges. rewrite list_elem_of_bind.
    split; intros (r & H1 & H2); exists r; by rewrite elem_of_frames_of in *. }
  destruct (after_allocations_granted l 4 (n - 4) p Hwf Ha) as (b & Hb & Hwfb & _ & Hab).
  - intros i Hi. destruct (low_elements l fs 0x100000 (4 + i) Hsort Hnd) as (f & Hf & Hlow); [|lia|].
    + intros k Hk. apply Hfs in Hk as [Hlow He]. split; [by apply Hl|done].
    + exists f. split; [done|]. zlia.
  - exists b. split; [done|]. split; [done|]. exists (4 + (n - 4))%nat. split; [done|].
    intros i f Hf Hi. eapply (high_elements l fs); [exact Hsort| |exact Hf|lia].
    intros k Hk Hlow. apply Hfs. split; [done|by apply Hl].
Qed.

(** C8. A build without the forced panic that a Multiboot2 loader starts on a
    machine with fewer than eight page frames to offer below 4 GiB does not
    fault or run on: it stops in a panic that names, on the screen, the stage
    whose page was missing, 8C with up to four frames, 8D with five, 10D with
    six and 10E with seven. *)
Theorem small_machine_stops D fuel info l last c0 c3 t s n :
  let m := view k_memory_lens s in
  let es := tags_entries m l in
  STAGE1_FORCE_PANIC = false → handed_over D info l last c0 c3 t s → vword m info < 8 * Z.of_nat fuel →
  heap_is_initialized (k_heap s) = 0 → low_memory_frames es n → (n < 8)%nat →
  image_ok → (∀ a, 0 ≤ a < 0x100000 → in_kernel_image a = false) →
  let '(reason, detail) := shortage (n - 4) in
  ∃ s', stage0_main fuel MULTIBOOT2_BOOTLOADER_MAGIC info s = Panic reason detail s' ∧ stopped reason detail s'.
Proof.
  intros m es H1 Hh Hfuel Hini Hlow Hn Himg Hfree. destruct (shortage (n - 4)) as [reason detail] eqn:Esh.
  destruct (early_boot_run D fuel info l last c0 c3 t s H1 Hh Hfuel Himg Hfree)
    as (s3 & p & -> & Hwf & Ha & Hoff & Hp & Hvwf & Ht & Eh & _).
  assert (identity_mapped s3) as Hid.
  { split; [|exact Hfree]. intros va Hva. rewrite Hp, Ht by lia. by rewrite (proj2 (Z.ltb_lt _ _)) by lia. }
  assert (stops boot_from_heap reason detail s3) as Hstop.
  { change boot_from_heap with (heap_checks
      ((if STAGE6D_FORCE_REUSE_TEST then stage6d_run_reuse_self_test else mret tt) ;; boot_ending)).
    pose proof (heap_checks_short (drained (table (k_pmm s3) ≫= frames_of)) (n - 4)) as Hs. rewrite Esh in Hs.
    apply Hs; [apply drained_runs_dry|lia|exact Hid|].
    split; [by rewrite <- Eh in Hini|by rewrite <- Hp in Hvwf|split; [done|by eapply offered_clear]| |by eapply few_pages].
    intros va Hva. change (paging (mem (machine_of s3))) with (view k_paging_lens s3). rewrite Hp, Ht
      by (unfold HEAP_START, HEAP_END in Hva; lia).
    by rewrite (proj2 (Z.ltb_ge _ _)) by (unfold HEAP_START in Hva; lia). }
  unfold stops, ends in Hstop. destruct (boot_from_heap s3) as [|r d s'| | |]; try done.
  destruct Hstop as (-> & -> & Hs). by exists s'.
Qed.
End small.

Section witnesses.
#[local] Existing Instance qemu_layout.
#[local] Existing Instance qemu_layout_ok.
#[local] Existing Instance qemu_image.
#[local] Existing Instance idle_ports.
#[local] Existing Instance idle_ready.
#[local] Existing Instance demo_stubs.
#[local] Existing Instance demo_frame.
#[local] Existing Instance demo_flags.
#[local] Existing Instance demo_breakpoint.

(** Six frames above the kernel image. *)
Definition small_info : list Z :=
  le32 80 ++ le32 0 ++
  le32 6 ++ le32 64 ++ le32 24 ++ le32 0 ++ le_entry 0 0x9FC00 1 ++ le_entry 0x100000 0x1A000 1 ++
  le32 0 ++ le32 8.

Lemma small_entries :
  tags_entries (boot_memory small_info) [0x10008] = [mk_mmap_entry 0 0x9FC00 1; mk_mmap_entry 0x100000 0x1A000 1].
Proof. by vm_compute. Qed.

Lemma small_accepted : info_accepted (boot_memory small_info) 0x10000 [0x10008] 0x10048.
Proof.
  split; [by vm_compute| |apply Exists_cons_hd; by vm_compute|repeat constructor; by vm_compute].
  apply tags_more; [by vm_compute|].
  replace (0x10008 + MultibootParse.round_up_8 _) with 0x10048 by by vm_compute.
  replace TagStop with (check_tag (boot_memory small_info) 0x10050 0x10048) by by vm_compute.
  apply tags_last. by vm_compute.
Qed.

Lemma small_handed_over :
  handed_over low_memory 0x10000 [0x10008] 0x10048 0x11 0 ∅ (boot_kernel small_info).
Proof.
  assert (vword (boot_memory small_info) 0x10000 = 80) as E by by vm_compute.
  split; [reflexivity|lia|apply boot_readable; by rewrite E|exact small_accepted| |lia| | |reflexivity..].
  - intros x. change (view k_memory_lens (boot_kernel small_info)) with (boot_memory small_info).
    rewrite E. unfold screen, within, VGA_TEXT_BUFFER. lia.
  - change (view k_memory_lens (boot_kernel small_info)) with (boot_memory small_info).
    rewrite small_entries. cbn. lia.
  - change (view k_memory_lens (boot_kernel small_info)) with (boot_memory small_info).
    rewrite small_entries. repeat constructor; unfold entry_before; cbn; lia.
Qed.

Lemma small_frames : low_memory_frames (tags_entries (boot_memory small_info) [0x10008]) 6.
Proof.
  rewrite small_entries. exists (seqZ 0x114 6). split; [apply NoDup_seqZ|]. split; [reflexivity|].
  intros k. rewrite elem_of_seqZ. unfold entry_offers, is_available, STAGE5B_POLICY_MIN_ADDR. split.
  - intros Hk. split; [lia|]. exists (mk_mmap_entry 0x100000 0x1A000 1). split; [by right; left|]. simpl. zlia.
  - intros (_ & e & He & H). rewrite !elem_of_cons in He.
    destruct He as [->|[->|[]%not_elem_of_nil]]; simpl in H; zlia.
Qed.

Lemma small_machine_stops_witness :
  ∃ s', stage0_main 100 MULTIBOOT2_BOOTLOADER_MAGIC 0x10000 (boot_kernel small_info) =
      Panic "Stage 10D allocator hardening failed" 0xA00D0 s' ∧
    screen_cell (view k_memory_lens s') 1 8 = vga_cell "D"%char.
Proof.
  destruct (small_machine_stops (UR := idle_ready) (SFO := demo_frame_ok) (BF := demo_flags) low_memory 100 0x10000
    [0x10008] 0x10048 0x11 0 ∅ (boot_kernel small_info) 6 eq_refl small_handed_over) as (s' & E & Hs).
  - by vm_compute.
  - reflexivity.
  - exact small_frames.
  - lia.
  - by constructor.
  - unfold in_kernel_image. simpl. lia.
  - exists s'. split; [exact E|]. rewrite Hs by (unfold on_screen, VGA_HEIGHT, VGA_WIDTH; lia). reflexivity.
Defined.
End witnesses.
